(* ===== verification/_CoqProject ===== *)
-Q . S2P
Prelude.v
Memory.v
Dll.v
CString.v
Strings.v
Pmm.v
FrameAlloc.v
Vmm.v
VmmFrames.v
Heap.v
HeapPages.v
HeapLists.v
HeapInv.v
HeapSpec.v
Malloc.v
HeapTrace.v
HeapApi.v
Spinlock.v
Sched.v
SchedQueues.v
SchedYield.v
SchedCreate.v
SchedInit.v
SchedSpec.v
SchedTrace.v
SchedBoot.v
SchedHeap.v
SchedThreads.v
SchedAttr.v
Errno.v
SchedDemo.v
Stdio.v
StdioSpec.v
StdioNumbers.v
StdioPrintf.v
StdioRead.v
StdioDemo.v
VmmMessage.v
HeapDebug.v
Mmio.v
Bytes.v
HeapShare.v
Asm.v
SwitchAsm.v
Entry.v
Net.v
NetChecksum.v
NetFrames.v
NetSend.v
NetTrace.v
NetAnswer.v
NetHandle.v
NetPoll.v
NetIrq.v
NetInit.v
NetService.v
NetFootprint.v
Gic.v
Clock.v
Exceptions.v
NetDemo.v
Boot.v
Main.v
MainEnd.v
System.v
MainDemo.v
