(* ===== verification/Prelude.v ===== *)
(** * UniKernel: verification development

    UniKernel is a small AArch64 kernel in C: a physical frame allocator, page
    tables, a slab heap, string routines, threads with a priority scheduler on
    two cores, a console, a virtio network card that answers ARP and ping, an
    interrupt controller, a clock and exception handlers, started by [main].
    This library models that code as executable functions on an explicit state
    and proves what each part promises, and that they fit together.

    ** How the code is modelled

    - Unsigned integers are [Z] in range, with the wrap of their type ([u8],
      [u16], [u32], [u64]) written out wherever an operation may leave it;
      [i32] and [i64] are the signed readings. This file has the wraps, loops
      with and without an exit ([for_], [for_exit], [loop] with fuel) with
      their induction rules, and the tactics [wrap] and [zdiv].
    - Memory (Memory.v) is one flat map from addresses to bytes with
      little-endian loads and stores. The kernel runs on an identity mapping, so
      physical addresses, pointers and keys of the map are the same numbers. The
      frame stack and counts, page tables, slabs, strings, rings and packets are
      all bytes of this memory; [agree P m m'] says that two memories have the
      same bytes where [P] holds, and is how every frame condition is stated.
    - Errors are values: [option] for an undefined step or exhausted fuel in the
      page tables and the network, a sum with a [trap] in the scheduler, an
      outcome in the console. A mapping call that runs out of frames is [Stuck]:
      it prints with [%llx], which [printf] never returns from.
    - Assembly (Asm.v) is a list of instructions on a register file and memory.
      Code that saves registers in a frame and loads them again is run
      symbolically, by a function proved sound once.
    - Device registers (Mmio.v) are events on a bus, in order; what a read gives
      is a parameter [device] of the accesses before it. The UART is a parameter
      too: its flag register and the characters it will receive.

    ** The parts

    - src/pmm.c: Pmm.v. State [pmm_state], the file's statics; one definition
      per function. [frames] is the abstract stack of free frames with counts.
    - src/vmm.c: Vmm.v, against the type class [FrameAllocator] of FrameAlloc.v,
      which [Pmm] implements. [walk] and [translate] are the architecture's
      table walk. VmmFrames.v bounds the frames the mapping functions take,
      VmmMessage.v has the message that never ends.
    - src/heap.c: Heap.v has the code; HeapPages.v, HeapLists.v and HeapInv.v
      the page table, the slab lists and the invariant; HeapSpec.v and Malloc.v
      the operations; HeapTrace.v the abstract heap and the refinement;
      HeapApi.v the class [HeapApi], what the scheduler relies on, with the
      number of pages that are certainly free and the footprint of the heap;
      HeapShare.v the heap with some blocks held by another client;
      HeapDebug.v [heap_debug], over the console.
    - src/string.c, src/stdlib.c: CString.v (memory routines), Strings.v.
    - src/pthread.c, src/switch.S: Spinlock.v, with every atomic operation one
      step; Sched.v the tasks, queues, threads and attributes; SchedQueues.v the
      queues as lists through the linked lists of Dll.v, which the heap's slab
      lists share; SchedYield.v, SchedCreate.v, SchedInit.v, SchedThreads.v and
      SchedAttr.v the operations; SchedSpec.v and SchedTrace.v the abstract
      scheduler and the refinement; SchedBoot.v that nothing fails on a heap
      with ten free pages; SchedHeap.v that the instance of the heap does not
      matter; SwitchAsm.v the instructions of the context switch.
    - src/stdio.c: Stdio.v the code over the console; StdioSpec.v,
      StdioNumbers.v, StdioPrintf.v and StdioRead.v what it prints and reads.
    - src/net.c: Net.v the code; Bytes.v, NetChecksum.v and NetFrames.v the
      byte level; NetSend.v and NetTrace.v the transmit queue; NetAnswer.v and
      NetHandle.v the replies; NetPoll.v and NetIrq.v reception and interrupts;
      NetInit.v set-up; NetService.v the driver as a service; NetFootprint.v
      what it leaves alone.
    - src/gic.c, src/pl031.c, src/exceptions.c: Gic.v, Clock.v, Exceptions.v.
    - src/boot.S: Entry.v the reset code, the frame around an exception's handler
      and the entry of the second core.
    - src/main.c: Boot.v from [pmm_init] to [heap_init]; Main.v [main] up to
      [net_init] and the entry of the second core; MainEnd.v its last two calls;
      System.v the kernel at work after [main] has set it up.
    - include/errno.h: Errno.v.
    - SchedDemo.v, StdioDemo.v, NetDemo.v and MainDemo.v apply the theorems at
      concrete inputs; the other files have such applications at their end.

    ** How they interact

    [Vmm] takes frames through [FrameAllocator], [Sched] takes blocks through
    [HeapApi], [Net] calls [Pmm] and the memory routines directly, [Exceptions]
    calls [Gic] and the interrupt handler of [Net]. [Main] puts all of them on
    one memory. That the parts do not disturb each other is shown there with
    instances of the two classes that say more than the plain ones: an allocator
    that stops above the heap's window (so the page tables lie above it; by
    VmmFrames.v it takes the same frames as [Pmm]), and a heap that remembers
    the bytes outside it. [System] runs the scheduler, the heap of the threads
    and the driver on that memory in any order: the heap's blocks are divided
    between the scheduler and the threads (HeapShare.v), the driver stays in
    its frames (NetFootprint.v), and each part's theorem is used with the bytes
    of the others held fixed. [Entry] and [SwitchAsm] join the assembly to this:
    the record [main] stores is what the second core's code loads, and the
    instructions of the switch are the scheduler's [cpu_switch_to].

    ** What the theorems show

    - Frames: any sequence of calls of a correct client refines the abstract
      stack; after booting each frame above the arrays is handed out once; a
      marked region is never handed out.
    - Page tables: mapping a page, a block or a region changes exactly the
      translations asked for, or is stuck for want of frames, and then how few
      were free; [init_vmm] leaves exactly the identity map, with the attributes
      of every page (access flag and shareability among them), the memory types
      and the translation control, as long as 2565 frames and one for each 2 MiB
      of RAM and kernel are free.
    - Heap: any run of a client that keeps to the protocol refines the abstract
      heap; allocation is first fit and fails only for want of a run; nothing
      leaks; [free] ignores what is no block; [heap_debug] reports exactly the
      caches in use.
    - Strings: functional correctness of copying, tokens and decimal numbers.
    - Threads: the scheduler refines the abstract one under any sequence of
      calls on the cores; equals take turns; creation, exit and join on every
      branch; mutual exclusion and serialisation of the spinlock for every
      interleaving; attribute objects stay well formed; the instructions of the switch
      save and load every callee-saved register.
    - Console: [printf] prints the text of its format, numbers are read back as
      printed, and where the fixed buffers overflow. The least number of either
      width has no negation in C and is left out; a negative number in
      hexadecimal prints as the one character the code sends; [%l] before an
      unknown letter never returns.
    - Network: checksums verify, and tell any change of a word but that between
      the two zeros; a received frame gets the reply the protocols ask for or
      none; the transmit queue is first in, first out; after [net_init] the
      driver serves any sequence of arrivals, completions, interrupts and
      requests. These theorems rely on what net.c does not check: that the
      device completes transmissions in order, that the transmit ring has room
      for the replies, and that an echo request to this host has a header of
      five words and a length field between 24 and 4072 ([trusted]). The reply
      takes the bytes that field covers, received or left in the buffer.
    - Interrupts and clock: one interrupt is acknowledged, served and ended, and
      the interrupted code gets every register back; the clock is exact and
      monotonic.
    - Start-up: [main] reaches the end of [net_init] with all of the above in
      force together; the second core starts on the stack and the tables it was
      given and joins. From there on every sequence of yields and creations of
      threads, calls of the heap, packets, requests and interrupts that keeps to
      the protocols runs as three abstract machines side by side. The main task, the only one
      that can run, then exits and is read after it has been freed, whatever
      the second core has done in between.
    - Defects are theorems too where they are reachable: a frame freed twice, a
      page mapped inside a block, misaligned blocks, a thread that exits while
      it is joined or while it is current, a full transmit ring, a packet longer
      than its frame, a message that never ends, a line longer than the buffer,
      and the heap's window, which the frame allocator is never
      told about.

    ** Fuel and bounds

    Fuel is an argument and the theorems say how much is enough: [region_fuel]
    is one round per page of the region and two more; string loops need more
    than the length of the string; [net_poll_rx] more than the number of packets
    reported, the console loops a bound that the number of digits or the UART's
    patience gives. RAM is at most 2^38 bytes where the page tables are
    concerned and 2^43 for the frame allocator; the heap has fewer than 2^16
    pages; queues of the card have at most 1024 entries. [main] is shown for the
    2 GiB it is written for and an image that ends below 0x4f000000, which keeps
    the arrays of the frame allocator below the heap's window.

    ** Not modelled

    - Barriers, cache and TLB maintenance as effects (the lines that
      [dcache_clean_poc] cleans are modelled), and weak memory: the locks are
      sequentially consistent.
    - The locks around the bodies of heap, console and scheduler functions: a
      body is one atomic step, which the theorem on the spinlock justifies.
      Interrupts do not arrive inside a function. In System.v interrupts and
      requests are taken while the first core runs the main task on the image's
      stack: the stacks of other threads are blocks of the heap, whose window the
      frame allocator may hand out. Exit and join have theorems of their own.
    - Messages printed by the kernel's own code, except the report of
      [heap_debug] and the one of the page tables that does not return; what [dump_stack] and the fault handlers report is modelled,
      its printing is not.
    - The hypervisor: the call that starts the second core is the registers it
      passes. Of boot.S the Linux header and the vector table, which only
      branches to the entries.
    - src/errno.c, which is empty, the headers with nothing but declarations,
      the standard types (their widths are written out), the unit tests and the
      build files. *)

From Stdlib Require Export ZArith Lia.
From stdpp Require Export base tactics list gmap numbers.
Open Scope Z_scope.

(** ** Fixed-width integers

    A w-bit unsigned C integer is the [Z] in [0, 2^w); every C operation that
    may leave the range is followed by the wrap of its type. *)

Definition u8 (x : Z) : Z := x mod 2 ^ 8.
Definition u16 (x : Z) : Z := x mod 2 ^ 16.
Definition u32 (x : Z) : Z := x mod 2 ^ 32.
Definition u64 (x : Z) : Z := x mod 2 ^ 64.

(** The signed reading of a w-bit pattern ([int] and [long]). *)
Definition i32 (x : Z) : Z := (x + 2 ^ 31) mod 2 ^ 32 - 2 ^ 31.
Definition i64 (x : Z) : Z := (x + 2 ^ 63) mod 2 ^ 64 - 2 ^ 63.

(** [zdiv] decides linear goals that mention division and remainder by
    constants; [wrap] additionally unfolds the wraps above. *)
Ltac zdiv := Z.to_euclidean_division_equations; lia.
Ltac wrap := unfold u8, u16, u32, u64, i32, i64 in *; zdiv.

Lemma u8_id x : 0 <= x < 2 ^ 8 -> u8 x = x.
Proof. apply Z.mod_small. Qed.
Lemma u16_id x : 0 <= x < 2 ^ 16 -> u16 x = x.
Proof. apply Z.mod_small. Qed.
Lemma u32_id x : 0 <= x < 2 ^ 32 -> u32 x = x.
Proof. apply Z.mod_small. Qed.
Lemma u64_id x : 0 <= x < 2 ^ 64 -> u64 x = x.
Proof. apply Z.mod_small. Qed.
Lemma u32_range x : 0 <= u32 x < 2 ^ 32.
Proof. apply Z.mod_pos_bound; lia. Qed.
Lemma u64_range x : 0 <= u64 x < 2 ^ 64.
Proof. apply Z.mod_pos_bound; lia. Qed.

(** Ranges of the operations, for side conditions: [auto with bounds]. *)
Create HintDb bounds.
#[export] Hint Resolve u32_range u64_range : bounds.

(** [wrap_id] removes every wrap whose argument [lia] proves in range. *)
Ltac wrap_id :=
  repeat match goal with
  | |- context [u64 ?x] => rewrite (u64_id x) by lia
  | |- context [u32 ?x] => rewrite (u32_id x) by lia
  | |- context [u16 ?x] => rewrite (u16_id x) by lia
  | |- context [u8 ?x] => rewrite (u8_id x) by lia
  end.
Tactic Notation "wrap_id" "in" hyp(H) :=
  repeat match type of H with
  | context [u64 ?x] => rewrite (u64_id x) in H by lia
  | context [u32 ?x] => rewrite (u32_id x) in H by lia
  | context [u16 ?x] => rewrite (u16_id x) in H by lia
  | context [u8 ?x] => rewrite (u8_id x) in H by lia
  end.

(** Masking with the complement of [2^k - 1] rounds down. *)
Lemma land_lnot_ones x k : 0 <= k -> Z.land x (Z.lnot (2 ^ k - 1)) = x - x mod 2 ^ k.
Proof.
  intros Hk. rewrite <- Z.ldiff_land.
  replace (2 ^ k - 1) with (Z.ones k) by (rewrite Z.ones_equiv; lia).
  rewrite Z.ldiff_ones_r, Z.shiftl_mul_pow2, Z.shiftr_div_pow2 by lia.
  pose proof (Z.div_mod x (2 ^ k)). lia.
Qed.

Lemma land_ones' x k : 0 <= k -> Z.land x (2 ^ k - 1) = x mod 2 ^ k.
Proof. intros Hk. rewrite <- Z.land_ones by done. f_equal. rewrite Z.ones_equiv; lia. Qed.

(** ** Bits *)

Lemma lor_range a b n : 0 <= n -> 0 <= a < 2 ^ n -> 0 <= b < 2 ^ n -> 0 <= Z.lor a b < 2 ^ n.
Proof.
  intros Hn Ha Hb. split; [apply Z.lor_nonneg; lia|].
  destruct (decide (Z.lor a b = 0)) as [->|Hne]; [lia|].
  assert (0 <= Z.lor a b) by (apply Z.lor_nonneg; lia).
  apply Z.log2_lt_pow2; [lia|]. rewrite Z.log2_lor by lia.
  apply Z.max_lub_lt.
  - destruct (decide (a = 0)) as [->|]; [|apply Z.log2_lt_pow2; lia].
    destruct (decide (n = 0)) as [->|]; [|simpl; lia].
    assert (b = 0) as -> by lia. done.
  - destruct (decide (b = 0)) as [->|]; [|apply Z.log2_lt_pow2; lia].
    destruct (decide (n = 0)) as [->|]; [|simpl; lia].
    assert (a = 0) as -> by lia. done.
Qed.

Lemma land_range a b n : 0 <= n -> 0 <= a < 2 ^ n -> 0 <= Z.land a b < 2 ^ n.
Proof.
  intros Hn Ha. assert (E : Z.land a b = Z.land (Z.land a b) (Z.ones n)).
  { apply Z.bits_inj'. intros i Hi. rewrite !Z.land_spec. destruct (decide (i < n)).
    - by rewrite Z.ones_spec_low, andb_true_r by lia.
    - rewrite <- (Z.mod_small a (2 ^ n)) by done. by rewrite Z.mod_pow2_bits_high by lia. }
  rewrite E, Z.land_ones by done. apply Z.mod_pos_bound. lia.
Qed.

(** Low bits of a multiple of a power of two, high bits of a small number. *)
Lemma testbit_aligned x n i : x mod 2 ^ n = 0 -> 0 <= i < n -> Z.testbit x i = false.
Proof.
  intros Hx Hi. rewrite <- (Z.mod_pow2_bits_low x n i) by lia. rewrite Hx. apply Z.testbit_0_l.
Qed.

Lemma testbit_small x n i : 0 <= x < 2 ^ n -> n <= i -> Z.testbit x i = false.
Proof.
  intros Hx Hi. destruct (decide (0 <= n)) as [Hn|Hn].
  - rewrite <- (Z.mod_small x (2 ^ n)) by done. apply Z.mod_pow2_bits_high. lia.
  - rewrite Z.pow_neg_r in Hx by lia. lia.
Qed.

Lemma land_aligned x c n : 0 <= n -> x mod 2 ^ n = 0 -> 0 <= c < 2 ^ n -> Z.land x c = 0.
Proof.
  intros Hn Hx Hc. apply Z.bits_inj'. intros i Hi. rewrite Z.land_spec, Z.testbit_0_l.
  destruct (decide (i < n)).
  - by rewrite (testbit_aligned x n) by lia.
  - rewrite (testbit_small c n) by lia. apply andb_false_r.
Qed.

Lemma land_pow2_testbit x n : 0 <= n -> Z.land x (2 ^ n) = if Z.testbit x n then 2 ^ n else 0.
Proof.
  intros Hn. apply Z.bits_inj'. intros i Hi. rewrite Z.land_spec, Z.pow2_bits_eqb by done.
  destruct (Z.eqb_spec n i) as [<-|Hne].
  - rewrite andb_true_r. destruct (Z.testbit x n); [by rewrite Z.pow2_bits_true|].
    by rewrite Z.testbit_0_l.
  - rewrite andb_false_r. destruct (Z.testbit x n); [|by rewrite Z.testbit_0_l].
    by rewrite Z.pow2_bits_false.
Qed.

(** A C condition on an integer expression. *)
Definition nonzero (x : Z) : bool := negb (x =? 0).

Lemma nonzero_land_shiftl x n : 0 <= n -> nonzero (Z.land x (Z.shiftl 1 n)) = Z.testbit x n.
Proof.
  intros Hn. unfold nonzero. rewrite Z.shiftl_1_l, land_pow2_testbit by done.
  pose proof (Z.pow_pos_nonneg 2 n). destruct (Z.testbit x n); simpl; lia.
Qed.

(** ** Loops

    [for_ lo hi body s]: the counted loop [for (i = lo; i < hi; i++)].
    [for_exit]: the same loop whose body may leave with [inr] (break, return).
    [while_by mu cond body s]: a [while] loop with the variant [mu].
    [loop fuel body s]: a loop with no evident variant; [None] is "still
    running after [fuel] rounds". *)

Section Loops.
Context {S R : Type}.

Fixpoint for_from (k : nat) (i : Z) (body : Z -> S -> S) (s : S) : S :=
  match k with
  | O => s
  | Datatypes.S k => for_from k (i + 1) body (body i s)
  end.

Definition for_ (lo hi : Z) (body : Z -> S -> S) (s : S) : S :=
  for_from (Z.to_nat (hi - lo)) lo body s.

Fixpoint for_exit_from (k : nat) (i : Z) (body : Z -> S -> S + R) (s : S) : S + R :=
  match k with
  | O => inl s
  | Datatypes.S k =>
      match body i s with
      | inl s' => for_exit_from k (i + 1) body s'
      | inr r => inr r
      end
  end.

Definition for_exit (lo hi : Z) (body : Z -> S -> S + R) (s : S) : S + R :=
  for_exit_from (Z.to_nat (hi - lo)) lo body s.

Fixpoint while_fuel (fuel : nat) (cond : S -> bool) (body : S -> S) (s : S) : S :=
  match fuel with
  | O => s
  | Datatypes.S fuel => if cond s then while_fuel fuel cond body (body s) else s
  end.

Definition while_by (mu : S -> Z) (cond : S -> bool) (body : S -> S) (s : S) : S :=
  while_fuel (Z.to_nat (mu s)) cond body s.

Fixpoint loop (fuel : nat) (body : S -> S + R) (s : S) : option R :=
  match fuel with
  | O => None
  | Datatypes.S fuel =>
      match body s with
      | inl s' => loop fuel body s'
      | inr r => Some r
      end
  end.

(** *** Proof rules: one per combinator. *)

Lemma for_from_ind (I : Z -> S -> Prop) k i body s :
  I i s ->
  (forall j s', i <= j < i + Z.of_nat k -> I j s' -> I (j + 1) (body j s')) ->
  I (i + Z.of_nat k) (for_from k i body s).
Proof.
  revert i s. induction k as [|k IH]; intros i s Hi Hstep; simpl.
  - by rewrite Z.add_0_r.
  - replace (i + Z.of_nat (Datatypes.S k)) with ((i + 1) + Z.of_nat k) by lia.
    apply IH; [apply Hstep; [lia|done]|].
    intros j s' Hj. apply Hstep; lia.
Qed.

Lemma for_ind (I : Z -> S -> Prop) lo hi body s :
  lo <= hi -> I lo s ->
  (forall j s', lo <= j < hi -> I j s' -> I (j + 1) (body j s')) ->
  I hi (for_ lo hi body s).
Proof.
  intros Hle H0 Hstep. unfold for_.
  replace hi with (lo + Z.of_nat (Z.to_nat (hi - lo))) at 1 by lia.
  apply for_from_ind; [done|]. intros j s' Hj. apply Hstep; lia.
Qed.

Lemma for_nil lo hi body s : hi <= lo -> for_ lo hi body s = s.
Proof. intros H. unfold for_. by replace (Z.to_nat (hi - lo)) with O by lia. Qed.

Lemma for_cons lo hi body s :
  lo < hi -> for_ lo hi body s = for_ (lo + 1) hi body (body lo s).
Proof.
  intros H. unfold for_.
  replace (Z.to_nat (hi - lo)) with (Datatypes.S (Z.to_nat (hi - (lo + 1)))) by lia. done.
Qed.

Lemma for_exit_from_ind (I : Z -> S -> Prop) (Q : R -> Prop) k i body s :
  I i s ->
  (forall j s', i <= j < i + Z.of_nat k -> I j s' ->
     match body j s' with inl s'' => I (j + 1) s'' | inr r => Q r end) ->
  match for_exit_from k i body s with
  | inl s' => I (i + Z.of_nat k) s'
  | inr r => Q r
  end.
Proof.
  revert i s. induction k as [|k IH]; intros i s Hi Hstep; simpl.
  - by rewrite Z.add_0_r.
  - pose proof (Hstep i s ltac:(lia) Hi) as H0.
    destruct (body i s) as [s1|r]; [|done].
    replace (i + Z.of_nat (Datatypes.S k)) with ((i + 1) + Z.of_nat k) by lia.
    apply IH; [done|]. intros j s' Hj. apply Hstep; lia.
Qed.

Lemma for_exit_ind (I : Z -> S -> Prop) (Q : R -> Prop) lo hi body s :
  lo <= hi -> I lo s ->
  (forall j s', lo <= j < hi -> I j s' ->
     match body j s' with inl s'' => I (j + 1) s'' | inr r => Q r end) ->
  match for_exit lo hi body s with inl s' => I hi s' | inr r => Q r end.
Proof.
  intros Hle H0 Hstep. unfold for_exit.
  pose proof (for_exit_from_ind I Q (Z.to_nat (hi - lo)) lo body s H0) as H.
  replace (lo + Z.of_nat (Z.to_nat (hi - lo))) with hi in H by lia.
  apply H. intros j s' Hj. apply Hstep; lia.
Qed.

Lemma while_by_ind (I : S -> Prop) (mu : S -> Z) cond body s :
  I s ->
  (forall s', I s' -> cond s' = true -> I (body s') /\ mu (body s') < mu s') ->
  (forall s', I s' -> cond s' = true -> 0 < mu s') ->
  let s' := while_by mu cond body s in I s' /\ cond s' = false.
Proof.
  unfold while_by. intros HI Hstep Hpos.
  remember (Z.to_nat (mu s)) as f eqn:Hf.
  assert (Hle : mu s <= Z.of_nat f) by lia. clear Hf. revert s HI Hle.
  induction f as [|f IH]; intros s HI Hle; simpl.
  - split; [done|]. destruct (cond s) eqn:E; [|done].
    specialize (Hpos s HI E). lia.
  - destruct (cond s) eqn:E; [|done].
    destruct (Hstep s HI E) as [HI' Hlt]. apply IH; [done|lia].
Qed.

Lemma loop_ind (I : S -> Prop) (Q : R -> Prop) (mu : S -> Z) fuel body s :
  I s -> 0 <= mu s < Z.of_nat fuel ->
  (forall s', I s' ->
     match body s' with
     | inl s'' => I s'' /\ 0 <= mu s'' < mu s'
     | inr r => Q r
     end) ->
  exists r, loop fuel body s = Some r /\ Q r.
Proof.
  intros HI Hmu Hstep. revert s HI Hmu.
  induction fuel as [|f IH]; intros s HI Hmu; [lia|]. simpl.
  specialize (Hstep s HI). destruct (body s) as [s'|r]; [|eauto].
  destruct Hstep as [HI' Hlt]. apply IH; [done|lia].
Qed.

(** A loop whose body maps an invariant into itself never returns. *)
Lemma loop_diverges (I : S -> Prop) fuel body s :
  I s -> (forall s', I s' -> exists s'', body s' = inl s'' /\ I s'') ->
  loop fuel body s = None.
Proof.
  intros HI Hstep. revert s HI. induction fuel as [|f IH]; intros s HI; [done|].
  simpl. destruct (Hstep s HI) as (s' & -> & HI'). by apply IH.
Qed.
End Loops.

(** ** Lists *)

Lemma forallb_elem {A} (f : A -> bool) l x : forallb f l = true -> x ∈ l -> f x = true.
Proof. rewrite forallb_forall. intros H Hx. by apply H, list_elem_of_In. Qed.

(** Overwriting position [i] by the last element and dropping the last one
    removes exactly that occurrence. *)
Lemma swap_remove_perm {A} (l : list A) (y x : A) (i : nat) :
  (l ++ [y]) !! i = Some x ->
  x :: take (length l) (<[i := y]> (l ++ [y])) ≡ₚ l ++ [y].
Proof.
  intros Hi. destruct (decide (i < length l)%nat) as [Hlt|Hge].
  - rewrite lookup_app_l in Hi by done.
    rewrite insert_app_l, take_app_length' by (rewrite ?length_insert; done).
    rewrite <- (take_drop_middle l i x) at 2 by done.
    rewrite insert_take_drop by done.
    solve_Permutation.
  - rewrite lookup_app_r in Hi by lia.
    apply list_lookup_singleton_Some in Hi as [Hi <-].
    replace i with (length l + 0)%nat by lia.
    rewrite insert_app_r. simpl. rewrite take_app_length. apply Permutation_cons_append.
Qed.

Lemma list_alter_as_insert {A} (f : A -> A) (l : list A) i x :
  l !! i = Some x -> alter f i l = <[i := f x]> l.
Proof.
  revert i. induction l as [|y l IH]; intros [|i] H; [done|done|by injection H as ->|].
  simpl. f_equal. apply IH, H.
Qed.
