(* ===== verification/Memory.v ===== *)
(** * Byte-addressed machine memory

    One flat little-endian memory, shared by every component: the C code runs
    with an identity mapping, so a pointer, a physical address and a key of
    this map are the same number. *)

From S2P Require Import Prelude.

Abbreviation mem := (gmap Z Byte.byte).

(** A cell that was never written reads as zero; a memory with arbitrary
    contents is an arbitrary map, and theorems quantify over it. *)
Definition load8 (m : mem) (a : Z) : Z :=
  Z.of_N (Byte.to_N (default Byte.x00 (m !! a))).

Definition byte_of_Z (v : Z) : Byte.byte :=
  default Byte.x00 (Byte.of_N (Z.to_N (v mod 256))).

Definition store8 (m : mem) (a v : Z) : mem := <[a := byte_of_Z v]> m.

(** Little-endian accesses of [n] bytes. *)
Fixpoint loadn (n : nat) (m : mem) (a : Z) : Z :=
  match n with
  | O => 0
  | S n => load8 m a + 256 * loadn n m (a + 1)
  end.

Fixpoint storen (n : nat) (m : mem) (a v : Z) : mem :=
  match n with
  | O => m
  | S n => storen n (store8 m a v) (a + 1) (v / 256)
  end.

Abbreviation load16 := (loadn 2).
Abbreviation load32 := (loadn 4).
Abbreviation load64 := (loadn 8).
Abbreviation store16 := (storen 2).
Abbreviation store32 := (storen 4).
Abbreviation store64 := (storen 8).

(** ** Read-over-write *)

Lemma load8_range m a : 0 <= load8 m a < 256.
Proof.
  unfold load8. pose proof (Byte.to_N_bounded (default Byte.x00 (m !! a))). lia.
Qed.

Lemma byte_of_Z_spec v : Z.of_N (Byte.to_N (byte_of_Z v)) = v mod 256.
Proof.
  unfold byte_of_Z. pose proof (Z.mod_pos_bound v 256 ltac:(lia)) as Hr.
  destruct (Byte.of_N (Z.to_N (v mod 256))) as [b|] eqn:E; simpl.
  - apply Byte.to_of_N in E. rewrite E. lia.
  - apply Byte.of_N_None_iff in E. lia.
Qed.

Lemma load8_store8_eq m a v : load8 (store8 m a v) a = v mod 256.
Proof. unfold load8, store8. rewrite lookup_insert_eq. apply byte_of_Z_spec. Qed.

Lemma load8_store8_ne m a b v : b <> a -> load8 (store8 m a v) b = load8 m b.
Proof. intros H. unfold load8, store8. by rewrite lookup_insert_ne. Qed.

Lemma load8_store8 m a b v :
  load8 (store8 m a v) b = if decide (b = a) then v mod 256 else load8 m b.
Proof. case_decide as H; [subst; apply load8_store8_eq|by apply load8_store8_ne]. Qed.

Lemma load8_storen_ne n m a b v :
  b < a \/ a + Z.of_nat n <= b -> load8 (storen n m a v) b = load8 m b.
Proof.
  revert m a v. induction n as [|n IH]; intros m a v H; simpl; [done|].
  rewrite IH by lia. apply load8_store8_ne. lia.
Qed.

Lemma loadn_ext n m m' a :
  (forall b, a <= b < a + Z.of_nat n -> load8 m' b = load8 m b) ->
  loadn n m' a = loadn n m a.
Proof.
  revert a. induction n as [|n IH]; intros a H; simpl; [done|].
  rewrite (H a), IH by (lia || (intros; apply H; lia)). done.
Qed.

Lemma loadn_storen_ne k n m a b v :
  b + Z.of_nat k <= a \/ a + Z.of_nat n <= b -> loadn k (storen n m a v) b = loadn k m b.
Proof. intros H. apply loadn_ext. intros c Hc. apply load8_storen_ne. lia. Qed.

Lemma loadn_store8_ne k m a b v :
  b + Z.of_nat k <= a \/ a + 1 <= b -> loadn k (store8 m a v) b = loadn k m b.
Proof. intros H. apply loadn_ext. intros c Hc. apply load8_store8_ne. lia. Qed.

Lemma loadn_range n m a : 0 <= loadn n m a < 256 ^ Z.of_nat n.
Proof.
  revert a. induction n as [|n IH]; intros a; [simpl; lia|].
  replace (Z.of_nat (S n)) with (Z.of_nat n + 1) by lia.
  rewrite Z.pow_add_r by lia. simpl loadn.
  specialize (IH (a + 1)). pose proof (load8_range m a). lia.
Qed.

Lemma loadn_storen_mod n m a v : loadn n (storen n m a v) a = v mod 256 ^ Z.of_nat n.
Proof.
  revert m a v. induction n as [|n IH]; intros m a v.
  - simpl. by rewrite Z.mod_1_r.
  - simpl loadn. simpl storen.
    rewrite load8_storen_ne, load8_store8_eq, IH by lia.
    replace (Z.of_nat (S n)) with (1 + Z.of_nat n) by lia.
    rewrite Z.pow_add_r, Z.pow_1_r by lia.
    rewrite Z.rem_mul_r by lia. done.
Qed.

Lemma loadn_storen_eq n m a v :
  0 <= v < 256 ^ Z.of_nat n -> loadn n (storen n m a v) a = v.
Proof. intros H. rewrite loadn_storen_mod. by apply Z.mod_small. Qed.

Lemma load64_range m a : 0 <= load64 m a < 2 ^ 64.
Proof. pose proof (loadn_range 8 m a). lia. Qed.
Lemma load32_range m a : 0 <= load32 m a < 2 ^ 32.
Proof. pose proof (loadn_range 4 m a). lia. Qed.
Lemma load16_range m a : 0 <= load16 m a < 2 ^ 16.
Proof. pose proof (loadn_range 2 m a). lia. Qed.

#[export] Hint Resolve load8_range load16_range load32_range load64_range : bounds.

#[global] Arguments loadn : simpl never.
#[global] Arguments storen : simpl never.

(** [msimpl] resolves reads over writes whose disjointness [lia] proves. *)
Ltac msimpl :=
  repeat match goal with
  | |- context [loadn ?k (storen ?n ?m ?a ?v) ?b] =>
      first [ rewrite (loadn_storen_ne k n m a b v) by lia
            | rewrite (loadn_storen_eq n m a v) by lia ]
  | |- context [loadn ?k (store8 ?m ?a ?v) ?b] => rewrite (loadn_store8_ne k m a b v) by lia
  | |- context [load8 (storen ?n ?m ?a ?v) ?b] => rewrite (load8_storen_ne n m a b v) by lia
  | |- context [load8 (store8 ?m ?a ?v) ?a] => rewrite (load8_store8_eq m a v)
  | |- context [load8 (store8 ?m ?a ?v) ?b] => rewrite (load8_store8_ne m a b v) by lia
  end.

(** ** Footprints

    [agree P m m'] says that the two memories hold the same bytes at the
    addresses of [P]; "the operation writes only inside [lo, hi)" is
    [agree (outside lo hi) m m']. [mem_eq] is agreement everywhere: equality of
    what a program can observe, coarser than equality of the maps. *)

Definition agree (P : Z -> Prop) (m m' : mem) : Prop :=
  forall a, P a -> load8 m' a = load8 m a.

Definition outside (lo hi a : Z) : Prop := a < lo \/ hi <= a.

Definition mem_eq : mem -> mem -> Prop := agree (fun _ => True).

#[export] Instance agree_equiv P : Equivalence (agree P).
Proof.
  split.
  - by intros m a.
  - intros m m' H a Ha. symmetry. by apply H.
  - intros m1 m2 m3 H1 H2 a Ha. rewrite H2, H1 by done. done.
Qed.

#[export] Instance mem_eq_equiv : Equivalence mem_eq.
Proof. apply agree_equiv. Qed.

#[export] Instance load8_proper : Proper (mem_eq ==> eq ==> eq) load8.
Proof. intros m m' H a ? <-. symmetry. by apply H. Qed.

#[export] Instance store8_proper : Proper (mem_eq ==> eq ==> eq ==> mem_eq) store8.
Proof.
  intros m m' H a ? <- v ? <- b _. rewrite !load8_store8.
  case_decide; [done|]. by apply H.
Qed.

#[export] Instance loadn_proper n : Proper (mem_eq ==> eq ==> eq) (loadn n).
Proof. intros m m' H a ? <-. symmetry. apply loadn_ext. intros; by apply H. Qed.

#[export] Instance storen_proper n : Proper (mem_eq ==> eq ==> eq ==> mem_eq) (storen n).
Proof.
  induction n as [|n IH]; intros m m' H a ? <- v ? <-; [done|].
  change (mem_eq (storen n (store8 m a v) (a + 1) (v / 256))
                 (storen n (store8 m' a v) (a + 1) (v / 256))).
  by rewrite H.
Qed.

Lemma agree_weaken (P Q : Z -> Prop) m m' :
  agree P m m' -> (forall a, Q a -> P a) -> agree Q m m'.
Proof. intros H HQ a Ha. by apply H, HQ. Qed.

Lemma agree_trans (P Q : Z -> Prop) m1 m2 m3 :
  agree P m1 m2 -> agree Q m2 m3 -> agree (fun a => P a /\ Q a) m1 m3.
Proof. intros H1 H2 a [Ha Hb]. rewrite H2, H1 by done. done. Qed.

Lemma agree_loadn (P : Z -> Prop) n m m' a :
  agree P m m' -> (forall b, a <= b < a + Z.of_nat n -> P b) -> loadn n m' a = loadn n m a.
Proof. intros H HP. apply loadn_ext. intros b Hb. by apply H, HP. Qed.

Lemma agree_storen n m a v : agree (outside a (a + Z.of_nat n)) m (storen n m a v).
Proof. intros b Hb. apply load8_storen_ne. unfold outside in Hb. lia. Qed.

Lemma agree_store8 m a v : agree (outside a (a + 1)) m (store8 m a v).
Proof. intros b Hb. apply load8_store8_ne. unfold outside in Hb. lia. Qed.

(** The footprints of single stores, and their composition. *)
Create HintDb footprint.
#[export] Hint Resolve agree_storen agree_store8 agree_weaken : footprint.

(** ** Arrays of [w]-byte cells, read out of memory as a list *)

Definition arr (w : nat) (m : mem) (p n : Z) : list Z :=
  (fun i => loadn w m (p + Z.of_nat w * i)) <$> seqZ 0 n.

Lemma loadn_1 m a : loadn 1 m a = load8 m a.
Proof. unfold loadn. lia. Qed.

Lemma storen_1 m a v : storen 1 m a v = store8 m a v.
Proof. done. Qed.

Lemma length_arr w m p n : length (arr w m p n) = Z.to_nat n.
Proof. unfold arr. by rewrite length_fmap, length_seqZ. Qed.

Lemma lookup_arr w m p n i :
  0 <= i < n -> arr w m p n !! Z.to_nat i = Some (loadn w m (p + Z.of_nat w * i)).
Proof.
  intros Hi. unfold arr. rewrite list_lookup_fmap, lookup_seqZ_lt by lia.
  simpl. do 2 f_equal. lia.
Qed.

Lemma elem_of_arr w m p n x :
  x ∈ arr w m p n <-> exists i, 0 <= i < n /\ x = loadn w m (p + Z.of_nat w * i).
Proof.
  unfold arr. rewrite list_elem_of_fmap. setoid_rewrite elem_of_seqZ.
  split; intros (i & H1 & H2); exists i; split; (lia || done).
Qed.

Lemma arr_ext w m m' p n :
  (forall i, 0 <= i < n -> loadn w m' (p + Z.of_nat w * i) = loadn w m (p + Z.of_nat w * i)) ->
  arr w m' p n = arr w m p n.
Proof.
  intros H. unfold arr. apply list_fmap_ext. intros k x Hx.
  apply lookup_seqZ in Hx. apply H. lia.
Qed.

Lemma arr_agree (P : Z -> Prop) w m m' p n :
  agree P m m' -> (forall b, p <= b < p + Z.of_nat w * n -> P b) ->
  arr w m' p n = arr w m p n.
Proof.
  intros H HP. apply arr_ext. intros i Hi. eapply agree_loadn; [done|].
  intros b Hb. apply HP. nia.
Qed.

Lemma arr_snoc w m p n :
  0 <= n -> arr w m p (n + 1) = arr w m p n ++ [loadn w m (p + Z.of_nat w * n)].
Proof. intros Hn. unfold arr. by rewrite seqZ_app, fmap_app by lia. Qed.

Lemma arr_store w m p n i v :
  0 <= i < n -> 0 <= v < 256 ^ Z.of_nat w ->
  arr w (storen w m (p + Z.of_nat w * i) v) p n = <[Z.to_nat i := v]> (arr w m p n).
Proof.
  intros Hi Hv. apply list_eq. intros k.
  destruct (decide (Z.of_nat k < n)) as [Hk|Hk].
  - replace k with (Z.to_nat (Z.of_nat k)) at 1 by lia. rewrite lookup_arr by lia.
    destruct (decide (Z.of_nat k = i)) as [<-|Hne].
    + rewrite loadn_storen_eq by done. rewrite Nat2Z.id, list_lookup_insert_eq; [done|].
      rewrite length_arr. lia.
    + rewrite loadn_storen_ne by nia. rewrite list_lookup_insert_ne by lia.
      replace k with (Z.to_nat (Z.of_nat k)) at 2 by lia. by rewrite lookup_arr by lia.
  - rewrite !lookup_ge_None_2; [done|..]; rewrite ?length_insert, length_arr; lia.
Qed.

Lemma arr_store_out w m p n k a v :
  a + Z.of_nat k <= p \/ p + Z.of_nat w * n <= a ->
  arr w (storen k m a v) p n = arr w m p n.
Proof. intros H. apply arr_ext. intros i Hi. apply loadn_storen_ne. nia. Qed.

(** A cell one past the array extends it. *)
Lemma arr_store_end w m p n v :
  0 <= n -> 0 <= v < 256 ^ Z.of_nat w ->
  arr w (storen w m (p + Z.of_nat w * n) v) p (n + 1) = arr w m p n ++ [v].
Proof.
  intros Hn Hv. rewrite arr_snoc, loadn_storen_eq by done.
  by rewrite arr_store_out by lia.
Qed.

Lemma arr_take w m p n : 0 <= n -> take (Z.to_nat n) (arr w m p (n + 1)) = arr w m p n.
Proof.
  intros Hn. rewrite arr_snoc, take_app_length' by (done || by rewrite length_arr). done.
Qed.
