(* ===== verification/Dll.v ===== *)
(** * Intrusive doubly linked lists

    The slab lists of the heap and the run queues of the scheduler are threaded
    through [next] and [prev] fields of the nodes. [Links] is what the two
    have in common: four accessors on a state and the laws that tie them
    together on a set of nodes. *)

From S2P Require Import Prelude.

(** [valid] are the addresses whose fields do not overlap; a stored link fits
    in a pointer. *)
Class Links (S : Type) (valid : Z -> Prop) := {
  nx : S -> Z -> Z;
  pv : S -> Z -> Z;
  set_nx : S -> Z -> Z -> S;
  set_pv : S -> Z -> Z -> S;
  nx_set_nx s a v b : valid a -> valid b -> 0 <= v < 2 ^ 64 ->
    nx (set_nx s a v) b = if decide (b = a) then v else nx s b;
  pv_set_pv s a v b : valid a -> valid b -> 0 <= v < 2 ^ 64 ->
    pv (set_pv s a v) b = if decide (b = a) then v else pv s b;
  nx_set_pv s a v b : valid a -> valid b -> nx (set_pv s a v) b = nx s b;
  pv_set_nx s a v b : valid a -> valid b -> pv (set_nx s a v) b = pv s b;
  valid_pointer a : valid a -> 0 < a < 2 ^ 64;
}.

Section Dll.
Context {S : Type} {valid : Z -> Prop} {L : Links S valid}.

Definition first (d : Z) (l : list Z) : Z := match l with [] => d | a :: _ => a end.
Fixpoint final (d : Z) (l : list Z) : Z :=
  match l with [] => d | a :: l => final a l end.

(** The nodes [l] in order, [p] before the first, [n] after the last. *)
Fixpoint seg (s : S) (p : Z) (l : list Z) (n : Z) : Prop :=
  match l with
  | [] => True
  | a :: l => pv s a = p /\ nx s a = first n l /\ seg s a l n
  end.

Lemma first_app d l1 l2 : first d (l1 ++ l2) = first (first d l2) l1.
Proof. by destruct l1. Qed.

Lemma final_app d l1 l2 : final d (l1 ++ l2) = final (final d l1) l2.
Proof. revert d. by induction l1 as [|a l1 IH]; intros d; simpl; [|rewrite IH]. Qed.

Lemma final_snoc d l a : final d (l ++ [a]) = a.
Proof. by rewrite final_app. Qed.

Lemma seg_app s p l1 l2 n :
  seg s p (l1 ++ l2) n <-> seg s p l1 (first n l2) /\ seg s (final p l1) l2 n.
Proof.
  revert p. induction l1 as [|a l1 IH]; intros p; simpl; [tauto|].
  rewrite IH, first_app. tauto.
Qed.

Lemma seg_ext s s' p l n :
  (forall a, a ∈ l -> nx s' a = nx s a /\ pv s' a = pv s a) -> seg s p l n -> seg s' p l n.
Proof.
  revert p. induction l as [|a l IH]; intros p He; simpl; [done|].
  destruct (He a ltac:(left)) as [-> ->]. intros (H1 & H2 & H3). split_and!; [done..|].
  apply IH; [|done]. intros b Hb. apply He. by right.
Qed.

Lemma seg_nx s p l1 a l2 n : seg s p (l1 ++ a :: l2) n -> nx s a = first n l2.
Proof. intros [_ (_ & H & _)]%seg_app. done. Qed.

Lemma seg_pv s p l1 a l2 n : seg s p (l1 ++ a :: l2) n -> pv s a = final p l1.
Proof. intros [_ (H & _)]%seg_app. done. Qed.

Lemma final_in d l : l <> [] -> final d l ∈ l.
Proof.
  destruct l as [|b l _] using rev_ind; [done|]. intros _. rewrite final_snoc.
  apply elem_of_app. right. by left.
Qed.

Lemma final_cases l : (forall a, a ∈ l -> valid a) -> l = [] /\ final 0 l = 0 \/ l <> [] /\ valid (final 0 l).
Proof.
  intros Hv. destruct l as [|a l]; [by left|right]. split; [done|]. by apply Hv, final_in.
Qed.

Lemma first_cases l : (forall a, a ∈ l -> valid a) -> l = [] /\ first 0 l = 0 \/ l <> [] /\ valid (first 0 l).
Proof.
  intros Hv. destruct l as [|a l]; [by left|right]. split; [done|]. apply Hv. by left.
Qed.

(** Redirecting the last [next] and the first [prev]. *)
Lemma seg_set_last s p l n n' :
  seg s p l n -> NoDup l -> (forall a, a ∈ l -> valid a) -> l <> [] -> 0 <= n' < 2 ^ 64 ->
  seg (set_nx s (final p l) n') p l n'.
Proof.
  destruct l as [|a l _] using rev_ind; [done|]. intros [H1 (H2 & _)]%seg_app Hnd Hv _ Hn'.
  rewrite final_snoc. apply list.NoDup_app in Hnd as (Hnd & Hdis & _).
  assert (Hva : valid a) by (apply Hv, elem_of_app; right; by left).
  apply seg_app. split; [|simpl; split_and!; [|by rewrite nx_set_nx, decide_True by done|done]].
  - eapply seg_ext; [|exact H1]. intros b Hb.
    assert (valid b) by (apply Hv, elem_of_app; by left).
    rewrite nx_set_nx, pv_set_nx by done. split; [|done]. rewrite decide_False; [done|].
    intros ->. apply (Hdis a Hb). by left.
  - by rewrite pv_set_nx.
Qed.

Lemma seg_set_first s p l n p' :
  seg s p l n -> NoDup l -> (forall a, a ∈ l -> valid a) -> l <> [] -> 0 <= p' < 2 ^ 64 ->
  seg (set_pv s (first n l) p') p' l n.
Proof.
  destruct l as [|a l]; [done|]. intros (H1 & H2 & H3) Hnd Hv _ Hp'. simpl.
  assert (Hva : valid a) by (apply Hv; by left). apply list.NoDup_cons in Hnd as [Hni Hnd].
  rewrite pv_set_pv, nx_set_pv, decide_True by done. split_and!; [done..|].
  eapply seg_ext; [|exact H3]. intros b Hb. assert (valid b) by (apply Hv; by right).
  rewrite pv_set_pv, nx_set_pv by done. split; [done|]. rewrite decide_False; [done|].
  by intros ->.
Qed.

(** ** Unlinking

    [if (a->prev) a->prev->next = a->next; if (a->next) a->next->prev = a->prev;] *)

Definition unlink (s : S) (a : Z) : S :=
  let s := if negb (pv s a =? 0) then set_nx s (pv s a) (nx s a) else s in
  if negb (nx s a =? 0) then set_pv s (nx s a) (pv s a) else s.

Section Unlink.
Context (s : S) (l1 : list Z) (a : Z) (l2 : list Z).
Context (Hseg : seg s 0 (l1 ++ a :: l2) 0) (Hnd : NoDup (l1 ++ a :: l2)).
Context (Hv : forall b, b ∈ l1 ++ a :: l2 -> valid b).

Lemma unlink_valid :
  valid a /\ (forall b, b ∈ l1 -> valid b) /\ (forall b, b ∈ l2 -> valid b) /\
  (a ∉ l1) /\ (a ∉ l2) /\ NoDup l1 /\ NoDup l2 /\ (forall b, b ∈ l1 -> b ∈ l2 -> False).
Proof.
  apply list.NoDup_app in Hnd as (Hnd1 & Hdis & Hnd2). apply list.NoDup_cons in Hnd2 as [Hna Hnd2].
  split_and!; [apply Hv, elem_of_app; right; by left|..|done|done|done|].
  - intros b Hb. apply Hv, elem_of_app. by left.
  - intros b Hb. apply Hv, elem_of_app. right. by right.
  - intros H. apply (Hdis a H). by left.
  - intros b H1 H2. apply (Hdis b H1). by right.
Qed.

Lemma unlink_ends : 0 <= final 0 l1 < 2 ^ 64 /\ 0 <= first 0 l2 < 2 ^ 64.
Proof.
  destruct unlink_valid as (_ & Hv1 & Hv2 & _). split.
  - destruct (final_cases l1 Hv1) as [[_ ->]|[_ H]]; [lia|apply valid_pointer in H; lia].
  - destruct (first_cases l2 Hv2) as [[_ ->]|[_ H]]; [lia|apply valid_pointer in H; lia].
Qed.

(** The neighbours' links, written in terms of the list. *)
Definition bridge_next : S := if negb (final 0 l1 =? 0) then set_nx s (final 0 l1) (first 0 l2) else s.
Definition bridge : S :=
  if negb (first 0 l2 =? 0) then set_pv bridge_next (first 0 l2) (final 0 l1) else bridge_next.

Lemma bridge_next_frame b : valid b -> b ∉ l1 ->
  nx bridge_next b = nx s b /\ pv bridge_next b = pv s b.
Proof.
  destruct unlink_valid as (_ & Hv1 & _). destruct unlink_ends as [Hf1 Hf2]. intros Hb Hbl.
  unfold bridge_next. destruct (final_cases l1 Hv1) as [[_ ->]|[Hne Hvf]]; [done|].
  destruct (final 0 l1 =? 0); [done|]. cbn [negb]. rewrite nx_set_nx, pv_set_nx by done.
  split; [|done]. rewrite decide_False; [done|]. intros ->. by apply Hbl, final_in.
Qed.

Lemma unlink_eq : unlink s a = bridge.
Proof.
  destruct unlink_valid as (Hva & _ & _ & Ha1 & _). unfold unlink, bridge.
  rewrite (seg_pv _ _ _ _ _ _ Hseg), (seg_nx _ _ _ _ _ _ Hseg). fold bridge_next.
  destruct (bridge_next_frame a Hva Ha1) as [-> ->].
  by rewrite (seg_pv _ _ _ _ _ _ Hseg), (seg_nx _ _ _ _ _ _ Hseg).
Qed.

Lemma bridge_frame b : valid b -> b ∉ l1 ++ l2 -> nx bridge b = nx s b /\ pv bridge b = pv s b.
Proof.
  destruct unlink_valid as (_ & _ & Hv2 & _). destruct unlink_ends as [Hf1 Hf2].
  intros Hb Hbl. rewrite elem_of_app in Hbl.
  destruct (bridge_next_frame b Hb ltac:(tauto)) as [Hn Hp]. unfold bridge.
  destruct (first_cases l2 Hv2) as [[_ ->]|[Hne Hvf]]; [done|].
  destruct (first 0 l2 =? 0); [done|]. cbn [negb]. rewrite nx_set_pv, pv_set_pv by done.
  split; [done|]. rewrite decide_False; [done|]. intros ->. apply Hbl. right. destruct l2; [done|by left].
Qed.

Lemma bridge_seg : seg bridge 0 (l1 ++ l2) 0.
Proof.
  destruct unlink_valid as (_ & Hv1 & Hv2 & Ha1 & Ha2 & Hnd1 & Hnd2 & Hd12).
  destruct unlink_ends as [Hf1 Hf2].
  pose proof Hseg as Hseg'. apply seg_app in Hseg' as [Hs1 (_ & _ & Hs2)]. cbn [first] in Hs1.
  assert (H1 : seg bridge_next 0 l1 (first 0 l2)).
  { unfold bridge_next. destruct (final_cases l1 Hv1) as [[-> _]|[Hne Hvf]]; [done|].
    pose proof (valid_pointer _ Hvf). destruct (final 0 l1 =? 0) eqn:E; [lia|]. cbn [negb].
    by eapply seg_set_last. }
  assert (H2 : seg bridge_next a l2 0).
  { eapply seg_ext; [|exact Hs2]. intros b Hb. apply bridge_next_frame; [by apply Hv2|].
    intros Hb1. by eapply Hd12. }
  apply seg_app. unfold bridge. destruct (first_cases l2 Hv2) as [[-> _]|[Hne Hvf]].
  { cbn [first negb Z.eqb]. done. }
  pose proof (valid_pointer _ Hvf). destruct (first 0 l2 =? 0) eqn:E; [lia|]. cbn [negb].
  split; [|by eapply seg_set_first].
  eapply seg_ext; [|exact H1]. intros b Hb. rewrite nx_set_pv, pv_set_pv by (done || by apply Hv1).
  split; [done|]. rewrite decide_False; [done|]. intros ->. apply (Hd12 _ Hb).
  destruct l2; [done|by left].
Qed.

Lemma unlink_ok :
  seg (unlink s a) 0 (l1 ++ l2) 0 /\
  (forall b, valid b -> b ∉ l1 ++ l2 -> nx (unlink s a) b = nx s b /\ pv (unlink s a) b = pv s b).
Proof. rewrite unlink_eq. split; [apply bridge_seg|apply bridge_frame]. Qed.
End Unlink.

(** ** Pushing at the front

    [a->next = head; a->prev = NULL; if (head) head->prev = a;] *)

Definition link_front (s : S) (head a : Z) : S :=
  let s := set_pv (set_nx s a head) a 0 in
  if negb (head =? 0) then set_pv s head a else s.

Lemma link_front_ok s a l :
  seg s 0 l 0 -> NoDup l -> (forall b, b ∈ l -> valid b) -> valid a -> a ∉ l ->
  seg (link_front s (first 0 l) a) 0 (a :: l) 0 /\
  (forall b, valid b -> b ∉ a :: l ->
     nx (link_front s (first 0 l) a) b = nx s b /\ pv (link_front s (first 0 l) a) b = pv s b).
Proof.
  intros Hs Hnd Hv Hva Hal. pose proof (valid_pointer _ Hva) as Hpa. unfold link_front.
  assert (Hf : 0 <= first 0 l < 2 ^ 64).
  { destruct (first_cases l Hv) as [[_ ->]|[_ H]]; [lia|apply valid_pointer in H; lia]. }
  set (s1 := set_pv (set_nx s a (first 0 l)) a 0).
  assert (Hfr : forall b, valid b -> b <> a -> nx s1 b = nx s b /\ pv s1 b = pv s b).
  { intros b Hb Hba. unfold s1. rewrite nx_set_pv, pv_set_pv, nx_set_nx, pv_set_nx by (done || lia).
    by rewrite !decide_False. }
  assert (Ha : nx s1 a = first 0 l /\ pv s1 a = 0).
  { unfold s1. rewrite nx_set_pv, pv_set_pv, nx_set_nx by (done || lia). by rewrite !decide_True. }
  assert (Hs1 : seg s1 0 l 0).
  { eapply seg_ext; [|exact Hs]. intros b Hb. apply Hfr; [by apply Hv|]. by intros ->. }
  destruct (first_cases l Hv) as [[Hl _]|[Hne Hvf]].
  { subst l. cbn [first negb Z.eqb]. split; [by destruct Ha|]. intros b Hb Hbl. apply Hfr; [done|].
    intros ->. apply Hbl. by left. }
  pose proof (valid_pointer _ Hvf). destruct (first 0 l =? 0) eqn:E; [lia|]. cbn [negb].
  assert (Hfl : first 0 l ∈ l) by (destruct l; [done|by left]).
  split.
  - assert (Hfa : a <> first 0 l) by (intros Heq; by rewrite Heq in Hal).
    simpl. rewrite nx_set_pv, pv_set_pv, decide_False by (done || lia).
    destruct Ha as [-> ->]. split_and!; [done|done|]. by eapply seg_set_first; [..|lia].
  - intros b Hb Hbl. rewrite elem_of_cons in Hbl. rewrite nx_set_pv, pv_set_pv by (done || lia).
    rewrite decide_False by (intros ->; tauto). apply Hfr; tauto.
Qed.

(** ** Appending at the back

    [a->next = a->prev = NULL; if (tail) { a->prev = tail; tail->next = a; }] *)

Definition link_back (s : S) (tail a : Z) : S :=
  let s := set_pv (set_nx s a 0) a 0 in
  if tail =? 0 then s else set_nx (set_pv s a tail) tail a.

Lemma link_back_ok s a l :
  seg s 0 l 0 -> NoDup l -> (forall b, b ∈ l -> valid b) -> valid a -> a ∉ l ->
  seg (link_back s (final 0 l) a) 0 (l ++ [a]) 0 /\
  (forall b, valid b -> b ∉ l ++ [a] ->
     nx (link_back s (final 0 l) a) b = nx s b /\ pv (link_back s (final 0 l) a) b = pv s b).
Proof.
  intros Hs Hnd Hv Hva Hal. pose proof (valid_pointer _ Hva) as Hpa. unfold link_back.
  set (s1 := set_pv (set_nx s a 0) a 0).
  assert (Hfr : forall b, valid b -> b <> a -> nx s1 b = nx s b /\ pv s1 b = pv s b).
  { intros b Hb Hba. unfold s1. rewrite nx_set_pv, pv_set_pv, nx_set_nx, pv_set_nx by (done || lia).
    by rewrite !decide_False. }
  assert (Ha : nx s1 a = 0 /\ pv s1 a = 0).
  { unfold s1. rewrite nx_set_pv, pv_set_pv, nx_set_nx by (done || lia). by rewrite !decide_True. }
  destruct (final_cases l Hv) as [[Hl _]|[Hne Hvf]].
  { subst l. cbn [final Z.eqb app]. split; [by destruct Ha|]. intros b Hb Hbl. apply Hfr; [done|].
    intros ->. apply Hbl. by left. }
  pose proof (valid_pointer _ Hvf) as Hpf. destruct (final 0 l =? 0) eqn:E; [lia|].
  set (t := final 0 l) in *. set (s2 := set_pv s1 a t).
  assert (Hta : t <> a) by (intros <-; by apply Hal, final_in).
  assert (Hfr2 : forall b, valid b -> b <> a -> nx s2 b = nx s b /\ pv s2 b = pv s b).
  { intros b Hb Hba. unfold s2. rewrite nx_set_pv, pv_set_pv by (done || lia).
    rewrite decide_False by done. by apply Hfr. }
  assert (Ha2 : nx s2 a = 0 /\ pv s2 a = t).
  { unfold s2. rewrite nx_set_pv, pv_set_pv, decide_True by (done || lia). by destruct Ha. }
  assert (Hs2 : seg s2 0 l 0).
  { eapply seg_ext; [|exact Hs]. intros b Hb. apply Hfr2; [by apply Hv|]. by intros ->. }
  split.
  - apply seg_app. split; [apply (seg_set_last s2 0 l 0 a); (done || lia)|]. simpl. fold t.
    rewrite nx_set_nx, pv_set_nx, decide_False by (done || lia). by destruct Ha2.
  - intros b Hb Hbl. rewrite elem_of_app, list_elem_of_singleton in Hbl.
    rewrite nx_set_nx, pv_set_nx by (done || lia). rewrite decide_False; [apply Hfr2; tauto|].
    intros ->. apply Hbl. left. by apply final_in.
Qed.
End Dll.
