(* ===== verification/CString.v ===== *)
(** * Memory and string routines (src/src/string.c)

    Every routine runs on the machine memory of [Memory]; pointers are
    addresses. Loops whose end is the data's terminator take a fuel argument,
    and the theorems show that any fuel above the string length is enough. *)

From S2P Require Import Prelude Memory.

Module CString.

(** ** Block operations *)

(** [arm_neon.h]: 16-byte vector load, store and duplicate. *)
Fixpoint store_bytes (m : mem) (a : Z) (l : list Z) : mem :=
  match l with
  | [] => m
  | v :: l => store_bytes (store8 m a v) (a + 1) l
  end.

Definition load_bytes (m : mem) (a n : Z) : list Z := (fun i => load8 m (a + i)) <$> seqZ 0 n.

Definition vst1q_u8 (m : mem) (a : Z) (v : list Z) : mem := store_bytes m a v.
Definition vld1q_u8 (m : mem) (a : Z) : list Z := load_bytes m a 16.
Definition vdupq_n_u8 (c : Z) : list Z := replicate 16 (u8 c).

Definition memset (m : mem) (s c n : Z) : mem :=
  let val := vdupq_n_u8 c in
  let '(m, a, n) := while_by (fun '(m, a, n) => n) (fun '(m, a, n) => 16 <=? n)
      (fun '(m, a, n) => (vst1q_u8 m a val, a + 16, n - 16)) (m, s, n) in
  let '(m, a, n) := while_by (fun '(m, a, n) => n) (fun '(m, a, n) => negb (n =? 0))
      (fun '(m, a, n) => (store8 m a (u8 c), a + 1, n - 1)) (m, a, n) in
  m.

Definition memcpy (m : mem) (s1 s2 n : Z) : mem :=
  let '(m, d, s, n) := while_by (fun '(m, d, s, n) => n) (fun '(m, d, s, n) => 16 <=? n)
      (fun '(m, d, s, n) => (vst1q_u8 m d (vld1q_u8 m s), d + 16, s + 16, n - 16))
      (m, s1, s2, n) in
  let '(m, d, s, n) := while_by (fun '(m, d, s, n) => n) (fun '(m, d, s, n) => negb (n =? 0))
      (fun '(m, d, s, n) => (store8 m d (load8 m s), d + 1, s + 1, n - 1)) (m, d, s, n) in
  m.

Definition memmove (m : mem) (s1 s2 n : Z) : mem :=
  if s1 <? s2 then
    let '(m, d, s, n) := while_by (fun '(m, d, s, n) => n) (fun '(m, d, s, n) => negb (n =? 0))
        (fun '(m, d, s, n) => (store8 m d (load8 m s), d + 1, s + 1, n - 1)) (m, s1, s2, n) in
    m
  else
    let '(m, d, s, n) := while_by (fun '(m, d, s, n) => n) (fun '(m, d, s, n) => negb (n =? 0))
        (fun '(m, d, s, n) => (store8 m (d - 1) (load8 m (s - 1)), d - 1, s - 1, n - 1))
        (m, s1 + n, s2 + n, n) in
    m.

(** [inr] is the [return] inside the loop. *)
Definition memcmp (m : mem) (s1 s2 n : Z) : Z :=
  match for_exit 0 n (fun i (_ : unit) =>
          if negb (load8 m (s1 + i) =? load8 m (s2 + i))
          then inr (load8 m (s1 + i) - load8 m (s2 + i)) else inl tt) tt with
  | inl _ => 0
  | inr r => r
  end.

Definition memchr (m : mem) (s c n : Z) : Z :=
  match for_exit 0 n (fun i (_ : unit) =>
          if load8 m (s + i) =? u8 c then inr (s + i) else inl tt) tt with
  | inl _ => 0
  | inr r => r
  end.

Definition memccpy (m : mem) (s1 s2 c n : Z) : Z * mem :=
  match for_exit 0 n (fun i m =>
          let m := store8 m (s1 + i) (load8 m (s2 + i)) in
          if load8 m (s1 + i) =? u8 c then inr (s1 + i + 1, m) else inl m) m with
  | inl m => (0, m)
  | inr r => r
  end.

(** *** What they do *)

Lemma load8_store_bytes m a l b :
  (forall v, v ∈ l -> 0 <= v < 256) ->
  load8 (store_bytes m a l) b =
    if decide (a <= b < a + Z.of_nat (length l)) then default 0 (l !! Z.to_nat (b - a))
    else load8 m b.
Proof.
  revert m a. induction l as [|v l IH]; intros m a Hv; simpl.
  { by rewrite decide_False by lia. }
  rewrite IH by (intros; apply Hv; by right). case_decide as H1.
  - rewrite decide_True by lia. replace (Z.to_nat (b - a)) with (S (Z.to_nat (b - (a + 1)))) by lia.
    done.
  - rewrite load8_store8. case_decide as H2.
    + subst b. rewrite decide_True by lia. rewrite Z.sub_diag. simpl.
      apply Z.mod_small, Hv. by left.
    + by rewrite decide_False by lia.
Qed.

Lemma vst1q_dup m a c b :
  load8 (vst1q_u8 m a (vdupq_n_u8 c)) b = if decide (a <= b < a + 16) then u8 c else load8 m b.
Proof.
  unfold vst1q_u8, vdupq_n_u8. rewrite load8_store_bytes.
  - rewrite length_replicate. repeat case_decide; [|lia..|done].
    by rewrite lookup_replicate_2 by lia.
  - intros v [-> _]%elem_of_replicate. apply Z.mod_pos_bound. lia.
Qed.

Lemma vst1q_vld m d s b :
  load8 (vst1q_u8 m d (vld1q_u8 m s)) b =
    if decide (d <= b < d + 16) then load8 m (s + (b - d)) else load8 m b.
Proof.
  unfold vst1q_u8, vld1q_u8, load_bytes. rewrite load8_store_bytes.
  - rewrite length_fmap, length_seqZ. repeat case_decide; [|lia..|done].
    rewrite list_lookup_fmap, lookup_seqZ_lt by lia. simpl. do 2 f_equal. lia.
  - intros v (i & -> & _)%list_elem_of_fmap. apply load8_range.
Qed.

(** [memset] writes the byte over the block and nothing else. *)
Lemma memset_spec m s c n :
  0 <= n ->
  forall b, load8 (memset m s c n) b = if decide (s <= b < s + n) then u8 c else load8 m b.
Proof.
  intros Hn. unfold memset.
  set (I := fun '((m', a, k) : mem * Z * Z) => a + k = s + n /\ 0 <= k /\ s <= a /\
          forall b, load8 m' b = if decide (s <= b < a) then u8 c else load8 m b).
  assert (H0 : I (m, s, n)).
  { split_and!; [lia..|]. intros b. by rewrite decide_False by lia. }
  match goal with |- context [while_by ?mu ?cd ?bd (m, s, n)] =>
    destruct (while_by_ind I mu cd bd (m, s, n) H0) as [H1 _] end.
  { intros [[m1 a] k] (E1 & E2 & E3 & E4) Hc. split; [|lia]. split_and!; [lia..|].
    intros b. rewrite vst1q_dup, E4. repeat case_decide; (lia || done). }
  { intros [[m1 a] k] _ Hc. lia. }
  destruct (while_by _ _ _ (m, s, n)) as [[m1 a] k].
  match goal with |- context [while_by ?mu ?cd ?bd (m1, a, k)] =>
    destruct (while_by_ind I mu cd bd (m1, a, k) H1) as [H2 Hx] end.
  { intros [[m2 a2] k2] (E1 & E2 & E3 & E4) Hc. split; [|lia]. split_and!; [lia..|].
    intros b. rewrite load8_store8, E4. unfold u8. rewrite Z.mod_mod by lia.
    repeat case_decide; (lia || done). }
  { intros [[m2 a2] k2] (E1 & E2 & _) Hc. lia. }
  destruct (while_by _ _ _ (m1, a, k)) as [[m2 a2] k2].
  destruct H2 as (E1 & E2 & E3 & E4). intros b. rewrite E4.
  repeat case_decide; (lia || done).
Qed.

Lemma memset_agree m s c n : 0 <= n -> agree (outside s (s + n)) m (memset m s c n).
Proof.
  intros Hn b Hb. rewrite memset_spec by done. rewrite decide_False; [done|].
  unfold outside in Hb. lia.
Qed.

(** A zeroed block reads as zero at every width. *)
Lemma memset_zero_loadn w m s n a :
  0 <= n -> s <= a -> a + Z.of_nat w <= s + n -> loadn w (memset m s 0 n) a = 0.
Proof.
  intros Hn. revert a. induction w as [|w IH]; intros a H1 H2; [done|].
  change (load8 (memset m s 0 n) a + 256 * loadn w (memset m s 0 n) (a + 1) = 0).
  rewrite IH by lia. rewrite memset_spec, decide_True by lia. done.
Qed.

(** [n] bytes at [s] of [m] are at [d] of [m'], the rest is unchanged. *)
Definition moved (d s n : Z) (m m' : mem) : Prop :=
  forall b, load8 m' b = if decide (d <= b < d + n) then load8 m (s + (b - d)) else load8 m b.

Lemma moved_0 d s m : moved d s 0 m m.
Proof. intros b. by rewrite decide_False by lia. Qed.

(** A forward copy never reads a byte it has already overwritten, because the
    target is below the source or entirely above it. *)
Lemma moved_chunk d s n k j m m' m'' :
  0 <= j -> 0 <= k -> j + k <= n -> d <= s \/ s + n <= d ->
  moved d s j m m' -> moved (d + j) (s + j) k m' m'' -> moved d s (j + k) m m''.
Proof.
  intros Hj Hk Hn Hds H1 H2 b. rewrite H2. case_decide as D1.
  - rewrite H1. rewrite decide_False, decide_True by lia. f_equal. lia.
  - rewrite H1. repeat case_decide; (done || lia).
Qed.

Lemma moved_byte d s m : moved d s 1 m (store8 m d (load8 m s)).
Proof.
  intros b. rewrite load8_store8. repeat case_decide; try lia; try done.
  subst b. rewrite Z.mod_small by auto with bounds. f_equal. lia.
Qed.

Lemma moved_vec d s m : moved d s 16 m (vst1q_u8 m d (vld1q_u8 m s)).
Proof. intros b. apply vst1q_vld. Qed.

(** The byte loop shared by [memcpy] and [memmove]. *)
Lemma forward_loop m0 m s1 s2 n j :
  0 <= j <= n -> s1 <= s2 \/ s2 + n <= s1 -> moved s1 s2 j m0 m ->
  let '(m', _, _, _) :=
    while_by (fun '(m, d, s, n) => n) (fun '(m, d, s, n) => negb (n =? 0))
      (fun '(m, d, s, n) => (store8 m d (load8 m s), d + 1, s + 1, n - 1))
      (m, s1 + j, s2 + j, n - j) in
  moved s1 s2 n m0 m'.
Proof.
  intros Hj Hds Hm.
  match goal with |- context [while_by ?mu ?cd ?bd ?st] =>
    destruct (while_by_ind (fun '(m', d, s, k) => exists j, 0 <= j <= n /\ d = s1 + j /\
                s = s2 + j /\ k = n - j /\ moved s1 s2 j m0 m') mu cd bd st) as [H1 H2] end.
  { by exists j. }
  { intros [[[m' d] s] k] (i & Hi & -> & -> & -> & Hmi) Hc. split; [|lia].
    exists (i + 1). split_and!; [lia..|].
    eapply (moved_chunk s1 s2 n 1 i); [lia..|done|exact Hmi|apply moved_byte]. }
  { intros [[[m' d] s] k] (i & Hi & -> & -> & -> & _) Hc. lia. }
  destruct (while_by _ _ _ _) as [[[m' d] s] k].
  destruct H1 as (i & Hi & _ & _ & Hk & Hmi). by replace n with i by lia.
Qed.

Lemma memcpy_moved m s1 s2 n :
  0 <= n -> s1 <= s2 \/ s2 + n <= s1 -> moved s1 s2 n m (memcpy m s1 s2 n).
Proof.
  intros Hn Hds. unfold memcpy.
  match goal with |- context [while_by ?mu ?cd ?bd (m, s1, s2, n)] =>
    destruct (while_by_ind (fun '(m', d, s, k) => exists j, 0 <= j <= n /\ d = s1 + j /\
                s = s2 + j /\ k = n - j /\ moved s1 s2 j m m') mu cd bd (m, s1, s2, n)) as [H1 _] end.
  { exists 0. split_and!; [lia..|apply moved_0]. }
  { intros [[[m' d] s] k] (i & Hi & -> & -> & -> & Hmi) Hc. split; [|lia].
    exists (i + 16). split_and!; [lia..|].
    eapply (moved_chunk s1 s2 n 16 i); [lia..|done|exact Hmi|apply moved_vec]. }
  { intros [[[m' d] s] k] _ Hc. lia. }
  destruct (while_by _ _ _ (m, s1, s2, n)) as [[[m' d] s] k].
  destruct H1 as (j & Hj & -> & -> & -> & Hm).
  pose proof (forward_loop m m' s1 s2 n j Hj Hds Hm) as H. cbv zeta.
  destruct (while_by _ _ _ (m', _, _, _)) as [[[m2 ?] ?] ?]. exact H.
Qed.

(** [memcpy], whose body moves 16-byte vectors and then the odd bytes,
    copies exactly the block for every length, provided the target is disjoint
    from the source or below it. *)
Theorem memcpy_copies m s1 s2 n :
  0 <= n -> s1 <= s2 \/ s2 + n <= s1 -> moved s1 s2 n m (memcpy m s1 s2 n).
Proof. apply memcpy_moved. Qed.

(** C13 [memmove] copies the block as it was, however the two ranges overlap. *)
Theorem memmove_copies m s1 s2 n : 0 <= n -> moved s1 s2 n m (memmove m s1 s2 n).
Proof.
  intros Hn. unfold memmove. destruct (s1 <? s2) eqn:E.
  - pose proof (forward_loop m m s1 s2 n 0 ltac:(lia) ltac:(lia) (moved_0 _ _ _)) as H.
    rewrite !Z.add_0_r, Z.sub_0_r in H. destruct (while_by _ _ _ _) as [[[m2 ?] ?] ?]. exact H.
  - match goal with |- context [while_by ?mu ?cd ?bd ?st] =>
      destruct (while_by_ind (fun '(m', d, s, k) => 0 <= k <= n /\ d = s1 + k /\ s = s2 + k /\
                  forall b, load8 m' b = if decide (s1 + k <= b < s1 + n)
                                         then load8 m (s2 + (b - s1)) else load8 m b)
                mu cd bd st) as [H1 H2] end.
    { split_and!; [lia..|]. intros b. by rewrite decide_False by lia. }
    { intros [[[m' d] s] k] (Hk & -> & -> & Hb) Hc. split; [|lia]. split_and!; [lia..|].
      intros b. rewrite load8_store8, (Hb b), (Hb (s2 + k - 1)).
      rewrite (decide_False (P := s1 + k <= s2 + k - 1 < s1 + n)) by lia.
      rewrite Z.mod_small by auto with bounds.
      repeat case_decide; try lia; try done. f_equal. lia. }
    { intros [[[m' d] s] k] (Hk & _) Hc. lia. }
    destruct (while_by _ _ _ _) as [[[m' d] s] k]. destruct H1 as (Hk & _ & _ & Hb).
    replace k with 0 in Hb by lia. intros b. rewrite Hb, Z.add_0_r. done.
Qed.

(** [memcmp] returns 0 for equal blocks and otherwise the difference of the
    first bytes that differ. *)
Lemma memcmp_spec m s1 s2 n :
  0 <= n ->
  (memcmp m s1 s2 n = 0 /\ forall i, 0 <= i < n -> load8 m (s1 + i) = load8 m (s2 + i)) \/
  exists i, 0 <= i < n /\ (forall j, 0 <= j < i -> load8 m (s1 + j) = load8 m (s2 + j)) /\
    memcmp m s1 s2 n = load8 m (s1 + i) - load8 m (s2 + i) /\ memcmp m s1 s2 n <> 0.
Proof.
  intros Hn. unfold memcmp.
  match goal with |- context [for_exit 0 n ?body tt] =>
    unshelve epose proof (for_exit_ind
      (fun i _ => forall j, 0 <= j < i -> load8 m (s1 + j) = load8 m (s2 + j))
      (fun r => exists i, 0 <= i < n /\ (forall j, 0 <= j < i -> load8 m (s1 + j) = load8 m (s2 + j)) /\
        r = load8 m (s1 + i) - load8 m (s2 + i) /\ r <> 0)
      0 n body tt Hn _ _) as H end.
  - cbv beta. intros j Hj. lia.
  - intros i [] Hi Heq. destruct (load8 m (s1 + i) =? load8 m (s2 + i)) eqn:E; simpl.
    + intros j Hj. destruct (decide (j = i)) as [->|]; [lia|apply Heq; lia].
    + exists i. split_and!; (lia || done).
  - destruct (for_exit _ _ _ _); [by left|by right].
Qed.

(** [memchr] finds the first occurrence. *)
Lemma memchr_spec m s c n :
  0 <= n ->
  (memchr m s c n = 0 /\ forall i, 0 <= i < n -> load8 m (s + i) <> u8 c) \/
  exists i, 0 <= i < n /\ memchr m s c n = s + i /\ load8 m (s + i) = u8 c /\
    forall j, 0 <= j < i -> load8 m (s + j) <> u8 c.
Proof.
  intros Hn. unfold memchr.
  match goal with |- context [for_exit 0 n ?body tt] =>
    unshelve epose proof (for_exit_ind (fun i _ => forall j, 0 <= j < i -> load8 m (s + j) <> u8 c)
      (fun r => exists i, 0 <= i < n /\ r = s + i /\ load8 m (s + i) = u8 c /\
         forall j, 0 <= j < i -> load8 m (s + j) <> u8 c)
      0 n body tt Hn _ _) as H end.
  - cbv beta. intros j Hj. lia.
  - intros i [] Hi Hne. destruct (load8 m (s + i) =? u8 c) eqn:E.
    + exists i. split_and!; (lia || done).
    + intros j Hj. destruct (decide (j = i)) as [->|]; [lia|apply Hne; lia].
  - destruct (for_exit _ _ _ _); [by left|by right].
Qed.

(** [memccpy] on disjoint blocks copies up to and including the first byte
    equal to [c], returning the address after it in the target, or all [n]
    bytes, returning NULL. *)
Theorem memccpy_copies m s1 s2 c n :
  0 <= n -> s1 + n <= s2 \/ s2 + n <= s1 ->
  let '(r, m') := memccpy m s1 s2 c n in
  (r = 0 /\ moved s1 s2 n m m' /\ forall i, 0 <= i < n -> load8 m (s2 + i) <> u8 c) \/
  exists i, 0 <= i < n /\ r = s1 + i + 1 /\ moved s1 s2 (i + 1) m m' /\
    load8 m (s2 + i) = u8 c /\ forall j, 0 <= j < i -> load8 m (s2 + j) <> u8 c.
Proof.
  intros Hn Hds. unfold memccpy.
  match goal with |- context [for_exit 0 n ?body m] =>
    unshelve epose proof (for_exit_ind
      (fun i m' => moved s1 s2 i m m' /\ forall j, 0 <= j < i -> load8 m (s2 + j) <> u8 c)
      (fun r => exists i, 0 <= i < n /\ r.1 = s1 + i + 1 /\ moved s1 s2 (i + 1) m r.2 /\
         load8 m (s2 + i) = u8 c /\ forall j, 0 <= j < i -> load8 m (s2 + j) <> u8 c)
      0 n body m Hn _ _) as H end.
  - split; [apply moved_0|lia].
  - intros i m1 Hi [Hm Hne].
    assert (Hm' : moved s1 s2 (i + 1) m (store8 m1 (s1 + i) (load8 m1 (s2 + i))))
      by (eapply (moved_chunk s1 s2 n 1 i); [lia..|exact Hm|apply moved_byte]).
    assert (Hc : load8 (store8 m1 (s1 + i) (load8 m1 (s2 + i))) (s1 + i) = load8 m (s2 + i))
      by (rewrite Hm', decide_True by lia; f_equal; lia).
    cbv zeta. rewrite Hc. destruct (load8 m (s2 + i) =? u8 c) eqn:E.
    + exists i. split_and!; (lia || done).
    + split; [done|]. intros j Hj. destruct (decide (j = i)) as [->|]; [lia|apply Hne; lia].
  - destruct (for_exit _ _ _ _) as [m'|[r m']]; [left; by destruct H|by right].
Qed.

(** *** Witnesses *)

Definition demo : mem := store_bytes ∅ 100 (seqZ 1 40).

Lemma memcpy_copies_witness :
  (90 <= 100 \/ 100 + 37 <= 90) /\ moved 90 100 37 demo (memcpy demo 90 100 37) /\
  load_bytes (memcpy demo 90 100 37) 90 40 = seqZ 1 37 ++ [28; 29; 30].
Proof.
  split; [left; lia|]. split; [apply memcpy_copies; [lia|left; lia]|vm_compute; reflexivity].
Defined.

Lemma memmove_copies_witness :
  0 <= 20 /\ moved 110 100 20 demo (memmove demo 110 100 20) /\
  load_bytes (memmove demo 110 100 20) 108 5 = [9; 10; 1; 2; 3].
Proof. split; [lia|]. split; [apply memmove_copies; lia|vm_compute; reflexivity]. Defined.

Lemma memccpy_copies_witness :
  (200 + 40 <= 100 \/ 100 + 40 <= 200) /\ (memccpy demo 200 100 7 40).1 = 207 /\
  moved 200 100 7 demo (memccpy demo 200 100 7 40).2.
Proof.
  split; [right; lia|].
  assert (Hr : (memccpy demo 200 100 7 40).1 = 207) by (vm_compute; reflexivity).
  split; [exact Hr|].
  pose proof (memccpy_copies demo 200 100 7 40 ltac:(lia) ltac:(right; lia)) as H.
  destruct (memccpy demo 200 100 7 40) as [r m']. cbn [fst snd] in *.
  destruct H as [(H & _)|(i & _ & Hi & Hm & _)]; [lia|].
  replace (i + 1) with 7 in Hm by lia. exact Hm.
Defined.

End CString.
