(* ===== verification/Strings.v ===== *)
(** * C strings (src/src/string.c, src/src/stdlib.c)

    A string is the list of its characters, found in memory by [cstr]. Plain
    [char] is unsigned on AArch64, so a character is the byte itself. Every
    loop that runs to a terminator takes fuel, and the theorems show that any
    fuel above the lengths involved is enough. *)

From S2P Require Import Prelude Memory CString.

Module Strings.

(** ** The routines *)

Definition strlen (fuel : nat) (m : mem) (s : Z) : option Z :=
  loop fuel (fun ret => if load8 m (s + ret) =? 0 then inr ret else inl (ret + 1)) 0.

Definition strnlen (fuel : nat) (m : mem) (s maxlen : Z) : option Z :=
  loop fuel (fun ret =>
    if negb (load8 m (s + ret) =? 0) && (ret <=? maxlen) then inl (ret + 1) else inr ret) 0.

(** [while ((star d++ = star s++) != 0)]: the address of the terminator written. *)
Definition copy_str (fuel : nat) (m : mem) (d s : Z) : option (Z * mem) :=
  loop fuel (fun '(m, d, s) =>
    let c := load8 m s in
    let m := store8 m d c in
    if c =? 0 then inr (d, m) else inl (m, d + 1, s + 1)) (m, d, s).

Definition stpcpy (fuel : nat) (m : mem) (s1 s2 : Z) : option (Z * mem) := copy_str fuel m s1 s2.

Definition strcpy (fuel : nat) (m : mem) (dest src : Z) : option (Z * mem) :=
  '(_, m) ← copy_str fuel m dest src; Some (dest, m).

Definition strcat (fuel : nat) (m : mem) (s1 s2 : Z) : option (Z * mem) :=
  d ← loop fuel (fun d => if load8 m d =? 0 then inr d else inl (d + 1)) s1;
  '(_, m) ← copy_str fuel m d s2; Some (s1, m).

(** No value is returned: the function ends without a [return]. *)
Definition strlcat (fuel : nat) (m : mem) (destination source n : Z) : option mem :=
  '(d, i) ← loop fuel (fun '(d, i) =>
      if load8 m d =? 0 then inr (d, i)
      else if i <? n then inl (d + 1, i + 1) else inr (d, i + 1)) (destination, 0);
  loop fuel (fun '(m, d, source, i) =>
      let c := load8 m source in
      let m := store8 m d c in
      if c =? 0 then inr m
      else if i <? n then inl (m, d + 1, source + 1, i + 1) else inr m) (m, d, source, i).

Definition strchr (fuel : nat) (m : mem) (s c : Z) : option Z :=
  loop fuel (fun i =>
    if load8 m (s + i) =? u8 c then inr (s + i)
    else if load8 m (s + i) =? 0 then inr 0 else inl (i + 1)) 0.

Definition strrchr (fuel : nat) (m : mem) (str c : Z) : option Z :=
  loop fuel (fun '(p, last) =>
    let last := if load8 m p =? u8 c then p else last in
    if load8 m p =? 0 then inr last else inl (p + 1, last)) (str, 0).

(** [s ? s : ""] read at index [i]; the loops below stop at index 0 of [""]. *)
Definition char_at (m : mem) (s i : Z) : Z := if s =? 0 then 0 else load8 m (s + i).

Definition strcmp (fuel : nat) (m : mem) (s1 s2 : Z) : option Z :=
  loop fuel (fun i =>
    let a := char_at m s1 i in
    let b := char_at m s2 i in
    if negb (a =? 0) && (a =? b) then inl (i + 1) else inr (a - b)) 0.

Definition strncmp (fuel : nat) (m : mem) (s1 s2 n : Z) : option Z :=
  loop fuel (fun '(n, i) =>
    let a := char_at m s1 i in
    let b := char_at m s2 i in
    if 0 <? n then
      if negb (a =? b) then inr (a - b)
      else if a =? 0 then inr 0
      else inl (n - 1, i + 1)
    else inr 0) (n, 0).

Definition strcspn (fuel : nat) (m : mem) (str reject : Z) : option Z :=
  loop fuel (fun s =>
    if load8 m s =? 0 then inr (Some (s - str))
    else
      match loop fuel (fun r =>
              if load8 m r =? 0 then inr false
              else if load8 m s =? load8 m r then inr true else inl (r + 1)) reject with
      | None => inr None
      | Some true => inr (Some (s - str))
      | Some false => inl (s + 1)
      end) str ≫= id.

(** [while (n && (star d++ = star src++)) n--], leaving memory, [d] and [n]. *)
Definition bounded_copy (fuel : nat) (m : mem) (d src n : Z) : option (mem * Z * Z) :=
  loop fuel (fun '(m, d, src, n) =>
    if n =? 0 then inr (m, d, n)
    else
      let c := load8 m src in
      let m := store8 m d c in
      if c =? 0 then inr (m, d + 1, n) else inl (m, d + 1, src + 1, n - 1)) (m, d, src, n).

Definition strncat (fuel : nat) (m : mem) (dest src n : Z) : option (Z * mem) :=
  len ← strlen fuel m dest;
  '(m, d, n) ← bounded_copy fuel m (dest + len) src n;
  Some (dest, if nonzero n then store8 m d 0 else m).

Definition strncpy (fuel : nat) (m : mem) (dest src n : Z) : option (Z * mem) :=
  '(m, d, n) ← bounded_copy fuel m dest src n;
  Some (dest, if nonzero n then for_ 0 (n - 1) (fun j m => store8 m (d + j) 0) m else m).

Definition stpncpy (m : mem) (s1 s2 n : Z) : Z * mem :=
  let '(i, m) :=
    match for_exit 0 n (fun i m =>
            if load8 m (s2 + i) =? 0 then inr (i, m)
            else inl (store8 m (s1 + i) (load8 m (s2 + i)))) m with
    | inl m => (n, m)
    | inr im => im
    end in
  let m := if i <? n then for_ (i + 1) n (fun j m => store8 m (s1 + j) 0) (store8 m (s1 + i) 0)
           else m in
  (s1 + n, m).

(** Skip while [strchr(delim, c)] is (or, for [want = false], is not) found. *)
Definition tok_scan (fuel : nat) (m : mem) (delim str : Z) (want : bool) : option Z :=
  loop fuel (fun str =>
    if load8 m str =? 0 then inr (Some str)
    else
      match strchr fuel m delim (load8 m str) with
      | None => inr None
      | Some r => if eqb (nonzero r) want then inl (str + 1) else inr (Some str)
      end) str ≫= id.

Definition strtok_r (fuel : nat) (m : mem) (str delim saveptr : Z) : option (Z * mem) :=
  let str := if str =? 0 then load64 m saveptr else str in
  if str =? 0 then Some (0, m)
  else
    start ← tok_scan fuel m delim str true;
    if load8 m start =? 0 then Some (0, m)
    else
      str ← tok_scan fuel m delim start false;
      let '(m, str) := if nonzero (load8 m str) then (store8 m str 0, str + 1) else (m, str) in
      Some (start, store64 m saveptr str).

(** [int] arithmetic that would overflow is undefined: [Some None]. *)
Definition int_ok (x : Z) : bool := (- 2 ^ 31 <=? x) && (x <? 2 ^ 31).
Definition is_digit (c : Z) : bool := (48 <=? c) && (c <=? 57).

Definition atoi (fuel : nat) (m : mem) (str : Z) : option (option Z) :=
  if str =? 0 then Some (Some 0)
  else
    str ← loop fuel (fun str =>
      if (load8 m str =? 32) || (load8 m str =? 9) then inl (str + 1) else inr str) str;
    let '(is_negative, str) := if load8 m str =? 45 then (true, str + 1) else (false, str) in
    if negb (is_digit (load8 m str)) then Some (Some 0)
    else
      loop fuel (fun '(ret, str) =>
        if is_digit (load8 m str) then
          if int_ok (ret * 10) && int_ok (ret * 10 + (load8 m str - 48))
          then inl (ret * 10 + (load8 m str - 48), str + 1)
          else inr None
        else inr (if is_negative then Some (ret * -1) else Some ret)) (0, str).

(** ** Strings in memory *)

Fixpoint cstr (m : mem) (a : Z) (l : list Z) : Prop :=
  match l with
  | [] => load8 m a = 0
  | c :: l => load8 m a = c /\ c <> 0 /\ cstr m (a + 1) l
  end.

Abbreviation len l := (Z.of_nat (length l)).

Lemma cstr_agree (P : Z -> Prop) m m' a l :
  agree P m m' -> (forall b, a <= b < a + len l + 1 -> P b) -> cstr m a l -> cstr m' a l.
Proof.
  intros Hag. revert a. induction l as [|c l IH]; intros a HP; simpl in *.
  - by rewrite Hag by (apply HP; lia).
  - intros (H1 & H2 & H3). rewrite Hag by (apply HP; lia). split_and!; [done|done|].
    apply IH; [|done]. intros b Hb. apply HP. lia.
Qed.

Lemma cstr_range m a l c : cstr m a l -> c ∈ l -> 0 < c < 256.
Proof.
  revert a. induction l as [|d l IH]; intros a Hl Hc; [by apply elem_of_nil in Hc|].
  destruct Hl as (H1 & H2 & H3). apply elem_of_cons in Hc as [->|Hc]; [|by eapply IH].
  pose proof (load8_range m a). lia.
Qed.

Lemma cstr_lookup m a l (i : nat) c : cstr m a l -> l !! i = Some c -> load8 m (a + Z.of_nat i) = c.
Proof.
  revert a i. induction l as [|d l IH]; intros a [|i] Hl Hc; [done|done|..];
    destruct Hl as (H1 & H2 & H3); simpl in Hc.
  - injection Hc as <-. by rewrite Z.add_0_r.
  - rewrite <- (IH (a + 1) i) by done. f_equal. lia.
Qed.

Lemma cstr_end m a l : cstr m a l -> load8 m (a + len l) = 0.
Proof.
  revert a. induction l as [|d l IH]; intros a Hl; simpl.
  - by rewrite Z.add_0_r.
  - destruct Hl as (H1 & H2 & H3). rewrite <- (IH (a + 1)) by done. f_equal. lia.
Qed.

Lemma cstr_drop m a l (k : nat) : cstr m a l -> (k <= length l)%nat -> cstr m (a + Z.of_nat k) (drop k l).
Proof.
  revert a k. induction l as [|d l IH]; intros a [|k] Hl Hk; simpl in *; try by rewrite Z.add_0_r.
  - lia.
  - destruct Hl as (H1 & H2 & H3). replace (a + Z.of_nat (S k)) with (a + 1 + Z.of_nat k) by lia.
    apply IH; [done|lia].
Qed.

(** The characters without the terminator. *)
Fixpoint cells (m : mem) (a : Z) (l : list Z) : Prop :=
  match l with
  | [] => True
  | c :: l => load8 m a = c /\ c <> 0 /\ cells m (a + 1) l
  end.

Lemma cstr_app m a l1 l2 : cstr m a (l1 ++ l2) <-> cells m a l1 /\ cstr m (a + len l1) l2.
Proof.
  revert a. induction l1 as [|c l IH]; intros a; simpl.
  - rewrite Z.add_0_r. tauto.
  - rewrite IH. replace (a + Z.of_nat (S (length l))) with (a + 1 + len l) by lia. tauto.
Qed.

Lemma cells_agree (P : Z -> Prop) m m' a l :
  agree P m m' -> (forall b, a <= b < a + len l -> P b) -> cells m a l -> cells m' a l.
Proof.
  intros Hag. revert a. induction l as [|c l IH]; intros a HP; simpl in *; [done|].
  intros (H1 & H2 & H3). rewrite Hag by (apply HP; lia). split_and!; [done|done|].
  apply IH; [|done]. intros b Hb. apply HP. lia.
Qed.

Lemma cstr_cells m a l : cstr m a l -> cells m a l.
Proof. intros H. rewrite <- (app_nil_r l) in H. by apply cstr_app in H as [H _]. Qed.

(** ** Length and comparison *)

Lemma strlen_from fuel m s ret l :
  cstr m (s + ret) l -> (length l < fuel)%nat ->
  loop fuel (fun ret => if load8 m (s + ret) =? 0 then inr ret else inl (ret + 1)) ret
  = Some (ret + len l).
Proof.
  revert fuel ret. induction l as [|c l IH]; intros [|fuel] ret Hl Hf; simpl in *; try lia.
  - rewrite Hl. simpl. f_equal. lia.
  - destruct Hl as (H1 & H2 & H3). rewrite H1. destruct (c =? 0) eqn:E; [lia|].
    rewrite IH; [f_equal; lia| |lia]. by replace (s + (ret + 1)) with (s + ret + 1) by lia.
Qed.

Lemma strlen_ok fuel m s l : cstr m s l -> (length l < fuel)%nat -> strlen fuel m s = Some (len l).
Proof. intros Hl Hf. apply (strlen_from fuel m s 0 l); [by rewrite Z.add_0_r|done]. Qed.

(** [strnlen] may look one character too far: with a longer string the result
    is [maxlen + 1]. *)
Lemma strnlen_from fuel m s ret l maxlen :
  cstr m (s + ret) l -> (length l < fuel)%nat -> 0 <= ret <= maxlen + 1 ->
  loop fuel (fun ret =>
    if negb (load8 m (s + ret) =? 0) && (ret <=? maxlen) then inl (ret + 1) else inr ret) ret
  = Some (Z.min (ret + len l) (maxlen + 1)).
Proof.
  revert fuel ret. induction l as [|c l IH]; intros [|fuel] ret Hl Hf Hr; simpl in *; try lia.
  - rewrite Hl. simpl. f_equal. lia.
  - destruct Hl as (H1 & H2 & H3). rewrite H1. destruct (c =? 0) eqn:E; [lia|]. simpl.
    destruct (ret <=? maxlen) eqn:E2; [|f_equal; lia].
    rewrite IH; [f_equal; lia| |lia|lia]. by replace (s + (ret + 1)) with (s + ret + 1) by lia.
Qed.

(** Comparison of the character lists, the shorter one extended by a 0. *)
Fixpoint str_cmp (l1 l2 : list Z) : Z :=
  match l1, l2 with
  | [], [] => 0
  | [], d :: _ => 0 - d
  | c :: _, [] => c
  | c :: l1, d :: l2 => if c =? d then str_cmp l1 l2 else c - d
  end.

(** Lexicographic order. *)
Fixpoint str_lt (l1 l2 : list Z) : Prop :=
  match l1, l2 with
  | _, [] => False
  | [], _ :: _ => True
  | c :: l1, d :: l2 => c < d \/ c = d /\ str_lt l1 l2
  end.

Lemma str_cmp_spec l1 l2 :
  (forall c, c ∈ l1 -> 0 < c) -> (forall c, c ∈ l2 -> 0 < c) ->
  (str_cmp l1 l2 = 0 <-> l1 = l2) /\ (str_cmp l1 l2 < 0 <-> str_lt l1 l2).
Proof.
  revert l2. induction l1 as [|c l1 IH]; intros [|d l2] H1 H2; simpl.
  - split; [done|lia].
  - specialize (H2 d ltac:(left)). split; [split; [lia|done]|]. split; [done|lia].
  - specialize (H1 c ltac:(left)). split; [split; [lia|done]|]. split; [lia|done].
  - destruct (IH l2) as [I1 I2]; [intros; apply H1; by right|intros; apply H2; by right|].
    destruct (c =? d) eqn:E.
    + assert (c = d) as -> by lia. rewrite I1, I2. split; [split; [by intros ->|by intros [= ->]]|].
      split; [by right|]. intros [?|[_ ?]]; [lia|done].
    + split; [split; [lia|intros [= -> ->]; lia]|]. split; [by left; lia|].
      intros [?|[-> _]]; lia.
Qed.

Lemma str_cmp_range l1 l2 :
  (forall c, c ∈ l1 -> 0 < c < 256) -> (forall c, c ∈ l2 -> 0 < c < 256) ->
  -256 < str_cmp l1 l2 < 256.
Proof.
  revert l2. induction l1 as [|c l1 IH]; intros [|d l2] H1 H2; simpl; [lia|..].
  - specialize (H2 d ltac:(left)). lia.
  - specialize (H1 c ltac:(left)). lia.
  - destruct (c =? d); [apply IH; intros; [apply H1|apply H2]; by right|].
    specialize (H1 c ltac:(left)). specialize (H2 d ltac:(left)). lia.
Qed.

(** A NULL argument reads as the empty string. *)
Definition arg (m : mem) (s : Z) (l : list Z) : Prop := if s =? 0 then l = [] else cstr m s l.

(** The rest of an argument, from the character at [i]. *)
Definition arg_at (m : mem) (s i : Z) (l : list Z) : Prop :=
  if s =? 0 then l = [] else cstr m (s + i) l.

Lemma arg_arg_at m s l : arg m s l -> arg_at m s 0 l.
Proof. unfold arg, arg_at. destruct (s =? 0); [done|by rewrite Z.add_0_r]. Qed.

Lemma char_at_nil m s i : arg_at m s i [] -> char_at m s i = 0.
Proof. unfold arg_at, char_at. by destruct (s =? 0). Qed.

Lemma char_at_cons m s i c l :
  arg_at m s i (c :: l) -> char_at m s i = c /\ c <> 0 /\ arg_at m s (i + 1) l.
Proof.
  unfold arg_at, char_at. destruct (s =? 0); [done|].
  intros (H1 & H2 & H3). by replace (s + (i + 1)) with (s + i + 1) by lia.
Qed.

Lemma arg_range m s i l c : arg_at m s i l -> c ∈ l -> 0 < c < 256.
Proof.
  unfold arg_at. destruct (s =? 0); [intros ->; by intros H%elem_of_nil|apply cstr_range].
Qed.

Lemma strcmp_from fuel m s1 s2 i l1 l2 :
  arg_at m s1 i l1 -> arg_at m s2 i l2 -> (length l1 < fuel)%nat ->
  loop fuel (fun i =>
    let a := char_at m s1 i in
    let b := char_at m s2 i in
    if negb (a =? 0) && (a =? b) then inl (i + 1) else inr (a - b)) i = Some (str_cmp l1 l2).
Proof.
  revert fuel i l2. induction l1 as [|c l1 IH]; intros [|fuel] i l2 Ha Hb Hf; cbn [loop length] in *; try lia.
  - apply char_at_nil in Ha as ->. simpl. destruct l2 as [|d l2]; simpl.
    + by rewrite (char_at_nil _ _ _ Hb).
    + by destruct (char_at_cons _ _ _ _ _ Hb) as (-> & _).
  - destruct (char_at_cons _ _ _ _ _ Ha) as (-> & Hc & Ha'). cbv zeta.
    destruct (c =? 0) eqn:E0; [lia|]. cbn [negb andb]. destruct l2 as [|d l2].
    + rewrite (char_at_nil _ _ _ Hb), E0. simpl. f_equal. lia.
    + destruct (char_at_cons _ _ _ _ _ Hb) as (-> & Hd & Hb'). simpl.
      destruct (c =? d) eqn:E; [|done]. apply IH; [done|done|lia].
Qed.

(** [strcmp] terminates and orders strings lexicographically by unsigned
    characters, a NULL argument counting as the empty string: the result is 0
    exactly for equal strings, negative exactly when the first comes first. *)
Theorem strcmp_orders fuel m s1 s2 l1 l2 :
  arg m s1 l1 -> arg m s2 l2 -> (length l1 < fuel)%nat ->
  exists r, strcmp fuel m s1 s2 = Some r /\ -256 < r < 256 /\
    (r = 0 <-> l1 = l2) /\ (r < 0 <-> str_lt l1 l2).
Proof.
  intros H1%arg_arg_at H2%arg_arg_at Hf. exists (str_cmp l1 l2).
  split; [by apply strcmp_from|].
  assert (Hc1 : forall c, c ∈ l1 -> 0 < c < 256) by (intros c; by apply (arg_range m s1 0)).
  assert (Hc2 : forall c, c ∈ l2 -> 0 < c < 256) by (intros c; by apply (arg_range m s2 0)).
  split; [by apply str_cmp_range|]. apply str_cmp_spec; intros c Hc; [by apply Hc1|by apply Hc2].
Qed.

(** [strncmp] is [strcmp] on the first [n] characters. *)
Lemma strncmp_from fuel m s1 s2 n i l1 l2 :
  arg_at m s1 i l1 -> arg_at m s2 i l2 -> 0 <= n -> (length l1 < fuel)%nat ->
  loop fuel (fun '(n, i) =>
    let a := char_at m s1 i in
    let b := char_at m s2 i in
    if 0 <? n then
      if negb (a =? b) then inr (a - b)
      else if a =? 0 then inr 0
      else inl (n - 1, i + 1)
    else inr 0) (n, i) = Some (str_cmp (take (Z.to_nat n) l1) (take (Z.to_nat n) l2)).
Proof.
  revert fuel n i l2. induction l1 as [|c l1 IH]; intros [|fuel] n i l2 Ha Hb Hn Hf;
    cbn [loop length] in *; try lia; cbv zeta.
  - destruct (0 <? n) eqn:En; [|by replace (Z.to_nat n) with O by lia].
    replace (Z.to_nat n) with (S (Z.to_nat (n - 1))) by lia.
    apply char_at_nil in Ha as ->. destruct l2 as [|d l2].
    + by rewrite (char_at_nil _ _ _ Hb).
    + destruct (char_at_cons _ _ _ _ _ Hb) as (-> & Hd & _).
      destruct (0 =? d) eqn:E; [lia|done].
  - destruct (0 <? n) eqn:En; [|by replace (Z.to_nat n) with O by lia].
    replace (Z.to_nat n) with (S (Z.to_nat (n - 1))) by lia.
    destruct (char_at_cons _ _ _ _ _ Ha) as (-> & Hc & Ha'). destruct l2 as [|d l2].
    + rewrite (char_at_nil _ _ _ Hb). destruct (c =? 0) eqn:E; [lia|]. simpl. f_equal. lia.
    + destruct (char_at_cons _ _ _ _ _ Hb) as (-> & Hd & Hb'). simpl.
      destruct (c =? d) eqn:E; [|done]. destruct (c =? 0) eqn:E0; [lia|]. simpl.
      apply IH; (done || lia).
Qed.

(** ** Copying *)

(** [l], then the terminator, written at [d]; everything else as before. *)
Definition wrote (d : Z) (l : list Z) (m m' : mem) : Prop :=
  cstr m' d l /\ agree (outside d (d + len l + 1)) m m'.

Lemma copy_str_ok fuel m d s l :
  cstr m s l -> (length l < fuel)%nat -> d + len l < s \/ s + len l < d ->
  exists m', copy_str fuel m d s = Some (d + len l, m') /\ wrote d l m m'.
Proof.
  unfold copy_str. revert fuel m d s. induction l as [|c l IH]; intros [|fuel] m d s Hl Hf Hds;
    cbn [loop length cstr] in *; try lia.
  - rewrite Hl. exists (store8 m d 0). split; [by rewrite Z.add_0_r|]. split.
    + simpl. by rewrite load8_store8_eq.
    + eapply agree_weaken; [apply agree_store8|]. unfold outside. simpl. lia.
  - destruct Hl as (H1 & H2 & H3). cbv zeta. rewrite H1. destruct (c =? 0) eqn:E; [lia|].
    assert (Hc : 0 <= c < 256) by (rewrite <- H1; auto with bounds).
    destruct (IH fuel (store8 m d c) (d + 1) (s + 1)) as (m' & -> & Hw & Hag); [|lia|lia|].
    { eapply cstr_agree; [apply agree_store8| |exact H3]. intros b Hb. unfold outside. lia. }
    exists m'. split; [f_equal; f_equal; lia|]. split.
    + cbn [cstr]. split_and!; [|done|done]. rewrite Hag by (unfold outside; lia).
      rewrite load8_store8_eq. by apply Z.mod_small.
    + intros b Hb. rewrite Hag, load8_store8_ne; [done|..]; unfold outside in *; cbn [length] in *; lia.
Qed.

Lemma stpcpy_ok fuel m d s l :
  cstr m s l -> (length l < fuel)%nat -> d + len l < s \/ s + len l < d ->
  exists m', stpcpy fuel m d s = Some (d + len l, m') /\ wrote d l m m'.
Proof. apply copy_str_ok. Qed.

Lemma strcpy_ok fuel m d s l :
  cstr m s l -> (length l < fuel)%nat -> d + len l < s \/ s + len l < d ->
  exists m', strcpy fuel m d s = Some (d, m') /\ wrote d l m m'.
Proof.
  intros Hl Hf Hds. destruct (copy_str_ok fuel m d s l Hl Hf Hds) as (m' & Hr & Hw).
  exists m'. unfold strcpy. by rewrite Hr.
Qed.

(** The scan for the terminator that [strcat] starts with. *)
Lemma find_end fuel m d l :
  cstr m d l -> (length l < fuel)%nat ->
  loop fuel (fun d => if load8 m d =? 0 then inr d else inl (d + 1)) d = Some (d + len l).
Proof.
  revert fuel d. induction l as [|c l IH]; intros [|fuel] d Hl Hf; cbn [loop length cstr] in *; try lia.
  - rewrite Hl. simpl. by rewrite Z.add_0_r.
  - destruct Hl as (H1 & H2 & H3). rewrite H1. destruct (c =? 0) eqn:E; [lia|].
    rewrite IH by (done || lia). f_equal. lia.
Qed.

(** [strcat] on a buffer disjoint from the second string leaves the
    concatenation there, returns the buffer and writes nothing but the
    appended characters and their terminator. *)
Theorem strcat_appends fuel m d s l1 l2 :
  cstr m d l1 -> cstr m s l2 -> (length l1 + length l2 < fuel)%nat ->
  d + len l1 + len l2 < s \/ s + len l2 < d ->
  exists m', strcat fuel m d s = Some (d, m') /\ cstr m' d (l1 ++ l2) /\
    agree (outside (d + len l1) (d + len l1 + len l2 + 1)) m m'.
Proof.
  intros H1 H2 Hf Hds. unfold strcat. rewrite (find_end fuel m d l1) by (done || lia).
  destruct (copy_str_ok fuel m (d + len l1) s l2) as (m' & Hr & Hw & Hag); [done|lia|lia|].
  exists m'. cbn [mbind option_bind]. rewrite Hr. split; [done|]. split; [|done].
  apply cstr_app. split; [|done]. eapply cells_agree; [exact Hag| |by apply cstr_cells].
  intros b Hb. unfold outside. lia.
Qed.

(** What [bounded_copy] does: the string runs out first, its terminator
    written, or [n] characters are copied and none is. *)
Lemma bounded_copy_ok fuel m d s n l :
  cstr m s l -> (length l < fuel)%nat -> 0 <= n -> d + n <= s \/ s + len l < d ->
  exists m', bounded_copy fuel m d s n
    = Some (if decide (len l < n) then (m', d + len l + 1, n - len l) else (m', d + n, 0)) /\
    (forall i, 0 <= i < Z.min n (len l + 1) -> load8 m' (d + i) = default 0 (l !! Z.to_nat i)) /\
    agree (outside d (d + Z.min n (len l + 1))) m m'.
Proof.
  unfold bounded_copy. revert fuel m d s n.
  induction l as [|c l IH]; intros [|fuel] m d s n Hl Hf Hn Hds; cbn [loop length cstr] in *; try lia.
  - destruct (n =? 0) eqn:En.
    { exists m. assert (n = 0) as -> by lia. rewrite decide_False by lia. rewrite Z.add_0_r.
      split_and!; [done|lia|by intros b Hb]. }
    rewrite Hl. exists (store8 m d 0). rewrite decide_True by lia. split_and!.
    + simpl. by rewrite Z.add_0_r, Z.sub_0_r.
    + intros i Hi. replace i with 0 by lia. by rewrite Z.add_0_r, load8_store8_eq.
    + eapply agree_weaken; [apply agree_store8|]. unfold outside. lia.
  - destruct (n =? 0) eqn:En.
    { exists m. assert (n = 0) as -> by lia. rewrite decide_False by lia. rewrite Z.add_0_r.
      split_and!; [done|lia|by intros b Hb]. }
    destruct Hl as (H1 & H2 & H3). cbv zeta. rewrite H1. destruct (c =? 0) eqn:E; [lia|].
    assert (Hc : 0 <= c < 256) by (rewrite <- H1; auto with bounds).
    destruct (IH fuel (store8 m d c) (d + 1) (s + 1) (n - 1)) as (m' & -> & Hw & Hag);
      [|lia|lia|lia|].
    { eapply cstr_agree; [apply agree_store8| |exact H3]. intros b Hb. unfold outside. lia. }
    exists m'. split_and!.
    + f_equal. repeat case_decide; try lia; repeat apply (f_equal2 pair); (done || lia).
    + intros i Hi. destruct (decide (i = 0)) as [->|Hi0].
      * rewrite Z.add_0_r, Hag by (unfold outside; lia). rewrite load8_store8_eq. by apply Z.mod_small.
      * replace (Z.to_nat i) with (S (Z.to_nat (i - 1))) by lia. simpl.
        rewrite <- Hw by lia. f_equal. lia.
    + intros b Hb. rewrite Hag, load8_store8_ne; [done|..]; unfold outside in *; lia.
Qed.

(** A run of zero stores. *)
Lemma zero_fill m d lo hi b :
  lo <= hi ->
  load8 (for_ lo hi (fun j m => store8 m (d + j) 0) m) b
  = if decide (d + lo <= b < d + hi) then 0 else load8 m b.
Proof.
  intros Hle. revert b.
  pattern hi, (for_ lo hi (fun j m => store8 m (d + j) 0) m). apply for_ind; [done| |].
  - intros b. by rewrite decide_False by lia.
  - intros j m' Hj Hm b. rewrite load8_store8, Hm. repeat case_decide; (lia || done).
Qed.

(** [n] characters of [l], padded with zeros, written at [d]. *)
Definition padded (d n : Z) (l : list Z) (m m' : mem) : Prop :=
  forall b, load8 m' b = if decide (d <= b < d + n) then default 0 (l !! Z.to_nat (b - d))
                         else load8 m b.

Lemma strncpy_ok fuel m d s n l :
  cstr m s l -> (length l < fuel)%nat -> 0 <= n -> d + n <= s \/ s + len l < d ->
  exists m', strncpy fuel m d s n = Some (d, m') /\ padded d n l m m'.
Proof.
  intros Hl Hf Hn Hds. unfold strncpy.
  destruct (bounded_copy_ok fuel m d s n l Hl Hf Hn Hds) as (m1 & -> & Hw & Hag).
  case_decide as D; cbn [mbind option_bind]; unfold nonzero.
  - destruct (n - len l =? 0) eqn:E; [lia|]. cbn [negb]. eexists. split; [done|]. intros b.
    rewrite zero_fill by lia. case_decide as D1.
    + rewrite decide_True by lia. by rewrite lookup_ge_None_2 by lia.
    + case_decide as D2.
      * rewrite <- (Hw (b - d)) by lia. f_equal. lia.
      * apply Hag. unfold outside. lia.
  - cbn. exists m1. split; [done|]. intros b. case_decide as D2.
    + rewrite <- (Hw (b - d)) by lia. f_equal. lia.
    + apply Hag. unfold outside. lia.
Qed.

(** [stpncpy] runs one counted loop instead of the two [while] loops. *)
Lemma stpncpy_ok m d s n l :
  cstr m s l -> 0 <= n -> d + n <= s \/ s + len l < d -> padded d n l m (stpncpy m d s n).2.
Proof.
  intros Hl Hn Hds. unfold stpncpy.
  match goal with |- context [for_exit 0 n ?body m] =>
    unshelve epose proof (for_exit_ind
      (fun i m' => i <= len l /\ padded d i l m m')
      (fun r => 0 <= r.1 < n /\ r.1 = len l /\ padded d r.1 l m r.2) 0 n body m Hn _ _) as H end.
  - split; [lia|]. intros b. by rewrite decide_False by lia.
  - cbv beta. intros i m' Hi [Hil Hp].
    assert (Hs : load8 m' (s + i) = load8 m (s + i)) by (rewrite Hp, decide_False by lia; done).
    rewrite Hs. destruct (decide (i = len l)) as [->|Hne].
    { rewrite (cstr_end m s l Hl). simpl. split_and!; (lia || done). }
    destruct (l !! Z.to_nat i) as [c|] eqn:Ec; [|apply lookup_ge_None in Ec; lia].
    assert (Hc : load8 m (s + i) = c).
    { rewrite <- (cstr_lookup m s l (Z.to_nat i) c) by done. f_equal. lia. }
    pose proof (cstr_range m s l c Hl (list_elem_of_lookup_2 _ _ _ Ec)) as Hcr.
    rewrite Hc. destruct (c =? 0) eqn:E; [lia|]. split; [lia|]. intros b.
    rewrite load8_store8, (Hp b). rewrite Z.mod_small by lia.
    repeat case_decide; try lia; try done. subst b.
    by replace (Z.to_nat (d + i - d)) with (Z.to_nat i) by lia; rewrite Ec.
  - destruct (for_exit _ _ _ _) as [m'|[i m']]; cbn [fst snd] in *.
    + destruct H as [Hil Hp]. destruct (n <? n) eqn:E; [lia|exact Hp].
    + destruct H as (Hi & -> & Hp). destruct (len l <? n) eqn:E; [|lia]. intros b. cbn [snd].
      rewrite zero_fill by lia. rewrite load8_store8, (Hp b).
      repeat case_decide; try lia; try done; by rewrite lookup_ge_None_2 by lia.
Qed.

(** [strncpy] writes exactly [n] bytes: the string cut to [n] characters and
    padded with zeros (so a string of [n] or more characters is left without a
    terminator), and nothing outside. *)
Theorem strncpy_pads fuel m d s n l :
  cstr m s l -> (length l < fuel)%nat -> 0 <= n -> d + n <= s \/ s + len l < d ->
  exists m', strncpy fuel m d s n = Some (d, m') /\ padded d n l m m'.
Proof. apply strncpy_ok. Qed.

(** [stpncpy] leaves the same memory as [strncpy], and always returns the
    address after the [n] bytes. *)
Theorem stpncpy_as_strncpy fuel m d s n l :
  cstr m s l -> (length l < fuel)%nat -> 0 <= n -> d + n <= s \/ s + len l < d ->
  exists m', strncpy fuel m d s n = Some (d, m') /\
    (stpncpy m d s n).1 = d + n /\ mem_eq m' (stpncpy m d s n).2.
Proof.
  intros Hl Hf Hn Hds. destruct (strncpy_ok fuel m d s n l Hl Hf Hn Hds) as (m' & Hr & Hp).
  exists m'. split; [done|]. split; [unfold stpncpy; by destruct (for_exit 0 n _ m) as [|[? ?]]|].
  intros b _. rewrite (stpncpy_ok m d s n l Hl Hn Hds b). symmetry. apply Hp.
Qed.

(** [strncat] on disjoint strings: it copies at most [n] characters, but it
    terminates the result only when the second string is shorter than [n], and
    then it also clears the byte after the terminator. A string of [n] or more
    characters is appended without a terminator: the byte that follows is the
    one the buffer held before. *)
Theorem strncat_terminator fuel m d s n l1 l2 :
  cstr m d l1 -> cstr m s l2 -> (length l1 + length l2 < fuel)%nat -> 0 <= n ->
  d + len l1 + n <= s \/ s + len l2 < d ->
  let e := d + len l1 in
  exists m', strncat fuel m d s n = Some (d, m') /\
    (forall i, 0 <= i < Z.min n (len l2) -> load8 m' (e + i) = default 0 (l2 !! Z.to_nat i)) /\
    (len l2 < n -> cstr m' d (l1 ++ l2) /\ load8 m' (e + len l2 + 1) = 0 /\
       agree (outside e (e + len l2 + 2)) m m') /\
    (n <= len l2 -> agree (outside e (e + n)) m m').
Proof.
  intros H1 H2 Hf Hn Hds e. unfold strncat. rewrite (strlen_ok fuel m d l1) by (done || lia).
  cbn [mbind option_bind]. fold e.
  destruct (bounded_copy_ok fuel m e s n l2) as (m1 & -> & Hw & Hag); [done|lia|done|lia|].
  assert (Hcells : cells m1 d l1).
  { eapply cells_agree; [exact Hag| |by apply cstr_cells]. unfold outside. lia. }
  case_decide as D; cbn [mbind option_bind]; unfold nonzero.
  - destruct (n - len l2 =? 0) eqn:E; [lia|]. cbn [negb].
    exists (store8 m1 (e + len l2 + 1) 0). split; [done|].
    assert (Hb : forall i, 0 <= i < len l2 + 1 ->
              load8 (store8 m1 (e + len l2 + 1) 0) (e + i) = default 0 (l2 !! Z.to_nat i)).
    { intros i Hi. rewrite load8_store8_ne by lia. apply Hw. lia. }
    split; [intros i Hi; apply Hb; lia|]. split; [|lia]. intros _. split; [|split].
    + apply cstr_app. split.
      { eapply cells_agree; [apply agree_store8| |exact Hcells]. unfold outside. lia. }
      fold e. clear -H2 Hb. revert Hb. generalize (store8 m1 (e + len l2 + 1) 0) as m'.
      generalize e. clear e. revert H2. revert s. induction l2 as [|c l IH]; intros s H2 e m' Hb.
      * simpl. rewrite <- (Z.add_0_r e). by rewrite (Hb 0).
      * destruct H2 as (E1 & E2 & E3). cbn [cstr]. split; [rewrite <- (Z.add_0_r e); by rewrite (Hb 0)|].
        split; [done|]. eapply IH; [done|]. intros i Hi. rewrite <- Z.add_assoc, Hb by (simpl; lia).
        by replace (Z.to_nat (1 + i)) with (S (Z.to_nat i)) by lia.
    + apply load8_store8_eq.
    + intros b Hb'. rewrite load8_store8_ne, Hag; [done|..]; unfold outside in *; lia.
  - cbn. exists m1. split; [done|]. split; [intros i Hi; apply Hw; lia|]. split; [lia|].
    intros _. eapply agree_weaken; [exact Hag|]. intros b. unfold outside. lia.
Qed.

(** ** Searching *)

(** The characters with the terminator, by index. *)
Lemma cstr_full m a l i :
  cstr m a l -> 0 <= i <= len l -> (l ++ [0]) !! Z.to_nat i = Some (load8 m (a + i)).
Proof.
  intros Hl Hi. destruct (decide (i = len l)) as [->|Hne].
  - rewrite (cstr_end m a l Hl), lookup_app_r by lia. by replace (Z.to_nat _ - _)%nat with O by lia.
  - rewrite lookup_app_l by lia.
    destruct (l !! Z.to_nat i) as [c|] eqn:Ec; [|apply lookup_ge_None in Ec; lia].
    rewrite <- (cstr_lookup m a l _ c Hl Ec). do 2 f_equal. lia.
Qed.

Lemma cstr_nonzero m a l i : cstr m a l -> 0 <= i < len l -> load8 m (a + i) <> 0.
Proof.
  intros Hl Hi. destruct (l !! Z.to_nat i) as [c|] eqn:Ec; [|apply lookup_ge_None in Ec; lia].
  pose proof (cstr_range m a l c Hl (list_elem_of_lookup_2 _ _ _ Ec)).
  pose proof (cstr_lookup m a l _ c Hl Ec) as Hc. replace (a + Z.of_nat (Z.to_nat i)) with (a + i) in Hc; lia.
Qed.

Lemma strchr_ok fuel m s c l :
  cstr m s l -> (length l < fuel)%nat ->
  exists r, strchr fuel m s c = Some r /\
    ((r = 0 /\ forall i, 0 <= i <= len l -> load8 m (s + i) <> u8 c) \/
     exists i, 0 <= i <= len l /\ r = s + i /\ load8 m (s + i) = u8 c /\
       forall j, 0 <= j < i -> load8 m (s + j) <> u8 c).
Proof.
  intros Hl Hf. unfold strchr.
  apply (loop_ind (fun i => 0 <= i <= len l /\ forall j, 0 <= j < i -> load8 m (s + j) <> u8 c)
           _ (fun i => len l - i)); [split; lia|lia|].
  intros i [Hi Hne]. destruct (load8 m (s + i) =? u8 c) eqn:E.
  { right. exists i. split_and!; (lia || done). }
  destruct (load8 m (s + i) =? 0) eqn:E0.
  - left. split; [done|]. assert (i = len l) as ->.
    { destruct (decide (i = len l)); [done|]. pose proof (cstr_nonzero m s l i Hl). lia. }
    intros j Hj. destruct (decide (j = len l)) as [->|]; [lia|apply Hne; lia].
  - assert (i <> len l) by (intros ->; pose proof (cstr_end m s l Hl); lia).
    split; [|lia]. split; [lia|]. intros j Hj. destruct (decide (j = i)) as [->|]; [lia|apply Hne; lia].
Qed.

Lemma strrchr_ok fuel m s c l :
  cstr m s l -> (length l < fuel)%nat ->
  exists r, strrchr fuel m s c = Some r /\
    ((r = 0 /\ forall i, 0 <= i <= len l -> load8 m (s + i) <> u8 c) \/
     exists i, 0 <= i <= len l /\ r = s + i /\ load8 m (s + i) = u8 c /\
       forall j, i < j <= len l -> load8 m (s + j) <> u8 c).
Proof.
  intros Hl Hf. unfold strrchr.
  set (found := fun k last => (last = 0 /\ forall i, 0 <= i < k -> load8 m (s + i) <> u8 c) \/
     exists i, 0 <= i < k /\ last = s + i /\ load8 m (s + i) = u8 c /\
       forall j, i < j < k -> load8 m (s + j) <> u8 c).
  apply (loop_ind (fun '(p, last) => s <= p <= s + len l /\ found (p - s) last)
           _ (fun '(p, _) => s + len l - p)); [|lia|].
  { split; [lia|left]. split; [done|lia]. }
  intros [p last] [Hp Hfd]. cbv zeta.
  assert (Hfd' : found (p - s + 1) (if load8 m p =? u8 c then p else last)).
  { destruct (load8 m p =? u8 c) eqn:E.
    - right. exists (p - s). replace (s + (p - s)) with p by lia. split_and!; lia.
    - assert (Hnp : load8 m (s + (p - s)) <> u8 c) by (replace (s + (p - s)) with p by lia; lia).
      destruct Hfd as [[-> Hne]|(i & Hi & -> & Hc & Hne)]; [left|right; exists i].
      + split; [done|]. intros i Hi. destruct (decide (i = p - s)) as [->|]; [done|apply Hne; lia].
      + split_and!; [lia..|done|]. intros j Hj.
        destruct (decide (j = p - s)) as [->|]; [done|apply Hne; lia]. }
  destruct (load8 m p =? 0) eqn:E0.
  - assert (Hend : p - s = len l).
    { destruct (decide (p - s = len l)); [done|]. pose proof (cstr_nonzero m s l (p - s) Hl) as Hz.
      replace (s + (p - s)) with p in Hz by lia. lia. }
    rewrite Hend in Hfd'. destruct Hfd' as [[-> Hne]|(i & Hi & -> & Hc & Hne)]; [left|right; exists i].
    + split; [done|]. intros i Hi. apply Hne. lia.
    + split_and!; [lia..|done|]. intros j Hj. apply Hne. lia.
  - assert (p <> s + len l) by (intros ->; pose proof (cstr_end m s l Hl); lia).
    split; [|lia]. split; [lia|]. by replace (p + 1 - s) with (p - s + 1) by lia.
Qed.

(** [strchr] returns the first and [strrchr] the last position of the
    character, the terminator included, and both return NULL exactly when it
    does not occur. *)
Theorem strchr_strrchr fuel m s c l :
  cstr m s l -> (length l < fuel)%nat -> 0 < s ->
  exists r1 r2, strchr fuel m s c = Some r1 /\ strrchr fuel m s c = Some r2 /\
    ((r1 = 0 /\ r2 = 0 /\ u8 c ∉ l ++ [0]) \/
     (s <= r1 <= r2 /\ r2 <= s + len l /\ load8 m r1 = u8 c /\ load8 m r2 = u8 c /\
      forall b, s <= b <= s + len l -> load8 m b = u8 c -> r1 <= b <= r2)).
Proof.
  intros Hl Hf Hs. destruct (strchr_ok fuel m s c l Hl Hf) as (r1 & H1 & Hc1).
  destruct (strrchr_ok fuel m s c l Hl Hf) as (r2 & H2 & Hc2).
  exists r1, r2. split_and!; [done|done|].
  destruct Hc1 as [[-> Hn1]|(i & Hi & -> & Ei & Ni)], Hc2 as [[-> Hn2]|(j & Hj & -> & Ej & Nj)].
  - left. split_and!; [done|done|]. intros (k & Hk)%list_elem_of_lookup.
    pose proof (lookup_lt_Some _ _ _ Hk) as Hkl. rewrite length_app in Hkl. simpl in Hkl.
    pose proof (cstr_full m s l (Z.of_nat k) Hl ltac:(lia)) as Hk'. rewrite Nat2Z.id, Hk in Hk'.
    injection Hk' as Hk'. by apply (Hn1 (Z.of_nat k)); [lia|].
  - by apply Hn1 in Ej; [|lia].
  - by apply Hn2 in Ei; [|lia].
  - right. assert (Hij : forall k, 0 <= k <= len l -> load8 m (s + k) = u8 c -> i <= k <= j).
    { intros k Hk Ek. split.
      - destruct (decide (i <= k)); [done|]. by apply Ni in Ek; [|lia].
      - destruct (decide (k <= j)); [done|]. by apply Nj in Ek; [|lia]. }
    pose proof (Hij i ltac:(lia) Ei). split_and!; [lia..|done|done|]. intros b Hb Eb.
    specialize (Hij (b - s)). replace (s + (b - s)) with b in Hij by lia.
    specialize (Hij ltac:(lia) Eb). lia.
Qed.

(** ** Spans and tokens *)

Fixpoint take_while (p : Z -> bool) (l : list Z) : list Z :=
  match l with
  | [] => []
  | c :: l => if p c then c :: take_while p l else []
  end.

Lemma take_while_prefix p l : exists l', l = take_while p l ++ l' /\
  match l' with [] => True | c :: _ => p c = false end.
Proof.
  induction l as [|c l (l' & IH & Hh)]; [by exists []|]. simpl. destruct (p c) eqn:E.
  - exists l'. split; [by rewrite IH at 1|done].
  - by exists (c :: l).
Qed.

Lemma take_while_drop p l :
  l = take_while p l ++ drop (length (take_while p l)) l /\
  match drop (length (take_while p l)) l with [] => True | c :: _ => p c = false end.
Proof.
  destruct (take_while_prefix p l) as (l' & Hl & Hh).
  assert (Hd : drop (length (take_while p l)) l = l') by (rewrite Hl at 2; apply drop_app_length).
  rewrite Hd. done.
Qed.

(** Membership of a character in a set given as a string. *)
Lemma strchr_mem fuel m s c l :
  cstr m s l -> (length l < fuel)%nat -> 0 < s -> 0 < c < 256 ->
  exists r, strchr fuel m s c = Some r /\ nonzero r = bool_decide (c ∈ l).
Proof.
  intros Hl Hf Hs Hc. destruct (strchr_ok fuel m s c l Hl Hf) as (r & Hr & Hcase).
  exists r. split; [done|]. rewrite (u8_id c) in Hcase by lia. unfold nonzero.
  destruct Hcase as [[-> Hne]|(i & Hi & -> & Ei & _)].
  - rewrite bool_decide_false; [done|]. intros (k & Hk)%list_elem_of_lookup.
    pose proof (lookup_lt_Some _ _ _ Hk). apply (Hne (Z.of_nat k)); [lia|].
    by apply (cstr_lookup m s l).
  - assert (i < len l).
    { destruct (decide (i < len l)); [done|]. assert (i = len l) as -> by lia.
      rewrite (cstr_end m s l Hl) in Ei. lia. }
    rewrite bool_decide_true; [|].
    + by destruct (s + i =? 0) eqn:E; [lia|].
    + destruct (l !! Z.to_nat i) as [d|] eqn:Ed; [|apply lookup_ge_None in Ed; lia].
      pose proof (cstr_lookup m s l _ d Hl Ed) as Hd.
      replace (s + Z.of_nat (Z.to_nat i)) with (s + i) in Hd by lia.
      apply list_elem_of_lookup_2 in Ed. congruence.
Qed.

(** [strcspn]'s own scan of the reject string. *)
Lemma reject_scan fuel m c r l :
  cstr m r l -> (length l < fuel)%nat -> c <> 0 ->
  loop fuel (fun r =>
    if load8 m r =? 0 then inr false
    else if c =? load8 m r then inr true else inl (r + 1)) r = Some (bool_decide (c ∈ l)).
Proof.
  revert fuel r. induction l as [|d l IH]; intros [|fuel] r Hl Hf Hc; cbn [loop length cstr] in *; try lia.
  - by rewrite Hl.
  - destruct Hl as (H1 & H2 & H3). rewrite H1. destruct (d =? 0) eqn:E; [lia|].
    destruct (c =? d) eqn:E2.
    + rewrite bool_decide_true; [done|]. assert (c = d) as -> by lia. by left.
    + rewrite IH by (done || lia). f_equal. apply bool_decide_ext. rewrite elem_of_cons. split; [by right|].
      intros [->|]; [lia|done].
Qed.

Lemma strcspn_ok fuel m str reject l rl :
  cstr m str l -> cstr m reject rl -> (length l < fuel)%nat -> (length rl < fuel)%nat ->
  strcspn fuel m str reject = Some (len (take_while (fun c => bool_decide (c ∉ rl)) l)).
Proof.
  intros Hl Hr Hf Hfr. unfold strcspn.
  assert (H : forall f s l', cstr m s l' -> (length l' < f)%nat -> 
    loop f (fun s =>
      if load8 m s =? 0 then inr (Some (s - str))
      else match loop fuel (fun r => if load8 m r =? 0 then inr false
                  else if load8 m s =? load8 m r then inr true else inl (r + 1)) reject with
           | None => inr None | Some true => inr (Some (s - str)) | Some false => inl (s + 1) end) s
    = Some (Some (s - str + len (take_while (fun c => bool_decide (c ∉ rl)) l')))).
  { intros f. induction f as [|f IH]; intros s l' Hs Hf'; [lia|]. cbn [loop].
    destruct l' as [|c l']; cbn [cstr length take_while] in *.
    - rewrite Hs. simpl. do 2 f_equal. lia.
    - destruct Hs as (H1 & H2 & H3). rewrite H1. destruct (c =? 0) eqn:E; [lia|].
      rewrite (reject_scan fuel m c reject rl) by done. destruct (decide (c ∈ rl)) as [D|D].
      + rewrite (bool_decide_true (c ∈ rl)) by done. rewrite bool_decide_false by auto. simpl. do 2 f_equal. lia.
      + rewrite (bool_decide_false (c ∈ rl)) by done. rewrite bool_decide_true by done.
        rewrite (IH (s + 1) l') by (done || lia). cbn [length]. do 2 f_equal. lia. }
  rewrite (H fuel str l Hl Hf). simpl. f_equal. lia.
Qed.

Lemma tok_scan_ok fuel m delim a want l ds :
  cstr m a l -> cstr m delim ds -> 0 < delim -> (length l < fuel)%nat -> (length ds < fuel)%nat ->
  tok_scan fuel m delim a want
  = Some (a + len (take_while (fun c => eqb (bool_decide (c ∈ ds)) want) l)).
Proof.
  intros Hl Hd Hpos Hf Hfd. unfold tok_scan.
  assert (H : forall f s l', cstr m s l' -> (length l' < f)%nat ->
    loop f (fun str =>
      if load8 m str =? 0 then inr (Some str)
      else match strchr fuel m delim (load8 m str) with
           | None => inr None
           | Some r => if eqb (nonzero r) want then inl (str + 1) else inr (Some str) end) s
    = Some (Some (s + len (take_while (fun c => eqb (bool_decide (c ∈ ds)) want) l')))).
  { intros f. induction f as [|f IH]; intros s l' Hs Hf'; [lia|]. cbn [loop].
    destruct l' as [|c l']; cbn [cstr length take_while] in *.
    - rewrite Hs. simpl. do 2 f_equal. lia.
    - pose proof (cstr_range m s (c :: l') c Hs ltac:(left)) as Hc.
      destruct Hs as (H1 & H2 & H3). rewrite H1. destruct (c =? 0) eqn:E; [lia|].
      destruct (strchr_mem fuel m delim c ds) as (r & -> & ->); [done..|].
      destruct (eqb _ want); [|simpl; do 2 f_equal; lia].
      rewrite (IH (s + 1) l') by (done || lia). cbn [length]. do 2 f_equal. lia. }
  by rewrite (H fuel a l Hl Hf).
Qed.

Definition skip_of (ds l : list Z) : list Z := take_while (fun c => eqb (bool_decide (c ∈ ds)) true) l.
Definition rest_of (ds l : list Z) : list Z := drop (length (skip_of ds l)) l.
Definition token_of (ds l : list Z) : list Z :=
  take_while (fun c => eqb (bool_decide (c ∈ ds)) false) (rest_of ds l).

Lemma in_take_while p l x : x ∈ take_while p l -> p x = true.
Proof.
  induction l as [|y l IH]; simpl; [by intros H%elem_of_nil|].
  destruct (p y) eqn:E; [|by intros H%elem_of_nil]. by intros [->|H]%elem_of_cons; [|apply IH].
Qed.

Lemma token_no_delim ds l x : x ∈ token_of ds l -> x ∉ ds.
Proof. intros H%in_take_while Hx. by rewrite bool_decide_true in H. Qed.

Lemma token_nonempty ds l : rest_of ds l <> [] -> token_of ds l <> [].
Proof.
  unfold token_of. pose proof (take_while_drop (fun c => eqb (bool_decide (c ∈ ds)) true) l) as [_ Hh].
  fold (skip_of ds l) in Hh. fold (rest_of ds l) in Hh.
  destruct (rest_of ds l) as [|c r]; [done|]. intros _. simpl.
  by destruct (bool_decide (c ∈ ds)).
Qed.

(** The string at [a] is its leading delimiters, the token and what follows. *)
Lemma token_split m a ds l :
  cstr m a l ->
  let start := a + len (skip_of ds l) in
  let tail := drop (length (token_of ds l)) (rest_of ds l) in
  cstr m start (rest_of ds l) /\ rest_of ds l = token_of ds l ++ tail /\
  cells m start (token_of ds l) /\ cstr m (start + len (token_of ds l)) tail /\
  len (skip_of ds l) + len (token_of ds l) + len tail = len l.
Proof.
  intros Hl start tail.
  pose proof (take_while_drop (fun c => eqb (bool_decide (c ∈ ds)) true) l) as [Hs _].
  fold (skip_of ds l) in Hs. fold (rest_of ds l) in Hs.
  pose proof (take_while_drop (fun c => eqb (bool_decide (c ∈ ds)) false) (rest_of ds l)) as [Ht _].
  fold (token_of ds l) in Ht. fold tail in Ht.
  rewrite Hs in Hl. apply cstr_app in Hl as [_ Hrest]. fold start in Hrest.
  split; [done|]. split; [done|]. pose proof Hrest as Hc. rewrite Ht in Hc.
  apply cstr_app in Hc as [H1 H2]. split_and!; [done|done|].
  apply (f_equal length) in Hs, Ht. rewrite length_app in Hs, Ht. lia.
Qed.

(** The token is closed by a terminator and the rest remembered. *)
Lemma strtok_finish m start tok tail saveptr ptr m' :
  cells m start tok -> cstr m (start + len tok) tail -> 0 <= start ->
  start + len tok + len tail < 2 ^ 64 ->
  saveptr + 8 <= start \/ start + len tok + len tail + 1 <= saveptr ->
  (m', ptr) = (if nonzero (load8 m (start + len tok))
               then (store8 m (start + len tok) 0, start + len tok + 1) else (m, start + len tok)) ->
  cstr (store64 m' saveptr ptr) start tok /\
  cstr (store64 m' saveptr ptr) (load64 (store64 m' saveptr ptr) saveptr) (drop 1 tail).
Proof.
  intros Hct Htl H0 Hlim Hsp Heq. rewrite <- (app_nil_r tok) at 1.
  assert (Hst : agree (outside saveptr (saveptr + 8)) m' (store64 m' saveptr ptr))
    by exact (agree_storen 8 m' saveptr ptr).
  destruct tail as [|c tail]; cbn [cstr length drop] in *.
  - rewrite Htl in Heq. cbn in Heq. injection Heq as -> ->.
    rewrite loadn_storen_eq by lia. rewrite cstr_app. split; [split|].
    + eapply cells_agree; [exact Hst| |done]. unfold outside. lia.
    + simpl. by rewrite Hst by (unfold outside; lia).
    + by rewrite Hst by (unfold outside; lia).
  - destruct Htl as (T1 & T2 & T3). rewrite T1 in Heq. unfold nonzero in Heq.
    destruct (c =? 0) eqn:E; [lia|]. cbn in Heq. injection Heq as -> ->.
    rewrite loadn_storen_eq by lia. rewrite cstr_app.
    pose proof (agree_store8 m (start + len tok) 0) as Hs8. split; [split|].
    + eapply cells_agree; [exact Hst|unfold outside; lia|].
      eapply cells_agree; [exact Hs8|unfold outside; lia|done].
    + cbn [cstr]. rewrite Hst by (unfold outside; lia). apply load8_store8_eq.
    + rewrite ?drop_0. eapply cstr_agree; [exact Hst|unfold outside; lia|].
      eapply cstr_agree; [exact Hs8|unfold outside; lia|done].
Qed.

(** C14 [strtok_r] on a fresh string skips the leading delimiters and returns
    the longest delimiter-free run that follows, cut off by a terminator, with
    [*saveptr] at the remaining string; when only delimiters are left it returns
    NULL and writes nothing, [*saveptr] included. *)
Theorem strtok_r_token fuel m a delim saveptr l ds :
  cstr m a l -> cstr m delim ds -> 0 < a -> 0 < delim -> a + len l < 2 ^ 64 ->
  (length l < fuel)%nat -> (length ds < fuel)%nat ->
  saveptr + 8 <= a \/ a + len l + 1 <= saveptr ->
  let tok := token_of ds l in
  let start := a + len (skip_of ds l) in
  (rest_of ds l = [] -> strtok_r fuel m a delim saveptr = Some (0, m)) /\
  (rest_of ds l <> [] -> exists m', strtok_r fuel m a delim saveptr = Some (start, m') /\
     cstr m' start tok /\ tok <> [] /\ (forall c, c ∈ tok -> c ∉ ds) /\
     cstr m' (load64 m' saveptr) (drop (length tok + 1) (rest_of ds l))).
Proof.
  intros Hl Hd Ha Hdp Hlim Hf Hfd Hsp tok start. unfold strtok_r.
  destruct (a =? 0) eqn:E0; [lia|]. rewrite E0.
  rewrite (tok_scan_ok fuel m delim a true l ds) by done. cbn [mbind option_bind].
  fold (skip_of ds l). fold start.
  destruct (token_split m a ds l Hl) as (Hrest & Ht & Hct & Htl & Hlen).
  fold start in Hrest, Hct, Htl. fold tok in Ht, Hct, Htl, Hlen.
  set (tail := drop (length tok) (rest_of ds l)) in *.
  split; intros Hr.
  { rewrite Hr in Hrest. cbn [cstr] in Hrest. by rewrite Hrest. }
  assert (Hc : load8 m start <> 0).
  { destruct (rest_of ds l); [done|]. destruct Hrest as (-> & ? & _). done. }
  destruct (load8 m start =? 0) eqn:Ec; [lia|].
  assert (Hlr : (length (rest_of ds l) < fuel)%nat) by (rewrite Ht, length_app; lia).
  rewrite (tok_scan_ok fuel m delim start false _ ds Hrest Hd Hdp Hlr Hfd). cbn [mbind option_bind].
  change (take_while _ (rest_of ds l)) with tok.
  destruct (if nonzero (load8 m (start + len tok)) then _ else _) as [m' ptr] eqn:Em. symmetry in Em.
  destruct (strtok_finish m start tok tail saveptr ptr m') as [F1 F2]; [done|done|lia|lia|lia|done|].
  eexists. split; [done|]. split_and!; [done|by apply token_nonempty|apply token_no_delim|].
  unfold tail in F2. by rewrite drop_drop in F2.
Qed.

(** ** [strlcat] *)

(** The second loop: with [k = n - i] more characters allowed, the string and
    its terminator when it has at most [k], otherwise [k + 1] characters and no
    terminator. *)
Lemma strlcat_tail fuel m d s i n l :
  cstr m s l -> (length l < fuel)%nat -> 0 <= i <= n -> d + len l < s \/ s + len l < d ->
  exists m', loop fuel (fun '(m, d, source, i) =>
      let c := load8 m source in
      let m := store8 m d c in
      if c =? 0 then inr m
      else if i <? n then inl (m, d + 1, source + 1, i + 1) else inr m) (m, d, s, i) = Some m' /\
    (forall b, b < d -> load8 m' b = load8 m b) /\
    (len l <= n - i -> cstr m' d l) /\
    (n - i < len l -> exists c, l !! Z.to_nat (n - i) = Some c /\ load8 m' (d + (n - i)) = c /\ c <> 0).
Proof.
  revert fuel m d s i. induction l as [|c l IH]; intros [|fuel] m d s i Hl Hf Hi Hds;
    cbn [loop length cstr] in *; try lia; cbv zeta.
  - rewrite Hl. exists (store8 m d 0). split_and!; [done| |..].
    + intros b Hb. apply load8_store8_ne. lia.
    + intros _. simpl. apply load8_store8_eq.
    + lia.
  - destruct Hl as (H1 & H2 & H3). rewrite H1. destruct (c =? 0) eqn:E; [lia|].
    assert (Hc : 0 <= c < 256) by (rewrite <- H1; auto with bounds).
    assert (Hcd : load8 (store8 m d c) d = c) by (rewrite load8_store8_eq; by apply Z.mod_small).
    destruct (i <? n) eqn:Ein.
    + destruct (IH fuel (store8 m d c) (d + 1) (s + 1) (i + 1)) as (m' & Hr & Hb & Hs & Hn); [|lia..|].
      { eapply cstr_agree; [apply agree_store8| |exact H3]. intros b Hb. unfold outside. lia. }
      exists m'. split_and!; [exact Hr| |..].
      * intros b Hb'. rewrite Hb, load8_store8_ne by lia. done.
      * intros Hle. cbn [cstr]. rewrite Hb by lia. split_and!; [done|done|]. apply Hs. lia.
      * intros Hlt. destruct (Hn ltac:(lia)) as (x & Hx & Hld & Hxn). exists x.
        replace (Z.to_nat (n - i)) with (S (Z.to_nat (n - (i + 1)))) by lia.
        split_and!; [done| |done]. rewrite <- Hld. f_equal. lia.
    + exists (store8 m d c). assert (i = n) as -> by lia. rewrite Z.sub_diag, Z.add_0_r.
      split_and!; [done| |lia|].
      * intros b Hb. apply load8_store8_ne. lia.
      * intros _. by exists c.
Qed.

(** [strlcat], for a buffer of [n] bytes that already holds at most [n]
    characters: a result of at most [n] characters is complete, a longer one is
    cut after [n + 1] characters, with no terminator. Either way the byte at
    offset [n], one past the buffer, may be written, and is whenever the result
    has [n] characters or more. *)
Theorem strlcat_overflow fuel m d s n l1 l2 :
  cstr m d l1 -> cstr m s l2 -> (length l1 + length l2 < fuel)%nat -> len l1 <= n ->
  d + len l1 + len l2 < s \/ s + len l2 < d ->
  exists m', strlcat fuel m d s n = Some m' /\
    (len l1 + len l2 <= n -> cstr m' d (l1 ++ l2)) /\
    (n < len l1 + len l2 -> exists c, l2 !! Z.to_nat (n - len l1) = Some c /\
       load8 m' (d + n) = c /\ c <> 0).
Proof.
  intros H1 H2 Hf Hn Hds. unfold strlcat.
  assert (Hend : forall f l i a, cstr m a l -> (length l < f)%nat -> 0 <= i -> i + len l <= n ->
    loop f (fun '(d, i) => if load8 m d =? 0 then inr (d, i)
                           else if i <? n then inl (d + 1, i + 1) else inr (d, i + 1)) (a, i)
    = Some (a + len l, i + len l)).
  { intros f. induction f as [|f IH]; intros l i a Hl Hf' Hi Hin; [lia|]. cbn [loop].
    destruct l as [|c l]; cbn [cstr length] in *.
    - rewrite Hl. simpl. by rewrite !Z.add_0_r.
    - destruct Hl as (E1 & E2 & E3). rewrite E1. destruct (c =? 0) eqn:E; [lia|].
      destruct (i <? n) eqn:Ei; [|lia].
      rewrite (IH l (i + 1) (a + 1)) by (done || lia). f_equal. f_equal; lia. }
  rewrite (Hend fuel l1 0 d) by (done || lia). cbn [mbind option_bind].
  destruct (strlcat_tail fuel m (d + len l1) s (0 + len l1) n l2) as (m' & Hr & Hb & Hs & Hc);
    [done|lia|lia|lia|].
  exists m'. split; [exact Hr|]. split.
  - intros Hle. apply cstr_app. split; [|apply Hs; lia].
    eapply (cells_agree (fun b => b < d + len l1)); [exact Hb|lia|by apply cstr_cells].
  - intros Hlt. destruct (Hc ltac:(lia)) as (c & Hc1 & Hc2 & Hc3). exists c.
    split_and!; [rewrite <- Hc1; f_equal; lia| |done]. rewrite <- Hc2. f_equal. lia.
Qed.

(** ** [atoi] *)

Definition digits_value (v : Z) (ds : list Z) : Z := foldl (fun v c => v * 10 + (c - 48)) v ds.

Lemma digits_value_mono v ds :
  0 <= v -> (forall c, c ∈ ds -> is_digit c = true) -> v <= digits_value v ds.
Proof.
  revert v. induction ds as [|c ds IH]; intros v Hv Hd; simpl; [lia|].
  pose proof (Hd c ltac:(left)) as Hc. unfold is_digit in Hc.
  etrans; [|apply IH]; [lia|lia|]. intros x Hx. apply Hd. by right.
Qed.

Definition not_digit_head (l : list Z) : Prop :=
  match l with [] => True | c :: _ => is_digit c = false end.

Lemma atoi_digits fuel m a v (neg : bool) ds rest :
  cstr m a (ds ++ rest) -> (forall c, c ∈ ds -> is_digit c = true) -> not_digit_head rest ->
  (length ds < fuel)%nat -> 0 <= v < 2 ^ 31 ->
  loop fuel (fun '(ret, str) =>
    if is_digit (load8 m str) then
      if int_ok (ret * 10) && int_ok (ret * 10 + (load8 m str - 48))
      then inl (ret * 10 + (load8 m str - 48), str + 1)
      else inr None
    else inr (if neg then Some (ret * -1) else Some ret)) (v, a)
  = Some (if digits_value v ds <? 2 ^ 31 then Some (if neg then - digits_value v ds else digits_value v ds)
          else None).
Proof.
  revert fuel a v. induction ds as [|c ds IH]; intros [|fuel] a v Hl Hd Hr Hf Hv;
    cbn [loop length app] in *; try lia.
  - assert (Hnd : is_digit (load8 m a) = false).
    { destruct rest as [|x rest]; cbn [cstr] in Hl; [by rewrite Hl|]. by destruct Hl as (-> & _). }
    rewrite Hnd. cbn [digits_value foldl]. destruct (v <? 2 ^ 31) eqn:E; [|lia].
    f_equal. destruct neg; f_equal. lia.
  - destruct Hl as (H1 & H2 & H3). rewrite H1.
    pose proof (Hd c ltac:(left)) as Hc. rewrite Hc. unfold is_digit in Hc.
    assert (Hd' : forall x, x ∈ ds -> is_digit x = true) by (intros x Hx; apply Hd; by right).
    cbn [digits_value foldl]. fold (digits_value (v * 10 + (c - 48)) ds).
    assert (Hok : int_ok (v * 10) && int_ok (v * 10 + (c - 48)) = (v * 10 + (c - 48) <? 2 ^ 31))
      by (unfold int_ok; lia).
    rewrite Hok. destruct (v * 10 + (c - 48) <? 2 ^ 31) eqn:E.
    + apply IH; (done || lia).
    + pose proof (digits_value_mono (v * 10 + (c - 48)) ds ltac:(lia) Hd').
      destruct (digits_value (v * 10 + (c - 48)) ds <? 2 ^ 31) eqn:E3; [lia|done].
Qed.

Lemma skip_blanks fuel m ws a l :
  cstr m a (ws ++ l) -> (forall c, c ∈ ws -> c = 32 \/ c = 9) -> (length ws < fuel)%nat ->
  load8 m (a + len ws) <> 32 -> load8 m (a + len ws) <> 9 ->
  loop fuel (fun str => if (load8 m str =? 32) || (load8 m str =? 9) then inl (str + 1) else inr str) a
  = Some (a + len ws).
Proof.
  revert ws a. induction fuel as [|f IH]; intros ws a Hl Hw Hf H1 H2; [lia|]. cbn [loop].
  destruct ws as [|c ws]; cbn [cstr length app] in *.
  - rewrite Z.add_0_r in *. destruct (_ || _) eqn:E; [lia|done].
  - destruct Hl as (E1 & E2 & E3). rewrite E1. pose proof (Hw c ltac:(left)).
    assert (Ha : a + 1 + len ws = a + Z.of_nat (S (length ws))) by lia.
    destruct (_ || _) eqn:E; [|lia].
    rewrite (IH ws (a + 1)); [f_equal; lia|done| |lia|by rewrite Ha|by rewrite Ha].
    intros x Hx. apply Hw. by right.
Qed.

(** [atoi] skips blanks and tabs, takes an optional minus sign and reads the
    decimal digits that follow; it is defined exactly when the digits' value
    fits in 31 bits: the text of [INT_MIN] overflows on the way. *)
Theorem atoi_decimal fuel m a ws (neg : bool) ds rest :
  a <> 0 -> cstr m a (ws ++ (if neg then [45] else []) ++ ds ++ rest) ->
  (forall c, c ∈ ws -> c = 32 \/ c = 9) -> (forall c, c ∈ ds -> is_digit c = true) ->
  ds <> [] -> not_digit_head rest -> (length ws + length ds < fuel)%nat ->
  atoi fuel m a = Some (if digits_value 0 ds <? 2 ^ 31
                        then Some (if neg then - digits_value 0 ds else digits_value 0 ds) else None).
Proof.
  intros Ha Hl Hw Hd Hne Hr Hf. unfold atoi. destruct (a =? 0) eqn:E0; [lia|].
  pose proof Hl as Hl2. apply cstr_app in Hl2 as [_ Hl2].
  destruct ds as [|c ds]; [done|]. pose proof (Hd c ltac:(left)) as Hc. unfold is_digit in Hc.
  assert (Hhead : exists x, load8 m (a + len ws) = x /\ (if neg then x = 45 else x = c) /\
     cstr m (a + len ws + (if neg then 1 else 0)) ((c :: ds) ++ rest)).
  { destruct neg; cbn [app cstr] in Hl2; [destruct Hl2 as (E1 & _ & E3)|destruct Hl2 as (E1 & E2 & E3)].
    - by exists 45.
    - exists c. rewrite Z.add_0_r. cbn [app cstr]. done. }
  destruct Hhead as (x & Hx & Hxc & Hrest).
  rewrite (skip_blanks fuel m ws a _ Hl Hw) by (rewrite ?Hx; destruct neg; lia). cbn [mbind option_bind].
  rewrite Hx.
  assert (Hsel : (if x =? 45 then (true, a + len ws + 1) else (false, a + len ws))
                 = (neg, a + len ws + (if neg then 1 else 0))).
  { destruct neg; rewrite Hxc; [done|]. destruct (c =? 45) eqn:E; [lia|]. by rewrite Z.add_0_r. }
  rewrite Hsel. pose proof Hrest as Hrest2. cbn [app cstr] in Hrest2. destruct Hrest2 as (E1 & _ & _).
  rewrite E1. rewrite (Hd c) by left. cbn [negb].
  rewrite (atoi_digits fuel m _ 0 neg (c :: ds) rest Hrest Hd Hr) by (cbn [length] in *; lia). done.
Qed.

(** ** Witnesses *)

(** ",,ab,c" at 100, "b" at 200, "," at 300, " -042x" at 400. *)
Definition demo : mem :=
  CString.store_bytes (CString.store_bytes (CString.store_bytes (CString.store_bytes ∅
    100 [44; 44; 97; 98; 44; 99; 0]) 200 [98; 0]) 300 [44; 0]) 400 [32; 45; 48; 52; 50; 120; 0].

Ltac by_eval := vm_compute; repeat split; (reflexivity || discriminate).

Lemma strcmp_orders_witness :
  (arg demo 102 [97; 98; 44; 99] /\ arg demo 0 []) /\
  exists r, strcmp 10 demo 102 0 = Some r /\ r = 97.
Proof.
  assert (H1 : arg demo 102 [97; 98; 44; 99]) by by_eval.
  assert (H2 : arg demo 0 []) by reflexivity.
  split; [split; [exact H1|exact H2]|].
  destruct (strcmp_orders 10 demo 102 0 _ _ H1 H2 ltac:(simpl; lia)) as (r & Hr & _).
  exists r. split; [exact Hr|]. revert Hr. vm_compute. by intros [= <-].
Defined.

Lemma strcat_appends_witness :
  (cstr demo 200 [98] /\ cstr demo 300 [44]) /\
  exists m', strcat 10 demo 200 300 = Some (200, m') /\ cstr m' 200 [98; 44].
Proof.
  assert (H1 : cstr demo 200 [98]) by by_eval. assert (H2 : cstr demo 300 [44]) by by_eval.
  split; [split; [exact H1|exact H2]|].
  destruct (strcat_appends 10 demo 200 300 _ _ H1 H2) as (m' & Hr & Hc & _);
    [simpl; lia|left; simpl; lia|].
  exists m'. split; [exact Hr|exact Hc].
Defined.

Lemma strncpy_pads_witness :
  cstr demo 200 [98] /\ exists m', strncpy 10 demo 500 200 3 = Some (500, m') /\
    load8 m' 500 = 98 /\ load8 m' 501 = 0 /\ load8 m' 502 = 0.
Proof.
  assert (H1 : cstr demo 200 [98]) by by_eval. split; [exact H1|].
  destruct (strncpy_pads 10 demo 500 200 3 _ H1) as (m' & Hr & Hp); [simpl; lia|lia|right; simpl; lia|].
  exists m'. split; [exact Hr|]. by rewrite !Hp.
Defined.

Lemma stpncpy_as_strncpy_witness :
  cstr demo 102 [97; 98; 44; 99] /\ (stpncpy demo 500 102 2).1 = 502 /\
  load8 (stpncpy demo 500 102 2).2 501 = 98.
Proof.
  assert (H1 : cstr demo 102 [97; 98; 44; 99]) by by_eval. split; [exact H1|].
  destruct (stpncpy_as_strncpy 10 demo 500 102 2 _ H1) as (m' & _ & Hr & _);
    [simpl; lia|lia|right; simpl; lia|].
  split; [exact Hr|vm_compute; reflexivity].
Defined.

Lemma strncat_terminator_witness :
  (cstr demo 200 [98] /\ cstr demo 102 [97; 98; 44; 99]) /\
  exists m', strncat 10 demo 200 102 2 = Some (200, m') /\ load8 m' 203 = load8 demo 203.
Proof.
  assert (H1 : cstr demo 200 [98]) by by_eval.
  assert (H2 : cstr demo 102 [97; 98; 44; 99]) by by_eval.
  split; [split; [exact H1|exact H2]|].
  destruct (strncat_terminator 10 demo 200 102 2 _ _ H1 H2) as (m' & Hr & _ & _ & Hag);
    [simpl; lia|lia|right; simpl; lia|].
  exists m'. split; [exact Hr|]. apply Hag; [simpl; lia|]. right. simpl. lia.
Defined.

Lemma strchr_strrchr_witness :
  cstr demo 100 [44; 44; 97; 98; 44; 99] /\
  exists r1 r2, strchr 10 demo 100 44 = Some r1 /\ strrchr 10 demo 100 44 = Some r2 /\
    (r1 = 100 /\ r2 = 104).
Proof.
  assert (H1 : cstr demo 100 [44; 44; 97; 98; 44; 99]) by by_eval. split; [exact H1|].
  destruct (strchr_strrchr 10 demo 100 44 _ H1) as (r1 & r2 & Hr1 & Hr2 & _); [simpl; lia|lia|].
  exists r1, r2. split; [exact Hr1|]. split; [exact Hr2|].
  revert Hr1 Hr2. vm_compute. intros [= <-] [= <-]. split; reflexivity.
Defined.

Lemma strtok_r_token_witness :
  (cstr demo 100 [44; 44; 97; 98; 44; 99] /\ cstr demo 300 [44]) /\
  exists m', strtok_r 10 demo 100 300 600 = Some (102, m') /\
    cstr m' 102 [97; 98] /\ cstr m' (load64 m' 600) [99].
Proof.
  assert (H1 : cstr demo 100 [44; 44; 97; 98; 44; 99]) by by_eval.
  assert (H2 : cstr demo 300 [44]) by by_eval. split; [split; [exact H1|exact H2]|].
  destruct (strtok_r_token 10 demo 100 300 600 _ _ H1 H2 ltac:(lia) ltac:(lia) ltac:(simpl; lia)
              ltac:(simpl; lia) ltac:(simpl; lia) ltac:(right; simpl; lia)) as [_ H].
  destruct H as (m' & Hr & Hc & _ & _ & Hs); [vm_compute; discriminate|].
  exists m'. split; [exact Hr|]. split; [exact Hc|exact Hs].
Defined.

Lemma strlcat_overflow_witness :
  (cstr demo 200 [98] /\ cstr demo 102 [97; 98; 44; 99]) /\
  exists m', strlcat 10 demo 200 102 3 = Some m' /\ load8 m' 203 <> 0.
Proof.
  assert (H1 : cstr demo 200 [98]) by by_eval.
  assert (H2 : cstr demo 102 [97; 98; 44; 99]) by by_eval.
  split; [split; [exact H1|exact H2]|].
  destruct (strlcat_overflow 10 demo 200 102 3 _ _ H1 H2) as (m' & Hr & _ & Hc);
    [simpl; lia|simpl; lia|right; simpl; lia|].
  destruct Hc as (c & _ & Hc1 & Hc2); [simpl; lia|]. exists m'. split; [exact Hr|].
  change (200 + 3) with 203 in Hc1. congruence.
Defined.

Lemma atoi_decimal_witness :
  cstr demo 400 [32; 45; 48; 52; 50; 120] /\ atoi 10 demo 400 = Some (Some (-42)).
Proof.
  assert (H1 : cstr demo 400 [32; 45; 48; 52; 50; 120]) by by_eval. split; [exact H1|].
  apply (atoi_decimal 10 demo 400 [32] true [48; 52; 50] [120]); try done.
  - intros c [->|H]%elem_of_cons; [by left|by apply elem_of_nil in H].
  - intros c Hc. repeat (apply elem_of_cons in Hc as [->|Hc]; [done|]). by apply elem_of_nil in Hc.
  - simpl. lia.
Defined.

End Strings.
