(* ===== verification/Pmm.v ===== *)
(** * Physical frame allocator (src/src/pmm.c, src/include/pmm.h)

    The allocator keeps a stack of free frame numbers and a byte of reference
    count per frame; both arrays live in RAM, just above the kernel image, and
    are modelled there: [frame_stack] and [ref_counts] are pointers into the
    machine memory. [frames] is the abstract stack the two arrays represent and
    the second half of the file proves that the code implements it. *)

From S2P Require Import Prelude Memory.

Definition PHY_RAM_BASE : Z := 0x40000000.
Definition PAGE_SIZE : Z := 4096.
Definition PAGE_SHIFT : Z := 12.

Module Pmm.

(** The file's static variables. *)
Record pmm_state := PmmState {
  frame_stack : Z;      (* u32 * *)
  stack_top : Z;        (* u32 *)
  stack_capacity : Z;   (* u32 *)
  used_frames : Z;      (* u32 *)
  phy_ram_size : Z;     (* u64 *)
  phy_ram_end : Z;      (* u64 *)
  total_frames : Z;     (* u32 *)
  ref_counts : Z;       (* u8 * *)
}.

(** The value of the statics at boot: zero-initialised. *)
Definition boot_state : pmm_state := PmmState 0 0 0 0 0 0 0 0.

Definition set_stack (s : pmm_state) (top used : Z) : pmm_state :=
  PmmState (frame_stack s) top (stack_capacity s) used
           (phy_ram_size s) (phy_ram_end s) (total_frames s) (ref_counts s).

Definition NO_INDEX : Z := u32 (-1).

Definition phys_to_index (s : pmm_state) (addr : Z) : Z :=
  if (addr <? PHY_RAM_BASE) || (phy_ram_end s <=? addr) then NO_INDEX
  else u32 (Z.shiftr (addr - PHY_RAM_BASE) PAGE_SHIFT).

Definition index_to_phys (idx : Z) : Z := u64 (PHY_RAM_BASE + u64 (Z.shiftl idx PAGE_SHIFT)).

(** [frame_stack[stack_top++] = idx; used_frames--]. *)
Definition push_frame (s : pmm_state) (m : mem) (idx : Z) : pmm_state * mem :=
  (set_stack s (u32 (stack_top s + 1)) (u32 (used_frames s - 1)),
   store32 m (frame_stack s + 4 * stack_top s) idx).

Definition pmm_inc_ref (s : pmm_state) (m : mem) (phys : Z) : mem :=
  let idx := phys_to_index s phys in
  if negb (idx =? NO_INDEX) && negb (ref_counts s =? 0) then
    let c := load8 m (ref_counts s + idx) in
    if c <? 255 then store8 m (ref_counts s + idx) (c + 1) else m
  else m.

Definition pmm_alloc_frame (s : pmm_state) (m : mem) : Z * pmm_state * mem :=
  if stack_top s =? 0 then (0, s, m)
  else
    let top := u32 (stack_top s - 1) in
    let idx := load32 m (frame_stack s + 4 * top) in
    (index_to_phys idx,
     set_stack s top (u32 (used_frames s + 1)),
     store8 m (ref_counts s + idx) 1).

Definition pmm_free_frame (s : pmm_state) (m : mem) (addr : Z) : pmm_state * mem :=
  let idx := phys_to_index s addr in
  if (idx =? NO_INDEX) || (total_frames s <=? idx) then (s, m)
  else if 0 <? load8 m (ref_counts s + idx) then
    let m := store8 m (ref_counts s + idx) (load8 m (ref_counts s + idx) - 1) in
    if load8 m (ref_counts s + idx) =? 0 then push_frame s m idx else (s, m)
  else if stack_capacity s <=? stack_top s then (s, m)
  else push_frame s m idx.

(** The body of the boot loop: frame [i] is reserved or pushed. *)
Definition pmm_init_frame (reserved_end i : Z) (sm : pmm_state * mem) : pmm_state * mem :=
  let '(s, m) := sm in
  let addr := index_to_phys i in
  let m := store8 m (ref_counts s + i) 0 in
  if (PHY_RAM_BASE <=? addr) && (addr <? reserved_end) then
    (set_stack s (stack_top s) (u32 (used_frames s + 1)), store8 m (ref_counts s + i) 1)
  else if stack_top s <? stack_capacity s then
    (set_stack s (u32 (stack_top s + 1)) (used_frames s),
     store32 m (frame_stack s + 4 * stack_top s) i)
  else (s, m).

Definition pmm_init (s : pmm_state) (m : mem) (kernel_end ram_size : Z) : pmm_state * mem :=
  let total := u32 (ram_size / PAGE_SIZE) in
  let stack_start := Z.land (u64 (kernel_end + PAGE_SIZE - 1)) (Z.lnot (PAGE_SIZE - 1)) in
  let stack_size_bytes := u64 (total * 4) in
  let refs := u64 (stack_start + stack_size_bytes) in
  let ref_size_bytes := u64 (total * 1) in
  let s := PmmState stack_start 0 total (used_frames s) ram_size
                    (u64 (PHY_RAM_BASE + ram_size)) total refs in
  let pmm_reserved_end := u64 (stack_start + stack_size_bytes + ref_size_bytes) in
  for_ 0 total (pmm_init_frame pmm_reserved_end) (s, m).

(** The inner search: the first stack slot holding [target] is overwritten by
    the last one. [inr] is the [break]. *)
Definition pmm_mark_step (target i : Z) (sm : pmm_state * mem)
  : (pmm_state * mem) + (pmm_state * mem) :=
  let '(s, m) := sm in
  if load32 m (frame_stack s + 4 * i) =? target then
    let top := u32 (stack_top s - 1) in
    inr (set_stack s top (u32 (used_frames s + 1)),
         store32 m (frame_stack s + 4 * i) (load32 m (frame_stack s + 4 * top)))
  else inl sm.

Definition pmm_mark_frame (target : Z) (sm : pmm_state * mem) : pmm_state * mem :=
  match for_exit 0 (stack_top sm.1) (pmm_mark_step target) sm with
  | inl sm => sm
  | inr sm => sm
  end.

Definition pmm_mark_used_region (s : pmm_state) (m : mem) (base size : Z) : pmm_state * mem :=
  let start_idx := phys_to_index s base in
  let end_idx := phys_to_index s (u64 (base + size + PAGE_SIZE - 1)) in
  if start_idx =? NO_INDEX then (s, m)
  else for_ start_idx end_idx pmm_mark_frame (s, m).

(** ** Abstract specification

    A stack of free frame numbers (head = top) and the reference counts. *)

Record frames := Frames { free : list Z; counts : list Z }.

Definition spec_alloc (f : frames) : option Z * frames :=
  match free f with
  | [] => (None, f)
  | i :: rest => (Some i, Frames rest (<[Z.to_nat i := 1]> (counts f)))
  end.

Definition spec_release (i : Z) (f : frames) : frames :=
  match counts f !! Z.to_nat i with
  | None => f
  | Some c =>
      if c <=? 1 then Frames (i :: free f) (<[Z.to_nat i := 0]> (counts f))
      else Frames (free f) (<[Z.to_nat i := c - 1]> (counts f))
  end.

Definition spec_retain (i : Z) (f : frames) : frames :=
  Frames (free f) (alter (fun c => Z.min 255 (c + 1)) (Z.to_nat i) (counts f)).

(** The calls a client makes, by frame number. [Free i off] passes the address
    [off] bytes into frame [i]. *)
Inductive call :=
  | Alloc
  | Free (i off : Z)
  | Retain (i off : Z)
  | Mark (base size : Z).

Definition frame_addr (i : Z) : Z := PHY_RAM_BASE + 4096 * i.

(** What a call may do to the abstract state, with its result. The order of the
    stack is not part of the contract of [Mark]. *)
Inductive spec_step : frames -> call -> option Z -> frames -> Prop :=
  | spec_alloc_step f r f' : spec_alloc f = (r, f') -> spec_step f Alloc r f'
  | spec_free_step f i off : spec_step f (Free i off) None (spec_release i f)
  | spec_retain_step f i off : spec_step f (Retain i off) None (spec_retain i f)
  | spec_mark_step f base size f' :
      NoDup (free f') -> counts f' = counts f ->
      (forall i, i ∈ free f' <-> i ∈ free f /\
         ~ (base < frame_addr i + 4096 /\ frame_addr i < base + size)) ->
      spec_step f (Mark base size) None f'.

(** What the two arrays represent. *)
Definition abs (s : pmm_state) (m : mem) : frames :=
  Frames (reverse (arr 4 m (frame_stack s) (stack_top s)))
         (arr 1 m (ref_counts s) (total_frames s)).

Definition reserved_end (s : pmm_state) : Z := ref_counts s + total_frames s.

(** The byte addresses that belong to the allocator. *)
Definition owns (s : pmm_state) (a : Z) : Prop := frame_stack s <= a < reserved_end s.

(** Well-formed abstract state: no frame is twice on the free stack, the free
    frames are real, lie above the reserved area and have count zero. *)
Record wf_frames (lim total : Z) (f : frames) : Prop := {
  wf_nodup : NoDup (free f);
  wf_free : forall i, i ∈ free f ->
              0 <= i < total /\ lim <= frame_addr i /\ counts f !! Z.to_nat i = Some 0;
  wf_counts : length (counts f) = Z.to_nat total;
}.

(** Where the arrays are, fixed by [pmm_init]. *)
Record layout (s : pmm_state) : Prop := {
  lay_start : PHY_RAM_BASE <= frame_stack s;
  lay_refs : ref_counts s = frame_stack s + 4 * total_frames s;
  lay_fits : reserved_end s <= PHY_RAM_BASE + 4096 * total_frames s;
  lay_cap : stack_capacity s = total_frames s;
  lay_size : 0 <= phy_ram_size s < 2 ^ 43;
  lay_total : total_frames s = phy_ram_size s / 4096;
  lay_end : phy_ram_end s = PHY_RAM_BASE + phy_ram_size s;
}.

Record inv (s : pmm_state) (m : mem) : Prop := {
  inv_layout : layout s;
  inv_top : 0 <= stack_top s <= total_frames s;
  inv_used : used_frames s = total_frames s - stack_top s;
  inv_wf : wf_frames (reserved_end s) (total_frames s) (abs s m);
}.

#[local] Arguments pmm_init_frame : simpl never.
#[local] Arguments pmm_mark_frame : simpl never.

(** ** Indices and addresses *)

Lemma shiftr12 x : Z.shiftr x PAGE_SHIFT = x / 4096.
Proof. unfold PAGE_SHIFT. by rewrite Z.shiftr_div_pow2 by lia. Qed.

Lemma shiftl12 x : Z.shiftl x PAGE_SHIFT = x * 4096.
Proof. unfold PAGE_SHIFT. by rewrite Z.shiftl_mul_pow2 by lia. Qed.

Lemma index_to_phys_spec i : 0 <= i < 2 ^ 32 -> index_to_phys i = frame_addr i.
Proof.
  intros Hi. unfold index_to_phys, frame_addr, PHY_RAM_BASE.
  rewrite shiftl12. wrap_id. lia.
Qed.

Lemma layout_bounds s : layout s ->
  0 <= total_frames s < 2 ^ 31 /\
  PHY_RAM_BASE + 4096 * total_frames s <= phy_ram_end s < 2 ^ 44 /\
  PHY_RAM_BASE = 0x40000000.
Proof.
  intros []. unfold PHY_RAM_BASE in *.
  pose proof (Z.div_mod (phy_ram_size s) 4096). pose proof (Z.mod_pos_bound (phy_ram_size s) 4096).
  lia.
Qed.

(** Every address inside frame [i] has index [i]. *)
Lemma phys_to_index_spec s i off :
  layout s -> 0 <= i < total_frames s -> 0 <= off < 4096 ->
  phys_to_index s (frame_addr i + off) = i.
Proof.
  intros Hl Hi Ho. pose proof (layout_bounds s Hl) as (Ht & He & HB).
  unfold phys_to_index, frame_addr. rewrite shiftr12.
  destruct (_ <? _) eqn:E1; [lia|]. destruct (_ <=? _) eqn:E2; [lia|]. simpl.
  replace ((_ - _) / 4096) with i by zdiv. by wrap_id.
Qed.

Lemma phys_to_index_frame s i :
  layout s -> 0 <= i < total_frames s -> phys_to_index s (frame_addr i) = i.
Proof.
  intros Hl Hi. rewrite <- (Z.add_0_r (frame_addr i)). by apply phys_to_index_spec.
Qed.

Lemma frame_addr_inj i j : frame_addr i = frame_addr j -> i = j.
Proof. unfold frame_addr. lia. Qed.

(** ** The arrays under writes *)

Lemma lookup_counts s m i :
  0 <= i < total_frames s -> counts (abs s m) !! Z.to_nat i = Some (load8 m (ref_counts s + i)).
Proof. intros Hi. unfold abs; simpl. rewrite lookup_arr, loadn_1 by done. do 2 f_equal. lia. Qed.

Lemma free_snoc s m :
  0 < stack_top s ->
  free (abs s m) = load32 m (frame_stack s + 4 * (stack_top s - 1))
                     :: reverse (arr 4 m (frame_stack s) (stack_top s - 1)).
Proof.
  intros Ht. unfold abs; simpl.
  replace (stack_top s) with (stack_top s - 1 + 1) at 1 by lia.
  by rewrite arr_snoc, reverse_snoc by lia.
Qed.

Lemma free_nil s m : stack_top s = 0 -> free (abs s m) = [].
Proof. intros Ht. unfold abs; simpl. by rewrite Ht. Qed.

(** A store into the counts. *)
Lemma abs_store_count s m i v :
  layout s -> 0 <= stack_top s <= total_frames s ->
  0 <= i < total_frames s -> 0 <= v < 256 ->
  abs s (store8 m (ref_counts s + i) v) =
  Frames (free (abs s m)) (<[Z.to_nat i := v]> (counts (abs s m))).
Proof.
  intros Hl Ht Hi Hv. unfold abs; simpl. rewrite <- storen_1. f_equal.
  - rewrite arr_store_out; [done|]. destruct Hl. lia.
  - replace (ref_counts s + i) with (ref_counts s + Z.of_nat 1 * i) by lia.
    by rewrite arr_store.
Qed.

Lemma abs_push s m i :
  layout s -> 0 <= stack_top s < total_frames s -> 0 <= i < 2 ^ 32 ->
  let '(s', m') := push_frame s m i in
  abs s' m' = Frames (i :: free (abs s m)) (counts (abs s m)).
Proof.
  intros Hl Ht Hi. pose proof (layout_bounds s Hl) as (Hb & _).
  unfold push_frame, abs; simpl. wrap_id. f_equal.
  - rewrite <- reverse_snoc. f_equal. apply (arr_store_end 4); lia.
  - rewrite arr_store_out; [done|]. destruct Hl. lia.
Qed.

Lemma layout_set_stack s top used : layout s -> layout (set_stack s top used).
Proof. intros []. by split. Qed.

(** By the pigeonhole principle the free stack is not full while some frame is
    outside it, so a push cannot overrun the array. *)
Lemma free_not_full lim total f i :
  wf_frames lim total f -> 0 <= i < total -> i ∉ free f ->
  Z.of_nat (length (free f)) < total.
Proof.
  intros [Hnd Hf _] Hi Hni.
  assert (Hsub : (i :: free f) ⊆+ seqZ 0 total).
  { apply NoDup_submseteq; [by apply NoDup_cons_2|].
    intros x [->|Hx]%elem_of_cons; apply elem_of_seqZ; [lia|].
    apply Hf in Hx. lia. }
  apply submseteq_length in Hsub. rewrite length_seqZ in Hsub. simpl in Hsub. lia.
Qed.

Lemma length_free s m : 0 <= stack_top s -> Z.of_nat (length (free (abs s m))) = stack_top s.
Proof. intros H. unfold abs; simpl. rewrite length_reverse, length_arr. lia. Qed.

Lemma inv_not_full s m i :
  inv s m -> 0 <= i < total_frames s -> i ∉ free (abs s m) -> stack_top s < total_frames s.
Proof.
  intros [Hl Ht _ Hwf] Hi Hni. rewrite <- (length_free s m) by lia.
  by eapply free_not_full.
Qed.

(** ** Preservation on the abstract state *)

Lemma wf_alloc lim total f i f' :
  wf_frames lim total f -> spec_alloc f = (Some i, f') -> wf_frames lim total f'.
Proof.
  unfold spec_alloc. intros [Hnd Hf Hc] H. destruct (free f) as [|j rest] eqn:E; [done|].
  injection H as -> <-. apply list.NoDup_cons in Hnd as [Hni Hnd].
  split; simpl; [done| |by rewrite length_insert].
  intros k Hk. destruct (Hf k) as (H1 & H2 & H3); [by right|].
  destruct (Hf i) as (H4 & _); [by left|].
  split_and!; [lia|lia|done|]. rewrite list_lookup_insert_ne; [done|].
  intros He. assert (i = k) as -> by lia. done.
Qed.

Lemma wf_release lim total f i :
  wf_frames lim total f -> 0 <= i < total -> lim <= frame_addr i -> i ∉ free f ->
  wf_frames lim total (spec_release i f).
Proof.
  intros [Hnd Hf Hc] Hi Hl Hni. unfold spec_release.
  destruct (counts f !! Z.to_nat i) as [c|] eqn:Ec; [|done].
  assert (Hne : forall k, 0 <= k < total -> k ∈ free f -> Z.to_nat i <> Z.to_nat k).
  { intros k Hk Hkf He. assert (i = k) as -> by lia. done. }
  destruct (c <=? 1).
  - split; simpl; [by apply NoDup_cons_2| |by rewrite length_insert].
    intros k [->|Hk]%elem_of_cons.
    + split_and!; [lia|lia|done|]. rewrite list_lookup_insert_eq; [done|]. lia.
    + destruct (Hf k Hk) as (H1 & H2 & H3). split_and!; [lia|lia|done|].
      rewrite list_lookup_insert_ne; auto.
  - split; simpl; [done| |by rewrite length_insert].
    intros k Hk. destruct (Hf k Hk) as (H1 & H2 & H3). split_and!; [lia|lia|done|].
    rewrite list_lookup_insert_ne; auto.
Qed.

(** The operations move the stack pointer and never the arrays. *)
Lemma layout_same s s' top used : s' = set_stack s top used ->
  total_frames s' = total_frames s /\ (forall b, owns s' b <-> owns s b) /\
  reserved_end s' = reserved_end s.
Proof. by intros ->. Qed.

(** ** The operations implement the specification *)

(** [pmm_alloc_frame] implements the abstract pop: on an empty stack it
    returns 0 and changes nothing, otherwise it returns the address of the top
    free frame, whose count becomes 1; the invariant is kept and only the
    allocator's own bytes are written. *)
Lemma alloc_ok s m :
  inv s m ->
  let '(a, s', m') := pmm_alloc_frame s m in
  let '(r, f') := spec_alloc (abs s m) in
  a = match r with Some i => frame_addr i | None => 0 end /\
  abs s' m' = f' /\ inv s' m' /\
  agree (fun b => ~ owns s b) m m' /\ s' = set_stack s (stack_top s') (used_frames s').
Proof.
  intros [Hl Ht Hu Hwf]. pose proof (layout_bounds s Hl) as (Hb & _).
  unfold pmm_alloc_frame. destruct (stack_top s =? 0) eqn:E.
  - unfold spec_alloc. rewrite free_nil by lia. by destruct s.
  - rewrite (u32_id (stack_top s - 1)), (u32_id (used_frames s + 1)) by lia.
    set (idx := load32 m (frame_stack s + 4 * (stack_top s - 1))).
    assert (Hfree := free_snoc s m ltac:(lia)). fold idx in Hfree.
    assert (Hi : 0 <= idx < total_frames s).
    { apply (wf_free _ _ _ Hwf). rewrite Hfree. left. }
    assert (Habs : abs (set_stack s (stack_top s - 1) (used_frames s + 1))
                       (store8 m (ref_counts s + idx) 1)
                   = (spec_alloc (abs s m)).2).
    { unfold spec_alloc. rewrite Hfree. simpl.
      change (ref_counts s) with
        (ref_counts (set_stack s (stack_top s - 1) (used_frames s + 1))) at 1.
      rewrite abs_store_count; simpl; (lia || (by apply layout_set_stack) || done). }
    destruct (spec_alloc (abs s m)) as [r f'] eqn:Es. simpl in Habs.
    assert (r = Some idx) as ->.
    { unfold spec_alloc in Es. rewrite Hfree in Es. by injection Es. }
    rewrite index_to_phys_spec by lia.
    split_and!; [done|done| | |done].
    + split; simpl; [by apply layout_set_stack|lia|lia|].
      rewrite Habs. unfold reserved_end; simpl. by eapply wf_alloc.
    + eapply agree_weaken; [apply agree_store8|].
      intros b Hb'. unfold outside, owns, reserved_end in *. destruct Hl. lia.
Qed.

(** [pmm_free_frame] implements the abstract release: given any address
    inside an allocated frame above the reserved area, the count drops, the
    frame is pushed exactly when its count was 0 or 1, the push never overruns
    the stack, and the invariant is kept. *)
Lemma free_ok s m i off :
  inv s m -> 0 <= i < total_frames s -> 0 <= off < 4096 ->
  reserved_end s <= frame_addr i -> i ∉ free (abs s m) ->
  let '(s', m') := pmm_free_frame s m (frame_addr i + off) in
  abs s' m' = spec_release i (abs s m) /\ inv s' m' /\
  agree (fun b => ~ owns s b) m m' /\ s' = set_stack s (stack_top s') (used_frames s').
Proof.
  intros Hinv Hi Ho Hr Hni. pose proof (inv_not_full s m i Hinv Hi Hni) as Hfull.
  pose proof Hinv as [Hl Ht Hu Hwf]. pose proof (layout_bounds s Hl) as (Hb & _).
  pose proof (wf_release _ _ _ i Hwf Hi Hr Hni) as Hwf'.
  unfold pmm_free_frame. rewrite phys_to_index_spec by done.
  destruct (_ || _) eqn:E0; [change NO_INDEX with 4294967295 in E0; lia|].
  set (c := load8 m (ref_counts s + i)).
  pose proof (load8_range m (ref_counts s + i)) as Hc. fold c in Hc.
  assert (Hlk : counts (abs s m) !! Z.to_nat i = Some c) by by apply lookup_counts.
  assert (Hag : forall m', agree (outside (ref_counts s + i) (ref_counts s + i + 1)) m m' ->
                 agree (fun b => ~ owns s b) m m').
  { intros m' H. eapply agree_weaken; [done|].
    intros b Hb'. unfold outside, owns, reserved_end in *. destruct Hl. lia. }
  assert (Hag' : forall m', agree (fun b => ~ owns s b) m'
                 (store32 m' (frame_stack s + 4 * stack_top s) i)).
  { intros m'. eapply agree_weaken; [apply agree_storen|].
    intros b Hb'. unfold outside, owns, reserved_end in *. destruct Hl. lia. }
  unfold spec_release in *. rewrite Hlk in *.
  destruct (0 <? c) eqn:E1.
  - rewrite load8_store8_eq, Z.mod_small by lia.
    set (m1 := store8 m (ref_counts s + i) (c - 1)).
    assert (Habs1 : abs s m1 = Frames (free (abs s m)) (<[Z.to_nat i := c - 1]> (counts (abs s m)))).
    { apply abs_store_count; (lia || done). }
    destruct (c - 1 =? 0) eqn:E2.
    + rewrite (proj2 (Z.leb_le c 1)) in * by lia.
      pose proof (abs_push s m1 i Hl ltac:(lia) ltac:(lia)) as Hp.
      unfold push_frame in *. rewrite Habs1 in Hp. simpl in Hp.
      replace (c - 1) with 0 in Hp by lia.
      split_and!; [done| | |done].
      * split; simpl; [by apply layout_set_stack|by wrap_id; lia|by wrap_id; lia|]. by rewrite Hp.
      * eapply agree_weaken; [eapply agree_trans; [apply Hag, agree_store8|apply Hag']|done].
    + rewrite (proj2 (Z.leb_gt c 1)) in * by lia.
      split_and!; [done| |by apply Hag, agree_store8|by destruct s].
      split; [done..|]. by rewrite Habs1.
  - pose proof (lay_cap s Hl). destruct (stack_capacity s <=? stack_top s) eqn:E3; [lia|].
    rewrite (proj2 (Z.leb_le c 1)) in * by lia.
    rewrite list_insert_id in * by (replace 0 with c by lia; done).
    pose proof (abs_push s m i Hl ltac:(lia) ltac:(lia)) as Hp. unfold push_frame in *.
    split_and!; [done| |apply Hag'|done].
    split; simpl; [by apply layout_set_stack|by wrap_id; lia|by wrap_id; lia|]. by rewrite Hp.
Qed.

(** [pmm_inc_ref] implements the abstract retain: the count of the frame
    holding the address goes up by one and saturates at 255. *)
Lemma retain_ok s m i off :
  inv s m -> 0 <= i < total_frames s -> 0 <= off < 4096 ->
  abs s (pmm_inc_ref s m (frame_addr i + off)) = spec_retain i (abs s m) /\
  agree (fun b => ~ owns s b) m (pmm_inc_ref s m (frame_addr i + off)).
Proof.
  intros [Hl Ht Hu Hwf] Hi Ho. pose proof (layout_bounds s Hl) as (Hb & _ & HB).
  unfold pmm_inc_ref. rewrite phys_to_index_spec by done.
  set (c := load8 m (ref_counts s + i)).
  pose proof (load8_range m (ref_counts s + i)) as Hc. fold c in Hc.
  assert (Hlk : counts (abs s m) !! Z.to_nat i = Some c) by by apply lookup_counts.
  assert (ref_counts s <> 0) by (destruct Hl; lia).
  destruct (_ && _) eqn:E; [|change NO_INDEX with 4294967295 in E; lia].
  unfold spec_retain. rewrite (list_alter_as_insert _ _ _ c) by done.
  destruct (c <? 255) eqn:E1.
  - rewrite abs_store_count by (lia || done). split; [do 2 f_equal; lia|].
    eapply agree_weaken; [apply agree_store8|].
    intros b Hb'. unfold outside, owns, reserved_end in *. destruct Hl. lia.
  - replace (255 `min` (c + 1)) with c by lia.
    rewrite list_insert_id by done. by destruct (abs s m).
Qed.

(** ** Marking a region as used *)

Lemma elem_of_free s m i :
  i ∈ free (abs s m) <->
  exists k, 0 <= k < stack_top s /\ i = load32 m (frame_stack s + 4 * k).
Proof. unfold abs; simpl. rewrite elem_of_reverse. apply elem_of_arr. Qed.

(** The search leaves the state alone when the target is not on the stack, and
    otherwise overwrites the slot that holds it by the top one. *)
Lemma mark_search s m t :
  0 <= stack_top s ->
  match for_exit 0 (stack_top s) (pmm_mark_step t) (s, m) with
  | inl sm => sm = (s, m) /\ t ∉ free (abs s m)
  | inr sm => exists k, 0 <= k < stack_top s /\ load32 m (frame_stack s + 4 * k) = t /\
      sm = (set_stack s (u32 (stack_top s - 1)) (u32 (used_frames s + 1)),
            store32 m (frame_stack s + 4 * k)
              (load32 m (frame_stack s + 4 * u32 (stack_top s - 1))))
  end.
Proof.
  intros Ht.
  set (I := fun (j : Z) sm => sm = (s, m) /\
              forall k, 0 <= k < j -> load32 m (frame_stack s + 4 * k) <> t).
  match goal with |- match _ with inl _ => _ | inr r => @?Q r end =>
    assert (H : match for_exit 0 (stack_top s) (pmm_mark_step t) (s, m) with
                | inl sm => I (stack_top s) sm | inr r => Q r end)
  end.
  { apply for_exit_ind; [done|by split; [|lia]|]. intros j s' Hj [-> Hno].
    unfold pmm_mark_step. destruct (_ =? t) eqn:E; [exists j; split_and!; (lia || done)|].
    split; [done|]. intros k Hk. destruct (decide (k = j)) as [->|]; [lia|apply Hno; lia]. }
  destruct (for_exit _ _ _ _) as [sm|sm]; [|done]. destruct H as [-> Hno].
  split; [done|]. intros (k & Hk & ->)%elem_of_free. by apply (Hno k).
Qed.

(** One round of [pmm_mark_used_region] takes exactly the target off the free
    stack. *)
Lemma mark_frame_spec t s m :
  inv s m ->
  let '(s', m') := pmm_mark_frame t (s, m) in
  inv s' m' /\ (forall i, i ∈ free (abs s' m') <-> i ∈ free (abs s m) /\ i <> t) /\
  counts (abs s' m') = counts (abs s m) /\
  agree (fun b => ~ owns s b) m m' /\
  s' = set_stack s (stack_top s') (used_frames s').
Proof.
  intros [Hl Ht Hu Hwf]. pose proof (layout_bounds s Hl) as (Hb & _).
  unfold pmm_mark_frame. simpl.
  pose proof (mark_search s m t ltac:(lia)) as Hs.
  destruct (for_exit _ _ _ _) as [sm|sm].
  - destruct Hs as [-> Hni].
    split_and!; [done| |done|done|by destruct s]. intros i.
    split; [intros Hi; split; [done|by intros ->]|by intros [? _]].
  - destruct Hs as (k & Hk & Hkt & ->). rewrite !u32_id by lia.
    set (last := load32 m (frame_stack s + 4 * (stack_top s - 1))).
    set (m' := store32 m _ last).
    assert (Hlast := load32_range m (frame_stack s + 4 * (stack_top s - 1))).
    assert (Hcut : arr 4 m (frame_stack s) (stack_top s)
                   = arr 4 m (frame_stack s) (stack_top s - 1) ++ [last]).
    { replace (stack_top s) with (stack_top s - 1 + 1) at 1 by lia. by rewrite arr_snoc by lia. }
    assert (Hperm : t :: arr 4 m' (frame_stack s) (stack_top s - 1)
                    ≡ₚ arr 4 m (frame_stack s) (stack_top s)).
    { rewrite <- arr_take, Z.sub_add by lia. unfold m'.
      rewrite (arr_store 4) by lia. rewrite Hcut at 1.
      rewrite <- (length_arr 4 m (frame_stack s)).
      rewrite (swap_remove_perm _ _ t), <- Hcut; [done|].
      rewrite <- Hcut, lookup_arr by lia. by rewrite <- Hkt. }
    assert (Hfree : t :: free (abs (set_stack s (stack_top s - 1) (used_frames s + 1)) m')
                    ≡ₚ free (abs s m)).
    { unfold abs; simpl. by rewrite !reverse_Permutation. }
    assert (Hcnt : counts (abs (set_stack s (stack_top s - 1) (used_frames s + 1)) m')
                   = counts (abs s m)).
    { unfold abs; simpl. unfold m'. rewrite arr_store_out; [done|]. destruct Hl. lia. }
    destruct Hwf as [Hnd Hf Hc].
    assert (Hnd' := Hnd). rewrite <- Hfree in Hnd'.
    apply list.NoDup_cons in Hnd' as [Hnit Hnd'].
    assert (Hel : forall i, i ∈ free (abs (set_stack s (stack_top s - 1) (used_frames s + 1)) m')
                            <-> i ∈ free (abs s m) /\ i <> t).
    { intros i. rewrite <- Hfree, elem_of_cons. split; [|intros [[->|?] ?]; done].
      intros Hi. split; [by right|]. by intros ->. }
    split_and!; [|done|done| |done].
    + split; simpl; [by apply layout_set_stack|lia|lia|].
      split; [done| |by rewrite Hcnt].
      intros i Hi. rewrite Hcnt. unfold reserved_end; simpl. by apply Hf, Hel.
    + eapply agree_weaken; [apply agree_storen|].
      intros b Hb'. unfold outside, owns, reserved_end in *. destruct Hl. lia.
Qed.

(** [pmm_mark_used_region] removes from the free stack exactly the frames
    that overlap the region, each once, and changes no reference count. The
    region is non-empty and lies inside RAM. *)
Lemma mark_ok s m base size :
  inv s m -> PHY_RAM_BASE <= base -> 0 < size -> base + size <= phy_ram_end s ->
  let '(s', m') := pmm_mark_used_region s m base size in
  inv s' m' /\ counts (abs s' m') = counts (abs s m) /\
  (forall i, i ∈ free (abs s' m') <->
     i ∈ free (abs s m) /\ ~ (base < frame_addr i + 4096 /\ frame_addr i < base + size)) /\
  agree (fun b => ~ owns s b) m m' /\ (forall b, owns s' b <-> owns s b).
Proof.
  intros Hinv HB Hsz Hend. pose proof Hinv as [Hl _ _ Hwf].
  pose proof (layout_bounds s Hl) as (Hb & He & HR).
  unfold pmm_mark_used_region.
  assert (Hstart : phys_to_index s base = (base - PHY_RAM_BASE) / 4096).
  { unfold phys_to_index. rewrite shiftr12.
    destruct (_ <? _) eqn:E1; [lia|]. destruct (_ <=? _) eqn:E2; [lia|]. simpl.
    rewrite u32_id; [done|]. zdiv. }
  set (e := phys_to_index s (u64 _)).
  assert (Hstop : (base - PHY_RAM_BASE) / 4096 <= e /\
                  forall i, 0 <= i < total_frames s -> i < e <-> frame_addr i < base + size).
  { clear Hstart. unfold e, phys_to_index, frame_addr, PAGE_SIZE.
    rewrite u64_id by lia. rewrite shiftr12. change NO_INDEX with 4294967295.
    destruct (_ <? _) eqn:E1; [lia|]. destruct (_ <=? _) eqn:E2; simpl.
    - split; [zdiv|]. intros i Hi. lia.
    - rewrite u32_id by zdiv. split; [zdiv|]. intros i Hi. zdiv. }
  rewrite Hstart. destruct (_ =? _) eqn:E0.
  { change NO_INDEX with 4294967295 in E0. zdiv. }
  destruct Hstop as [Hle Hiff].
  pose proof (for_ind
    (fun j sm => inv sm.1 sm.2 /\ counts (abs sm.1 sm.2) = counts (abs s m) /\
       (forall i, i ∈ free (abs sm.1 sm.2) <->
          i ∈ free (abs s m) /\ ~ ((base - PHY_RAM_BASE) / 4096 <= i < j)) /\
       agree (fun b => ~ owns s b) m sm.2 /\ (forall b, owns sm.1 b <-> owns s b))
    _ _ pmm_mark_frame (s, m) Hle) as Hfor.
  destruct (for_ _ _ _ _) as [s' m']. simpl in Hfor.
  destruct Hfor as (Hi' & Hc' & Hf' & Ha' & Ho').
  - split_and!; [done|done| |done|done]. intros i. split; [|by intros [? _]]. split; [done|lia].
  - intros j [s1 m1] Hj (Hi1 & Hc1 & Hf1 & Ha1 & Ho1). simpl in *.
    pose proof (mark_frame_spec j s1 m1 Hi1) as Hm.
    destruct (pmm_mark_frame j (s1, m1)) as [s2 m2].
    destruct Hm as (Hi2 & Hf2 & Hc2 & Ha2 & Hs2). simpl in *.
    apply layout_same in Hs2 as (_ & Ho2 & _).
    split_and!; [done|congruence| | |].
    + intros i. rewrite Hf2, Hf1. split; [intros [[? ?] ?]|intros [? ?]]; split; (done || lia || auto).
      split; [done|lia].
    + eapply agree_weaken; [eapply agree_trans; [exact Ha1|exact Ha2]|].
      intros b Hb2. split; [done|]. by rewrite Ho1.
    + intros b. by rewrite Ho2, Ho1.
  - split_and!; [done|done| |done|done].
    intros i. rewrite Hf'. split; intros [Hi Hn]; (split; [done|]);
      apply (wf_free _ _ _ Hwf) in Hi as (Hi & _ & _); specialize (Hiff i Hi);
      unfold frame_addr, PHY_RAM_BASE in *; zdiv.
Qed.

(** ** Boot *)

(** The state reached after [j] rounds of the boot loop, [k] being the number
    of frames below the reserved end. *)
Definition init_at (S total rs k j : Z) : pmm_state :=
  PmmState S (Z.max 0 (j - k)) total (Z.min j k) rs (PHY_RAM_BASE + rs) total (S + 4 * total).

Lemma init_step S total rs k j m :
  PHY_RAM_BASE <= S -> 0 <= j < total -> total < 2 ^ 31 -> k <= total ->
  k = (S + 5 * total - PHY_RAM_BASE + 4095) / 4096 ->
  arr 4 m S (Z.max 0 (j - k)) = seqZ k (Z.max 0 (j - k)) ->
  (forall i, 0 <= i < j -> load8 m (S + 4 * total + i) = if i <? k then 1 else 0) ->
  let '(s', m') := pmm_init_frame (S + 5 * total) j (init_at S total rs k j, m) in
  s' = init_at S total rs k (j + 1) /\
  arr 4 m' S (Z.max 0 (j + 1 - k)) = seqZ k (Z.max 0 (j + 1 - k)) /\
  (forall i, 0 <= i < j + 1 -> load8 m' (S + 4 * total + i) = if i <? k then 1 else 0) /\
  agree (outside S (S + 5 * total)) m m'.
Proof.
  intros HB Hj Ht Hk Hke Harr Hcnt. unfold pmm_init_frame.
  assert (0 <= k) by (unfold PHY_RAM_BASE in *; zdiv).
  rewrite index_to_phys_spec by lia. unfold init_at at 1 2 3 4 5 6 7 8; simpl.
  assert (Hlt : frame_addr j < S + 5 * total <-> j < k) by (unfold frame_addr, PHY_RAM_BASE in *; zdiv).
  assert (Hge : PHY_RAM_BASE <= frame_addr j) by (unfold frame_addr; lia).
  assert (Hag : forall v m1, agree (outside S (S + 5 * total)) m1 (store8 m1 (S + 4 * total + j) v)).
  { intros v m1. eapply agree_weaken; [apply agree_store8|]. unfold outside. lia. }
  destruct (_ && _) eqn:E.
  - replace (Z.max 0 (j + 1 - k)) with 0 by lia. unfold init_at, set_stack; simpl.
    split_and!; [f_equal; wrap_id; lia|done| |].
    + intros i Hi. destruct (decide (i = j)) as [->|Hne]; msimpl.
      * destruct (j <? k) eqn:E2; [done|lia].
      * apply Hcnt. lia.
    + etrans; apply Hag.
  - destruct (_ <? total) eqn:E2; [|lia].
    replace (Z.max 0 (j + 1 - k)) with (Z.max 0 (j - k) + 1) by lia.
    unfold init_at, set_stack; simpl. replace (Z.max 0 (j - k) + 1) with (j + 1 - k) at 1 by lia.
    split_and!.
    + f_equal; wrap_id; lia.
    + rewrite (arr_store_end 4) by lia. rewrite <- storen_1, arr_store_out by lia.
      rewrite Harr, (seqZ_app _ (Z.max 0 (j - k)) 1) by lia.
      f_equal. unfold seqZ; simpl. f_equal. lia.
    + intros i Hi. destruct (decide (i = j)) as [->|Hne]; msimpl.
      * destruct (j <? k) eqn:E3; [lia|done].
      * apply Hcnt. lia.
    + etrans; [apply Hag|]. eapply agree_weaken; [apply agree_storen|]. unfold outside. lia.
Qed.

Lemma inv_init S total rs k m :
  PHY_RAM_BASE <= S -> 0 <= rs < 2 ^ 43 -> total = rs / 4096 -> k <= total ->
  k = (S + 5 * total - PHY_RAM_BASE + 4095) / 4096 ->
  arr 4 m S (total - k) = seqZ k (total - k) ->
  (forall i, 0 <= i < total -> load8 m (S + 4 * total + i) = if i <? k then 1 else 0) ->
  inv (init_at S total rs k total) m.
Proof.
  intros HB Hrs Ht Hk Hke Harr Hcnt.
  assert (0 <= k) by (unfold PHY_RAM_BASE in *; zdiv).
  unfold init_at. replace (Z.max 0 (total - k)) with (total - k) by lia.
  rewrite (Z.min_r total k) by lia.
  split; simpl; [|lia..|].
  - split; simpl; (lia || done || idtac). unfold reserved_end, PHY_RAM_BASE in *; simpl. zdiv.
  - unfold abs; simpl. split; simpl.
    + rewrite reverse_Permutation, Harr. apply NoDup_seqZ.
    + intros i. rewrite elem_of_reverse, Harr, elem_of_seqZ. intros Hi.
      rewrite lookup_arr, loadn_1 by lia.
      replace (S + 4 * total + Z.of_nat 1 * i) with (S + 4 * total + i) by lia.
      rewrite Hcnt by lia. destruct (i <? k) eqn:E; [lia|].
      unfold reserved_end, frame_addr, PHY_RAM_BASE in *; simpl.
      split; [lia|split; [zdiv|done]].
    + apply length_arr.
Qed.

(** [pmm_init] lays the two arrays out above the kernel image, in pages it
    then reserves, and establishes the invariant: the frames above the arrays,
    in ascending order, are the free stack, the ones below have count 1, and
    nothing outside the arrays is written. The arrays must fit in RAM. *)
Lemma boot_ok m kernel_end ram_size :
  let total := ram_size / 4096 in
  let S := (kernel_end + 4095) / 4096 * 4096 in
  let k := (S + 5 * total - PHY_RAM_BASE + 4095) / 4096 in
  PHY_RAM_BASE <= kernel_end -> 0 <= ram_size < 2 ^ 43 -> k <= total ->
  let '(s', m') := pmm_init boot_state m kernel_end ram_size in
  inv s' m' /\ free (abs s' m') = reverse (seqZ k (total - k)) /\
  used_frames s' = k /\ owns s' = (fun b => S <= b < S + 5 * total) /\
  (forall i, 0 <= i < total -> load8 m' (ref_counts s' + i) = if i <? k then 1 else 0) /\
  agree (outside S (S + 5 * total)) m m'.
Proof.
  intros total S k HB Hrs Hk.
  assert (Hb : 0 <= total < 2 ^ 31 /\ PHY_RAM_BASE <= S /\ 0 <= k /\ S < 2 ^ 46 /\ kernel_end < 2 ^ 46).
  { unfold total, S, k, PHY_RAM_BASE in *. zdiv. }
  assert (HR : PHY_RAM_BASE = 0x40000000) by done.
  unfold pmm_init. unfold PAGE_SIZE.
  rewrite (u64_id (kernel_end + _ - _)), (u32_id (ram_size / _)) by (fold total; lia).
  change (4096 - 1) with (2 ^ 12 - 1). rewrite land_lnot_ones by lia.
  replace (kernel_end + 4096 - 1 - _) with S by (unfold S; zdiv).
  fold total. wrap_id.
  replace (S + total * 4 + total * 1) with (S + 5 * total) by lia.
  pose proof (for_ind
    (fun j sm => sm.1 = init_at S total ram_size k j /\
       arr 4 sm.2 S (Z.max 0 (j - k)) = seqZ k (Z.max 0 (j - k)) /\
       (forall i, 0 <= i < j -> load8 sm.2 (S + 4 * total + i) = if i <? k then 1 else 0) /\
       agree (outside S (S + 5 * total)) m sm.2)
    0 total (pmm_init_frame (S + 5 * total))
    (init_at S total ram_size k 0, m) ltac:(lia)) as Hfor.
  replace (PmmState _ _ _ _ _ _ _ _) with (init_at S total ram_size k 0)
    by (unfold init_at; simpl; f_equal; lia).
  destruct (for_ _ _ _ _) as [s' m']. simpl in Hfor.
  destruct Hfor as (-> & Harr & Hcnt & Hag).
  - replace (Z.max 0 (0 - k)) with 0 by lia. split_and!; [done|done|lia|done].
  - intros j [s1 m1] Hj. simpl. intros (-> & Harr1 & Hcnt1 & Hag1).
    pose proof (init_step S total ram_size k j m1) as Hs. specialize (Hs ltac:(lia)).
    destruct (pmm_init_frame _ _ _) as [s2 m2]. simpl.
    destruct Hs as (-> & Harr2 & Hcnt2 & Hag2); [(lia || done)..|].
    split_and!; [done|done|done|]. by etrans.
  - replace (Z.max 0 (total - k)) with (total - k) in Harr by lia.
    split_and!; [apply inv_init; (lia || done)| | | |done|done].
    + unfold abs, init_at; simpl. by rewrite Z.max_r, Harr by lia.
    + unfold init_at; simpl. lia.
    + unfold owns, init_at, reserved_end; simpl.
      by replace (S + 4 * total + total) with (S + 5 * total) by lia.
Qed.

Lemma boot_size s m kernel_end ram_size : 0 <= ram_size -> phy_ram_size (pmm_init s m kernel_end ram_size).1 = ram_size.
Proof.
  intros Hr. unfold pmm_init. apply (for_ind (fun _ sm => phy_ram_size sm.1 = ram_size)).
  - unfold u32. apply Z.mod_pos_bound. lia.
  - done.
  - intros j [s1 m1] _ H. unfold pmm_init_frame. cbn [fst] in *. by repeat case_match.
Qed.

(** ** Properties *)

(** One client call on the machine state. *)
Definition exec (c : call) (s : pmm_state) (m : mem) : option Z * pmm_state * mem :=
  match c with
  | Alloc =>
      let '(a, s', m') := pmm_alloc_frame s m in
      (if a =? 0 then None else Some ((a - PHY_RAM_BASE) / 4096), s', m')
  | Free i off => let '(s', m') := pmm_free_frame s m (frame_addr i + off) in (None, s', m')
  | Retain i off => (None, s, pmm_inc_ref s m (frame_addr i + off))
  | Mark base size => let '(s', m') := pmm_mark_used_region s m base size in (None, s', m')
  end.

(** What a correct client respects: it frees or retains real frames, frees only
    frames it holds, and marks regions of RAM. *)
Definition legal (s : pmm_state) (m : mem) (c : call) : Prop :=
  match c with
  | Alloc => True
  | Free i off => 0 <= i < total_frames s /\ 0 <= off < 4096 /\
                  reserved_end s <= frame_addr i /\ i ∉ free (abs s m)
  | Retain i off => 0 <= i < total_frames s /\ 0 <= off < 4096 /\ i ∉ free (abs s m)
  | Mark base size => PHY_RAM_BASE <= base /\ 0 < size /\ base + size <= phy_ram_end s
  end.

Fixpoint exec_all (cs : list call) (s : pmm_state) (m : mem)
  : list (option Z) * pmm_state * mem :=
  match cs with
  | [] => ([], s, m)
  | c :: cs =>
      let '(r, s, m) := exec c s m in
      let '(rs, s, m) := exec_all cs s m in (r :: rs, s, m)
  end.

Fixpoint legal_all (cs : list call) (s : pmm_state) (m : mem) : Prop :=
  match cs with
  | [] => True
  | c :: cs => legal s m c /\ let '(_, s, m) := exec c s m in legal_all cs s m
  end.

#[export] Instance legal_dec s m c : Decision (legal s m c).
Proof. destruct c; simpl; apply _. Defined.

#[export] Instance legal_all_dec cs s m : Decision (legal_all cs s m).
Proof.
  revert s m. induction cs as [|c cs IH]; intros s m; simpl; [apply _|].
  destruct (exec c s m) as [[r s'] m']. apply _.
Defined.

Inductive spec_steps : frames -> list call -> list (option Z) -> frames -> Prop :=
  | spec_steps_nil f : spec_steps f [] [] f
  | spec_steps_cons f1 f2 f3 c r cs rs :
      spec_step f1 c r f2 -> spec_steps f2 cs rs f3 -> spec_steps f1 (c :: cs) (r :: rs) f3.

Lemma wf_retain lim total f i :
  wf_frames lim total f -> i ∉ free f -> 0 <= i -> wf_frames lim total (spec_retain i f).
Proof.
  intros [Hnd Hf Hc] Hni Hi. split; simpl; [done| |by rewrite length_alter].
  intros k Hk. destruct (Hf k Hk) as (H1 & H2 & H3). split_and!; [lia..|].
  rewrite list_lookup_alter_ne; [done|]. intros He. assert (i = k) as -> by lia. done.
Qed.

Lemma call_ok c s m :
  inv s m -> legal s m c ->
  let '(r, s', m') := exec c s m in spec_step (abs s m) c r (abs s' m') /\ inv s' m'.
Proof.
  intros Hinv Hleg. destruct c as [|i off|i off|base size]; simpl in *.
  - pose proof (alloc_ok s m Hinv) as H. destruct (pmm_alloc_frame s m) as [[a s'] m'].
    destruct (spec_alloc (abs s m)) as [r f'] eqn:E.
    destruct H as (-> & Habs & Hinv' & _). rewrite Habs. split; [|done].
    apply spec_alloc_step. rewrite E. f_equal. destruct r as [i|]; [|done].
    assert (0 <= i) as Hi.
    { unfold spec_alloc in E. destruct (free (abs s m)) as [|j l] eqn:Ef; [done|].
      injection E as -> _. apply (wf_free _ _ _ (inv_wf _ _ Hinv)). rewrite Ef. left. }
    unfold frame_addr, PHY_RAM_BASE. destruct (_ =? 0) eqn:E0; [lia|]. f_equal. zdiv.
  - destruct Hleg as (H1 & H2 & H3 & H4). pose proof (free_ok s m i off Hinv H1 H2 H3 H4) as H.
    destruct (pmm_free_frame _ _ _) as [s' m']. destruct H as (-> & ? & _).
    split; [constructor|done].
  - destruct Hleg as (H1 & H2 & H3).
    destruct (retain_ok s m i off Hinv H1 H2) as [-> Hag]. split; [constructor|].
    destruct Hinv as [Hl Ht Hu Hwf]. split; [done..|].
    destruct (retain_ok s m i off) as [-> _]; [done..|]. apply wf_retain; (lia || done).
  - destruct Hleg as (H1 & H2 & H3). pose proof (mark_ok s m base size Hinv H1 H2 H3) as H.
    destruct (pmm_mark_used_region _ _ _ _) as [s' m']. destruct H as (Hi & Hc & Hf & _).
    split; [|done]. constructor; [|done..]. apply (wf_nodup _ _ _ (inv_wf _ _ Hi)).
Qed.

(** C6 Any sequence of calls a correct client makes, from any state satisfying
    the invariant, is one the abstract frame stack allows, with the same
    results, and the invariant still holds at the end. *)
Theorem pmm_trace_refines cs s m :
  inv s m -> legal_all cs s m ->
  let '(rs, s', m') := exec_all cs s m in
  spec_steps (abs s m) cs rs (abs s' m') /\ inv s' m'.
Proof.
  revert s m. induction cs as [|c cs IH]; intros s m Hinv Hleg; simpl.
  { split; [constructor|done]. }
  destruct Hleg as [Hc Hcs]. pose proof (call_ok c s m Hinv Hc) as H1.
  destruct (exec c s m) as [[r s1] m1]. destruct H1 as [Hstep Hinv1].
  specialize (IH s1 m1 Hinv1 Hcs). destruct (exec_all cs s1 m1) as [[rs s2] m2].
  destruct IH as [Hsteps Hinv2]. split; [by econstructor|done].
Qed.

(** A boot of a machine with 64 frames, used by the witnesses. *)
Definition demo : pmm_state * mem := pmm_init boot_state ∅ (PHY_RAM_BASE + 100) (64 * 4096).

Lemma demo_inv : inv demo.1 demo.2.
Proof.
  pose proof (boot_ok ∅ (PHY_RAM_BASE + 100) (64 * 4096)
                ltac:(unfold PHY_RAM_BASE; lia) ltac:(lia) ltac:(by vm_compute)) as H.
  unfold demo. destruct (pmm_init _ _ _ _) as [s m]. apply H.
Qed.

Lemma pmm_trace_refines_witness :
  let cs := [Alloc; Alloc; Mark (frame_addr 10) 5000; Retain 63 7; Free 63 0; Free 63 4095; Alloc] in
  legal_all cs demo.1 demo.2 /\
  let '(rs, s', m') := exec_all cs demo.1 demo.2 in
  rs = [Some 63; Some 62; None; None; None; None; Some 63] /\
  spec_steps (abs demo.1 demo.2) cs rs (abs s' m') /\ inv s' m'.
Proof.
  intros cs. assert (Hleg : legal_all cs demo.1 demo.2).
  { apply (bool_decide_unpack _). vm_compute. exact I. }
  split; [exact Hleg|].
  assert (Hr : (exec_all cs demo.1 demo.2).1.1
               = [Some 63; Some 62; None; None; None; None; Some 63])
    by (vm_compute; reflexivity).
  pose proof (pmm_trace_refines cs demo.1 demo.2 demo_inv Hleg) as H.
  destruct (exec_all cs demo.1 demo.2) as [[rs s'] m']. split; [exact Hr|exact H].
Defined.

(** [n] calls of [pmm_alloc_frame] in a row. *)
Fixpoint alloc_many (n : nat) (s : pmm_state) (m : mem) : list Z * pmm_state * mem :=
  match n with
  | O => ([], s, m)
  | S n =>
      let '(a, s, m) := pmm_alloc_frame s m in
      let '(l, s, m) := alloc_many n s m in (a :: l, s, m)
  end.

(** They hand out the stack from the top, then 0 for ever. *)
Lemma alloc_many_ok n s m :
  inv s m ->
  (alloc_many n s m).1.1 =
    (frame_addr <$> take n (free (abs s m))) ++ replicate (n - length (free (abs s m))) 0.
Proof.
  revert s m. induction n as [|n IH]; intros s m Hinv; [done|]. cbn [alloc_many].
  pose proof (alloc_ok s m Hinv) as H. destruct (pmm_alloc_frame s m) as [[a s1] m1].
  unfold spec_alloc in H. specialize (IH s1 m1).
  destruct (alloc_many n s1 m1) as [[l s2] m2]. cbn [fst] in *.
  destruct (free (abs s m)) as [|i rest] eqn:E; destruct H as (-> & Habs & Hi & _);
    rewrite IH, Habs by done.
  - rewrite ?E, !take_nil. cbn. by rewrite Nat.sub_0_r.
  - done.
Qed.

(** C10 After boot the free frames are exactly those above the allocator's
    arrays: [n] calls of [pmm_alloc_frame] return the frames of RAM from the
    highest down to the first one above the arrays, all distinct, and 0 once
    they are exhausted. *)
Theorem pmm_boot_allocations n m kernel_end ram_size :
  let total := ram_size / 4096 in
  let S := (kernel_end + 4095) / 4096 * 4096 in
  let k := (S + 5 * total - PHY_RAM_BASE + 4095) / 4096 in
  PHY_RAM_BASE <= kernel_end -> 0 <= ram_size < 2 ^ 43 -> k <= total ->
  let '(s', m') := pmm_init boot_state m kernel_end ram_size in
  (alloc_many n s' m').1.1 =
    (frame_addr <$> take n (reverse (seqZ k (total - k)))) ++ replicate (n - Z.to_nat (total - k)) 0.
Proof.
  intros total S k H1 H2 H3. pose proof (boot_ok m kernel_end ram_size H1 H2 H3) as H.
  destruct (pmm_init _ _ _ _) as [s' m']. destruct H as (Hinv & Hfree & _).
  rewrite alloc_many_ok, Hfree by done. by rewrite length_reverse, length_seqZ.
Qed.

Lemma pmm_boot_allocations_witness :
  (PHY_RAM_BASE <= PHY_RAM_BASE + 100 /\ 0 <= 64 * 4096 < 2 ^ 43) /\
  let '(s', m') := pmm_init boot_state ∅ (PHY_RAM_BASE + 100) (64 * 4096) in
  (alloc_many 63 s' m').1.1 = (frame_addr <$> reverse (seqZ 2 62)) ++ [0].
Proof.
  split; [unfold PHY_RAM_BASE; lia|].
  exact (pmm_boot_allocations 63 ∅ (PHY_RAM_BASE + 100) (64 * 4096)
           ltac:(unfold PHY_RAM_BASE; lia) ltac:(lia) ltac:(vm_compute; discriminate)).
Defined.

(** C11 Marking a region takes exactly the overlapping frames out of use: the
    other free frames stay free, and no later sequence of allocations returns a
    frame that overlaps the region. *)
Theorem pmm_mark_excludes s m base size n :
  inv s m -> PHY_RAM_BASE <= base -> 0 < size -> base + size <= phy_ram_end s ->
  let '(s', m') := pmm_mark_used_region s m base size in
  (forall i, i ∈ free (abs s' m') <->
     i ∈ free (abs s m) /\ ~ (base < frame_addr i + 4096 /\ frame_addr i < base + size)) /\
  forall a, a ∈ (alloc_many n s' m').1.1 -> a <> 0 -> a + 4096 <= base \/ base + size <= a.
Proof.
  intros Hinv H1 H2 H3. pose proof (mark_ok s m base size Hinv H1 H2 H3) as H.
  destruct (pmm_mark_used_region _ _ _ _) as [s' m']. destruct H as (Hi & _ & Hf & _).
  split; [done|]. intros a. rewrite alloc_many_ok by done.
  intros [Ha|Ha]%elem_of_app Hnz; [|by apply elem_of_replicate in Ha as [-> _]].
  apply list_elem_of_fmap in Ha as (i & -> & Hin).
  apply elem_of_take in Hin as (j & Hj & _). apply list_elem_of_lookup_2, Hf in Hj. lia.
Qed.

Lemma pmm_mark_excludes_witness :
  (PHY_RAM_BASE <= frame_addr 60 + 100 /\ frame_addr 60 + 100 + 8000 <= phy_ram_end demo.1) /\
  let '(s', m') := pmm_mark_used_region demo.1 demo.2 (frame_addr 60 + 100) 8000 in
  forall a, a ∈ (alloc_many 70 s' m').1.1 -> a <> 0 ->
    a + 4096 <= frame_addr 60 + 100 \/ frame_addr 60 + 100 + 8000 <= a.
Proof.
  assert (H : frame_addr 60 + 100 + 8000 <= phy_ram_end demo.1) by (vm_compute; discriminate).
  split; [split; [unfold frame_addr; lia|exact H]|].
  pose proof (pmm_mark_excludes demo.1 demo.2 (frame_addr 60 + 100) 8000 70 demo_inv
                ltac:(unfold frame_addr; lia) ltac:(lia) H) as Hm.
  destruct (pmm_mark_used_region _ _ _ _) as [s' m']. apply Hm.
Defined.

(** Freeing the frame just allocated undoes the allocation: the free stack
    and every count are back to what they were, so the next allocation returns
    the same frame. *)
Theorem pmm_alloc_free_roundtrip s m :
  inv s m ->
  let '(a, s1, m1) := pmm_alloc_frame s m in
  a <> 0 ->
  let '(s2, m2) := pmm_free_frame s1 m1 a in
  abs s2 m2 = abs s m /\ (pmm_alloc_frame s2 m2).1.1 = a.
Proof.
  intros Hinv. pose proof (alloc_ok s m Hinv) as H.
  destruct (pmm_alloc_frame s m) as [[a s1] m1]. unfold spec_alloc in H.
  destruct (free (abs s m)) as [|i rest] eqn:E; destruct H as (Ha & Habs & Hinv1 & _ & Ho);
    [done|]. intros _. rewrite Ha.
  pose proof (inv_wf _ _ Hinv) as [Hnd Hf Hc]. rewrite E in Hnd, Hf.
  apply list.NoDup_cons in Hnd as [Hni Hnd]. destruct (Hf i) as (H1 & H2 & H3); [by left|].
  apply layout_same in Ho as (Hsz & _ & Hre).
  pose proof (free_ok s1 m1 i 0 Hinv1 ltac:(lia) ltac:(lia) ltac:(lia)) as H4.
  rewrite Z.add_0_r, Habs in H4. specialize (H4 Hni).
  destruct (pmm_free_frame s1 m1 (frame_addr i)) as [s2 m2].
  destruct H4 as (Habs2 & Hinv2 & _). unfold spec_release in Habs2. cbn [counts free] in Habs2.
  rewrite list_lookup_insert_eq in Habs2 by lia. change (1 <=? 1) with true in Habs2.
  cbn [counts free] in Habs2.
  rewrite list_insert_insert_eq, list_insert_id in Habs2 by done.
  assert (Habs' : abs s2 m2 = abs s m) by (rewrite Habs2, <- E; by destruct (abs s m)).
  split; [done|].
  pose proof (alloc_ok s2 m2 Hinv2) as H5. destruct (pmm_alloc_frame s2 m2) as [[b s3] m3].
  unfold spec_alloc in H5. rewrite Habs', E in H5. apply H5.
Qed.

Lemma pmm_alloc_free_roundtrip_witness :
  inv demo.1 demo.2 /\
  let '(a, s1, m1) := pmm_alloc_frame demo.1 demo.2 in
  let '(s2, m2) := pmm_free_frame s1 m1 a in
  abs s2 m2 = abs demo.1 demo.2 /\ (pmm_alloc_frame s2 m2).1.1 = a.
Proof.
  split; [exact demo_inv|].
  assert (Hnz : (pmm_alloc_frame demo.1 demo.2).1.1 <> 0) by (vm_compute; discriminate).
  pose proof (pmm_alloc_free_roundtrip demo.1 demo.2 demo_inv) as H.
  destruct (pmm_alloc_frame demo.1 demo.2) as [[a s1] m1]. exact (H Hnz).
Defined.

(** A second free of a frame already on the free stack is not caught while
    the stack has room: the frame is pushed twice and the next two allocations
    return the same address. *)
Theorem pmm_double_free_aliases s m i rest :
  inv s m -> free (abs s m) = i :: rest -> stack_top s < total_frames s ->
  let '(s1, m1) := pmm_free_frame s m (frame_addr i) in
  let '(a, s2, m2) := pmm_alloc_frame s1 m1 in
  let '(b, _, _) := pmm_alloc_frame s2 m2 in
  a = frame_addr i /\ b = frame_addr i.
Proof.
  intros [Hl Ht Hu Hwf] E Hroom. pose proof (layout_bounds s Hl) as (Hb & _).
  assert (Htop : 0 < stack_top s).
  { destruct (decide (stack_top s = 0)) as [H0|]; [|lia].
    rewrite free_nil in E; done. }
  assert (Hslot : load32 m (frame_stack s + 4 * (stack_top s - 1)) = i).
  { pose proof (free_snoc s m Htop) as H. rewrite E in H. by injection H. }
  destruct (wf_free _ _ _ Hwf i) as (Hi & Hlim & Hcnt); [rewrite E; by left|].
  rewrite lookup_counts in Hcnt by done. injection Hcnt as Hcnt.
  pose proof (lay_refs s Hl). pose proof (lay_cap s Hl).
  unfold pmm_free_frame. rewrite phys_to_index_frame by done.
  change NO_INDEX with 4294967295.
  destruct (_ || _) eqn:E1; [lia|]. rewrite Hcnt. simpl.
  destruct (stack_capacity s <=? stack_top s) eqn:E2; [lia|].
  unfold push_frame, pmm_alloc_frame. simpl.
  rewrite (u32_id (stack_top s + 1)) by lia.
  destruct (stack_top s + 1 =? 0) eqn:E3; [lia|].
  rewrite (u32_id (stack_top s + 1 - 1)) by lia.
  replace (stack_top s + 1 - 1) with (stack_top s) by lia.
  rewrite loadn_storen_eq by lia. simpl.
  destruct (stack_top s =? 0) eqn:E4; [lia|].
  rewrite (u32_id (stack_top s - 1)) by lia. msimpl.
  rewrite Hslot. by rewrite index_to_phys_spec by lia.
Qed.

Lemma pmm_double_free_aliases_witness :
  inv demo.1 demo.2 /\
  let '(s1, m1) := pmm_free_frame demo.1 demo.2 (frame_addr 63) in
  let '(a, s2, m2) := pmm_alloc_frame s1 m1 in
  let '(b, _, _) := pmm_alloc_frame s2 m2 in
  a = frame_addr 63 /\ b = frame_addr 63.
Proof.
  split; [exact demo_inv|].
  apply (pmm_double_free_aliases demo.1 demo.2 63 (reverse (seqZ 2 61)) demo_inv);
    vm_compute; reflexivity.
Defined.

End Pmm.
