(* ===== verification/FrameAlloc.v ===== *)
(** * The frame-allocator interface

    What the page-table code needs from a physical frame allocator, as a type
    class: the contract [Vmm] is verified against and [Pmm] discharges. *)

From S2P Require Import Prelude Memory Pmm.

Class FrameAllocator (A : Type) := {
  (** one allocation: the frame's address, or 0 *)
  fa_alloc : A -> mem -> Z * A * mem;
  (** the allocator's invariant on its state and the machine memory *)
  fa_inv : A -> mem -> Prop;
  (** the frame at this address may still be handed out *)
  fa_free : A -> mem -> Z -> Prop;
  (** this byte holds the allocator's own data *)
  fa_owns : A -> Z -> Prop;

  (** an allocation keeps the invariant, writes only the allocator's bytes, and
      takes the frame it returns off the free set; 0 means there was none *)
  fa_alloc_spec a m : fa_inv a m ->
    let '(f, a', m') := fa_alloc a m in
    fa_inv a' m' /\ agree (fun b => ~ fa_owns a b) m m' /\
    (forall b, fa_owns a' b <-> fa_owns a b) /\
    (forall g, fa_free a' m' g <-> fa_free a m g /\ g <> f) /\
    (f = 0 -> forall g, ~ fa_free a m g) /\ (f <> 0 -> fa_free a m f);

  (** writes elsewhere do not disturb it *)
  fa_frame a m m' : fa_inv a m -> agree (fa_owns a) m m' ->
    fa_inv a m' /\ forall g, fa_free a m' g <-> fa_free a m g;

  (** free frames are whole pages of RAM, away from the allocator's data *)
  fa_page a m f : fa_inv a m -> fa_free a m f ->
    f mod 4096 = 0 /\ 0 < f /\ f + 4096 <= 2 ^ 48 /\
    forall b, f <= b < f + 4096 -> ~ fa_owns a b;
}.

(** ** [Pmm] implements it *)

Section PmmInstance.
Import Pmm.

Definition pmm_free (s : pmm_state) (m : mem) (f : Z) : Prop :=
  exists i, f = frame_addr i /\ i ∈ free (abs s m).

(** The arrays hold what they held while nobody writes to them. *)
Lemma abs_agree s m m' : inv s m -> agree (owns s) m m' -> abs s m' = abs s m.
Proof.
  intros [Hl Ht Hu Hwf] Hag. unfold abs. pose proof (layout_bounds s Hl) as (Hb & _). pose proof (lay_refs s Hl).
  rewrite (arr_agree (owns s) 4 m m'), (arr_agree (owns s) 1 m m'); [done|..];
    try done; intros b Hb'; unfold owns, reserved_end; lia.
Qed.

Lemma pmm_frame s m m' :
  inv s m -> agree (owns s) m m' -> inv s m' /\ forall g, pmm_free s m' g <-> pmm_free s m g.
Proof.
  intros Hinv Hag. pose proof (abs_agree s m m' Hinv Hag) as Habs. destruct Hinv as [Hl Ht Hu Hwf].
  unfold pmm_free. rewrite Habs. split; [|done]. split; [done..|]. by rewrite Habs.
Qed.

Lemma pmm_page s m f :
  inv s m -> pmm_free s m f ->
  f mod 4096 = 0 /\ 0 < f /\ f + 4096 <= 2 ^ 48 /\
  forall b, f <= b < f + 4096 -> ~ owns s b.
Proof.
  intros [Hl Ht Hu Hwf] (i & -> & Hi).
  apply (wf_free _ _ _ Hwf) in Hi as (Hi & Hlim & _).
  pose proof (layout_bounds s Hl) as (Hb & He & HB).
  unfold frame_addr, owns in *. rewrite HB in *. split_and!; [zdiv|lia|lia|]. intros b ?. lia.
Qed.

Lemma pmm_alloc_spec s m : inv s m ->
  let '(f, s', m') := pmm_alloc_frame s m in
  inv s' m' /\ agree (fun b => ~ owns s b) m m' /\
  (forall b, owns s' b <-> owns s b) /\
  (forall g, pmm_free s' m' g <-> pmm_free s m g /\ g <> f) /\
  (f = 0 -> forall g, ~ pmm_free s m g) /\ (f <> 0 -> pmm_free s m f).
Proof.
  intros Hinv. pose proof (alloc_ok s m Hinv) as H.
  destruct (pmm_alloc_frame s m) as [[f s'] m']. unfold spec_alloc in H.
  pose proof (wf_nodup _ _ _ (inv_wf _ _ Hinv)) as Hnd. unfold pmm_free.
  destruct (free (abs s m)) as [|i rest] eqn:E;
    destruct H as (-> & Habs & Hinv' & Hag & Hs); apply layout_same in Hs as (_ & Ho & _);
    rewrite Habs; (split_and!; [done|done|done|..]).
  - intros g. rewrite E. split; [intros (i & _ & Hi)|intros [(i & _ & Hi) _]];
      by apply elem_of_nil in Hi.
  - intros _ g (i & _ & Hi). by apply elem_of_nil in Hi.
  - done.
  - cbn [free]. apply list.NoDup_cons in Hnd as [Hni _]. intros g. split.
    + intros (j & -> & Hj). split; [exists j; split; [done|by right]|].
      intros He. apply frame_addr_inj in He as ->. done.
    + intros [(j & -> & Hj) Hne]. exists j. split; [done|].
      apply elem_of_cons in Hj as [->|Hj]; done.
  - intros H0. unfold frame_addr, PHY_RAM_BASE in H0.
    assert (0 <= i); [|lia]. apply (wf_free _ _ _ (inv_wf _ _ Hinv)). rewrite E. by left.
  - intros _. exists i. split; [done|by left].
Qed.

#[export] Instance pmm_frame_allocator : FrameAllocator pmm_state := {
  fa_alloc := pmm_alloc_frame;
  fa_inv := inv;
  fa_free := pmm_free;
  fa_owns := owns;
  fa_alloc_spec := pmm_alloc_spec;
  fa_frame := pmm_frame;
  fa_page := pmm_page;
}.
End PmmInstance.
