(* ===== verification/Vmm.v ===== *)
(** * Virtual memory (src/src/vmm.c, src/include/vmm.h)

    The page-table code of the kernel: AArch64, 4 KiB granule, 39-bit
    addresses, hence three levels L1 -> L2 -> L3 with 2 MiB blocks at L2. The
    tables live in the machine memory and their frames come from any
    [FrameAllocator].

    When an allocation fails the mapping functions call [printf] with a format
    that contains [%llx], and [printf] does not return from it (VmmMessage.v):
    such a run ends in [Stuck]. *)

From S2P Require Import Prelude Memory CString Pmm FrameAlloc.

Module Vmm.
Import CString.

Definition PT_VALID : Z := Z.shiftl 1 0.
Definition PT_TABLE : Z := Z.shiftl 1 1.
Definition PT_PAGE : Z := Z.shiftl 1 1.
Definition PT_BLOCK : Z := Z.shiftl 0 1.
Definition PT_AF : Z := Z.shiftl 1 10.
Definition PT_SH_INNER : Z := Z.shiftl 3 8.
Definition PT_AP_RW_EL1 : Z := Z.shiftl 0 6.
Definition PT_AP_RO_EL1 : Z := Z.shiftl 2 6.
Definition PT_PXN : Z := Z.shiftl 1 53.
Definition PT_UXN : Z := Z.shiftl 1 54.
Definition MT_DEVICE_nGnRnE : Z := 0.
Definition MT_NORMAL : Z := 1.

Definition VM_WRITABLE : Z := Z.shiftl 1 0.
Definition VM_USER : Z := Z.shiftl 1 1.
Definition VM_NO_EXEC : Z := Z.shiftl 1 2.
Definition VM_DEVICE : Z := Z.shiftl 1 3.
Definition BLOCK_SIZE : Z := Z.shiftl 1 21.

(** Bits [47:12] of a descriptor: the output address. *)
Definition ADDR_MASK : Z := 0x0000FFFFFFFFF000.

(** The descriptor both mapping functions build; [kind] is [PT_PAGE] or
    [PT_BLOCK]. *)
Definition make_entry (kind phys flags : Z) : Z :=
  let entry := Z.lor (Z.lor (Z.lor (Z.lor phys kind) PT_VALID) PT_AF) PT_SH_INNER in
  let entry := if nonzero (Z.land flags VM_DEVICE) then Z.lor entry (Z.lor PT_PXN PT_UXN)
               else Z.lor entry (Z.shiftl MT_NORMAL 2) in
  let entry := Z.lor entry PT_UXN in
  let entry := if nonzero (Z.land flags VM_WRITABLE) then Z.lor entry PT_AP_RW_EL1
               else Z.lor entry PT_AP_RO_EL1 in
  if nonzero (Z.land flags VM_NO_EXEC) then Z.lor entry PT_PXN else entry.

Definition l1_idx (virt : Z) : Z := Z.land (Z.shiftr virt 30) 0x1FF.
Definition l2_idx (virt : Z) : Z := Z.land (Z.shiftr virt 21) 0x1FF.
Definition l3_idx (virt : Z) : Z := Z.land (Z.shiftr virt 12) 0x1FF.

(** The addresses [dcache_clean_poc] hands to [dc cvac], in order. *)
Definition dcache_clean_poc (fuel : nat) (addr size : Z) : option (list Z) :=
  let start := Z.land addr (Z.lnot (64 - 1)) in
  let end_ := u64 (addr + size) in
  loop fuel (fun '(start, cleaned) =>
      if start <? end_ then inl (u64 (start + 64), cleaned ++ [start]) else inr cleaned)
    (start, []).

(** How a mapping call ends: it returns, or it never returns from the message
    about a failed allocation, and the state stays as it is then. *)
Inductive result (A : Type) :=
  | Done (a : A) (m : mem)
  | Stuck (a : A) (m : mem).
Arguments Done {A}.
Arguments Stuck {A}.

Definition after {A} (r : result A) : A * mem := match r with Done a m | Stuck a m => (a, m) end.

Section WithAllocator.
Context {A : Type} {FA : FrameAllocator A}.

(** [table[idx]] of a [u64 *]. *)
Definition entry (m : mem) (table idx : Z) : Z := load64 m (table + 8 * idx).
Definition set_entry (m : mem) (table idx e : Z) : mem := store64 m (table + 8 * idx) e.

Definition get_next_table (a : A) (m : mem) (table idx : Z) : Z * A * mem :=
  if nonzero (Z.land (entry m table idx) PT_VALID) then
    (Z.land (entry m table idx) ADDR_MASK, a, m)
  else
    let '(new_table, a, m) := fa_alloc a m in
    if new_table =? 0 then (0, a, m)
    else
      let m := memset m new_table 0 PAGE_SIZE in
      (new_table, a, set_entry m table idx (Z.lor (Z.lor new_table PT_TABLE) PT_VALID)).

Definition vmm_map_page (root : Z) (a : A) (m : mem) (virt phys flags : Z) : result A :=
  let '(l2_table, a, m) := get_next_table a m root (l1_idx virt) in
  if l2_table =? 0 then Stuck a m
  else
    let '(l3_table, a, m) := get_next_table a m l2_table (l2_idx virt) in
    if l3_table =? 0 then Stuck a m
    else Done a (set_entry m l3_table (l3_idx virt) (make_entry PT_PAGE phys flags)).

Definition vmm_map_block (root : Z) (a : A) (m : mem) (virt phys flags : Z) : result A :=
  let '(l2_table, a, m) := get_next_table a m root (l1_idx virt) in
  if l2_table =? 0 then Stuck a m
  else Done a (set_entry m l2_table (l2_idx virt) (make_entry PT_BLOCK phys flags)).

(** One round of the mapping loop; [inr] when everything is mapped, or when a
    call does not return. *)
Definition map_region_step (root virt phys size flags : Z) (st : Z * A * mem)
  : (Z * A * mem) + result A :=
  let '(mapped, a, m) := st in
  if mapped <? size then
    if (u64 (virt + mapped) mod BLOCK_SIZE =? 0) && (u64 (phys + mapped) mod BLOCK_SIZE =? 0)
       && (BLOCK_SIZE <=? u64 (size - mapped)) then
      match vmm_map_block root a m (u64 (virt + mapped)) (u64 (phys + mapped)) flags with
      | Done a m => inl (u64 (mapped + BLOCK_SIZE), a, m)
      | Stuck a m => inr (Stuck a m)
      end
    else
      match vmm_map_page root a m (u64 (virt + mapped)) (u64 (phys + mapped)) flags with
      | Done a m => inl (u64 (mapped + PAGE_SIZE), a, m)
      | Stuck a m => inr (Stuck a m)
      end
  else inr (Done a m).

Definition vmm_map_region (fuel : nat) (root : Z) (a : A) (m : mem)
  (virt phys size flags : Z) : option (result A) :=
  loop fuel (map_region_step root virt phys size flags) (0, a, m).

(** The file's statics and the system registers [init_vmm] programs. *)
Record vmm_state := VmmState {
  root_table : Z;
  root_phys : Z;
  paging_enabled : bool;
  mair_el1 : Z;
  tcr_el1 : Z;
  ttbr0_el1 : Z;
  ttbr1_el1 : Z;
  sctlr_el1 : Z;
}.

Definition region_fuel (size : Z) : nat := Z.to_nat (size / PAGE_SIZE + 2).

Definition map_regions (root : Z) (regions : list (Z * Z * Z * Z)) (a : A) (m : mem)
  : option (result A) :=
  foldl (fun r '(virt, phys, size, flags) =>
           match r with
           | Some (Done a m) => vmm_map_region (region_fuel size) root a m virt phys size flags
           | _ => r
           end)
        (Some (Done a m)) regions.

(** The identity mappings of [init_vmm], in the order of the calls. *)
Definition boot_regions (kernel_end phy_ram_size : Z) : list (Z * Z * Z * Z) :=
  [ (0x40000000, 0x40000000, u64 (kernel_end - 0x40000000), VM_WRITABLE);
    (PHY_RAM_BASE, PHY_RAM_BASE, phy_ram_size, VM_WRITABLE);
    (0x50000000, 0x50000000, 8 * 1024 * 1024, VM_WRITABLE);
    (0x09000000, 0x09000000, 1024 * 1024, Z.lor VM_WRITABLE VM_DEVICE);
    (0x0a000000, 0x0a000000, 1024 * 1024, Z.lor VM_WRITABLE VM_DEVICE);
    (0x08000000, 0x08000000, 1024 * 1024, Z.lor VM_WRITABLE VM_DEVICE) ].

Definition init_vmm (kernel_end phy_ram_size : Z) (v : vmm_state) (a : A) (m : mem)
  : option (vmm_state * result A) :=
  let '(root, a, m) := fa_alloc a m in
  let m := memset m root 0 PAGE_SIZE in
  let mair := Z.lor (Z.shiftl 0x00 (8 * MT_DEVICE_nGnRnE)) (Z.shiftl 0xFF (8 * MT_NORMAL)) in
  let tcr := Z.lor (Z.lor (Z.lor (Z.lor (Z.shiftl 25 0) (Z.shiftl 0 14)) (Z.shiftl 2 32))
                          (Z.shiftl 25 16)) (Z.shiftl 2 30) in
  r ← map_regions root (boot_regions kernel_end phy_ram_size) a m;
  match r with
  | Stuck a m =>
      Some (VmmState root root (paging_enabled v) mair tcr (ttbr0_el1 v) (ttbr1_el1 v) (sctlr_el1 v),
            Stuck a m)
  | Done a m =>
      let sctlr := Z.lor (sctlr_el1 v)
                     (Z.lor (Z.lor (Z.shiftl 1 0) (Z.shiftl 1 2)) (Z.shiftl 1 12)) in
      Some (VmmState root root true mair tcr root root sctlr, Done a m)
  end.
End WithAllocator.

(** ** What the tables mean

    The translation-table walk of the architecture, over the same memory: a
    descriptor is valid when bit 0 is set, and at L2 bit 1 tells a table from a
    2 MiB block. A leaf without the access flag faults. *)

Definition valid (e : Z) : bool := nonzero (Z.land e PT_VALID).
Definition is_table (e : Z) : bool := Z.land e 3 =? 3.
Definition out_addr (e : Z) : Z := Z.land e ADDR_MASK.

Inductive leaf := Page (e : Z) | Block (e : Z).

Definition child (m : mem) (table idx : Z) : option Z :=
  if is_table (entry m table idx) then Some (out_addr (entry m table idx)) else None.

Definition walk (m : mem) (root virt : Z) : option leaf :=
  t2 ← child m root (l1_idx virt);
  let e2 := entry m t2 (l2_idx virt) in
  if negb (valid e2) then None
  else if is_table e2 then
    let e3 := entry m (out_addr e2) (l3_idx virt) in
    if valid e3 then Some (Page e3) else None
  else Some (Block e2).

(** What a leaf descriptor says about the accesses it allows: writes at EL1,
    the index of its memory type in [MAIR_EL1], execution at EL1 and at EL0,
    whether it is inner shareable, and access from EL0. *)
Record attrs := Attrs {
  at_write : bool; at_type : Z; at_pxn : bool; at_uxn : bool; at_inner : bool; at_user : bool;
}.

Definition decode (e : Z) : attrs :=
  Attrs (negb (Z.testbit e 7)) (Z.land (Z.shiftr e 2) 7)
        (Z.testbit e 53) (Z.testbit e 54) (Z.land (Z.shiftr e 8) 3 =? 3) (Z.testbit e 6).

(** The access flag. *)
Definition accessed (e : Z) : bool := Z.testbit e 10.

Definition translate (m : mem) (root virt : Z) : option (Z * attrs) :=
  match walk m root virt with
  | Some (Page e) => if accessed e then Some (out_addr e + virt mod 4096, decode e) else None
  | Some (Block e) => if accessed e then Some (out_addr e + virt mod BLOCK_SIZE, decode e) else None
  | None => None
  end.

(** The attributes the mapping flags ask for: device or normal memory, no
    execution outside EL1 and, for devices or on request, none at all. *)
Definition attrs_of (flags : Z) : attrs :=
  Attrs (Z.testbit flags 0) (if Z.testbit flags 3 then MT_DEVICE_nGnRnE else MT_NORMAL)
        (Z.testbit flags 3 || Z.testbit flags 2) true true false.

(** Bits [lo] to [lo + n - 1] of a register. *)
Definition field (x lo n : Z) : Z := Z.land (Z.shiftr x lo) (Z.ones n).

(** ** Descriptors *)

Lemma lor_assoc5 p a b c d :
  Z.lor (Z.lor (Z.lor (Z.lor p a) b) c) d = Z.lor p (Z.lor (Z.lor (Z.lor a b) c) d).
Proof. by rewrite !Z.lor_assoc. Qed.

(** A leaf descriptor is its output address plus bits that depend on the flags
    only. *)
Lemma make_entry_lor kind phys flags :
  make_entry kind phys flags = Z.lor phys (make_entry kind 0 flags).
Proof.
  unfold make_entry.
  destruct (nonzero (Z.land flags VM_DEVICE)), (nonzero (Z.land flags VM_WRITABLE)),
    (nonzero (Z.land flags VM_NO_EXEC)); rewrite Z.lor_0_l, !Z.lor_assoc; done.
Qed.

Lemma out_addr_lor x y : out_addr (Z.lor x y) = Z.lor (out_addr x) (out_addr y).
Proof. apply Z.land_lor_distr_l. Qed.

Lemma out_addr_aligned x : x mod 4096 = 0 -> 0 <= x < 2 ^ 48 -> out_addr x = x.
Proof.
  intros Hx Hr. unfold out_addr. apply Z.bits_inj'. intros i Hi. rewrite Z.land_spec.
  destruct (decide (i < 12)); [rewrite (testbit_aligned x 12) by (done || lia); done|].
  destruct (decide (48 <= i)); [rewrite (testbit_small x 48) by lia; done|].
  change ADDR_MASK with (Z.shiftl (Z.ones 36) 12).
  rewrite Z.shiftl_spec, Z.ones_spec_low by lia. apply andb_true_r.
Qed.

(** The three flags that matter, as the eight possible descriptors. *)
Lemma make_entry_cases (P : Z -> attrs -> Prop) kind flags :
  (forall d w x : bool,
     P (make_entry kind 0 ((if d then VM_DEVICE else 0) + (if w then VM_WRITABLE else 0)
                           + (if x then VM_NO_EXEC else 0)))
       (Attrs w (if d then MT_DEVICE_nGnRnE else MT_NORMAL) (d || x) true true false)) ->
  P (make_entry kind 0 flags) (attrs_of flags).
Proof.
  intros H. specialize (H (Z.testbit flags 3) (Z.testbit flags 0) (Z.testbit flags 2)).
  unfold attrs_of. revert H. unfold make_entry at 2, VM_DEVICE, VM_WRITABLE, VM_NO_EXEC.
  rewrite !nonzero_land_shiftl by lia.
  destruct (Z.testbit flags 3), (Z.testbit flags 0), (Z.testbit flags 2); exact (fun H => H).
Qed.

Lemma make_entry_facts kind flags :
  kind = PT_PAGE \/ kind = PT_BLOCK ->
  let c := make_entry kind 0 flags in
  0 <= c < 2 ^ 64 /\ out_addr c = 0 /\ valid c = true /\
  is_table c = (kind =? PT_PAGE) /\ accessed c = true /\ decode c = attrs_of flags.
Proof.
  intros Hk c. unfold c.
  apply (make_entry_cases (fun c at_ => 0 <= c < 2 ^ 64 /\ out_addr c = 0 /\ valid c = true /\
           is_table c = (kind =? PT_PAGE) /\ accessed c = true /\ decode c = at_)).
  intros d w x. destruct Hk as [-> | ->], d, w, x; (split; [split; [discriminate|reflexivity]|]);
    repeat split; reflexivity.
Qed.

(** The bits below an aligned address do not see it. *)
Lemma field_low phys k n : phys mod 4096 = 0 -> 0 <= k -> 0 <= n -> k + n <= 12 ->
  Z.land (Z.shiftr phys k) (Z.ones n) = 0.
Proof.
  intros Ha Hk Hn Hkn. apply Z.bits_inj'. intros i Hi.
  rewrite Z.land_spec, Z.shiftr_spec, Z.bits_0 by done. destruct (decide (i < n)).
  - by rewrite (testbit_aligned phys 12) by (done || lia).
  - rewrite Z.ones_spec_high by lia. apply andb_false_r.
Qed.

Lemma decode_lor phys c :
  phys mod 4096 = 0 -> 0 <= phys < 2 ^ 48 ->
  decode (Z.lor phys c) = decode c /\ accessed (Z.lor phys c) = accessed c.
Proof.
  intros Ha Hr. unfold decode, accessed. rewrite !Z.lor_spec, !Z.shiftr_lor, !Z.land_lor_distr_l.
  rewrite (testbit_aligned phys 12 7), (testbit_aligned phys 12 6), (testbit_aligned phys 12 10),
    (testbit_small phys 48 53), (testbit_small phys 48 54) by (done || lia).
  assert (H1 : Z.land (Z.shiftr phys 2) 7 = 0) by (by apply (field_low phys 2 3)).
  assert (H2 : Z.land (Z.shiftr phys 8) 3 = 0) by (by apply (field_low phys 8 2)).
  by rewrite H1, H2.
Qed.

(** What a leaf descriptor built by the mapping functions decodes to. *)
Lemma make_entry_spec kind phys flags :
  kind = PT_PAGE \/ kind = PT_BLOCK ->
  phys mod 4096 = 0 -> 0 <= phys < 2 ^ 48 ->
  let e := make_entry kind phys flags in
  0 <= e < 2 ^ 64 /\ out_addr e = phys /\ valid e = true /\
  is_table e = (kind =? PT_PAGE) /\ accessed e = true /\ decode e = attrs_of flags.
Proof.
  intros Hk Ha Hr e. unfold e. rewrite make_entry_lor.
  destruct (make_entry_facts kind flags Hk) as (H1 & H2 & H3 & H4 & H5 & H6).
  destruct (decode_lor phys (make_entry kind 0 flags) Ha Hr) as [H7 H8].
  split; [apply lor_range; lia|]. split_and!.
  - by rewrite out_addr_lor, H2, Z.lor_0_r, out_addr_aligned.
  - unfold valid, PT_VALID in *. rewrite Z.land_lor_distr_l.
    by rewrite (land_aligned phys _ 12) by (done || lia).
  - rewrite <- H4. unfold is_table. rewrite Z.land_lor_distr_l.
    by rewrite (land_aligned phys _ 12) by (done || lia).
  - by rewrite H8.
  - by rewrite H7.
Qed.

(** A table descriptor points to its table. *)
Lemma table_entry_spec f :
  f mod 4096 = 0 -> 0 <= f < 2 ^ 48 ->
  let e := Z.lor (Z.lor f PT_TABLE) PT_VALID in
  0 <= e < 2 ^ 64 /\ out_addr e = f /\ valid e = true /\ is_table e = true.
Proof.
  intros Ha Hr e. unfold e. rewrite <- Z.lor_assoc. change (Z.lor PT_TABLE PT_VALID) with 3.
  split; [apply lor_range; lia|]. split_and!.
  - rewrite out_addr_lor. change (out_addr 3) with 0. by rewrite Z.lor_0_r, out_addr_aligned.
  - unfold valid. rewrite Z.land_lor_distr_l. by rewrite (land_aligned f _ 12) by (done || lia).
  - unfold is_table. rewrite Z.land_lor_distr_l. by rewrite (land_aligned f _ 12) by (done || lia).
Qed.

(** ** Indices *)

Lemma l1_idx_spec v : l1_idx v = (v / 2 ^ 30) mod 512.
Proof. unfold l1_idx. rewrite Z.shiftr_div_pow2 by lia. apply (land_ones' _ 9). lia. Qed.
Lemma l2_idx_spec v : l2_idx v = (v / 2 ^ 21) mod 512.
Proof. unfold l2_idx. rewrite Z.shiftr_div_pow2 by lia. apply (land_ones' _ 9). lia. Qed.
Lemma l3_idx_spec v : l3_idx v = (v / 2 ^ 12) mod 512.
Proof. unfold l3_idx. rewrite Z.shiftr_div_pow2 by lia. apply (land_ones' _ 9). lia. Qed.

Lemma idx_range v :
  0 <= l1_idx v < 512 /\ 0 <= l2_idx v < 512 /\ 0 <= l3_idx v < 512.
Proof. rewrite l1_idx_spec, l2_idx_spec, l3_idx_spec. zdiv. Qed.

(** In the 39-bit address space the indices identify the page. *)
Lemma same_block v w : 0 <= v < 2 ^ 39 -> 0 <= w < 2 ^ 39 ->
  l1_idx v = l1_idx w -> l2_idx v = l2_idx w -> v / BLOCK_SIZE = w / BLOCK_SIZE.
Proof. change BLOCK_SIZE with (2 ^ 21). rewrite !l1_idx_spec, !l2_idx_spec. zdiv. Qed.

Lemma same_page v w : 0 <= v < 2 ^ 39 -> 0 <= w < 2 ^ 39 ->
  l1_idx v = l1_idx w -> l2_idx v = l2_idx w -> l3_idx v = l3_idx w -> v / 4096 = w / 4096.
Proof. rewrite !l1_idx_spec, !l2_idx_spec, !l3_idx_spec. zdiv. Qed.

(** ** The table tree

    A table is named by the path of indices that leads to it: [[]] is the root,
    [[i]] an L2 table, [[i; j]] an L3 table. *)

Definition path (p : list Z) : Prop := (length p <= 2)%nat /\ Forall (fun i => 0 <= i < 512) p.

Definition node (m : mem) (root : Z) (p : list Z) : option Z :=
  foldl (fun t i => t ← t; child m t i) (Some root) p.

Definition page (t : Z) : Prop := t mod 4096 = 0 /\ 0 < t /\ t + 4096 <= 2 ^ 48.

Lemma node_snoc m root p i : node m root (p ++ [i]) = (t ← node m root p; child m t i).
Proof. unfold node. by rewrite foldl_app. Qed.

Lemma path_snoc p i : path (p ++ [i]) -> path p /\ 0 <= i < 512.
Proof.
  intros [Hl Hf]. rewrite length_app in Hl. simpl in Hl. apply Forall_app in Hf as [Hf Hi].
  rewrite Forall_singleton in Hi. split; [split; [lia|done]|exact Hi].
Qed.

(** Case analysis on paths. *)
Lemma path_cases p : path p ->
  p = [] \/ (exists i, 0 <= i < 512 /\ p = [i]) \/
  (exists i j, 0 <= i < 512 /\ 0 <= j < 512 /\ p = [i; j]).
Proof.
  intros [Hl Hf]. destruct p as [|i [|j [|k p]]]; simpl in Hl; [by left|..|lia].
  - right; left. rewrite Forall_singleton in Hf. by exists i.
  - right; right. apply Forall_cons_1 in Hf as [Hi Hf]. rewrite Forall_singleton in Hf. by exists i, j.
Qed.

Lemma path_nil : path [].
Proof. split; simpl; [lia|done]. Qed.
Lemma path_1 i : 0 <= i < 512 -> path [i].
Proof. intros Hi. split; simpl; [lia|by apply (Forall_singleton (fun i => 0 <= i < 512))]. Qed.
Lemma path_2 i j : 0 <= i < 512 -> 0 <= j < 512 -> path [i; j].
Proof. intros Hi Hj. split; simpl; [lia|]. apply Forall_cons_2; [done|by apply (Forall_singleton (fun i => 0 <= i < 512))]. Qed.
#[local] Hint Resolve path_nil path_1 path_2 : core.

(** Slots of page-aligned tables are pairwise disjoint. *)
Lemma entry_set_entry m t i e s j :
  t mod 4096 = 0 -> s mod 4096 = 0 -> 0 <= i < 512 -> 0 <= j < 512 -> 0 <= e < 2 ^ 64 ->
  entry (set_entry m t i e) s j = if decide (s = t /\ j = i) then e else entry m s j.
Proof.
  intros Ht Hs Hi Hj He. unfold entry, set_entry. case_decide as H.
  - destruct H as [-> ->]. by rewrite loadn_storen_eq by lia.
  - rewrite loadn_storen_ne; [done|]. zdiv.
Qed.

Lemma entry_agree (P : Z -> Prop) m m' t i :
  agree P m m' -> (forall b, t <= b < t + 4096 -> P b) -> 0 <= i < 512 ->
  entry m' t i = entry m t i.
Proof. intros Ha HP Hi. eapply agree_loadn; [done|]. intros b Hb. apply HP. lia. Qed.

(** The walk reads the entries of the tables of the tree only. *)
Lemma tree_ext m m' root :
  (forall p t j, path p -> node m root p = Some t -> 0 <= j < 512 -> entry m' t j = entry m t j) ->
  (forall p, path p -> node m' root p = node m root p) /\
  (forall v, walk m' root v = walk m root v).
Proof.
  intros He.
  assert (Hc : forall p t j, path p -> node m root p = Some t -> 0 <= j < 512 ->
                 child m' t j = child m t j).
  { intros p t j Hp Ht Hj. unfold child. by rewrite (He p). }
  assert (Hn1 : forall i, 0 <= i < 512 -> child m' root i = child m root i).
  { intros i Hi. by apply (Hc []). }
  split.
  - intros p Hp. destruct (path_cases p Hp) as [->|[(i & Hi & ->)|(i & j & Hi & Hj & ->)]];
      [done|by apply Hn1|].
    change ((t ← child m' root i; child m' t j) = (t ← child m root i; child m t j)).
    rewrite Hn1 by done. destruct (child m root i) as [t|] eqn:E; [|done].
    apply (Hc [i]); auto.
  - intros v. destruct (idx_range v) as (H1 & H2 & H3). unfold walk.
    rewrite Hn1 by done. destruct (child m root (l1_idx v)) as [t|] eqn:E; [|done]. simpl.
    rewrite (He [l1_idx v]) by auto. destruct (negb _); [done|].
    destruct (is_table _) eqn:Et; [|done].
    rewrite (He [l1_idx v; l2_idx v]); [done|auto| |done].
    change ((u ← child m root (l1_idx v); child m u (l2_idx v)) = Some (out_addr (entry m t (l2_idx v)))).
    rewrite E. simpl. unfold child. by rewrite Et.
Qed.

(** The bytes of the tables. *)
Definition tree_bytes (m : mem) (root b : Z) : Prop := exists p t, path p /\ node m root p = Some t /\ t <= b < t + 4096.

Lemma tree_agree m m' root : agree (tree_bytes m root) m m' ->
  (forall v, walk m' root v = walk m root v) /\ forall b, tree_bytes m' root b <-> tree_bytes m root b.
Proof.
  intros Hag. destruct (tree_ext m m' root) as [Hn Hw].
  { intros p t j Hp Ht Hj. eapply entry_agree; [exact Hag| |done]. intros b Hb. by exists p, t. }
  split; [done|]. intros b. split; intros (p & t & Hp & Ht & Hb); exists p, t; (split; [done|split; [|done]]).
  - by rewrite <- Hn.
  - by rewrite Hn.
Qed.

Section Tree.
Context {A : Type} {FA : FrameAllocator A}.

(** Every table is a page of RAM that the allocator considers in use and that
    holds none of its data, no table is reached along two paths, and L1 holds
    tables only. *)
Record pt_inv (a : A) (m : mem) (root : Z) : Prop := {
  pi_alloc : fa_inv a m;
  pi_page : forall p t, path p -> node m root p = Some t -> page t;
  pi_used : forall p t, path p -> node m root p = Some t -> ~ fa_free a m t;
  pi_own : forall p t b, path p -> node m root p = Some t -> t <= b < t + 4096 -> ~ fa_owns a b;
  pi_inj : forall p q t, path p -> path q ->
             node m root p = Some t -> node m root q = Some t -> p = q;
  pi_l1 : forall i, 0 <= i < 512 -> valid (entry m root i) = true ->
            is_table (entry m root i) = true;
}.

(** A memory that differs only outside the tree carries the same tree. *)
Lemma pt_inv_frame a m a' m' root :
  pt_inv a m root -> fa_inv a' m' ->
  (forall g, fa_free a' m' g -> fa_free a m g) -> (forall b, fa_owns a' b <-> fa_owns a b) ->
  (forall p t j, path p -> node m root p = Some t -> 0 <= j < 512 ->
     entry m' t j = entry m t j) ->
  pt_inv a' m' root /\ (forall p, path p -> node m' root p = node m root p) /\
  (forall v, walk m' root v = walk m root v).
Proof.
  intros [_ Hpg Hus Hown Hinj Hl1] Hi Hf Ho He.
  destruct (tree_ext m m' root He) as [Hn Hw]. split; [|done].
  split; [done|..].
  - intros p t Hp. rewrite Hn by done. by apply Hpg.
  - intros p t Hp. rewrite Hn by done. intros Ht Hfr. by eapply Hus, Hf.
  - intros p t b Hp. rewrite Hn, Ho by done. by apply Hown.
  - intros p q t Hp Hq. rewrite !Hn by done. by apply Hinj.
  - intros i Hj. rewrite (He []) by auto. by apply Hl1.
Qed.

(** Two distinct pages do not overlap, so writing one table leaves the
    entries of the others. *)
Lemma page_disjoint s t b : page s -> page t -> s <> t -> s <= b < s + 4096 -> b < t \/ t + 4096 <= b.
Proof. unfold page. zdiv. Qed.

Lemma entry_memset_other m f t j :
  page f -> page t -> f <> t -> 0 <= j < 512 ->
  entry (memset m f 0 PAGE_SIZE) t j = entry m t j.
Proof.
  intros Hf Ht Hne Hj. eapply entry_agree; [by apply memset_agree| |done].
  intros b Hb. unfold outside, PAGE_SIZE. eapply page_disjoint; [exact Ht|exact Hf|done|done].
Qed.

Lemma entry_memset_new m f j :
  page f -> 0 <= j < 512 -> entry (memset m f 0 PAGE_SIZE) f j = 0.
Proof.
  intros Hf Hj. unfold entry, PAGE_SIZE. apply memset_zero_loadn; lia.
Qed.

Lemma is_table_valid e : is_table e = true -> valid e = true.
Proof.
  unfold is_table, valid. intros H%Z.eqb_eq. change PT_VALID with (Z.land 3 1).
  rewrite Z.land_assoc, H. reflexivity.
Qed.

(** The walk in terms of the tree. *)
Lemma walk_node m root v :
  walk m root v =
    (t2 ← node m root [l1_idx v];
     let e2 := entry m t2 (l2_idx v) in
     if valid e2 then
       match node m root [l1_idx v; l2_idx v] with
       | Some t3 => let e3 := entry m t3 (l3_idx v) in
                    if valid e3 then Some (Page e3) else None
       | None => Some (Block e2)
       end
     else None).
Proof.
  unfold walk. change (node m root [l1_idx v]) with (child m root (l1_idx v)).
  change (node m root [l1_idx v; l2_idx v])
    with (t ← child m root (l1_idx v); child m t (l2_idx v)).
  destruct (child m root (l1_idx v)) as [t2|]; [|done]. simpl. unfold child at 1.
  destruct (valid _); [|done]. simpl. by destruct (is_table _).
Qed.

(** Reduce a bind whose first argument is known. *)
Ltac obind := cbn [mbind option_bind].

Section Slot.
Context (a : A) (m : mem) (root : Z) (Hinv : pt_inv a m root).
Context (p : list Z) (t i e : Z) (Hp : path p) (Hi : 0 <= i < 512).
Context (Ht : node m root p = Some t) (He : 0 <= e < 2 ^ 64).

Let m' := set_entry m t i e.

Lemma slot_page : page t.
Proof. by eapply pi_page. Qed.

(** The store changes this one entry. *)
Lemma slot_entry s j :
  page s -> 0 <= j < 512 ->
  entry m' s j = if decide (s = t /\ j = i) then e else entry m s j.
Proof.
  intros Hs Hj. pose proof slot_page as Hpt. unfold page in *.
  apply entry_set_entry; (lia || done).
Qed.

Lemma slot_entry_node q s j :
  path q -> node m root q = Some s -> 0 <= j < 512 ->
  entry m' s j = if decide (q = p /\ j = i) then e else entry m s j.
Proof.
  intros Hq Hs Hj. rewrite slot_entry by (try done; by eapply pi_page).
  destruct (decide (s = t /\ j = i)) as [[Hst Hj1]|H1],
    (decide (q = p /\ j = i)) as [[Hqp Hj2]|H2]; try done; exfalso.
  - apply H2. split; [|done]. subst s. by eapply pi_inj.
  - apply H1. subst q. rewrite Ht in Hs. by injection Hs as <-.
Qed.

(** The store stays inside the tree's own page. *)
Lemma slot_alloc :
  fa_inv a m' /\ (forall g, fa_free a m' g <-> fa_free a m g).
Proof.
  pose proof slot_page as [Hal _]. apply fa_frame; [by destruct Hinv|].
  eapply agree_weaken; [apply agree_storen|]. intros b Hb. unfold outside.
  destruct (decide (t <= b < t + 4096)) as [Hin|]; [|lia].
  exfalso. by eapply (pi_own _ _ _ Hinv).
Qed.

(** Every node of the new tree, given what the slot now means. *)
Lemma slot_node f :
  (is_table e = true -> f = Some (out_addr e)) -> (is_table e = false -> f = None) ->
  path (p ++ [i]) ->
  (forall j, 0 <= j < 512 ->
     (u ← f; child m' u j) = (u ← node m root (p ++ [i]); child m u j) \/ p <> []) ->
  forall q, path q -> node m' root q = if decide (q = p ++ [i]) then f else node m root q.
Proof.
  intros Hf1 Hf2 Hpi Hsub q. induction q as [|j q IH] using rev_ind; intros Hq.
  { rewrite decide_False; [done|]. intros H. by destruct p. }
  apply path_snoc in Hq as Hqj. destruct Hqj as [Hq' Hj].
  rewrite !node_snoc, IH by done. case_decide as H1.
  - subst q. rewrite decide_False.
    + destruct (Hsub j Hj) as [->|Hne]; [done|].
      destruct Hq as [Hq _]. rewrite !length_app in Hq. destruct p; [done|simpl in Hq; lia].
    + intros H. apply (f_equal length) in H. rewrite !length_app in H. simpl in H. lia.
  - destruct (node m root q) as [s|] eqn:Es; simpl.
    + unfold child. rewrite (slot_entry_node q) by done.
      case_decide as H2.
      * destruct H2 as [-> ->]. rewrite decide_True by done.
        destruct (is_table e) eqn:E; [by rewrite Hf1|by rewrite Hf2].
      * rewrite decide_False; [done|]. intros H%app_inj_tail. by apply H2.
    + rewrite decide_False; [done|]. intros [-> _]%app_inj_tail. congruence.
Qed.
End Slot.

Lemma node_invalid m root p t i :
  node m root p = Some t -> valid (entry m t i) = false -> node m root (p ++ [i]) = None.
Proof.
  intros Ht Hv. rewrite node_snoc, Ht. simpl. unfold child.
  destruct (is_table _) eqn:E; [|done]. apply is_table_valid in E. congruence.
Qed.

(** Hanging a zeroed page under an empty slot: one more node, the same
    translation. *)
Lemma grow_ok a m root p t i f :
  pt_inv a m root -> path (p ++ [i]) -> node m root p = Some t ->
  valid (entry m t i) = false ->
  page f -> ~ fa_free a m f -> (forall b, f <= b < f + 4096 -> ~ fa_owns a b) ->
  (forall q, path q -> node m root q <> Some f) ->
  (forall j, 0 <= j < 512 -> entry m f j = 0) ->
  let m' := set_entry m t i (Z.lor (Z.lor f PT_TABLE) PT_VALID) in
  pt_inv a m' root /\ (forall v, walk m' root v = walk m root v) /\
  (forall q, path q ->
     node m' root q = if decide (q = p ++ [i]) then Some f else node m root q) /\
  (forall q s j, path q -> node m root q = Some s -> 0 <= j < 512 -> q <> p ->
     entry m' s j = entry m s j).
Proof.
  intros Hinv Hpi Ht Hv Hf Hfree Hown Hnew Hz m'.
  destruct (path_snoc _ _ Hpi) as [Hp Hi].
  set (e := Z.lor (Z.lor f PT_TABLE) PT_VALID) in m'.
  assert (He : 0 <= e < 2 ^ 64 /\ out_addr e = f /\ valid e = true /\ is_table e = true)
    by (apply table_entry_spec; unfold page in Hf; lia).
  destruct He as (He & Hout & Hval & Htab).
  pose proof (node_invalid m root p t i Ht Hv) as Hnone.
  assert (Hft : f <> t) by (intros ->; by apply (Hnew p)).
  pose proof (slot_page a m root Hinv p t Hp Ht) as Hpt.
  assert (Hzf : forall j, 0 <= j < 512 -> entry m' f j = 0).
  { intros j Hj. unfold m'. rewrite (slot_entry a m root Hinv p t i e Hp Hi Ht He) by done.
    rewrite decide_False by (by intros [? _]). by apply Hz. }
  assert (Hn : forall q, path q ->
            node m' root q = if decide (q = p ++ [i]) then Some f else node m root q).
  { apply (slot_node a m root Hinv p t i e Hp Hi Ht He (Some f)); [by rewrite Hout|congruence|done|].
    intros j Hj. left. rewrite Hnone. simpl. fold m'. unfold child. by rewrite Hzf. }
  destruct (slot_alloc a m root Hinv p t i e Hp Hi Ht) as [Hal Hfr]. fold m' in Hal, Hfr.
  split; [|split; [|split; [done|]]].
  - split; [done|..].
    + intros q s Hq. rewrite Hn by done. case_decide; [by intros [= <-]|by eapply pi_page].
    + intros q s Hq. rewrite Hn, Hfr by done. case_decide; [by intros [= <-]|by eapply pi_used].
    + intros q s b Hq. rewrite Hn by done. case_decide; [intros [= <-]; apply Hown|by eapply pi_own].
    + intros q r s Hq Hr. rewrite !Hn by done. repeat case_decide; [congruence|..].
      * intros [= <-] Hs. by apply Hnew in Hs.
      * intros Hs [= <-]. by apply Hnew in Hs.
      * by eapply pi_inj.
    + intros j Hj. unfold m'.
      rewrite (slot_entry_node a m root Hinv p t i e Hp Hi Ht He []) by auto.
      case_decide; [done|by apply (pi_l1 _ _ _ Hinv)].
  - intros v. destruct (idx_range v) as (H1 & H2 & H3). rewrite !walk_node, !Hn by auto.
    destruct (decide ([l1_idx v] = p ++ [i])) as [D1|D1].
    { rewrite <- D1 in Hnone. rewrite Hnone. obind. by rewrite Hzf by done. }
    destruct (node m root [l1_idx v]) as [t2|] eqn:E2; [|done]. obind. unfold m'.
    rewrite (slot_entry_node a m root Hinv p t i e Hp Hi Ht He [l1_idx v]) by auto. fold m'.
    destruct (decide ([l1_idx v] = p /\ l2_idx v = i)) as [[D2 D3]|D2].
    { rewrite D2, Ht in E2. injection E2 as <-. rewrite D3, Hv.
      rewrite decide_True by (by rewrite <- D2). rewrite Hval, Hzf by done. reflexivity. }
    destruct (valid (entry m t2 (l2_idx v))); [|done].
    rewrite (decide_False (P := [l1_idx v; l2_idx v] = p ++ [i])).
    2:{ intros D3. change [l1_idx v; l2_idx v] with ([l1_idx v] ++ [l2_idx v]) in D3.
        apply app_inj_tail in D3 as [D3 D4]. by apply D2. }
    destruct (node m root [l1_idx v; l2_idx v]) as [t3|] eqn:E3; [|done]. unfold m'.
    rewrite (slot_entry_node a m root Hinv p t i e Hp Hi Ht He [l1_idx v; l2_idx v]) by auto.
    rewrite decide_False; [done|]. intros [D3 _]. subst p.
    destruct Hpi as [Hl _]. simpl in Hl. lia.
  - intros q s j Hq Hs Hj Hqp. unfold m'.
    rewrite (slot_entry_node a m root Hinv p t i e Hp Hi Ht He q) by done.
    by rewrite decide_False by (by intros [? _]).
Qed.

(** Writing a page descriptor into an L3 slot changes the translation of the
    one page the slot stands for. *)
Lemma leaf_page_ok a m root x y t i e :
  pt_inv a m root -> 0 <= x < 512 -> 0 <= y < 512 -> 0 <= i < 512 ->
  node m root [x; y] = Some t -> 0 <= e < 2 ^ 64 -> valid e = true ->
  let m' := set_entry m t i e in
  pt_inv a m' root /\
  (forall v, walk m' root v =
     if decide (l1_idx v = x /\ l2_idx v = y /\ l3_idx v = i) then Some (Page e)
     else walk m root v) /\
  (forall q, path q -> node m' root q = node m root q) /\
  (forall g, fa_free a m' g <-> fa_free a m g).
Proof.
  intros Hinv Hx Hy Hi Ht He Hv m'.
  assert (Hp : path [x; y]) by auto.
  destruct (slot_alloc a m root Hinv [x; y] t i e Hp Hi Ht) as [Hal Hfr]. fold m' in Hal, Hfr.
  assert (Hen : forall q s j, path q -> node m root q = Some s -> 0 <= j < 512 ->
            entry m' s j = if decide (q = [x; y] /\ j = i) then e else entry m s j)
    by (intros; by eapply slot_entry_node).
  assert (Hn : forall q, path q -> node m' root q = node m root q).
  { intros q. induction q as [|j q IH] using rev_ind; intros Hq; [done|].
    destruct (path_snoc _ _ Hq) as [Hq' Hj]. rewrite !node_snoc, IH by done.
    destruct (node m root q) as [s|] eqn:Es; [|done]. simpl. unfold child.
    rewrite (Hen q) by done. rewrite decide_False; [done|]. intros [-> _].
    destruct Hq as [Hl _]. rewrite length_app in Hl. simpl in Hl. lia. }
  split; [|split; [|split; [done|exact Hfr]]].
  - split; [done|..].
    + intros q s Hq. rewrite Hn by done. by eapply pi_page.
    + intros q s Hq. rewrite Hn, Hfr by done. by eapply pi_used.
    + intros q s b Hq. rewrite Hn by done. by eapply pi_own.
    + intros q r s Hq Hr. rewrite !Hn by done. by eapply pi_inj.
    + intros j Hj. rewrite (Hen []) by auto. rewrite decide_False by (by intros [? _]).
      by apply (pi_l1 _ _ _ Hinv).
  - intros v. destruct (idx_range v) as (H1 & H2 & H3). rewrite !walk_node, !Hn by auto.
    destruct (node m root [l1_idx v]) as [t2|] eqn:E2; obind.
    2:{ rewrite decide_False; [done|]. intros (D1 & D2 & _).
        change [x; y] with ([x] ++ [y]) in Ht. rewrite node_snoc, <- D1, E2 in Ht. done. }
    rewrite (Hen [l1_idx v]), decide_False by (auto || by intros [? _]).
    destruct (valid (entry m t2 (l2_idx v))) eqn:Ev.
    2:{ rewrite decide_False; [done|]. intros (D1 & D2 & _).
        pose proof (node_invalid _ _ _ _ _ E2 Ev) as Hno. simpl in Hno.
        rewrite D1, D2 in Hno. congruence. }
    destruct (node m root [l1_idx v; l2_idx v]) as [t3|] eqn:E3.
    2:{ rewrite decide_False; [done|]. intros (D1 & D2 & _). rewrite D1, D2 in E3. congruence. }
    rewrite (Hen [l1_idx v; l2_idx v]) by auto.
    destruct (decide ([l1_idx v; l2_idx v] = [x; y] /\ l3_idx v = i)) as [D|D],
      (decide (l1_idx v = x /\ l2_idx v = y /\ l3_idx v = i)) as [D'|D']; [|exfalso..|done].
    + by rewrite Hv.
    + apply D'. destruct D as [[= -> ->] ->]. done.
    + apply D. destruct D' as (-> & -> & ->). done.
Qed.

(** Writing a block descriptor into an L2 slot changes the translation of
    that 2 MiB, whatever the slot held. *)
Lemma leaf_block_ok a m root x t i e :
  pt_inv a m root -> 0 <= x < 512 -> 0 <= i < 512 ->
  node m root [x] = Some t -> 0 <= e < 2 ^ 64 -> valid e = true -> is_table e = false ->
  let m' := set_entry m t i e in
  pt_inv a m' root /\
  (forall v, walk m' root v =
     if decide (l1_idx v = x /\ l2_idx v = i) then Some (Block e) else walk m root v) /\
  (forall g, fa_free a m' g <-> fa_free a m g).
Proof.
  intros Hinv Hx Hi Ht He Hv Htab m'.
  assert (Hp : path [x]) by auto.
  destruct (slot_alloc a m root Hinv [x] t i e Hp Hi Ht) as [Hal Hfr]. fold m' in Hal, Hfr.
  assert (Hen : forall q s j, path q -> node m root q = Some s -> 0 <= j < 512 ->
            entry m' s j = if decide (q = [x] /\ j = i) then e else entry m s j)
    by (intros; by eapply slot_entry_node).
  assert (Hn : forall q, path q -> node m' root q = if decide (q = [x; i]) then None else node m root q).
  { apply (slot_node a m root Hinv [x] t i e Hp Hi Ht He None); [congruence|done|simpl; auto|].
    intros j Hj. by right. }
  split; [|split; [|exact Hfr]].
  - split; [done|..].
    + intros q s Hq. rewrite Hn by done. case_decide; [done|by eapply pi_page].
    + intros q s Hq. rewrite Hn, Hfr by done. case_decide; [done|by eapply pi_used].
    + intros q s b Hq. rewrite Hn by done. case_decide; [done|by eapply pi_own].
    + intros q r s Hq Hr. rewrite !Hn by done. repeat case_decide; try done. by eapply pi_inj.
    + intros j Hj. rewrite (Hen []) by auto. rewrite decide_False by (by intros [? _]).
      by apply (pi_l1 _ _ _ Hinv).
  - intros v. destruct (idx_range v) as (H1 & H2 & H3). rewrite !walk_node, !Hn by auto.
    rewrite (decide_False (P := [l1_idx v] = [x; i])) by done.
    destruct (node m root [l1_idx v]) as [t2|] eqn:E2; obind.
    2:{ rewrite decide_False; [done|]. intros [D1 _]. rewrite D1 in E2. congruence. }
    rewrite (Hen [l1_idx v]) by auto.
    destruct (decide (l1_idx v = x /\ l2_idx v = i)) as [[D1 D2]|D].
    + rewrite !decide_True by (rewrite ?D1, ?D2; done). by rewrite Hv.
    + rewrite !decide_False
        by (try (intros [= D1 D2]; by apply D); by intros [[= D1] D2]; apply D).
      destruct (valid (entry m t2 (l2_idx v))); [|done].
      destruct (node m root [l1_idx v; l2_idx v]) as [t3|] eqn:E3; [|done].
      by rewrite (Hen [l1_idx v; l2_idx v]), decide_False by (auto || by intros [? _]).
Qed.

(** ** Frames taken *)

(** From one state to the other at most [n] frames were taken and none was
    given back. *)
Definition takes (n : Z) (a : A) (m : mem) (a' : A) (m' : mem) : Prop :=
  (forall g, fa_free a' m' g -> fa_free a m g) /\
  exists l, Z.of_nat (length l) <= n /\ forall g, fa_free a m g -> g ∈ l \/ fa_free a' m' g.

(** At most [n] frames are free. *)
Definition few_free (n : Z) (a : A) (m : mem) : Prop :=
  forall frames, NoDup frames -> Forall (fa_free a m) frames -> Z.of_nat (length frames) <= n.

Lemma takes_same a m a' m' : (forall g, fa_free a' m' g <-> fa_free a m g) -> takes 0 a m a' m'.
Proof. intros H. split; [intros g; apply H|]. exists []. split; [done|]. intros g Hg. right. by apply H. Qed.

Lemma takes_trans n1 n2 n a1 m1 a2 m2 a3 m3 :
  takes n1 a1 m1 a2 m2 -> takes n2 a2 m2 a3 m3 -> n1 + n2 <= n -> takes n a1 m1 a3 m3.
Proof.
  intros (Hs1 & l1 & Hl1 & H1) (Hs2 & l2 & Hl2 & H2) Hn. split; [auto|].
  exists (l1 ++ l2). rewrite length_app. split; [lia|]. intros g Hg. rewrite elem_of_app.
  destruct (H1 g Hg) as [|Hg2]; [by left; left|]. destruct (H2 g Hg2); [by left; right|by right].
Qed.

Lemma takes_weaken n n' a m a' m' : takes n a m a' m' -> n <= n' -> takes n' a m a' m'.
Proof. intros (Hs & l & Hl & H) Hn. split; [done|]. exists l. split; [lia|done]. Qed.

(** Nothing is left, so what was free has been taken. *)
Lemma takes_all n a m a' m' : takes n a m a' m' -> (forall g, ~ fa_free a' m' g) -> few_free n a m.
Proof.
  intros (_ & l & Hl & H) Hno frames Hnd Hf. rewrite list.Forall_forall in Hf.
  assert (Hsub : frames ⊆+ l).
  { apply NoDup_submseteq; [done|]. intros g Hg. destruct (H g (Hf g Hg)) as [|Hg']; [done|]. by apply Hno in Hg'. }
  apply submseteq_length in Hsub. lia.
Qed.

(** ** The mapping operations *)

Lemma get_next_table_ok a m root p t i :
  pt_inv a m root -> path (p ++ [i]) -> node m root p = Some t ->
  (valid (entry m t i) = true -> is_table (entry m t i) = true) ->
  let '(r, a', m') := get_next_table a m t i in
  pt_inv a' m' root /\ (forall v, walk m' root v = walk m root v) /\ takes 1 a m a' m' /\
  if r =? 0 then forall g, ~ fa_free a m g else node m' root (p ++ [i]) = Some r.
Proof.
  intros Hinv Hpi Ht Hnb. unfold get_next_table.
  destruct (path_snoc _ _ Hpi) as [Hp Hi].
  fold (valid (entry m t i)) (out_addr (entry m t i)).
  destruct (valid (entry m t i)) eqn:Ev.
  { specialize (Hnb eq_refl). split_and!; [done..|by apply (takes_weaken 0); [apply takes_same|]|].
    assert (Hn : node m root (p ++ [i]) = Some (out_addr (entry m t i))).
    { rewrite node_snoc, Ht. obind. unfold child. by rewrite Hnb. }
    pose proof (pi_page _ _ _ Hinv _ _ Hpi Hn) as (_ & Hpos & _).
    destruct (_ =? 0) eqn:E; [lia|done]. }
  pose proof (fa_alloc_spec a m (pi_alloc _ _ _ Hinv)) as Hal.
  destruct (fa_alloc a m) as [[f a1] m1].
  destruct Hal as (Hi1 & Hag & Ho1 & Hf1 & Hz & Hnz).
  assert (Hen : forall q s j, path q -> node m root q = Some s -> 0 <= j < 512 ->
                  entry m1 s j = entry m s j).
  { intros q s j Hq Hs Hj. eapply entry_agree; [exact Hag| |done].
    intros b Hb. by eapply (pi_own _ _ _ Hinv). }
  assert (Hsub : forall g, fa_free a1 m1 g -> fa_free a m g) by (intros g Hg; by apply Hf1).
  destruct (pt_inv_frame a m a1 m1 root Hinv Hi1 Hsub Ho1 Hen) as (Hinv1 & Hn1 & Hw1).
  destruct (f =? 0) eqn:Ef.
  { assert (Hno : forall g, ~ fa_free a m g) by (intros g; apply Hz; lia). split_and!; [done..| |done].
    split; [done|]. exists []. split; [done|]. intros g Hg. by apply Hno in Hg. }
  assert (Hff : fa_free a m f) by (apply Hnz; lia).
  pose proof (fa_page a m f (pi_alloc _ _ _ Hinv) Hff) as (Hal4 & Hpos & Hlim & Hown).
  assert (Hfp : page f) by done.
  assert (Hnew : forall q, path q -> node m root q <> Some f).
  { intros q Hq Hs. by eapply (pi_used _ _ _ Hinv). }
  set (m2 := memset m1 f 0 PAGE_SIZE).
  assert (Hen2 : forall q s j, path q -> node m1 root q = Some s -> 0 <= j < 512 ->
                   entry m2 s j = entry m1 s j).
  { intros q s j Hq Hs Hj. apply entry_memset_other; [done|by eapply (pi_page _ _ _ Hinv1)| |done].
    intros ->. rewrite Hn1 in Hs by done. by apply Hnew in Hs. }
  destruct (fa_frame a1 m1 m2 Hi1) as [Hi2 Hf2].
  { eapply agree_weaken; [apply memset_agree; unfold PAGE_SIZE; lia|].
    intros b Hb%Ho1. unfold outside, PAGE_SIZE.
    destruct (decide (f <= b < f + 4096)) as [Hin|]; [|lia]. by apply Hown in Hin. }
  destruct (pt_inv_frame a1 m1 a1 m2 root Hinv1 Hi2) as (Hinv2 & Hn2 & Hw2);
    [intros g; by rewrite Hf2|done|done|].
  assert (Hn12 : forall q, path q -> node m2 root q = node m root q).
  { intros q Hq. by rewrite Hn2, Hn1. }
  destruct (grow_ok a1 m2 root p t i f) as (Hinv3 & Hw3 & Hn3 & _); [done|done|..|done| | | | |].
  - by rewrite Hn12.
  - rewrite (Hen2 p), (Hen p) by (try rewrite Hn1 by done; done). done.
  - rewrite Hf2, Hf1. by intros [_ ?].
  - intros b Hb. rewrite Ho1. by apply Hown.
  - intros q Hq. rewrite Hn12 by done. by apply Hnew.
  - intros j Hj. by apply entry_memset_new.
  - split_and!; [exact Hinv3|..].
    + intros v. by rewrite Hw3, Hw2, Hw1.
    + destruct (slot_alloc a1 m2 root Hinv2 p t i (Z.lor (Z.lor f PT_TABLE) PT_VALID) Hp Hi)
        as [_ Hf3]; [by rewrite Hn12|]. split; [intros g Hg; by apply Hsub, Hf2, Hf3|].
      exists [f]. split; [done|]. intros g Hg. destruct (decide (g = f)) as [->|Hne]; [left; by left|right].
      by apply Hf3, Hf2, Hf1.
    + rewrite Ef. fold m2. rewrite Hn3 by done. by rewrite decide_True.
Qed.

(** How a mapping call may end: it returns with the new translations [walk'],
    having taken at most [n] frames, or it is stuck, with no frame left, at most
    [n - 1] taken and the translations as they were. *)
Definition maps (root n : Z) (a : A) (m : mem) (walk' : Z -> option leaf) (r : result A) : Prop :=
  match r with
  | Done a' m' => pt_inv a' m' root /\ takes n a m a' m' /\ forall v, walk m' root v = walk' v
  | Stuck a' m' => pt_inv a' m' root /\ takes (n - 1) a m a' m' /\ (forall g, ~ fa_free a' m' g) /\
      forall v, walk m' root v = walk m root v
  end.

Lemma map_page_ok a m root virt phys flags :
  pt_inv a m root -> phys mod 4096 = 0 -> 0 <= phys < 2 ^ 48 ->
  (forall e, walk m root virt <> Some (Block e)) ->
  maps root 2 a m
    (fun v => if decide (l1_idx v = l1_idx virt /\ l2_idx v = l2_idx virt /\ l3_idx v = l3_idx virt)
              then Some (Page (make_entry PT_PAGE phys flags)) else walk m root v)
    (vmm_map_page root a m virt phys flags).
Proof.
  intros Hinv Ha Hr Hnb. destruct (idx_range virt) as (H1 & H2 & H3). unfold vmm_map_page.
  pose proof (get_next_table_ok a m root [] root (l1_idx virt) Hinv (path_1 _ H1) eq_refl
                (pi_l1 _ _ _ Hinv _ H1)) as G1.
  destruct (get_next_table a m root (l1_idx virt)) as [[t2 a1] m1].
  destruct G1 as (Hinv1 & Hw1 & Hf1 & G1). destruct (t2 =? 0).
  { cbn. split_and!; [done|done| |done]. intros g Hg%(proj1 Hf1). by apply G1 in Hg. }
  simpl in G1.
  assert (Hnb1 : valid (entry m1 t2 (l2_idx virt)) = true ->
                 is_table (entry m1 t2 (l2_idx virt)) = true).
  { intros Hv. specialize (Hw1 virt). unfold walk at 1 in Hw1.
    change (child m1 root (l1_idx virt) = Some t2) in G1. rewrite G1 in Hw1.
    cbn [mbind option_bind] in Hw1. rewrite Hv in Hw1. simpl in Hw1.
    destruct (is_table _); [done|]. symmetry in Hw1. by apply Hnb in Hw1. }
  pose proof (get_next_table_ok a1 m1 root [l1_idx virt] t2 (l2_idx virt) Hinv1
                (path_2 _ _ H1 H2) G1 Hnb1) as G2.
  destruct (get_next_table a1 m1 t2 (l2_idx virt)) as [[t3 a2] m2].
  destruct G2 as (Hinv2 & Hw2 & Hf2 & G2). destruct (t3 =? 0); cbn [maps].
  { assert (Hno : forall g, ~ fa_free a2 m2 g) by (intros g Hg%(proj1 Hf2); by apply G2 in Hg).
    split_and!; [done| |done|intros v; by rewrite Hw2, Hw1].
    destruct Hf1 as (Hs1 & l & Hl & Hin). split; [intros g Hg; by apply Hno in Hg|].
    exists l. split; [done|]. intros g Hg. destruct (Hin g Hg) as [|Hg1]; [by left|]. by apply G2 in Hg1. }
  destruct (make_entry_spec PT_PAGE phys flags) as (He & _ & Hv & _); [by left|done|done|].
  destruct (leaf_page_ok a2 m2 root _ _ t3 (l3_idx virt) _ Hinv2 H1 H2 H3 G2 He Hv)
    as (Hinv3 & Hw3 & _ & Hf3).
  split_and!; [done| |].
  - apply (takes_trans 2 0 _ _ _ a2 m2); [by apply (takes_trans 1 1 _ _ _ a1 m1)|by apply takes_same|done].
  - intros v. rewrite Hw3. case_decide; [done|]. by rewrite Hw2, Hw1.
Qed.

Lemma map_block_ok a m root virt phys flags :
  pt_inv a m root -> phys mod 4096 = 0 -> 0 <= phys < 2 ^ 48 ->
  maps root 1 a m
    (fun v => if decide (l1_idx v = l1_idx virt /\ l2_idx v = l2_idx virt)
              then Some (Block (make_entry PT_BLOCK phys flags)) else walk m root v)
    (vmm_map_block root a m virt phys flags).
Proof.
  intros Hinv Ha Hr. destruct (idx_range virt) as (H1 & H2 & _). unfold vmm_map_block.
  pose proof (get_next_table_ok a m root [] root (l1_idx virt) Hinv (path_1 _ H1) eq_refl
                (pi_l1 _ _ _ Hinv _ H1)) as G1.
  destruct (get_next_table a m root (l1_idx virt)) as [[t2 a1] m1].
  destruct G1 as (Hinv1 & Hw1 & Hf1 & G1). destruct (t2 =? 0); cbn [maps].
  { assert (Hno : forall g, ~ fa_free a1 m1 g) by (intros g Hg%(proj1 Hf1); by apply G1 in Hg).
    split_and!; [done| |done|done]. split; [apply Hf1|].
    exists []. split; [done|]. intros g Hg. by apply G1 in Hg. }
  destruct (make_entry_spec PT_BLOCK phys flags) as (He & _ & Hv & Ht & _); [by right|done|done|].
  destruct (leaf_block_ok a1 m1 root _ t2 (l2_idx virt) _ Hinv1 H1 H2 G1 He Hv Ht)
    as (Hinv2 & Hw2 & Hf2).
  split_and!; [done| |].
  - apply (takes_trans 1 0 _ _ _ a1 m1); [done|by apply takes_same|done].
  - intros v. rewrite Hw2. case_decide; [done|]. by rewrite Hw1.
Qed.

(** ** Translation of virtual addresses *)

Lemma translate_walk m m' root v :
  walk m' root v = walk m root v -> translate m' root v = translate m root v.
Proof. unfold translate. by intros ->. Qed.

Lemma translate_page m m' root virt phys flags v :
  phys mod 4096 = 0 -> 0 <= phys < 2 ^ 48 ->
  virt mod 4096 = 0 -> 0 <= virt < 2 ^ 39 -> 0 <= v < 2 ^ 39 ->
  (forall v, walk m' root v =
      if decide (l1_idx v = l1_idx virt /\ l2_idx v = l2_idx virt /\ l3_idx v = l3_idx virt)
      then Some (Page (make_entry PT_PAGE phys flags)) else walk m root v) ->
  (virt <= v < virt + 4096 /\ translate m' root v = Some (phys + (v - virt), attrs_of flags)) \/
  (~ virt <= v < virt + 4096 /\ walk m' root v = walk m root v).
Proof.
  intros Ha Hr Hva Hvr Hv Hw. specialize (Hw v). case_decide as D.
  - left. destruct D as (D1 & D2 & D3).
    pose proof (same_page v virt Hv Hvr D1 D2 D3) as Hs.
    split; [zdiv|]. unfold translate. rewrite Hw.
    destruct (make_entry_spec PT_PAGE phys flags) as (_ & -> & _ & _ & -> & ->); [by left|done..|].
    do 3 f_equal. zdiv.
  - right. split; [|done]. intros Hin. apply D.
    assert (Hs : v / 4096 = virt / 4096) by zdiv.
    rewrite !l1_idx_spec, !l2_idx_spec, !l3_idx_spec. zdiv.
Qed.

Lemma translate_block m m' root virt phys flags v :
  phys mod BLOCK_SIZE = 0 -> 0 <= phys < 2 ^ 48 ->
  virt mod BLOCK_SIZE = 0 -> 0 <= virt < 2 ^ 39 -> 0 <= v < 2 ^ 39 ->
  (forall v, walk m' root v =
      if decide (l1_idx v = l1_idx virt /\ l2_idx v = l2_idx virt)
      then Some (Block (make_entry PT_BLOCK phys flags)) else walk m root v) ->
  (virt <= v < virt + BLOCK_SIZE /\ translate m' root v = Some (phys + (v - virt), attrs_of flags)) \/
  (~ virt <= v < virt + BLOCK_SIZE /\ walk m' root v = walk m root v).
Proof.
  intros Ha Hr Hva Hvr Hv Hw. specialize (Hw v). case_decide as D.
  - left. destruct D as (D1 & D2).
    pose proof (same_block v virt Hv Hvr D1 D2) as Hs. unfold translate. rewrite Hw.
    destruct (make_entry_spec PT_BLOCK phys flags) as (_ & -> & _ & _ & -> & ->);
      [by right| |done|]; change BLOCK_SIZE with 2097152 in *; [zdiv|].
    split; [zdiv|]. do 3 f_equal. zdiv.
  - right. split; [|done]. intros Hin. apply D. change BLOCK_SIZE with 2097152 in *.
    rewrite !l1_idx_spec, !l2_idx_spec. zdiv.
Qed.

(** A block mapping met by the region is met whole: its 2 MiB lie inside the
    region, which is congruent to its target, so the loop replaces it by
    another block instead of descending into it. *)
Definition block_safe (m : mem) (root virt phys size : Z) : Prop :=
  forall v e, virt <= v < virt + size -> walk m root v = Some (Block e) ->
    let b := v / BLOCK_SIZE * BLOCK_SIZE in
    virt <= b /\ b + BLOCK_SIZE <= virt + size /\ (phys - virt) mod BLOCK_SIZE = 0.

(** The loop's test for a whole block. *)
Definition whole_block (virt phys size mapped : Z) : bool :=
  ((virt + mapped) mod BLOCK_SIZE =? 0) && ((phys + mapped) mod BLOCK_SIZE =? 0)
    && (BLOCK_SIZE <=? size - mapped).

(** The loop never stands strictly inside a block it could replace whole. *)
Definition on_edge (virt phys size mapped : Z) : Prop :=
  let b := (virt + mapped) / BLOCK_SIZE * BLOCK_SIZE in
  virt <= b -> b + BLOCK_SIZE <= virt + size -> (phys - virt) mod BLOCK_SIZE = 0 ->
  b = virt + mapped.

Lemma edge_page virt phys size mapped :
  (virt + mapped) mod 4096 = 0 -> on_edge virt phys size mapped ->
  whole_block virt phys size mapped = false -> on_edge virt phys size (mapped + 4096).
Proof.
  unfold on_edge, whole_block. change BLOCK_SIZE with 2097152. cbv zeta. intros Ha He Hc Hb1 Hb2 Hp.
  destruct (decide ((virt + mapped) / 2097152 = (virt + (mapped + 4096)) / 2097152)) as [E|E].
  - rewrite <- E in *. specialize (He Hb1 Hb2 Hp). exfalso.
    assert ((virt + mapped) mod 2097152 = 0) by zdiv.
    assert ((phys + mapped) mod 2097152 = 0) by zdiv. lia.
  - zdiv.
Qed.

Lemma edge_block virt phys size mapped :
  (virt + mapped) mod BLOCK_SIZE = 0 -> on_edge virt phys size (mapped + BLOCK_SIZE).
Proof. unfold on_edge. change BLOCK_SIZE with 2097152. cbv zeta. intros. zdiv. Qed.

(** ** Frames a region takes

    [cost k] frames are enough for what is left when [k] bytes are mapped; the
    loop only meets [good] positions. *)

Record budget (virt phys size : Z) (good : Z -> Prop) (cost : Z -> Z) : Prop := {
  bg_start : good 0;
  bg_pos k : 0 <= cost k;
  bg_block k : good k -> 0 <= k < size -> whole_block virt phys size k = true ->
    good (k + BLOCK_SIZE) /\ cost (k + BLOCK_SIZE) + 1 <= cost k;
  bg_page k : good k -> 0 <= k < size -> whole_block virt phys size k = false ->
    good (k + 4096) /\ cost (k + 4096) + 2 <= cost k;
}.

(** Two frames for every page are enough for any region. *)
Lemma page_budget virt phys size :
  budget virt phys size (fun _ => True) (fun k => 2 * ((Z.max 0 (size - k) + 4095) / 4096)).
Proof.
  split; [done|intros k; zdiv|..]; unfold whole_block; change BLOCK_SIZE with 2097152; intros k _ Hk Hw;
    (split; [done|]); zdiv.
Qed.

(** What is left of a region that starts at a block: its blocks take a frame
    each at most, its last pages two. *)
Definition region_cost (size : Z) : Z := Z.max 0 size / BLOCK_SIZE + 2 * ((Z.max 0 size mod BLOCK_SIZE + 4095) / 4096).

Lemma region_cost_block size : BLOCK_SIZE <= size -> region_cost (size - BLOCK_SIZE) + 1 = region_cost size.
Proof. unfold region_cost. change BLOCK_SIZE with 2097152. intros H. zdiv. Qed.

Lemma region_cost_page size : 0 < size < BLOCK_SIZE -> region_cost (size - 4096) + 2 = region_cost size.
Proof. unfold region_cost. change BLOCK_SIZE with 2097152. intros H. zdiv. Qed.

Lemma region_cost_nonneg size : 0 <= region_cost size.
Proof. unfold region_cost. change BLOCK_SIZE with 2097152. zdiv. Qed.

Lemma block_budget virt phys size : virt mod BLOCK_SIZE = 0 -> phys mod BLOCK_SIZE = 0 ->
  budget virt phys size (fun k => k mod BLOCK_SIZE = 0 \/ size - k < BLOCK_SIZE) (fun k => region_cost (size - k)).
Proof.
  intros Hv Hp. assert (HB : BLOCK_SIZE = 2097152) by done.
  split; [by left|intros k; apply region_cost_nonneg|..]; unfold whole_block; intros k Hg Hk Hw.
  - assert (Hb : BLOCK_SIZE <= size - k) by lia. rewrite Z.sub_add_distr, region_cost_block by done.
    split; [rewrite HB in *; zdiv|done].
  - assert (Hsmall : size - k < BLOCK_SIZE) by (destruct Hg as [Hg|]; [|done]; rewrite HB in *; zdiv).
    rewrite Z.sub_add_distr, region_cost_page by lia. split; [right; lia|done].
Qed.

(** What has been mapped so far: [mapped] bytes, with [n] frames at most;
    addresses outside are translated as before. *)
Definition region_inv (root virt phys flags : Z) (a : A) (m : mem) (n mapped : Z) (a' : A) (m' : mem)
  : Prop :=
  pt_inv a' m' root /\ takes n a m a' m' /\
  (forall v, 0 <= v < 2 ^ 39 -> ~ virt <= v < virt + mapped -> walk m' root v = walk m root v) /\
  (forall v, virt <= v < virt + mapped ->
      translate m' root v = Some (phys + (v - virt), attrs_of flags)).

Lemma region_advance root virt phys flags a m n mapped a1 m1 n' d n2 a2 m2 :
  0 <= virt -> 0 <= mapped -> 0 <= d -> virt + (mapped + d) <= 2 ^ 39 ->
  region_inv root virt phys flags a m n mapped a1 m1 ->
  pt_inv a2 m2 root -> takes n' a1 m1 a2 m2 -> n + n' <= n2 ->
  (forall v, 0 <= v < 2 ^ 39 ->
      (virt + mapped <= v < virt + mapped + d /\
       translate m2 root v = Some (phys + mapped + (v - (virt + mapped)), attrs_of flags)) \/
      (~ virt + mapped <= v < virt + mapped + d /\ walk m2 root v = walk m1 root v)) ->
  region_inv root virt phys flags a m n2 (mapped + d) a2 m2.
Proof.
  intros Hv0 Hm0 Hd Hlim (Hinv & Hfr & Hout & Hin) Hinv2 Hf2 Hn Hc.
  split_and!; [done|by eapply takes_trans| |].
  - intros v Hv Hnv. rewrite <- Hout by lia. destruct (Hc v Hv) as [[? _]|[_ ->]]; [lia|done].
  - intros v Hv. destruct (Hc v ltac:(lia)) as [[_ ->]|[Hnv Hw]]; [do 2 f_equal; lia|].
    rewrite (translate_walk m1) by done. apply Hin. lia.
Qed.

Section Region.
Context (root virt phys size flags : Z) (a : A) (m : mem).
Context (Hva : virt mod 4096 = 0) (Hpa : phys mod 4096 = 0).
Context (Hv0 : 0 <= virt) (Hp0 : 0 <= phys) (Hs0 : 0 <= size).
Context (Hvl : virt + size + 4096 <= 2 ^ 39) (Hpl : phys + size + 4096 <= 2 ^ 48).
Context (Hsafe : block_safe m root virt phys size).
Context (good : Z -> Prop) (cost : Z -> Z) (Hbud : budget virt phys size good cost).

(** What the loop ends with: everything is mapped, or no frame is left and the
    region is mapped up to the address that could not be. *)
Definition region_end (r : result A) : Prop :=
  match r with
  | Done a' m' => region_inv root virt phys flags a m (cost 0) ((size + 4095) / 4096 * 4096) a' m'
  | Stuck a' m' => (forall g, ~ fa_free a' m' g) /\
      exists mapped, 0 <= mapped < size /\ mapped mod 4096 = 0 /\
        region_inv root virt phys flags a m (cost 0) mapped a' m'
  end.

Definition loop_inv (st : Z * A * mem) : Prop :=
  let '(mapped, a', m') := st in
  0 <= mapped < size + 4096 /\ mapped mod 4096 = 0 /\
  on_edge virt phys size mapped /\ good mapped /\
  region_inv root virt phys flags a m (cost 0 - cost mapped) mapped a' m'.

(** The loop's arithmetic does not wrap around. *)
Lemma step_eq mapped a1 m1 : 0 <= mapped -> mapped < size ->
  map_region_step root virt phys size flags (mapped, a1, m1) =
  if whole_block virt phys size mapped then
    match vmm_map_block root a1 m1 (virt + mapped) (phys + mapped) flags with
    | Done a m => inl (mapped + BLOCK_SIZE, a, m)
    | Stuck a m => inr (Stuck a m)
    end
  else
    match vmm_map_page root a1 m1 (virt + mapped) (phys + mapped) flags with
    | Done a m => inl (mapped + 4096, a, m)
    | Stuck a m => inr (Stuck a m)
    end.
Proof.
  intros H1 H2. change (2 ^ 39) with 549755813888 in *. change (2 ^ 48) with 281474976710656 in *.
  assert (HB : BLOCK_SIZE = 2097152) by done.
  unfold map_region_step. rewrite (proj2 (Z.ltb_lt _ _) H2).
  rewrite !u64_id by (rewrite ?HB; unfold PAGE_SIZE; lia). reflexivity.
Qed.

(** A call that is stuck leaves what was mapped so far. *)
Lemma region_stuck mapped a1 m1 n a2 m2 :
  loop_inv (mapped, a1, m1) -> mapped < size -> n <= cost mapped ->
  pt_inv a2 m2 root -> takes n a1 m1 a2 m2 -> (forall g, ~ fa_free a2 m2 g) ->
  (forall v, walk m2 root v = walk m1 root v) -> region_end (Stuck a2 m2).
Proof.
  intros (Hm & Hma & _ & _ & Hreg) Hlt Hn Hinv Hf Hno Hw. split; [done|].
  exists mapped. split_and!; [lia|done|done|]. replace mapped with (mapped + 0) by lia.
  eapply region_advance; [done|lia|done|lia|exact Hreg|done|exact Hf|lia|].
  intros v _. right. split; [lia|done].
Qed.

Lemma block_step mapped a1 m1 : loop_inv (mapped, a1, m1) -> mapped < size ->
  whole_block virt phys size mapped = true ->
  match vmm_map_block root a1 m1 (virt + mapped) (phys + mapped) flags with
  | Done a m => loop_inv (mapped + BLOCK_SIZE, a, m)
  | Stuck a m => region_end (Stuck a m)
  end.
Proof.
  intros Hl Hlt Hw. pose proof Hl as (Hm & Hma & Hedge & Hg & Hreg). pose proof Hreg as (Hinv & _).
  change (2 ^ 39) with 549755813888 in *. change (2 ^ 48) with 281474976710656 in *.
  assert (HB : BLOCK_SIZE = 2097152) by done.
  destruct (bg_block _ _ _ _ _ Hbud mapped Hg ltac:(lia) Hw) as [Hg' Hc].
  pose proof (bg_pos _ _ _ _ _ Hbud (mapped + BLOCK_SIZE)).
  assert (Hb : (virt + mapped) mod BLOCK_SIZE = 0 /\ (phys + mapped) mod BLOCK_SIZE = 0 /\ BLOCK_SIZE <= size - mapped)
    by (unfold whole_block in Hw; lia). destruct Hb as (Hvb & Hpb & Hsb).
  assert (Hal : (phys + mapped) mod 4096 = 0) by (clear - Hpa Hma; zdiv).
  pose proof (map_block_ok a1 m1 root (virt + mapped) (phys + mapped) flags Hinv
                ltac:(lia) ltac:(lia)) as Hmb.
  destruct (vmm_map_block _ _ _ _ _ _) as [a2 m2|a2 m2]; cbn [maps] in Hmb.
  - destruct Hmb as (Hinv2 & Hf2 & Hmap).
    split_and!; [lia..|rewrite HB; clear - Hma; zdiv|by apply edge_block|done|].
    apply (region_advance _ _ _ _ _ _ (cost 0 - cost mapped) _ a1 m1 1); [lia..|done|done|done|lia|].
    intros v Hv. apply (translate_block m1 m2 root (virt + mapped) (phys + mapped) flags v); (lia || done).
  - destruct Hmb as (Hinv2 & Hf2 & Hno & Hmap).
    apply (region_stuck mapped a1 m1 0); (done || lia).
Qed.

Lemma page_step mapped a1 m1 : loop_inv (mapped, a1, m1) -> mapped < size ->
  whole_block virt phys size mapped = false ->
  match vmm_map_page root a1 m1 (virt + mapped) (phys + mapped) flags with
  | Done a m => loop_inv (mapped + 4096, a, m)
  | Stuck a m => region_end (Stuck a m)
  end.
Proof.
  intros Hl Hlt Hw. pose proof Hl as (Hm & Hma & Hedge & Hg & Hreg). pose proof Hreg as (Hinv & _ & Hout & _).
  change (2 ^ 39) with 549755813888 in *. change (2 ^ 48) with 281474976710656 in *.
  assert (HB : BLOCK_SIZE = 2097152) by done.
  destruct (bg_page _ _ _ _ _ Hbud mapped Hg ltac:(lia) Hw) as [Hg' Hc].
  pose proof (bg_pos _ _ _ _ _ Hbud (mapped + 4096)).
  assert (Hal : (virt + mapped) mod 4096 = 0 /\ (phys + mapped) mod 4096 = 0) by (clear - Hva Hpa Hma; zdiv).
  assert (Hnb : forall e, walk m1 root (virt + mapped) <> Some (Block e)).
  { intros e He. rewrite Hout in He by lia.
    apply Hsafe in He as (B1 & B2 & B3); [|lia].
    specialize (Hedge B1 B2 B3). unfold whole_block in Hw. rewrite Hedge, HB in *.
    clear - Hedge Hw B2 B3.
    assert ((virt + mapped) mod 2097152 = 0) by zdiv.
    assert ((phys + mapped) mod 2097152 = 0) by zdiv. lia. }
  pose proof (map_page_ok a1 m1 root (virt + mapped) (phys + mapped) flags Hinv
                ltac:(lia) ltac:(lia) Hnb) as Hmp.
  destruct (vmm_map_page _ _ _ _ _ _) as [a2 m2|a2 m2]; cbn [maps] in Hmp.
  - destruct Hmp as (Hinv2 & Hf2 & Hmap).
    split_and!; [lia..|clear - Hma; zdiv|by apply edge_page; [apply Hal|done|]|done|].
    apply (region_advance _ _ _ _ _ _ (cost 0 - cost mapped) _ a1 m1 2); [lia..|done|done|done|lia|].
    intros v Hv. apply (translate_page m1 m2 root (virt + mapped) (phys + mapped) flags v); (lia || done).
  - destruct Hmp as (Hinv2 & Hf2 & Hno & Hmap).
    apply (region_stuck mapped a1 m1 1); (done || lia).
Qed.

Lemma region_step st :
  loop_inv st ->
  match map_region_step root virt phys size flags st with
  | inl st' => loop_inv st' /\ st.1.1 < size /\ st.1.1 + 4096 <= st'.1.1
  | inr r => region_end r
  end.
Proof.
  destruct st as [[mapped a1] m1]. intros Hl. pose proof Hl as (Hm & Hma & _ & _ & Hreg).
  destruct (decide (mapped < size)) as [E|E].
  - rewrite step_eq by lia. destruct (whole_block _ _ _ _) eqn:Eb.
    + pose proof (block_step _ _ _ Hl E Eb) as H. destruct (vmm_map_block _ _ _ _ _ _); [|done].
      split; [done|]. change BLOCK_SIZE with 2097152. cbn. lia.
    + pose proof (page_step _ _ _ Hl E Eb) as H. destruct (vmm_map_page _ _ _ _ _ _); [|done].
      split; [done|]. cbn. lia.
  - unfold map_region_step. destruct (mapped <? size) eqn:E'; [lia|]. cbn.
    replace ((size + 4095) / 4096 * 4096) with mapped by (clear - Hm Hma E; zdiv).
    pose proof (bg_pos _ _ _ _ _ Hbud mapped). destruct Hreg as (H1 & H2 & H3).
    split; [done|]. split; [eapply takes_weaken; [done|lia]|done].
Qed.

(** The loop ends. *)
Lemma region_ok fuel :
  pt_inv a m root -> size / 4096 + 1 < Z.of_nat fuel ->
  exists r, vmm_map_region fuel root a m virt phys size flags = Some r /\ region_end r.
Proof.
  intros Hinv Hfuel. unfold vmm_map_region.
  apply (loop_ind loop_inv region_end (fun st => Z.max 0 ((size - st.1.1 + 4095) / 4096))).
  - split_and!; [lia|lia|done| |exact (bg_start _ _ _ _ _ Hbud)|].
    + unfold on_edge. change BLOCK_SIZE with 2097152. cbv zeta. intros Hb _ _. zdiv.
    + split_and!; [done| |done|intros v Hv; lia]. apply (takes_weaken 0); [by apply takes_same|lia].
  - simpl. zdiv.
  - intros st Hst. pose proof (region_step st Hst) as Hstep.
    destruct (map_region_step _ _ _ _ _ st) as [st'|r]; [|done].
    destruct Hstep as (Hst' & H1 & H2). split; [done|]. zdiv.
Qed.
End Region.

(** ** The boot map *)

(** A fresh zeroed root is a tree that maps nothing. *)
Lemma root_ok a m :
  fa_inv a m ->
  let '(f, a1, m1) := fa_alloc a m in
  f <> 0 ->
  let m2 := memset m1 f 0 PAGE_SIZE in
  pt_inv a1 m2 f /\ (forall v, walk m2 f v = None) /\ takes 1 a m a1 m2.
Proof.
  intros Hinv. pose proof (fa_alloc_spec a m Hinv) as Hal.
  destruct (fa_alloc a m) as [[f a1] m1]. intros Hf0 m2.
  destruct Hal as (Hi1 & Hag & Ho1 & Hf1 & _ & Hnz).
  pose proof (Hnz Hf0) as Hff.
  pose proof (fa_page a m f Hinv Hff) as (Hal4 & Hpos & Hlim & Hown).
  assert (Hfp : page f) by done.
  destruct (fa_frame a1 m1 m2 Hi1) as [Hi2 Hf2].
  { eapply agree_weaken; [apply memset_agree; unfold PAGE_SIZE; lia|].
    intros b Hb%Ho1. unfold outside, PAGE_SIZE.
    destruct (decide (f <= b < f + 4096)) as [Hin|]; [|lia]. by apply Hown in Hin. }
  assert (Hz : forall j, 0 <= j < 512 -> entry m2 f j = 0)
    by (intros; by apply entry_memset_new).
  assert (Hc : forall j, 0 <= j < 512 -> child m2 f j = None).
  { intros j Hj. unfold child. by rewrite Hz. }
  assert (Hn : forall q t, path q -> node m2 f q = Some t -> q = [] /\ t = f).
  { intros q t Hq Hs. destruct (path_cases q Hq) as [->|[(i & Hi & ->)|(i & j & Hi & Hj & ->)]].
    - by injection Hs as <-.
    - change (child m2 f i = Some t) in Hs. by rewrite Hc in Hs.
    - change ((u ← child m2 f i; child m2 u j) = Some t) in Hs. by rewrite Hc in Hs. }
  split; [split; [done|..]|split].
  - intros p t Hp Ht. by destruct (Hn p t Hp Ht) as [_ ->].
  - intros p t Hp Ht. destruct (Hn p t Hp Ht) as [_ ->]. rewrite Hf2, Hf1. by intros [_ ?].
  - intros p t b Hp Ht Hb. destruct (Hn p t Hp Ht) as [_ ->]. rewrite Ho1. by apply Hown.
  - intros p q t Hp Hq Ht Ht'. destruct (Hn p t Hp Ht) as [-> _].
    by destruct (Hn q t Hq Ht') as [-> _].
  - intros i Hi. by rewrite Hz.
  - intros v. unfold walk. by rewrite Hc by apply idx_range.
  - split; [intros g Hg; by apply Hf1, Hf2|]. exists [f]. split; [done|]. intros g Hg.
    destruct (decide (g = f)) as [->|Hne]; [left; by left|right]. by apply Hf2, Hf1.
Qed.

(** A map from addresses to translations, extended by one region. *)
Definition tmap := Z -> option (Z * attrs).

Definition override (M : tmap) (r : Z * Z * Z * Z) : tmap := fun v =>
  let '(virt, phys, size, flags) := r in
  if decide (virt <= v < virt + (size + 4095) / 4096 * 4096)
  then Some (phys + (v - virt), attrs_of flags) else M v.

(** The tree translates as [M] says. *)
Definition covers (root : Z) (M : tmap) (a : A) (m : mem) : Prop :=
  pt_inv a m root /\
  (forall v, 0 <= v < 2 ^ 39 -> M v = None -> walk m root v = None) /\
  forall v, 0 <= v < 2 ^ 39 -> translate m root v = M v.

(** When the loop may map a region over what [M] maps: the region is made of
    whole blocks, or nothing is mapped there yet. *)
Definition region_fits (M : tmap) (r : Z * Z * Z * Z) : Prop :=
  let '(virt, phys, size, flags) := r in
  virt mod BLOCK_SIZE = 0 /\ phys mod BLOCK_SIZE = 0 /\ 0 <= virt /\ 0 <= phys /\ 0 <= size /\
  virt + size + 4096 <= 2 ^ 39 /\ phys + size + 4096 <= 2 ^ 48 /\
  (size mod BLOCK_SIZE = 0 \/ (forall v, virt <= v < virt + size -> M v = None)).

Fixpoint regions_fit (M : tmap) (rs : list (Z * Z * Z * Z)) : Prop :=
  match rs with
  | [] => True
  | r :: rs => region_fits M r /\ regions_fit (override M r) rs
  end.

Fixpoint regions_cost (rs : list (Z * Z * Z * Z)) : Z :=
  match rs with
  | [] => 0
  | (_, _, size, _) :: rs => region_cost size + regions_cost rs
  end.

Lemma regions_cost_nonneg rs : 0 <= regions_cost rs.
Proof. induction rs as [|[[[virt phys] size] flags] rs IH]; cbn; [lia|]. pose proof (region_cost_nonneg size). lia. Qed.

Lemma fits_safe root M a m virt phys size flags :
  covers root M a m -> region_fits M (virt, phys, size, flags) ->
  block_safe m root virt phys size.
Proof.
  intros (_ & Hnone & _) (Hv & Hp & Hv0 & Hp0 & Hs & Hvl & Hpl & [Hb|Hb]) v e Hr Hw; cbv zeta.
  - change BLOCK_SIZE with 2097152 in *. zdiv.
  - rewrite Hnone in Hw; [done|lia|by apply Hb].
Qed.

(** The mappings of [M'], made with at most [n] frames, or no frame is left. *)
Definition maps_as (root : Z) (M' : tmap) (n : Z) (a : A) (m : mem) (r : result A) : Prop :=
  match r with
  | Done a' m' => covers root M' a' m' /\ takes n a m a' m'
  | Stuck a' m' => takes n a m a' m' /\ forall g, ~ fa_free a' m' g
  end.

Lemma map_region_covers root M a m virt phys size flags :
  covers root M a m -> region_fits M (virt, phys, size, flags) ->
  exists r,
    vmm_map_region (region_fuel size) root a m virt phys size flags = Some r /\
    maps_as root (override M (virt, phys, size, flags)) (region_cost size) a m r.
Proof.
  intros Hc Hfit. pose proof (fits_safe _ _ _ _ _ _ _ _ Hc Hfit) as Hsafe.
  destruct Hfit as (Hv & Hp & Hv0 & Hp0 & Hs & Hvl & Hpl & _).
  destruct Hc as (Hinv & Hnone & HM). pose proof (block_budget virt phys size Hv Hp) as Hbud.
  assert (Hal : virt mod 4096 = 0 /\ phys mod 4096 = 0) by (change BLOCK_SIZE with 2097152 in *; clear - Hv Hp; zdiv).
  destruct (region_ok root virt phys size flags a m (proj1 Hal) (proj2 Hal) Hv0 Hp0 Hs Hvl Hpl Hsafe _ _ Hbud
              (region_fuel size) Hinv) as (r & Hr & Hend).
  { unfold region_fuel, PAGE_SIZE. clear - Hs. zdiv. }
  exists r. split; [exact Hr|]. unfold region_end in Hend. rewrite Z.sub_0_r in Hend.
  destruct r as [a' m'|a' m']; cbn [maps_as].
  - destruct Hend as (Hinv' & Hfr & Hout & Hin). split; [|exact Hfr]. split; [done|]. unfold override. split.
    + intros v Hv39. case_decide as D; [done|]. intros HMv. rewrite Hout by done. by apply Hnone.
    + intros v Hv39. case_decide as D; [by apply Hin|].
      rewrite (translate_walk m) by (by apply Hout). by apply HM.
  - by destruct Hend as (Hno & mapped & _ & _ & _ & Hfr & _).
Qed.

(** A call that is stuck is the last one. *)
Lemma map_regions_stuck root rs a m :
  foldl (fun r '(virt, phys, size, flags) =>
           match r with
           | Some (Done a m) => vmm_map_region (region_fuel size) root a m virt phys size flags
           | _ => r
           end) (Some (Stuck a m)) rs = Some (Stuck a m).
Proof. induction rs as [|[[[virt phys] size] flags] rs IH]; [done|exact IH]. Qed.

Lemma map_regions_covers root rs M a m :
  covers root M a m -> regions_fit M rs ->
  exists r, map_regions root rs a m = Some r /\
    maps_as root (foldl override M rs) (regions_cost rs) a m r.
Proof.
  revert M a m. induction rs as [|[[[virt phys] size] flags] rs IH]; intros M a m Hc Hfit.
  { exists (Done a m). split; [done|]. split; [done|]. by apply takes_same. }
  destruct Hfit as [Hf Hfit]. unfold map_regions. cbn [foldl regions_cost].
  pose proof (regions_cost_nonneg rs).
  destruct (map_region_covers _ _ _ _ _ _ _ _ Hc Hf) as (r1 & Hr & H1). rewrite Hr.
  destruct r1 as [a1 m1|a1 m1]; cbn [maps_as] in H1.
  - destruct H1 as [Hc1 Hfr1]. destruct (IH _ _ _ Hc1 Hfit) as (r2 & Hr2 & H2).
    exists r2. split; [exact Hr2|]. destruct r2 as [a2 m2|a2 m2]; destruct H2 as [H2 H2'].
    + split; [done|]. by eapply takes_trans.
    + split; [|done]. by eapply takes_trans.
  - exists (Stuck a1 m1). rewrite map_regions_stuck. split; [done|]. destruct H1 as [H1 H1'].
    split; [|done]. eapply takes_weaken; [done|lia].
Qed.
End Tree.

(** What [init_vmm] is to leave behind: RAM and the heap window as writable
    normal memory, the three device windows as device memory, all at their
    own addresses. *)
Definition identity_map (phy_ram_size : Z) : tmap := fun v =>
  if decide (PHY_RAM_BASE <= v < PHY_RAM_BASE + phy_ram_size \/
             0x50000000 <= v < 0x50000000 + 0x800000)
  then Some (v, Attrs true MT_NORMAL false true true false)
  else if decide (0x08000000 <= v < 0x08100000 \/ 0x09000000 <= v < 0x09100000 \/
                  0x0a000000 <= v < 0x0a100000)
  then Some (v, Attrs true MT_DEVICE_nGnRnE true true true false)
  else None.

Section Boot.
Context (kernel_end ram : Z).
Context (Hk : PHY_RAM_BASE <= kernel_end <= PHY_RAM_BASE + ram).
Context (Hram : ram mod BLOCK_SIZE = 0) (Hmax : ram <= 2 ^ 38).

Lemma boot_regions_fit : regions_fit (fun _ => None) (boot_regions kernel_end ram).
Proof.
  assert (HB : PHY_RAM_BASE = 0x40000000) by done.
  change BLOCK_SIZE with 2097152 in *. rewrite HB in *.
  unfold boot_regions. rewrite HB, u64_id by lia. simpl. change BLOCK_SIZE with 2097152.
  split_and!; try done; try lia; try (by right); try (by left).
  all: right; intros v Hv; rewrite !decide_False by zdiv; done.
Qed.

Lemma boot_regions_map v :
  foldl override (fun _ => None) (boot_regions kernel_end ram) v = identity_map ram v.
Proof.
  assert (HB : PHY_RAM_BASE = 0x40000000) by done.
  change BLOCK_SIZE with 2097152 in *.
  unfold identity_map, boot_regions. rewrite !HB in *. rewrite u64_id by lia. simpl.
  repeat case_decide; try done; try (by rewrite Zplus_minus); exfalso; zdiv.
Qed.

(** The frames the boot map takes at most, the root included: one for each
    2 MiB of the kernel and of RAM, two for each page of the kernel's last
    2 MiB and of the device windows, four for the heap. *)
Definition boot_frames : Z := (kernel_end - PHY_RAM_BASE) / BLOCK_SIZE + ram / BLOCK_SIZE + 2565.

Lemma boot_regions_cost : 1 + regions_cost (boot_regions kernel_end ram) <= boot_frames.
Proof.
  assert (HB : PHY_RAM_BASE = 0x40000000) by done.
  unfold boot_frames, boot_regions. rewrite HB in *. rewrite u64_id by lia. cbn [regions_cost].
  unfold region_cost. change BLOCK_SIZE with 2097152 in *. rewrite !Z.max_r by lia. zdiv.
Qed.
End Boot.

(** The translation regime [init_vmm] programs: memory type 0 is
    Device-nGnRnE, type 1 normal write-back memory and the others are not
    used; both halves of the address space are 39 bits wide with 4 KiB
    granules, which makes L1 the first level of the walk, and physical
    addresses have 40 bits. *)
Definition programmed (v : vmm_state) : Prop :=
  (forall i, 0 <= i < 8 -> field (mair_el1 v) (8 * i) 8 = if i =? MT_NORMAL then 0xFF else 0) /\
  field (tcr_el1 v) 0 6 = 25 /\ field (tcr_el1 v) 14 2 = 0 /\
  field (tcr_el1 v) 16 6 = 25 /\ field (tcr_el1 v) 30 2 = 2 /\ field (tcr_el1 v) 32 3 = 2.

(** The system registers that turn the MMU on are as they were. *)
Definition mmu_untouched (v v' : vmm_state) : Prop :=
  paging_enabled v' = paging_enabled v /\ ttbr0_el1 v' = ttbr0_el1 v /\
  ttbr1_el1 v' = ttbr1_el1 v /\ sctlr_el1 v' = sctlr_el1 v.

(** ** The properties *)

Section Claims.
Context {A : Type} {FA : FrameAllocator A}.

(** C8 [vmm_map_page] on an address that no 2 MiB block covers. When it
  returns, the page translates to [phys] with the attributes the flags ask for
  and every other address translates as before. Otherwise it is stuck in the
  message about the failed allocation ([printf] of [%llx], see
  [VmmMessage.oom_message_hangs]): that happens only when there was at most one
  free frame, none is left and no translation changed. Either way the tables
  remain a tree of pages owned by nobody else, at most two frames were taken,
  and no frame is freed. *)
Theorem vmm_map_page_spec a m root virt phys flags :
pt_inv a m root -> phys mod 4096 = 0 -> 0 <= phys < 2 ^ 48 ->
virt mod 4096 = 0 -> 0 <= virt < 2 ^ 39 ->
(forall e, walk m root virt <> Some (Block e)) ->
match vmm_map_page root a m virt phys flags with
| Done a' m' => pt_inv a' m' root /\ takes 2 a m a' m' /\
    forall v, 0 <= v < 2 ^ 39 -> translate m' root v =
      if decide (virt <= v < virt + 4096) then Some (phys + (v - virt), attrs_of flags)
      else translate m root v
| Stuck a' m' => pt_inv a' m' root /\ takes 1 a m a' m' /\
    few_free 1 a m /\ (forall g, ~ fa_free a' m' g) /\
    forall v, translate m' root v = translate m root v
end.
Proof.
intros Hinv Hp Hpr Hv Hvr Hnb. pose proof (map_page_ok a m root virt phys flags Hinv Hp Hpr Hnb) as H.
destruct (vmm_map_page _ _ _ _ _ _) as [a' m'|a' m']; cbn [maps] in H.
- destruct H as (Hi & Hf & Hw). split_and!; [done|done|]. intros v Hv39.
  destruct (translate_page m m' root virt phys flags v Hp Hpr Hv Hvr Hv39 Hw) as [[D ->]|[D Hw']].
  + by rewrite decide_True.
  + rewrite decide_False by done. by apply translate_walk.
- destruct H as (Hi & Hf & Hno & Hw). split_and!; [done|done|by eapply takes_all|done|].
  intros v. by apply translate_walk.
Qed.

(** [vmm_map_block] maps the 2 MiB at once, replacing whatever the L2 slot
  held (a block, or a whole table of pages); every other address translates
  as before. It is stuck only when there was no free frame at all. *)
Theorem vmm_map_block_spec a m root virt phys flags :
pt_inv a m root -> phys mod BLOCK_SIZE = 0 -> 0 <= phys < 2 ^ 48 ->
virt mod BLOCK_SIZE = 0 -> 0 <= virt < 2 ^ 39 ->
match vmm_map_block root a m virt phys flags with
| Done a' m' => pt_inv a' m' root /\ takes 1 a m a' m' /\
    forall v, 0 <= v < 2 ^ 39 -> translate m' root v =
      if decide (virt <= v < virt + BLOCK_SIZE) then Some (phys + (v - virt), attrs_of flags)
      else translate m root v
| Stuck a' m' => pt_inv a' m' root /\ few_free 0 a m /\ forall v, translate m' root v = translate m root v
end.
Proof.
intros Hinv Hp Hpr Hv Hvr.
assert (Hp4 : phys mod 4096 = 0) by (change BLOCK_SIZE with 2097152 in *; zdiv).
pose proof (map_block_ok a m root virt phys flags Hinv Hp4 Hpr) as H.
destruct (vmm_map_block _ _ _ _ _ _) as [a' m'|a' m']; cbn [maps] in H.
- destruct H as (Hi & Hf & Hw). split_and!; [done|done|]. intros v Hv39.
  destruct (translate_block m m' root virt phys flags v Hp Hpr Hv Hvr Hv39 Hw) as [[D ->]|[D Hw']].
  + by rewrite decide_True.
  + rewrite decide_False by done. by apply translate_walk.
- destruct H as (Hi & Hf & Hno & Hw). split_and!; [done|by eapply takes_all|].
  intros v. by apply translate_walk.
Qed.

(** C7 [vmm_map_region] on a region that overlaps earlier blocks only where it
  replaces them whole ([block_safe]). The loop ends within [size / 4096 + 2]
  rounds, whatever mix of blocks and pages it chooses. When the call returns
  the region, rounded up to whole pages, is mapped linearly with the attributes
  the flags ask for and every other address translates as before. Otherwise it
  is stuck in the message about a failed allocation: then there were at most
  two free frames for each page of the region, none is left, and the region is
  mapped up to some address and nothing else changed. *)
Theorem vmm_map_region_spec root a m virt phys size flags fuel :
pt_inv a m root -> virt mod 4096 = 0 -> phys mod 4096 = 0 ->
0 <= virt -> 0 <= phys -> 0 <= size ->
virt + size + 4096 <= 2 ^ 39 -> phys + size + 4096 <= 2 ^ 48 ->
block_safe m root virt phys size -> size / 4096 + 1 < Z.of_nat fuel ->
let pages := (size + 4095) / 4096 in
let mapped_to m' n := forall v, 0 <= v < 2 ^ 39 -> translate m' root v =
      if decide (virt <= v < virt + n) then Some (phys + (v - virt), attrs_of flags)
      else translate m root v in
exists r, vmm_map_region fuel root a m virt phys size flags = Some r /\
match r with
| Done a' m' => pt_inv a' m' root /\ takes (2 * pages) a m a' m' /\ mapped_to m' (pages * 4096)
| Stuck a' m' => pt_inv a' m' root /\ few_free (2 * pages) a m /\ (forall g, ~ fa_free a' m' g) /\
    exists n, 0 <= n < size /\ n mod 4096 = 0 /\ mapped_to m' n
end.
Proof.
intros Hinv Hv Hp Hv0 Hp0 Hs Hvl Hpl Hsafe Hfuel pages mapped_to.
destruct (region_ok root virt phys size flags a m Hv Hp Hv0 Hp0 Hs Hvl Hpl Hsafe _ _
  (page_budget virt phys size) fuel Hinv Hfuel) as (r & Hr & Hend).
exists r. split; [exact Hr|]. unfold region_end in Hend. rewrite Z.sub_0_r, Z.max_r in Hend by lia.
assert (Hmap : forall n' n a' m', region_inv root virt phys flags a m n' n a' m' -> mapped_to m' n).
{ intros n' n a' m' (_ & _ & Hout & Hin) v Hv39. case_decide as D; [by apply Hin|].
  apply translate_walk. by apply Hout. }
destruct r as [a' m'|a' m'].
- pose proof (Hmap _ _ _ _ Hend). by destruct Hend as (Hi & Hf & _).
- destruct Hend as (Hno & n & Hn1 & Hn2 & Hreg). pose proof (Hmap _ _ _ _ Hreg).
  destruct Hreg as (Hi & Hf & _). split_and!; [done|by eapply takes_all|done|by exists n].
Qed.

(** What [init_vmm] establishes, for any allocator that still has a frame. *)
Lemma init_vmm_ok kernel_end ram v0 a m g :
fa_inv a m -> fa_free a m g ->
PHY_RAM_BASE <= kernel_end <= PHY_RAM_BASE + ram ->
ram mod BLOCK_SIZE = 0 -> ram <= 2 ^ 38 ->
exists v' r, init_vmm kernel_end ram v0 a m = Some (v', r) /\
  root_phys v' = root_table v' /\ programmed v' /\
  match r with
  | Done a' m' =>
      pt_inv a' m' (root_table v') /\ takes (boot_frames kernel_end ram) a m a' m' /\
      paging_enabled v' = true /\ ttbr0_el1 v' = root_table v' /\ ttbr1_el1 v' = root_table v' /\
      (forall i, 0 <= i -> Z.testbit (sctlr_el1 v') i =
         Z.testbit (sctlr_el1 v0) i || bool_decide (i = 0 \/ i = 2 \/ i = 12)) /\
      forall v, 0 <= v < 2 ^ 39 -> translate m' (root_table v') v = identity_map ram v
  | Stuck a' m' =>
      few_free (boot_frames kernel_end ram) a m /\ (forall h, ~ fa_free a' m' h) /\ mmu_untouched v0 v'
  end.
Proof.
intros Hinv Hg Hk Hram Hmax. unfold init_vmm.
pose proof (root_ok a m Hinv) as Hroot. pose proof (fa_alloc_spec a m Hinv) as Hal.
destruct (fa_alloc a m) as [[f a1] m1]. destruct Hal as (_ & _ & _ & _ & Hz & _).
destruct Hroot as (Hi2 & Hw2 & Hf2); [intros ->; by apply (Hz eq_refl g)|].
pose proof (boot_regions_cost kernel_end ram Hk Hram Hmax) as Hcost.
destruct (map_regions_covers f (boot_regions kernel_end ram) (fun _ => None) a1
            (memset m1 f 0 PAGE_SIZE)) as (r & -> & Hr).
{ split; [done|]. split; [by intros v _ _; apply Hw2|].
  intros v _. unfold translate. by rewrite Hw2. }
{ by apply boot_regions_fit. }
assert (Hpr : forall b t0 t1 c, programmed (VmmState f f b 0xFF00 0x280190019 t0 t1 c)).
{ intros b t0 t1 c. split; [|done]. cbn [mair_el1]. intros i Hi.
  assert (Hc : i = 0 \/ i = 1 \/ i = 2 \/ i = 3 \/ i = 4 \/ i = 5 \/ i = 6 \/ i = 7) by lia.
  by repeat (destruct Hc as [->|Hc]); [..|subst i]. }
cbn [mbind option_bind]. destruct r as [a' m'|a' m']; cbn [maps_as] in Hr.
- destruct Hr as [(Hi & _ & HM) Hf]. eexists _, (Done a' m'). split; [reflexivity|].
  split; [done|]. split; [apply Hpr|].
  cbn [root_table paging_enabled ttbr0_el1 ttbr1_el1 sctlr_el1].
  split_and!; [done|by eapply takes_trans|done|done|done| |].
  + intros i Hi0. rewrite !Z.lor_spec, !Z.shiftl_spec by done. f_equal.
    destruct (decide (i = 0 \/ i = 2 \/ i = 12)) as [D|D].
    * rewrite bool_decide_true by done. by destruct D as [->|[->| ->]].
    * rewrite bool_decide_false by done. change 1 with (2 ^ 0).
      rewrite !Z.pow2_bits_false by lia. done.
  + intros v Hv. rewrite HM by done. by apply boot_regions_map.
- destruct Hr as [Hf Hno]. eexists _, (Stuck a' m'). split; [reflexivity|].
  split; [done|]. split; [apply Hpr|]. split_and!; [|done|done].
  eapply takes_all; [|exact Hno]. by eapply takes_trans.
Qed.

(** C5 [init_vmm], from any allocator that still has a frame: its loops end, and
  the memory types and the translation control it programs are the ones
  [programmed] lists. When it returns, both translation-table registers point
  at the tree it built, the MMU and cache enable bits are set on top of what
  [SCTLR_EL1] held, and every address below 2^39 translates exactly as
  [identity_map] says: RAM, the kernel image and the heap window as inner
  shareable normal memory, the three device windows as non-executable device
  memory, the rest not at all. It does not return, stuck in the message about a
  failed allocation with the MMU still off, only when no more frames were
  free than [boot_frames]: one for each 2 MiB of RAM and of the kernel and 2565
  others. *)
Theorem init_vmm_identity kernel_end ram v0 a m g :
fa_inv a m -> fa_free a m g ->
PHY_RAM_BASE <= kernel_end <= PHY_RAM_BASE + ram ->
ram mod BLOCK_SIZE = 0 -> ram <= 2 ^ 38 ->
exists v' r, init_vmm kernel_end ram v0 a m = Some (v', r) /\
  root_phys v' = root_table v' /\ programmed v' /\
  match r with
  | Done a' m' =>
      pt_inv a' m' (root_table v') /\ takes (boot_frames kernel_end ram) a m a' m' /\
      paging_enabled v' = true /\ ttbr0_el1 v' = root_table v' /\ ttbr1_el1 v' = root_table v' /\
      (forall i, 0 <= i -> Z.testbit (sctlr_el1 v') i =
         Z.testbit (sctlr_el1 v0) i || bool_decide (i = 0 \/ i = 2 \/ i = 12)) /\
      forall v, 0 <= v < 2 ^ 39 -> translate m' (root_table v') v = identity_map ram v
  | Stuck a' m' =>
      few_free (boot_frames kernel_end ram) a m /\ (forall h, ~ fa_free a' m' h) /\ mmu_untouched v0 v'
  end.
Proof. apply init_vmm_ok. Qed.

(** Mapping a page inside a 2 MiB block breaks: [get_next_table] takes the
  block descriptor for a table, so the new descriptor is stored into the
  memory the block maps and, unless that memory happens to hold the tables
  themselves, no address translates differently. *)
Theorem vmm_map_page_over_block a m root virt phys flags t2 e :
pt_inv a m root -> child m root (l1_idx virt) = Some t2 ->
entry m t2 (l2_idx virt) = e -> valid e = true -> is_table e = false -> out_addr e <> 0 ->
let target := out_addr e + 8 * l3_idx virt in
let m' := store64 m target (make_entry PT_PAGE phys flags) in
vmm_map_page root a m virt phys flags = Done a m' /\
out_addr e <= target /\ target + 8 <= out_addr e + 4096 /\
((forall p t, path p -> node m root p = Some t ->
    t + 4096 <= out_addr e \/ out_addr e + 4096 <= t) ->
 forall v, translate m' root v = translate m root v).
Proof.
intros Hinv Ht2 He Hv Htab Hnz target m'. destruct (idx_range virt) as (H1 & H2 & H3).
assert (Hc : is_table (entry m root (l1_idx virt)) = true /\
             out_addr (entry m root (l1_idx virt)) = t2).
{ unfold child in Ht2. destruct (is_table _); [|done]. by injection Ht2. }
destruct Hc as [Ht1 Ho1].
assert (Hpos : page t2) by (by apply (pi_page _ _ _ Hinv [l1_idx virt]); auto).
assert (Hmap : vmm_map_page root a m virt phys flags = Done a m').
{ unfold vmm_map_page, get_next_table. fold (valid (entry m root (l1_idx virt))).
  fold (out_addr (entry m root (l1_idx virt))). rewrite is_table_valid, Ho1 by done.
  destruct Hpos as (_ & Hpos & _). destruct (t2 =? 0) eqn:E0; [lia|].
  fold (valid (entry m t2 (l2_idx virt))) (out_addr (entry m t2 (l2_idx virt))).
  rewrite He, Hv. destruct (out_addr e =? 0) eqn:E1; [lia|done]. }
split_and!; [done|unfold target; lia..|]. intros Hdis v. unfold m'.
apply translate_walk, tree_ext. intros p t j Hp Ht Hj. specialize (Hdis p t Hp Ht).
unfold entry. apply loadn_storen_ne. unfold target. lia.
Qed.
End Claims.

(** [dcache_clean_poc] cleans whole 64-byte lines and, when the range does
    not wrap around the address space, every byte of it lies in a cleaned line;
    [size / 64 + 3] rounds are enough. *)
Theorem dcache_clean_poc_covers addr size fuel :
  0 <= addr -> 0 <= size -> addr + size + 64 <= 2 ^ 64 -> size / 64 + 2 < Z.of_nat fuel ->
  exists lines, dcache_clean_poc fuel addr size = Some lines /\
    (forall l, l ∈ lines -> l mod 64 = 0 /\ l < addr + size) /\
    forall b, addr <= b < addr + size -> exists l, l ∈ lines /\ l <= b < l + 64.
Proof.
  intros Ha Hs Hlim Hfuel. unfold dcache_clean_poc.
  change (64 - 1) with (2 ^ 6 - 1). rewrite land_lnot_ones by lia. rewrite (u64_id (addr + size)) by lia.
  set (start := addr - addr mod 2 ^ 6). assert (Hst : start mod 64 = 0 /\ addr - 64 < start <= addr /\ 0 <= start) by (unfold start; zdiv).
  destruct (loop_ind
    (fun '(st, ls) => st mod 64 = 0 /\ start <= st < addr + size + 64 /\
       (forall l, l ∈ ls -> l mod 64 = 0 /\ l < addr + size) /\
       (forall b, addr <= b < st -> exists l, l ∈ ls /\ l <= b < l + 64))
    (fun ls => (forall l, l ∈ ls -> l mod 64 = 0 /\ l < addr + size) /\
       (forall b, addr <= b < addr + size -> exists l, l ∈ ls /\ l <= b < l + 64))
    (fun st => Z.max 0 ((addr + size - st.1 + 63) / 64)) fuel
    (fun '(start, cleaned) => if start <? addr + size then inl (u64 (start + 64), cleaned ++ [start])
                              else inr cleaned)
    (start, [])) as (ls & Hr & H1 & H2); [| | |by exists ls].
  - split_and!; [lia..| |lia]. intros l Hl. by apply elem_of_nil in Hl.
  - simpl. unfold start in *. zdiv.
  - intros [st ls] (H1 & H2 & H3 & H4). simpl. destruct (st <? addr + size) eqn:E.
    + rewrite u64_id by lia. split; [|simpl; zdiv]. split_and!; [zdiv|lia|lia|..].
      * intros l [Hl|Hl]%elem_of_app; [by apply H3|].
        apply list_elem_of_singleton in Hl as ->. lia.
      * intros b Hb. destruct (decide (b < st)) as [D|D].
        -- destruct (H4 b ltac:(lia)) as (l & Hl & Hlb). exists l.
           split; [apply elem_of_app; by left|done].
        -- exists st. split; [apply elem_of_app; right; by left|lia].
    + split; [done|]. intros b Hb. apply H4. lia.
Qed.

(** ** Witnesses, over the frame allocator of [Pmm] *)

(** The first two lines of [init_vmm]. *)
Definition new_root `{FrameAllocator A} (a : A) (m : mem) : Z * A * mem :=
  let '(f, a, m) := fa_alloc a m in (f, a, memset m f 0 PAGE_SIZE).

Lemma new_root_ok `{FrameAllocator A} (a : A) (m : mem) :
  fa_inv a m -> (new_root a m).1.1 <> 0 ->
  pt_inv (new_root a m).1.2 (new_root a m).2 (new_root a m).1.1 /\
  forall v, walk (new_root a m).2 (new_root a m).1.1 v = None.
Proof.
  intros Hinv. pose proof (root_ok a m Hinv) as Hr. unfold new_root.
  destruct (fa_alloc a m) as [[f a1] m1]. intros Hnz. by destruct (Hr Hnz) as (? & ? & _).
Qed.

(** A machine of 64 frames with an empty root table. *)
Definition demo : Z * Pmm.pmm_state * mem := new_root Pmm.demo.1 Pmm.demo.2.

Lemma demo_tables_inv : pt_inv demo.1.2 demo.2 demo.1.1 /\ forall v, walk demo.2 demo.1.1 v = None.
Proof. apply new_root_ok; [exact Pmm.demo_inv|vm_compute; discriminate]. Qed.

(** The same after mapping the 2 MiB block at 4 MiB to itself plus 1 GiB. *)
Definition demo_block : Pmm.pmm_state * mem :=
  after (vmm_map_block demo.1.1 demo.1.2 demo.2 0x400000 0x40400000 VM_WRITABLE).

Lemma demo_block_inv : pt_inv demo_block.1 demo_block.2 demo.1.1.
Proof.
  destruct demo_tables_inv as [Hi _].
  pose proof (map_block_ok demo.1.2 demo.2 demo.1.1 0x400000 0x40400000 VM_WRITABLE Hi
                ltac:(done) ltac:(lia)) as H.
  unfold demo_block. destruct (vmm_map_block _ _ _ _ _ _); apply H.
Qed.

Lemma vmm_map_page_spec_witness :
  pt_inv demo.1.2 demo.2 demo.1.1 /\
  match vmm_map_page demo.1.1 demo.1.2 demo.2 0x5000 0x40009000 VM_NO_EXEC with Stuck _ _ => False | Done s' m' =>
  pt_inv s' m' demo.1.1 /\
  translate m' demo.1.1 0x5123 = Some (0x40009123, Attrs false MT_NORMAL true true true false) /\
  translate m' demo.1.1 0x6000 = None end.
Proof.
  destruct demo_tables_inv as [Hi Hw]. split; [exact Hi|].
  pose proof (vmm_map_page_spec demo.1.2 demo.2 demo.1.1 0x5000 0x40009000 VM_NO_EXEC Hi
                ltac:(reflexivity) ltac:(lia) ltac:(reflexivity) ltac:(lia)
                ltac:(intros e; rewrite Hw; discriminate)) as H.
  assert (Hc : match vmm_map_page demo.1.1 demo.1.2 demo.2 0x5000 0x40009000 VM_NO_EXEC with Stuck _ _ => False | Done s' m' =>
    translate m' demo.1.1 0x5123 = Some (0x40009123, Attrs false MT_NORMAL true true true false) /\
    translate m' demo.1.1 0x6000 = None end) by (vm_compute; split; reflexivity).
  destruct (vmm_map_page _ _ _ _ _ _) as [s' m'|]; [|done]. destruct H as [H _]. destruct Hc. done.
Defined.

Lemma vmm_map_block_spec_witness :
  pt_inv demo.1.2 demo.2 demo.1.1 /\
  match vmm_map_block demo.1.1 demo.1.2 demo.2 0x400000 0x40400000 VM_WRITABLE with Stuck _ _ => False | Done s' m' =>
  pt_inv s' m' demo.1.1 /\
  translate m' demo.1.1 0x5fffff = Some (0x405fffff, Attrs true MT_NORMAL false true true false) /\
  translate m' demo.1.1 0x600000 = None end.
Proof.
  destruct demo_tables_inv as [Hi Hw]. split; [exact Hi|].
  pose proof (vmm_map_block_spec demo.1.2 demo.2 demo.1.1 0x400000 0x40400000 VM_WRITABLE Hi
                ltac:(reflexivity) ltac:(lia) ltac:(reflexivity) ltac:(lia)) as H.
  assert (Hc : match vmm_map_block demo.1.1 demo.1.2 demo.2 0x400000 0x40400000 VM_WRITABLE with Stuck _ _ => False | Done s' m' =>
    translate m' demo.1.1 0x5fffff = Some (0x405fffff, Attrs true MT_NORMAL false true true false) /\
    translate m' demo.1.1 0x600000 = None end) by (vm_compute; split; reflexivity).
  destruct (vmm_map_block _ _ _ _ _ _) as [s' m'|]; [|done]. destruct H as [H _]. destruct Hc. done.
Defined.

Lemma vmm_map_region_spec_witness :
  pt_inv demo.1.2 demo.2 demo.1.1 /\
  exists s' m',
    vmm_map_region 600 demo.1.1 demo.1.2 demo.2 0x1ff000 0x401ff000 0x202000 VM_WRITABLE = Some (Done s' m') /\
    pt_inv s' m' demo.1.1 /\
    translate m' demo.1.1 0x400fff = Some (0x40400fff, Attrs true MT_NORMAL false true true false) /\
    translate m' demo.1.1 0x401000 = None.
Proof.
  destruct demo_tables_inv as [Hi Hw]. split; [exact Hi|].
  assert (Hd : match vmm_map_region 600 demo.1.1 demo.1.2 demo.2 0x1ff000 0x401ff000 0x202000 VM_WRITABLE with
               | Some (Done _ _) => true | _ => false end = true) by (vm_compute; reflexivity).
  destruct (vmm_map_region_spec demo.1.1 demo.1.2 demo.2 0x1ff000 0x401ff000 0x202000 VM_WRITABLE 600 Hi
              ltac:(reflexivity) ltac:(reflexivity) ltac:(lia) ltac:(lia) ltac:(lia) ltac:(lia) ltac:(lia)
              ltac:(intros v e _; rewrite Hw; discriminate) ltac:(vm_compute; reflexivity))
    as (r & H1 & H2).
  rewrite H1 in Hd. destruct r as [s' m'|]; [|discriminate Hd]. destruct H2 as (H2 & _ & H3).
  exists s', m'. split; [exact H1|]. split; [exact H2|]. rewrite !H3 by lia. split; [reflexivity|].
  unfold translate. rewrite Hw. reflexivity.
Defined.

(** A machine of 16 MiB of RAM. *)
Definition machine : Pmm.pmm_state * mem :=
  Pmm.pmm_init Pmm.boot_state ∅ (PHY_RAM_BASE + 100) 0x1000000.

Lemma machine_inv :
  Pmm.inv machine.1 machine.2 /\ forall i, 10 <= i < 4096 -> pmm_free machine.1 machine.2 (Pmm.frame_addr i).
Proof.
  pose proof (Pmm.boot_ok ∅ (PHY_RAM_BASE + 100) 0x1000000
                ltac:(unfold PHY_RAM_BASE; lia) ltac:(lia) ltac:(by vm_compute)) as H.
  unfold machine. destruct (Pmm.pmm_init _ _ _ _) as [s m].
  destruct H as (Hinv & Hfree & _). split; [exact Hinv|]. intros i Hi. exists i. split; [reflexivity|].
  cbn [fst snd]. rewrite Hfree. apply elem_of_reverse, elem_of_seqZ.
  unfold PHY_RAM_BASE. clear - Hi. zdiv.
Qed.

Definition reset_vmm : vmm_state := VmmState 0 0 false 0 0 0 0 0x30d00800.

Lemma init_vmm_identity_witness :
  PHY_RAM_BASE <= PHY_RAM_BASE + 100 <= PHY_RAM_BASE + 0x1000000 /\
  exists v' s' m',
    init_vmm (PHY_RAM_BASE + 100) 0x1000000 reset_vmm machine.1 machine.2 = Some (v', Done s' m') /\
    forall v, 0 <= v < 2 ^ 39 -> translate m' (root_table v') v = identity_map 0x1000000 v.
Proof.
  assert (Hk : PHY_RAM_BASE <= PHY_RAM_BASE + 100 <= PHY_RAM_BASE + 0x1000000)
    by (unfold PHY_RAM_BASE; lia).
  split; [exact Hk|].
  destruct machine_inv as [Hinv Hg].
  destruct (init_vmm_identity (FA := pmm_frame_allocator) (PHY_RAM_BASE + 100) 0x1000000 reset_vmm machine.1 machine.2 _ Hinv
              (Hg 10 ltac:(lia)) Hk ltac:(reflexivity) ltac:(lia)) as (v' & r & Hr & _ & _ & Hm).
  destruct r as [s' m'|s' m'].
  - exists v', s', m'. split; [exact Hr|]. apply Hm.
  - destruct Hm as [Hfew _]. specialize (Hfew (Pmm.frame_addr <$> seqZ 10 4000)).
    exfalso. assert (H : Z.of_nat (length (Pmm.frame_addr <$> seqZ 10 4000)) <= boot_frames (PHY_RAM_BASE + 100) 0x1000000).
    { apply Hfew.
      - apply NoDup_fmap_2; [exact Pmm.frame_addr_inj|apply NoDup_seqZ].
      - apply list.Forall_forall. intros f (i & -> & Hi)%list_elem_of_fmap. apply elem_of_seqZ in Hi. apply Hg. lia. }
    rewrite length_fmap, length_seqZ in H. revert H. vm_compute. intros H. by apply H.
Defined.

Lemma vmm_map_page_over_block_witness :
  pt_inv demo_block.1 demo_block.2 demo.1.1 /\
  vmm_map_page demo.1.1 demo_block.1 demo_block.2 0x5ff000 0x40009000 VM_WRITABLE
  = Done demo_block.1 (store64 demo_block.2 0x40400ff8 (make_entry PT_PAGE 0x40009000 VM_WRITABLE)).
Proof.
  split; [exact demo_block_inv|].
  assert (Hc : child demo_block.2 demo.1.1 (l1_idx 0x5ff000) = Some 0x4003e000)
    by (vm_compute; reflexivity).
  apply (vmm_map_page_over_block demo_block.1 demo_block.2 demo.1.1 0x5ff000 0x40009000 VM_WRITABLE
           0x4003e000 (make_entry PT_BLOCK 0x40400000 VM_WRITABLE) demo_block_inv Hc);
    vm_compute; (reflexivity || discriminate).
Defined.

Lemma dcache_clean_poc_covers_witness :
  (0 <= 100 /\ 100 + 100 + 64 <= 2 ^ 64) /\
  exists lines, dcache_clean_poc 10 100 100 = Some lines /\ lines = [64; 128; 192].
Proof.
  split; [lia|].
  destruct (dcache_clean_poc_covers 100 100 10) as (lines & Hr & _);
    [lia|lia|lia|vm_compute; reflexivity|].
  exists lines. split; [exact Hr|]. revert Hr. vm_compute. by intros [= <-].
Defined.

End Vmm.
