(* ===== verification/VmmFrames.v ===== *)
(** * The frames the page tables take

    How many frames the mapping functions allocate at most, and that they
    cannot tell two allocators apart that agree for as long. *)

From S2P Require Import Prelude Memory CString Pmm FrameAlloc Vmm.

Module VmmFrames.
Import CString Vmm.

Section Cost.
Context {A : Type} (F G : FrameAllocator A) (left_ : A -> Z) (lim : Z).
Context (Hsame : forall a m, lim < left_ a -> fa_alloc (FrameAllocator := G) a m = fa_alloc (FrameAllocator := F) a m).
Context (Hone : forall a m, left_ a - 1 <= left_ (fa_alloc (FrameAllocator := F) a m).1.2).

Lemma next_table_cost a m table idx : lim < left_ a ->
  get_next_table (FA := G) a m table idx = get_next_table (FA := F) a m table idx /\
  left_ a - 1 <= left_ (get_next_table (FA := F) a m table idx).1.2.
Proof.
  intros Ha. unfold get_next_table. rewrite (Hsame a m Ha). pose proof (Hone a m) as H1. destruct (nonzero _); [split; [done|cbn; lia]|].
  destruct (fa_alloc a m) as [[f a1] m1]. cbn [fst snd] in H1. destruct (f =? 0); split; done.
Qed.

Lemma map_page_cost root a m virt phys flags : lim + 1 < left_ a ->
  vmm_map_page (FA := G) root a m virt phys flags = vmm_map_page (FA := F) root a m virt phys flags /\
  left_ a - 2 <= left_ (after (vmm_map_page (FA := F) root a m virt phys flags)).1.
Proof.
  intros Ha. unfold vmm_map_page. destruct (next_table_cost a m root (l1_idx virt) ltac:(lia)) as [-> H1].
  destruct (get_next_table (FA := F) a m root (l1_idx virt)) as [[t a1] m1]. cbn [fst snd] in H1. destruct (t =? 0); [split; [done|cbn; lia]|].
  destruct (next_table_cost a1 m1 t (l2_idx virt) ltac:(lia)) as [-> H2].
  destruct (get_next_table (FA := F) a1 m1 t (l2_idx virt)) as [[t2 a2] m2]. cbn [fst snd] in H2. destruct (t2 =? 0); (split; [done|cbn; lia]).
Qed.

Lemma map_block_cost root a m virt phys flags : lim < left_ a ->
  vmm_map_block (FA := G) root a m virt phys flags = vmm_map_block (FA := F) root a m virt phys flags /\
  left_ a - 1 <= left_ (after (vmm_map_block (FA := F) root a m virt phys flags)).1.
Proof.
  intros Ha. unfold vmm_map_block. destruct (next_table_cost a m root (l1_idx virt) ltac:(lia)) as [-> H1].
  destruct (get_next_table (FA := F) a m root (l1_idx virt)) as [[t a1] m1]. cbn [fst snd] in H1. destruct (t =? 0); (split; [done|cbn; lia]).
Qed.

Section Region.
Context (root virt phys size flags : Z).
Context (Hv : virt mod BLOCK_SIZE = 0) (Hp : phys mod BLOCK_SIZE = 0).
Context (Hv0 : 0 <= virt < 2 ^ 48) (Hp0 : 0 <= phys < 2 ^ 48) (Hs : 0 <= size < 2 ^ 48).

Lemma region_loop_cost fuel : forall mapped a m,
  0 <= mapped <= size + 4096 -> mapped mod BLOCK_SIZE = 0 \/ size - mapped < BLOCK_SIZE -> lim + region_cost (size - mapped) < left_ a ->
  loop fuel (map_region_step (FA := G) root virt phys size flags) (mapped, a, m) =
    loop fuel (map_region_step (FA := F) root virt phys size flags) (mapped, a, m) /\
  forall r, loop fuel (map_region_step (FA := F) root virt phys size flags) (mapped, a, m) = Some r ->
    left_ a - region_cost (size - mapped) <= left_ (after r).1.
Proof.
  assert (HB : BLOCK_SIZE = 2097152) by done. change (2 ^ 48) with 281474976710656 in *.
  induction fuel as [|fuel IH]; intros mapped a m Hm Hg Hl; [done|]. pose proof (region_cost_nonneg (size - mapped)) as Hn0.
  cbn [loop]. unfold map_region_step at 1 3 5. destruct (mapped <? size) eqn:E.
  2:{ split; [done|]. intros r [= <-]. cbn. lia. }
  apply Z.ltb_lt in E. rewrite (u64_id (virt + mapped)), (u64_id (phys + mapped)), (u64_id (size - mapped)) by lia.
  pose proof (block_budget virt phys size Hv Hp) as Hbud. fold (whole_block virt phys size mapped).
  pose proof (region_cost_nonneg (size - (mapped + BLOCK_SIZE))) as Hn1. pose proof (region_cost_nonneg (size - (mapped + 4096))) as Hn2.
  destruct (whole_block virt phys size mapped) eqn:Eb.
  - destruct (bg_block _ _ _ _ _ Hbud mapped Hg ltac:(lia) Eb) as [Hg' Hc]. unfold whole_block in Eb.
    destruct (map_block_cost root a m (virt + mapped) (phys + mapped) flags) as [-> H1]; [lia|].
    destruct (vmm_map_block (FA := F) root a m (virt + mapped) (phys + mapped) flags) as [a1 m1|a1 m1]; cbn [after fst] in H1.
    2:{ split; [done|]. intros r [= <-]. cbn. lia. }
    rewrite u64_id by lia. destruct (IH (mapped + BLOCK_SIZE) a1 m1) as [E1 E2]; [lia|done|lia|].
    split; [done|]. intros r Hr. specialize (E2 r Hr). lia.
  - destruct (bg_page _ _ _ _ _ Hbud mapped Hg ltac:(lia) Eb) as [Hg' Hc].
    destruct (map_page_cost root a m (virt + mapped) (phys + mapped) flags) as [-> H1]; [lia|].
    destruct (vmm_map_page (FA := F) root a m (virt + mapped) (phys + mapped) flags) as [a1 m1|a1 m1]; cbn [after fst] in H1.
    2:{ split; [done|]. intros r [= <-]. cbn. lia. }
    change PAGE_SIZE with 4096. rewrite u64_id by lia. destruct (IH (mapped + 4096) a1 m1) as [E1 E2]; [lia|done|lia|].
    split; [done|]. intros r Hr. specialize (E2 r Hr). lia.
Qed.
End Region.

Definition aligned (r : Z * Z * Z * Z) : Prop :=
  let '(virt, phys, size, _) := r in
  virt mod BLOCK_SIZE = 0 /\ phys mod BLOCK_SIZE = 0 /\ 0 <= virt < 2 ^ 48 /\ 0 <= phys < 2 ^ 48 /\ 0 <= size < 2 ^ 48.

Lemma region_stops (H : FrameAllocator A) root rs :
  foldl (fun r '(virt, phys, size, flags) =>
           match r with
           | Some (Done a m) => vmm_map_region (FA := H) (region_fuel size) root a m virt phys size flags
           | _ => r
           end) None rs = None.
Proof. induction rs as [|[[[virt phys] size] flags] rs IH]; [done|exact IH]. Qed.

Lemma map_regions_cost root rs : forall a m, Forall aligned rs -> lim + regions_cost rs < left_ a ->
  map_regions (FA := G) root rs a m = map_regions (FA := F) root rs a m /\
  forall r, map_regions (FA := F) root rs a m = Some r -> left_ a - regions_cost rs <= left_ (after r).1.
Proof.
  induction rs as [|[[[virt phys] size] flags] rs IH]; intros a m Hal Hl.
  { split; [done|]. intros r [= <-]. cbn. lia. }
  apply list.Forall_cons in Hal as [(Hv & Hp & Hv0 & Hp0 & Hs) Hal]. cbn [regions_cost] in *. pose proof (regions_cost_nonneg rs).
  destruct (region_loop_cost root virt phys size flags Hv Hp Hv0 Hp0 Hs (region_fuel size) 0 a m) as [E1 E2];
    [lia|left; done|rewrite Z.sub_0_r; lia|].
  rewrite Z.sub_0_r in E2. unfold map_regions. cbn [foldl].
  change (vmm_map_region (FA := G) (region_fuel size) root a m virt phys size flags = vmm_map_region (FA := F) (region_fuel size) root a m virt phys size flags) in E1.
  rewrite E1. clear E1. fold (vmm_map_region (FA := F) (region_fuel size) root a m virt phys size flags) in E2.
  destruct (vmm_map_region _ _ _ _ _ _ _ _) as [[a1 m1|a1 m1]|].
  - specialize (E2 _ eq_refl). cbn [after fst] in E2. destruct (IH a1 m1 Hal ltac:(lia)) as [E3 E4]. split; [exact E3|].
    intros r Hr. specialize (E4 r Hr). lia.
  - rewrite !map_regions_stuck. split; [done|]. intros r [= <-]. specialize (E2 _ eq_refl). lia.
  - rewrite !region_stops. done.
Qed.

(** The boot map, over either allocator. *)
Lemma init_vmm_cost kernel_end ram v a m :
  Forall aligned (boot_regions kernel_end ram) -> lim + 1 + regions_cost (boot_regions kernel_end ram) < left_ a ->
  init_vmm (FA := G) kernel_end ram v a m = init_vmm (FA := F) kernel_end ram v a m /\
  forall v' r, init_vmm (FA := F) kernel_end ram v a m = Some (v', r) ->
    left_ a - 1 - regions_cost (boot_regions kernel_end ram) <= left_ (after r).1.
Proof.
  intros Hal Hl. set (rs := boot_regions kernel_end ram) in *. pose proof (regions_cost_nonneg rs).
  unfold init_vmm. rewrite (Hsame a m) by lia. pose proof (Hone a m) as H1.
  destruct (fa_alloc a m) as [[f a1] m1]. cbn [fst snd] in H1. fold rs.
  destruct (map_regions_cost f rs a1 (memset m1 f 0 PAGE_SIZE) Hal ltac:(lia)) as [E1 E2]. rewrite E1. clear E1. split; [done|].
  intros v' r. destruct (map_regions _ _ _ _) as [r0|]; cbn [mbind option_bind]; [|done]. specialize (E2 r0 eq_refl).
  destruct r0 as [a2 m2|a2 m2]; intros [= <- <-]; cbn [after fst] in *; lia.
Qed.
End Cost.

Lemma boot_aligned kernel_end ram : 0x40000000 <= kernel_end < 2 ^ 40 -> 0 <= ram < 2 ^ 40 ->
  Forall aligned (boot_regions kernel_end ram).
Proof.
  intros Hk Hr. assert (HB : BLOCK_SIZE = 2097152) by done. unfold boot_regions. rewrite u64_id by lia.
  unfold Pmm.PHY_RAM_BASE. repeat apply Forall_cons_2; try apply Forall_nil_2; unfold aligned; rewrite HB; repeat split; lia || done.
Qed.
End VmmFrames.
