(* ===== verification/Heap.v ===== *)
(** * The kernel heap (src/src/heap.c)

    A slab allocator over a fixed window of memory. Everything the C code keeps
    in memory is in the machine memory here too: the page table of the heap (one
    4-byte [page_info_t] per page, at the start of the window), the slab headers
    at the start of their pages, the free lists threaded through the free
    objects and the static array [caches]. *)

From S2P Require Import Prelude Memory CString Dll.

Module Heap.
Import CString.

Definition PAGE_SIZE : Z := 4096.
Definition PAGE_MASK : Z := Z.lnot (PAGE_SIZE - 1).
Definition HEAP_ALIGN : Z := 8.
Definition SLAB_MAGIC : Z := 0x51AB51AB.
Definition PAGE_TYPE_FREE : Z := 0.
Definition PAGE_TYPE_SLAB : Z := 1.
Definition PAGE_TYPE_LARGE : Z := 2.

Definition slab_sizes : list Z := [16; 32; 64; 128; 256; 512; 1024; 2048].
Definition NUM_CACHE_SIZES : Z := 8.

(** The file's statics, the lock and the caches apart. *)
Record heap_state := HeapState {
  heap_start_addr : Z;
  heap_end_addr : Z;
  page_metadata : Z;
  total_pages : Z;     (* u32 *)
}.

Definition boot_state : heap_state := HeapState 0 0 0 0.

Definition align_up (n align : Z) : Z := Z.land (u64 (n + align - 1)) (Z.lnot (align - 1)).

Definition virt_to_page_idx (h : heap_state) (addr : Z) : Z :=
  if (addr <? heap_start_addr h) || (heap_end_addr h <=? addr) then u32 (-1)
  else u32 ((addr - heap_start_addr h) / PAGE_SIZE).

Definition page_idx_to_virt (h : heap_state) (idx : Z) : Z :=
  u64 (heap_start_addr h + idx * PAGE_SIZE).

(** [page_metadata[i].type] and [.count]. *)
Definition page_type (h : heap_state) (m : mem) (i : Z) : Z := load8 m (page_metadata h + 4 * i).
Definition page_count (h : heap_state) (m : mem) (i : Z) : Z := load16 m (page_metadata h + 4 * i + 2).
Definition set_page (h : heap_state) (m : mem) (i type count : Z) : mem :=
  store16 (store8 m (page_metadata h + 4 * i) type) (page_metadata h + 4 * i + 2) count.

(** One round of the first-fit scan; [inr] is the start of a run found. *)
Definition scan_step (h : heap_state) (m : mem) (num_pages i : Z) (st : Z * Z) : (Z * Z) + Z :=
  let '(free_run, start_idx) := st in
  if page_type h m i =? PAGE_TYPE_FREE then
    let start_idx := if free_run =? 0 then i else start_idx in
    let free_run := u32 (free_run + 1) in
    if free_run =? num_pages then inr start_idx else inl (free_run, start_idx)
  else inl (0, start_idx).

Definition alloc_pages_backend (h : heap_state) (m : mem) (num_pages type : Z) : Z * mem :=
  match for_exit 0 (total_pages h) (scan_step h m num_pages) (0, u32 (-1)) with
  | inl _ => (0, m)
  | inr start_idx =>
      (page_idx_to_virt h start_idx,
       for_ 0 num_pages (fun j m =>
         set_page h m (start_idx + j) type (if j =? 0 then u16 num_pages else 0)) m)
  end.

Definition free_pages_backend (h : heap_state) (m : mem) (ptr : Z) : mem :=
  let idx := virt_to_page_idx h ptr in
  if total_pages h <=? idx then m
  else
    let count := page_count h m idx in
    if count =? 0 then m
    else
      for_ 0 count (fun i m =>
        if u32 (idx + i) <? total_pages h then set_page h m (u32 (idx + i)) PAGE_TYPE_FREE 0 else m) m.

(** ** Slabs

    [slab_t]: next 0, prev 8, cache 16, free_list 24, in_use 32, magic 36;
    [kmem_cache_t]: slabs_partial 0, slabs_full 8, slabs_free 16, obj_size 24. *)

Definition sizeof_slab : Z := 40.
Definition sizeof_cache : Z := 32.

Definition slab_next (m : mem) (slab : Z) : Z := load64 m slab.
Definition slab_prev (m : mem) (slab : Z) : Z := load64 m (slab + 8).
Definition set_next (m : mem) (slab v : Z) : mem := store64 m slab v.
Definition set_prev (m : mem) (slab v : Z) : mem := store64 m (slab + 8) v.
Definition slab_cache (m : mem) (slab : Z) : Z := load64 m (slab + 16).
Definition free_list (m : mem) (slab : Z) : Z := load64 m (slab + 24).
Definition in_use (m : mem) (slab : Z) : Z := load32 m (slab + 32).
Definition magic (m : mem) (slab : Z) : Z := load32 m (slab + 36).
Definition obj_size (m : mem) (c : Z) : Z := load64 m (c + 24).

Definition slab_init_page (m : mem) (slab cache : Z) : mem :=
  let m := store32 m (slab + 36) SLAB_MAGIC in
  let m := store64 m (slab + 16) cache in
  let m := store32 m (slab + 32) 0 in
  let m := set_next m slab 0 in
  let m := set_prev m slab 0 in
  let base := slab in
  let start := align_up (base + sizeof_slab) HEAP_ALIGN in
  let available := PAGE_SIZE - (start - base) in
  let max_objs := available / obj_size m cache in
  let m := store64 m (slab + 24) start in
  let '(m, curr) := for_ 0 (max_objs - 1) (fun _ '(m, curr) =>
      (store64 m curr (curr + obj_size m cache), curr + obj_size m cache)) (m, start) in
  store64 m curr 0.

(** [slab->next = head; slab->prev = NULL; if (head) head->prev = slab;
    head = slab], for the list whose head is the cell [head]. *)
Definition push_front (m : mem) (head slab : Z) : mem :=
  let m := set_prev (set_next m slab (load64 m head)) slab 0 in
  let m := if nonzero (load64 m head) then set_prev m (load64 m head) slab else m in
  store64 m head slab.

(** [if (slab->prev) slab->prev->next = slab->next; else head = slab->next;
    if (slab->next) slab->next->prev = slab->prev]. *)
Definition remove (m : mem) (head slab : Z) : mem :=
  let m := if nonzero (slab_prev m slab) then set_next m (slab_prev m slab) (slab_next m slab)
           else store64 m head (slab_next m slab) in
  if nonzero (slab_next m slab) then set_prev m (slab_next m slab) (slab_prev m slab) else m.

Definition cache_alloc (h : heap_state) (m : mem) (c : Z) : Z * mem :=
  let slab := load64 m c in
  let '(slab, m) :=
    if slab =? 0 then
      let '(slab, m) :=
        if nonzero (load64 m (c + 16)) then
          let slab := load64 m (c + 16) in
          let m := store64 m (c + 16) (slab_next m slab) in
          let m := if nonzero (load64 m (c + 16)) then set_prev m (load64 m (c + 16)) 0 else m in
          (slab, m)
        else
          let '(slab, m) := alloc_pages_backend h m 1 PAGE_TYPE_SLAB in
          if slab =? 0 then (0, m) else (slab, slab_init_page m slab c) in
      if slab =? 0 then (0, m) else (slab, push_front m c slab)
    else (slab, m) in
  if slab =? 0 then (0, m)
  else
    let obj := free_list m slab in
    let m := store64 m (slab + 24) (load64 m obj) in
    let m := store32 m (slab + 32) (u32 (in_use m slab + 1)) in
    if free_list m slab =? 0 then (obj, push_front (remove m c slab) (c + 8) slab) else (obj, m).

Definition cache_free (h : heap_state) (m : mem) (c ptr : Z) : mem :=
  let slab := Z.land ptr PAGE_MASK in
  if negb (magic m slab =? SLAB_MAGIC) then m
  else
    let was_full := free_list m slab =? 0 in
    let m := store64 m ptr (free_list m slab) in
    let m := store64 m (slab + 24) ptr in
    let m := store32 m (slab + 32) (u32 (in_use m slab - 1)) in
    if in_use m slab =? 0 then
      let m := if was_full then remove m (c + 8) slab else remove m c slab in
      free_pages_backend h m slab
    else if was_full then push_front (remove m (c + 8) slab) c slab
    else m.

(** ** The interface

    [caches] is the address of the static array. The body of every function is
    a critical section of [heap_lock]. *)

Section Interface.
Context (caches : Z).

Definition heap_init (h : heap_state) (m : mem) (start size : Z) : heap_state * mem :=
  let aligned_start := Z.land (u64 (start + PAGE_SIZE - 1)) PAGE_MASK in
  let diff := u64 (aligned_start - start) in
  if size <? diff then (h, m)
  else
    let size := size - diff in
    let total := u32 (size / PAGE_SIZE) in
    if total =? 0 then
      (HeapState (heap_start_addr h) (heap_end_addr h) (page_metadata h) total, m)
    else
      let end_ := u64 (aligned_start + u32 (total * PAGE_SIZE)) in
      let meta_size := total * 4 in
      let meta_pages := (meta_size + PAGE_SIZE - 1) / PAGE_SIZE in
      if total <=? meta_pages then (HeapState aligned_start end_ (page_metadata h) total, m)
      else
        let h := HeapState aligned_start end_ aligned_start total in
        let m := memset m aligned_start 0 meta_size in
        let m := for_ 0 meta_pages (fun i m => set_page h m i PAGE_TYPE_LARGE 1) m in
        let m := for_ 0 NUM_CACHE_SIZES (fun i m =>
          let c := caches + sizeof_cache * i in
          store64 (store64 (store64 (store64 m (c + 24) (default 0 (slab_sizes !! Z.to_nat i)))
            (c + 8) 0) c 0) (c + 16) 0) m in
        (h, m).

Definition malloc (h : heap_state) (m : mem) (size : Z) : Z * mem :=
  if size =? 0 then (0, m)
  else if size <=? 2048 then
    match for_exit 0 NUM_CACHE_SIZES (fun i (_ : unit) =>
            let c := caches + sizeof_cache * i in
            if size <=? obj_size m c then inr c else inl tt) tt with
    | inl _ => (0, m)
    | inr c => cache_alloc h m c
    end
  else alloc_pages_backend h m (u64 (size + PAGE_SIZE - 1) / PAGE_SIZE) PAGE_TYPE_LARGE.

Definition free (h : heap_state) (m : mem) (ptr : Z) : mem :=
  if ptr =? 0 then m
  else
    let idx := virt_to_page_idx h ptr in
    if idx <? total_pages h then
      if page_type h m idx =? PAGE_TYPE_SLAB then
        let slab := Z.land ptr PAGE_MASK in
        if nonzero (slab_cache m slab) then cache_free h m (slab_cache m slab) ptr else m
      else if page_type h m idx =? PAGE_TYPE_LARGE then free_pages_backend h m ptr
      else m
    else m.

Definition calloc (h : heap_state) (m : mem) (num size : Z) : Z * mem :=
  let total := u64 (num * size) in
  let '(ptr, m) := malloc h m total in
  if ptr =? 0 then (ptr, m) else (ptr, memset m ptr 0 total).

Definition realloc (h : heap_state) (m : mem) (ptr new_size : Z) : Z * mem :=
  if ptr =? 0 then malloc h m new_size
  else if new_size =? 0 then (0, free h m ptr)
  else
    let idx := virt_to_page_idx h ptr in
    let old_size :=
      if idx <? total_pages h then
        if page_type h m idx =? PAGE_TYPE_SLAB then
          let slab := Z.land ptr PAGE_MASK in
          if nonzero (slab_cache m slab) then obj_size m (slab_cache m slab) else 0
        else if page_type h m idx =? PAGE_TYPE_LARGE then page_count h m idx * PAGE_SIZE
        else 0
      else 0 in
    if new_size <=? old_size then (ptr, m)
    else
      let '(new_ptr, m) := malloc h m new_size in
      if new_ptr =? 0 then (0, m)
      else (new_ptr, free h (memcpy m new_ptr ptr old_size) ptr).
End Interface.

End Heap.
