(* ===== verification/HeapPages.v ===== *)
(** * The page layer of the heap

    First fit over the page table of the heap: what [alloc_pages_backend] and
    [free_pages_backend] do to the table, and the invariant that makes the runs
    of allocated pages disjoint. *)

From S2P Require Import Prelude Memory CString Dll Heap.

Module HeapPages.
Import Heap.

Section Pages.
Context (h : heap_state).

Abbreviation T := (total_pages h).
Abbreviation typ := (page_type h).
Abbreviation cnt := (page_count h).

(** The bytes of the page table. *)
Definition meta_byte (b : Z) : Prop := page_metadata h <= b < page_metadata h + 4 * T.

Lemma type_set_page m i t c j :
  0 <= t < 256 -> typ (set_page h m i t c) j = if decide (j = i) then t else typ m j.
Proof.
  intros Ht. unfold page_type, set_page. rewrite load8_storen_ne by lia.
  rewrite load8_store8. rewrite Z.mod_small by lia. repeat case_decide; (lia || done).
Qed.

Lemma count_set_page m i t c j :
  0 <= c < 2 ^ 16 -> cnt (set_page h m i t c) j = if decide (j = i) then c else cnt m j.
Proof.
  intros Hc. unfold page_count, set_page. case_decide as D.
  - subst j. by rewrite loadn_storen_eq.
  - rewrite loadn_storen_ne by lia. by rewrite loadn_store8_ne by lia.
Qed.

Lemma set_page_agree m i t c : 0 <= i < T -> agree (fun b => ~ meta_byte b) m (set_page h m i t c).
Proof.
  intros Hi b Hb. unfold meta_byte in Hb. unfold set_page.
  rewrite load8_storen_ne, load8_store8_ne by lia. done.
Qed.

Lemma type_range m i : 0 <= typ m i < 256.
Proof. apply load8_range. Qed.
Lemma count_range m i : 0 <= cnt m i < 2 ^ 16.
Proof. apply load16_range. Qed.

Lemma pages_agree m m' : agree meta_byte m m' ->
  forall i, 0 <= i < T -> typ m' i = typ m i /\ cnt m' i = cnt m i.
Proof.
  intros Hag i Hi. unfold page_type, page_count. split; [apply Hag; unfold meta_byte; lia|].
  eapply agree_loadn; [exact Hag|]. intros b Hb. unfold meta_byte. lia.
Qed.

(** [n] free pages from [s] on. *)
Definition free_run (m : mem) (s n : Z) : Prop :=
  0 <= s /\ s + n <= T /\ forall j, s <= j < s + n -> typ m j = PAGE_TYPE_FREE.

(** What the scan knows before page [i]: the pages of the current run are
    free, the page before it is not, and no run of [n] pages ended so far. *)
Definition scan_inv (m : mem) (n i : Z) (st : Z * Z) : Prop :=
  let '(r, start) := st in
  0 <= r <= i /\ r < n /\ (0 < r -> start = i - r) /\
  (forall j, i - r <= j < i -> typ m j = PAGE_TYPE_FREE) /\
  (forall s, 0 <= s -> s + n <= i -> exists j, s <= j < s + n /\ typ m j <> PAGE_TYPE_FREE) /\
  (r < i -> typ m (i - r - 1) <> PAGE_TYPE_FREE).

Definition first_run (m : mem) (n s : Z) : Prop :=
  free_run m s n /\ forall s', s' < s -> ~ free_run m s' n.

Lemma scan_step_ok m n i st :
  0 < n -> T < 2 ^ 32 -> 0 <= i < T -> scan_inv m n i st ->
  match scan_step h m n i st with
  | inl st' => scan_inv m n (i + 1) st'
  | inr s => first_run m n s
  end.
Proof.
  intros Hn HT Hi. change (2 ^ 32) with 4294967296 in *.
  destruct st as [r start]. intros (H1 & H2 & H3 & H4 & H5 & H6). unfold scan_step.
  destruct (typ m i =? PAGE_TYPE_FREE) eqn:E.
  - rewrite u32_id by lia. apply Z.eqb_eq in E.
    assert (Hs : (if r =? 0 then i else start) = i - r) by (destruct (r =? 0) eqn:Er; lia).
    rewrite Hs. assert (Hrun : forall j, i - r <= j < i + 1 -> typ m j = PAGE_TYPE_FREE).
    { intros j Hj. destruct (decide (j = i)) as [->|]; [done|apply H4; lia]. }
    destruct (r + 1 =? n) eqn:En.
    + split; [split_and!; [lia|lia|intros j Hj; apply Hrun; lia]|].
      intros s' Hs' (F1 & F2 & F3). destruct (decide (s' + n <= i)) as [D|D].
      * destruct (H5 s' F1 D) as (j & Hj & Hne). apply Hne, F3. lia.
      * lia.
    + split_and!; [lia..|intros j Hj; apply Hrun; lia| |].
      * intros s Hs0 Hsn. destruct (decide (s + n <= i)); [by apply H5|].
        exists (i - r - 1). split; [lia|]. apply H6. lia.
      * intros Hr. replace (i + 1 - (r + 1) - 1) with (i - r - 1) by lia. apply H6. lia.
  - apply Z.eqb_neq in E. split_and!; [lia..| |].
    + intros s Hs0 Hsn. destruct (decide (s + n <= i)); [by apply H5|]. exists i. split; [lia|done].
    + intros _. by replace (i + 1 - 0 - 1) with i by lia.
Qed.

(** The scan returns the first run of [n] free pages. *)
Lemma scan_ok m n :
  0 < n -> 0 <= T < 2 ^ 32 ->
  match for_exit 0 T (scan_step h m n) (0, u32 (-1)) with
  | inl _ => forall s, ~ free_run m s n
  | inr s => first_run m n s
  end.
Proof.
  intros Hn HT.
  pose proof (for_exit_ind (scan_inv m n) (first_run m n) 0 T (scan_step h m n) (0, u32 (-1))
                ltac:(lia)) as H.
  assert (H0 : scan_inv m n 0 (0, u32 (-1))) by (split_and!; lia).
  specialize (H H0 (fun j st Hj => scan_step_ok m n j st Hn ltac:(lia) Hj)).
  destruct (for_exit _ _ _ _) as [[r st]|s]; [|done].
  destruct H as (_ & _ & _ & _ & H & _). intros s (F1 & F2 & F3).
  destruct (H s F1 F2) as (j & Hj & Hne). apply Hne, F3. lia.
Qed.

(** A request for no page is never met. *)
Lemma scan_zero m : 0 <= T < 2 ^ 32 ->
  exists st, for_exit 0 T (scan_step h m 0) (0, u32 (-1)) = inl st.
Proof.
  intros HT. change (2 ^ 32) with 4294967296 in *.
  pose proof (for_exit_ind (fun i '(r, _) => 0 <= r <= i) (fun _ => False) 0 T (scan_step h m 0)
                (0, u32 (-1)) ltac:(lia) (conj (Z.le_refl 0) (Z.le_refl 0))) as H.
  destruct (for_exit _ _ _ _) as [st|s]; [by exists st|]. destruct H. intros j [r st] Hj Hr.
  unfold scan_step. destruct (_ =? PAGE_TYPE_FREE); [|lia]. rewrite u32_id by lia.
  destruct (r + 1 =? 0) eqn:E; lia.
Qed.

(** The table after pages [s .. s+n-1] were given [type] and, one by one, the
    counts [f]. *)
Definition marked (s n type : Z) (f : Z -> Z) (m m' : mem) : Prop :=
  (forall j, typ m' j = if decide (s <= j < s + n) then type else typ m j) /\
  (forall j, cnt m' j = if decide (s <= j < s + n) then f j else cnt m j) /\
  agree (fun b => ~ meta_byte b) m m'.

Lemma marked_0 s type f m : marked s 0 type f m m.
Proof.
  split_and!; [..|done]; intros j; by rewrite decide_False by lia.
Qed.

Lemma marked_snoc s k type f m m' :
  0 <= s -> 0 <= k -> s + k < T -> 0 <= type < 256 -> 0 <= f (s + k) < 2 ^ 16 ->
  marked s k type f m m' -> marked s (k + 1) type f m (set_page h m' (s + k) type (f (s + k))).
Proof.
  intros Hs Hk HT Ht Hf (H1 & H2 & H3). split_and!.
  - intros j. rewrite type_set_page, H1 by done. repeat case_decide; (lia || done).
  - intros j. rewrite count_set_page, H2 by done. repeat case_decide; try lia; try done. by subst j.
  - etrans; [exact H3|]. apply set_page_agree. lia.
Qed.

Lemma alloc_pages_ok m n type :
  0 < n < 2 ^ 16 -> 0 <= type < 256 -> 0 <= T < 2 ^ 32 ->
  0 <= heap_start_addr h -> heap_start_addr h + 4096 * T < 2 ^ 64 ->
  let '(r, m') := alloc_pages_backend h m n type in
  (r = 0 /\ m' = m /\ forall s, ~ free_run m s n) \/
  exists s, r = heap_start_addr h + 4096 * s /\ first_run m n s /\
    marked s n type (fun j => if j =? s then n else 0) m m'.
Proof.
  intros Hn Ht HT H0 Hlim. unfold alloc_pages_backend.
  pose proof (scan_ok m n ltac:(lia) HT) as Hscan.
  destruct (for_exit _ _ _ _) as [st|s]; [by left|right]. exists s.
  destruct Hscan as [(F1 & F2 & F3) Hfst].
  split; [unfold page_idx_to_virt, PAGE_SIZE; rewrite u64_id; lia|]. split; [by split|].
  apply (for_ind (fun k m' => marked s k type (fun j => if j =? s then n else 0) m m'));
    [lia|apply marked_0|].
  intros k m' Hk Hm. rewrite (u16_id n) by lia.
  pose proof (marked_snoc s k type (fun j => if j =? s then n else 0) m m') as Hsn.
  cbv beta in Hsn. replace (s + k =? s) with (k =? 0) in Hsn by (destruct (k =? 0) eqn:E; lia).
  apply Hsn; try lia; [|done]. destruct (k =? 0); lia.
Qed.

(** A request too large for the table fails, and so does one for no page:
    that is where a size that wraps around ends up. *)
Lemma alloc_pages_none m n type :
  n = 0 \/ T < n -> 0 <= T < 2 ^ 32 -> alloc_pages_backend h m n type = (0, m).
Proof.
  intros Hn HT. unfold alloc_pages_backend. destruct Hn as [->|Hn].
  - by destruct (scan_zero m HT) as [st ->].
  - pose proof (scan_ok m n ltac:(lia) HT) as Hscan.
    destruct (for_exit _ _ _ _) as [st|s]; [done|]. destruct Hscan as [(F1 & F2 & _) _]. lia.
Qed.

Lemma page_idx ptr i :
  heap_end_addr h = heap_start_addr h + 4096 * T -> T < 2 ^ 32 ->
  0 <= i < T -> heap_start_addr h + 4096 * i <= ptr < heap_start_addr h + 4096 * (i + 1) ->
  virt_to_page_idx h ptr = i.
Proof.
  intros He HT Hi Hp. unfold virt_to_page_idx, PAGE_SIZE. rewrite He.
  change (2 ^ 32) with 4294967296 in *.
  destruct (_ || _) eqn:E; [lia|].
  assert ((ptr - heap_start_addr h) / 4096 = i) as -> by zdiv. apply u32_id. lia.
Qed.

Lemma free_pages_ok m ptr i :
  heap_end_addr h = heap_start_addr h + 4096 * T -> T < 2 ^ 32 ->
  0 <= i < T -> heap_start_addr h + 4096 * i <= ptr < heap_start_addr h + 4096 * (i + 1) ->
  i + cnt m i <= T ->
  marked i (cnt m i) PAGE_TYPE_FREE (fun _ => 0) m (free_pages_backend h m ptr).
Proof.
  intros He HT Hi Hp Hc. unfold free_pages_backend. rewrite (page_idx ptr i) by done.
  change (2 ^ 32) with 4294967296 in *. pose proof (count_range m i).
  destruct (T <=? i) eqn:E; [lia|]. destruct (cnt m i =? 0) eqn:Ec.
  { apply Z.eqb_eq in Ec. rewrite Ec. apply marked_0. }
  apply (for_ind (fun k m' => marked i k PAGE_TYPE_FREE (fun _ => 0) m m'));
    [lia|apply marked_0|].
  intros k m' Hk Hm. rewrite u32_id by lia. destruct (i + k <? T) eqn:E2; [|lia].
  apply (marked_snoc i k PAGE_TYPE_FREE (fun _ => 0)); (lia || done).
Qed.

(** ** The invariant of the table

    A free page has count 0; the head of a run carries its length, and the
    pages after the head are not free and have count 0; a page that is not
    free lies in the run of some head. *)
Definition pages_ok (m : mem) : Prop :=
  forall i, 0 <= i < T ->
    (typ m i = PAGE_TYPE_FREE \/ typ m i = PAGE_TYPE_SLAB \/ typ m i = PAGE_TYPE_LARGE) /\
    (typ m i = PAGE_TYPE_FREE -> cnt m i = 0) /\ (typ m i = PAGE_TYPE_SLAB -> cnt m i = 1) /\
    i + cnt m i <= T /\
    (forall j, i < j < i + cnt m i -> typ m j <> PAGE_TYPE_FREE /\ cnt m j = 0) /\
    (typ m i <> PAGE_TYPE_FREE -> exists k, 0 <= k <= i /\ i < k + cnt m k).

(** It is a property of the entries only. *)
Lemma pages_ok_same m m' :
  (forall i, 0 <= i < T -> typ m' i = typ m i /\ cnt m' i = cnt m i) -> pages_ok m -> pages_ok m'.
Proof.
  intros H Hp i Hi. destruct (H i Hi) as [-> ->]. destruct (Hp i Hi) as (P1 & P2 & P3 & P4 & P5 & P6).
  split_and!; [done..| |].
  - intros j Hj. destruct (H j ltac:(lia)) as [-> ->]. by apply P5.
  - intros Hnf. destruct (P6 Hnf) as (k & Hk & Hik). exists k. destruct (H k ltac:(lia)) as [_ ->]. done.
Qed.

(** Two runs do not overlap. *)
Lemma runs_disjoint m i j :
  pages_ok m -> 0 <= i < T -> 0 <= j < T -> 0 < cnt m i -> 0 < cnt m j -> i <> j ->
  i + cnt m i <= j \/ j + cnt m j <= i.
Proof.
  intros Hp Hi Hj Hci Hcj Hne. destruct (Hp i Hi) as (_ & _ & _ & _ & Hti & _).
  destruct (Hp j Hj) as (_ & _ & _ & _ & Htj & _).
  destruct (decide (i < j)).
  - destruct (decide (j < i + cnt m i)); [|lia]. destruct (Hti j); lia.
  - destruct (decide (i < j + cnt m j)); [|lia]. destruct (Htj i); lia.
Qed.

Lemma pages_ok_alloc m m' s n type :
  pages_ok m -> 0 < n -> free_run m s n -> type = PAGE_TYPE_LARGE \/ type = PAGE_TYPE_SLAB /\ n = 1 ->
  marked s n type (fun j => if j =? s then n else 0) m m' -> pages_ok m'.
Proof.
  intros Hp Hn (F1 & F2 & F3) Ht (M1 & M2 & _) i Hi. rewrite M1, M2.
  destruct (Hp i Hi) as (P1 & P2 & P3 & P4 & P5 & P6). unfold PAGE_TYPE_FREE, PAGE_TYPE_LARGE, PAGE_TYPE_SLAB in *.
  case_decide as D.
  - split; [lia|]. split; [lia|]. split; [destruct (i =? s) eqn:E; lia|].
    split; [destruct (i =? s) eqn:E; lia|]. split.
    + intros j Hj. rewrite M1, M2.
      destruct (i =? s) eqn:E; [|lia]. rewrite !decide_True by lia. destruct (j =? s) eqn:E2; lia.
    + intros _. exists s. rewrite M2, decide_True, Z.eqb_refl by lia. lia.
  - split_and!; [done..| |].
    + intros j Hj. destruct (P5 j Hj) as [Q1 Q2]. rewrite M1, M2.
      case_decide as D2; [|done]. specialize (F3 j D2). lia.
    + intros Hnf. destruct (P6 Hnf) as (k & Hk & Hik). exists k. rewrite M2, decide_False; [done|].
      intros D2. destruct (Hp k ltac:(lia)) as (_ & P2' & _). specialize (P2' (F3 k D2)). lia.
Qed.

Lemma pages_ok_free m m' i :
  pages_ok m -> 0 <= i < T ->
  marked i (cnt m i) PAGE_TYPE_FREE (fun _ => 0) m m' -> pages_ok m'.
Proof.
  intros Hp Hi (M1 & M2 & _) k Hk. rewrite M1, M2.
  destruct (Hp k Hk) as (P1 & P2 & P3 & P4 & P5 & P6). unfold PAGE_TYPE_FREE, PAGE_TYPE_LARGE, PAGE_TYPE_SLAB in *.
  pose proof (count_range m k). case_decide as D.
  - split_and!; [by left|done|lia|lia|lia|done].
  - split_and!; [done..| |].
    + intros j Hj. destruct (P5 j Hj) as [Q1 Q2]. rewrite M1, M2.
      case_decide as D2; [|done].
      assert (0 < cnt m i) by lia. assert (k <> i) by lia.
      destruct (runs_disjoint m i k Hp Hi Hk) as [?|?]; lia.
    + intros Hnf. destruct (P6 Hnf) as (q & Hq & Hkq). exists q. rewrite M2, decide_False; [done|].
      intros D2. destruct (decide (q = i)) as [->|Hne]; [lia|].
      destruct (Hp i Hi) as (_ & _ & _ & _ & Hin & _). destruct (Hin q); lia.
Qed.
End Pages.
End HeapPages.
