(* ===== verification/HeapLists.v ===== *)
(** * The slab lists of the heap

    Each cache keeps its slabs in two doubly linked lists, partial and full,
    whose heads are fields of the cache and whose links are fields of the slab
    headers. This file shows that [remove] and [push_front] act on those lists
    as on Rocq lists, and which bytes they write. *)

From stdpp Require Import functions.
From S2P Require Import Prelude Memory CString Dll Heap.

Module HeapLists.
Import Heap.

Definition page_addr (p : Z) : Prop := p mod 4096 = 0 /\ 0 < p < 2 ^ 63.

#[export] Instance slab_links : Links mem page_addr.
Proof.
  refine {| nx := slab_next; pv := slab_prev; set_nx := set_next; set_pv := set_prev |};
    unfold page_addr, slab_next, slab_prev, set_next, set_prev.
  - intros m a v b Ha Hb Hv. case_decide as D; [subst; by rewrite loadn_storen_eq|].
    apply loadn_storen_ne. zdiv.
  - intros m a v b Ha Hb Hv. case_decide as D; [subst; by rewrite loadn_storen_eq|].
    apply loadn_storen_ne. zdiv.
  - intros m a v b Ha Hb. apply loadn_storen_ne. zdiv.
  - intros m a v b Ha Hb. apply loadn_storen_ne. zdiv.
  - intros a Ha. lia.
Defined.

Section Lists.
Context (caches : Z).

(** A list is named by its cache and [full]. *)
Definition head_addr (q : Z * bool) : Z := caches + 32 * q.1 + (if q.2 then 8 else 0).
Definition is_list (q : Z * bool) : Prop := 0 <= q.1 < 8.

(** Where the nodes are: pages outside the array of caches. *)
Definition away (p : Z) : Prop := page_addr p /\ (caches + 256 <= p \/ p + 4096 <= caches).

(** The bytes of heads and links. *)
Definition link_byte (N : Z -> Prop) (b : Z) : Prop :=
  (exists q, is_list q /\ head_addr q <= b < head_addr q + 8) \/ (exists p, N p /\ p <= b < p + 16).

Record lists_ok (N : Z -> Prop) (m : mem) (Q : Z * bool -> list Z) : Prop := {
  lo_head : forall q, is_list q -> load64 m (head_addr q) = first 0 (Q q);
  lo_seg : forall q, is_list q -> seg m 0 (Q q) 0;
  lo_nodup : forall q, is_list q -> NoDup (Q q);
  lo_node : forall q p, is_list q -> p ∈ Q q -> N p;
  lo_disj : forall q q' p, is_list q -> is_list q' -> p ∈ Q q -> p ∈ Q q' -> q = q';
}.

Lemma head_inj q q' : is_list q -> is_list q' -> q <> q' ->
  head_addr q + 8 <= head_addr q' \/ head_addr q' + 8 <= head_addr q.
Proof.
  destruct q as [c b], q' as [c' b']. unfold is_list, head_addr. simpl. intros H H' Hne.
  destruct (decide (c = c')) as [->|]; [destruct b, b'; (lia || by destruct Hne)|].
  destruct b, b'; lia.
Qed.

Lemma head_away q p : is_list q -> away p -> head_addr q + 8 <= p \/ p + 4096 <= head_addr q.
Proof.
  destruct q as [c b]. unfold is_list, away, page_addr, head_addr. simpl. intros H H'.
  destruct b; lia.
Qed.

(** Lists do not see writes elsewhere. *)
Lemma lists_agree N m m' Q :
  lists_ok N m Q -> agree (link_byte N) m m' -> lists_ok N m' Q.
Proof.
  intros [H1 H2 H3 H4 H5] Hag. split; [..|done|done|done].
  - intros q Hq. rewrite <- H1 by done. eapply agree_loadn; [done|]. intros b Hb. left. exists q. split; [done|lia].
  - intros q Hq. eapply seg_ext; [|by apply H2]. intros p Hp. pose proof (H4 q p Hq Hp).
    split; (eapply agree_loadn; [done|]); intros b Hb; right; exists p; (split; [done|lia]).
Qed.

Lemma lists_mono (N N' : Z -> Prop) m Q : lists_ok N m Q -> (forall p, N p -> N' p) -> lists_ok N' m Q.
Proof. intros [H1 H2 H3 H4 H5] HN. split; eauto. Qed.

Section Node.
Context (N : Z -> Prop) (HN : forall p, N p -> away p).

(** Writing the head cell of [q]: the links are untouched. *)
Lemma store_head_links m q v p : is_list q -> away p ->
  slab_next (store64 m (head_addr q) v) p = slab_next m p /\
  slab_prev (store64 m (head_addr q) v) p = slab_prev m p.
Proof.
  intros Hq Hp. pose proof (head_away q p Hq Hp). unfold slab_next, slab_prev.
  split; apply loadn_storen_ne; lia.
Qed.

Lemma link_head_byte m q v : is_list q ->
  agree (fun b => ~ link_byte N b) m (store64 m (head_addr q) v).
Proof.
  intros Hq. eapply agree_weaken; [apply agree_storen|]. intros b Hb. unfold outside.
  destruct (decide (head_addr q <= b < head_addr q + 8)); [|lia].
  exfalso. apply Hb. left. by exists q.
Qed.

Lemma link_next_byte m p v : N p -> agree (fun b => ~ link_byte N b) m (set_next m p v).
Proof.
  intros Hp. eapply agree_weaken; [apply agree_storen|]. intros b Hb. unfold outside.
  destruct (decide (p <= b < p + 16)); [|lia]. exfalso. apply Hb. right. by exists p.
Qed.

Lemma link_prev_byte m p v : N p -> agree (fun b => ~ link_byte N b) m (set_prev m p v).
Proof.
  intros Hp. eapply agree_weaken; [apply agree_storen|]. intros b Hb. unfold outside.
  destruct (decide (p <= b < p + 16)); [|lia]. exfalso. apply Hb. right. by exists p.
Qed.

(** Writes to links leave the head cells. *)
Lemma head_set_links m p v q : is_list q -> away p ->
  load64 (set_next m p v) (head_addr q) = load64 m (head_addr q) /\
  load64 (set_prev m p v) (head_addr q) = load64 m (head_addr q).
Proof.
  intros Hq Hp. pose proof (head_away q p Hq Hp). unfold set_next, set_prev.
  split; apply loadn_storen_ne; lia.
Qed.

(** A list operation on [q]: it re-links the nodes [ns] and sets the head. *)
Lemma lists_update m m' Q q l :
  lists_ok N m Q -> is_list q -> NoDup l -> (forall p, p ∈ l -> N p) ->
  load64 m' (head_addr q) = first 0 l -> seg m' 0 l 0 ->
  (forall q', is_list q' -> q' <> q -> load64 m' (head_addr q') = load64 m (head_addr q')) ->
  (forall q' p, is_list q' -> q' <> q -> p ∈ Q q' ->
     slab_next m' p = slab_next m p /\ slab_prev m' p = slab_prev m p) ->
  (forall q' p, is_list q' -> q' <> q -> p ∈ Q q' -> p ∉ l) ->
  lists_ok N m' (<[q := l]> Q).
Proof.
  intros [H1 H2 H3 H4 H5] Hq Hnd HlN Hhd Hseg Hoh Hon Hdis. split.
  - intros q' Hq'. destruct (decide (q' = q)) as [->|Hne].
    + by rewrite fn_lookup_insert.
    + rewrite fn_lookup_insert_ne by done. rewrite Hoh by done. by apply H1.
  - intros q' Hq'. destruct (decide (q' = q)) as [->|Hne].
    + by rewrite fn_lookup_insert.
    + rewrite fn_lookup_insert_ne by done. eapply seg_ext; [|by apply H2].
      intros p Hp. by apply (Hon q').
  - intros q' Hq'. destruct (decide (q' = q)) as [->|Hne].
    + by rewrite fn_lookup_insert.
    + rewrite fn_lookup_insert_ne by done. by apply H3.
  - intros q' p Hq'. destruct (decide (q' = q)) as [->|Hne].
    + rewrite fn_lookup_insert. by apply HlN.
    + rewrite fn_lookup_insert_ne by done. by apply H4.
  - intros q1 q2 p Hq1 Hq2.
    destruct (decide (q1 = q)) as [->|Hne1], (decide (q2 = q)) as [->|Hne2];
      rewrite ?fn_lookup_insert, ?fn_lookup_insert_ne by done; [done|..].
    + intros Hp1 Hp2. by apply Hdis in Hp2.
    + intros Hp1 Hp2. by apply Hdis in Hp1.
    + by apply H5.
Qed.

Lemma push_front_ok m Q q p :
  lists_ok N m Q -> is_list q -> N p -> (forall q', is_list q' -> p ∉ Q q') ->
  lists_ok N (push_front m (head_addr q) p) (<[q := p :: Q q]> Q) /\
  agree (fun b => ~ link_byte N b) m (push_front m (head_addr q) p).
Proof.
  intros HL Hq Hp Hnew. pose proof HL as [H1 H2 H3 H4 H5].
  assert (HvQ : forall q' b, is_list q' -> b ∈ Q q' -> page_addr b)
    by (intros q' b Hq' Hb; by apply HN, (H4 q')).
  pose proof (HN p Hp) as Hpa. destruct (link_front_ok m p (Q q)) as [Hseg Hfr];
    [by apply H2|by apply H3|by intros b; apply HvQ|by apply Hpa|by apply Hnew|].
  set (m2 := link_front m (first 0 (Q q)) p) in *.
  assert (Hcode : push_front m (head_addr q) p = store64 m2 (head_addr q) p).
  { unfold push_front, nonzero. rewrite H1 by done.
    assert (Hh : load64 (set_prev (set_next m p (first 0 (Q q))) p 0) (head_addr q) = first 0 (Q q)).
    { destruct (head_set_links (set_next m p (first 0 (Q q))) p 0 q Hq Hpa) as [_ ->].
      destruct (head_set_links m p (first 0 (Q q)) q Hq Hpa) as [-> _]. by apply H1. }
    rewrite Hh. reflexivity. }
  rewrite Hcode.
  assert (Hf : first 0 (Q q) <> 0 -> N (first 0 (Q q))).
  { intros Hne. apply (H4 q); [done|]. destruct (Q q); [done|by left]. }
  assert (Hag : agree (fun b => ~ link_byte N b) m m2).
  { unfold m2, link_front. etrans; [exact (link_next_byte m p (first 0 (Q q)) Hp)|].
    etrans; [exact (link_prev_byte _ p 0 Hp)|].
    destruct (first 0 (Q q) =? 0) eqn:E; [done|]. apply link_prev_byte, Hf. lia. }
  assert (Hheads : forall q', is_list q' -> load64 m2 (head_addr q') = load64 m (head_addr q')).
  { intros q' Hq'. unfold m2, link_front. cbn [set_pv set_nx slab_links].
    destruct (first 0 (Q q) =? 0) eqn:E; cbn [negb];
      [|rewrite (proj2 (head_set_links _ (first 0 (Q q)) p q' Hq' (HN _ (Hf ltac:(lia)))))];
      rewrite (proj2 (head_set_links _ p 0 q' Hq' Hpa));
      by rewrite (proj1 (head_set_links m p (first 0 (Q q)) q' Hq' Hpa)). }
  split; [|etrans; [exact Hag|by apply link_head_byte]].
  assert (Hp64 : 0 <= p < 2 ^ 64) by (destruct Hpa as [[_ ?] _]; lia).
  eapply lists_update; [exact HL|done|..].
  - apply NoDup_cons_2; [by apply Hnew|by apply H3].
  - intros b [->|Hb]%elem_of_cons; [done|by apply (H4 q)].
  - by rewrite loadn_storen_eq.
  - eapply seg_ext; [|exact Hseg]. intros b Hb. apply store_head_links; [done|].
    apply HN. apply elem_of_cons in Hb as [->|Hb]; [done|by apply (H4 q)].
  - intros q' Hq' Hne. rewrite <- Hheads by done. apply loadn_storen_ne.
    pose proof (head_inj q q' Hq Hq' ltac:(done)). lia.
  - intros q' b Hq' Hne Hb. destruct (store_head_links m2 q p b Hq) as [-> ->];
      [by apply HN, (H4 q')|]. apply Hfr; [by apply (HvQ q')|].
    intros [->|Hb']%elem_of_cons; [by apply (Hnew q')|]. by apply Hne, (H5 q' q b).
  - intros q' b Hq' Hne Hb [->|Hb']%elem_of_cons; [by apply (Hnew q')|]. by apply Hne, (H5 q' q b).
Qed.

(** What [unlink] writes. *)
Lemma bridge_foot m l1 l2 :
  (final 0 l1 <> 0 -> N (final 0 l1)) -> (first 0 l2 <> 0 -> N (first 0 l2)) ->
  agree (fun b => ~ link_byte N b) m (bridge m l1 l2) /\
  forall q, is_list q -> load64 (bridge m l1 l2) (head_addr q) = load64 m (head_addr q).
Proof.
  intros Hf1 Hf2. unfold bridge, bridge_next. cbn [set_nx set_pv slab_links].
  destruct (final 0 l1 =? 0) eqn:E1, (first 0 l2 =? 0) eqn:E2; cbn [negb].
  - done.
  - assert (H2 : N (first 0 l2)) by (apply Hf2; lia). split; [by apply link_prev_byte|].
    intros q Hq. by apply head_set_links, HN.
  - assert (H1 : N (final 0 l1)) by (apply Hf1; lia). split; [by apply link_next_byte|].
    intros q Hq. by apply head_set_links, HN.
  - assert (H1 : N (final 0 l1)) by (apply Hf1; lia). assert (H2 : N (first 0 l2)) by (apply Hf2; lia).
    split; [etrans; [exact (link_next_byte m _ (first 0 l2) H1)|by apply link_prev_byte]|].
    intros q Hq. rewrite (proj2 (head_set_links _ (first 0 l2) _ q Hq (HN _ H2))).
    by apply head_set_links, HN.
Qed.

Lemma remove_ok m Q q p l1 l2 :
  lists_ok N m Q -> is_list q -> Q q = l1 ++ p :: l2 ->
  lists_ok N (remove m (head_addr q) p) (<[q := l1 ++ l2]> Q) /\
  agree (fun b => ~ link_byte N b) m (remove m (head_addr q) p).
Proof.
  intros HL Hq HQ. pose proof HL as [H1 H2 H3 H4 H5].
  assert (HvQ : forall q' b, is_list q' -> b ∈ Q q' -> page_addr b)
    by (intros q' b Hq' Hb; by apply HN, (H4 q')).
  assert (HpQ : p ∈ Q q) by (rewrite HQ; apply elem_of_app; right; by left).
  pose proof (HN p (H4 q p Hq HpQ)) as Hpa.
  pose proof (H2 q Hq) as Hsegq. rewrite HQ in Hsegq.
  pose proof (seg_nx _ _ _ _ _ _ Hsegq) as Hnx. pose proof (seg_pv _ _ _ _ _ _ Hsegq) as Hpv.
  cbn [nx pv slab_links] in Hnx, Hpv.
  assert (Hin : forall b, b ∈ l1 ++ l2 -> b ∈ Q q).
  { intros b Hb. rewrite HQ. rewrite elem_of_app in *. destruct Hb; [by left|right; by right]. }
  (** the store to the head happens first, and only when [p] is the first *)
  set (m0 := if slab_prev m p =? 0 then store64 m (head_addr q) (slab_next m p) else m).
  assert (Hm0 : forall b, away b -> slab_next m0 b = slab_next m b /\ slab_prev m0 b = slab_prev m b).
  { intros b Hb. unfold m0. destruct (_ =? 0); [by apply store_head_links|done]. }
  assert (Hcode : remove m (head_addr q) p = unlink m0 p).
  { unfold remove, unlink, nonzero. cbn [nx pv set_nx set_pv slab_links].
    destruct (Hm0 p Hpa) as [Hn0 Hp0]. rewrite Hn0, Hp0. unfold m0.
    destruct (slab_prev m p =? 0); reflexivity. }
  assert (Hnd : NoDup (l1 ++ p :: l2)) by (rewrite <- HQ; by apply H3).
  assert (Hseg0 : seg m0 0 (l1 ++ p :: l2) 0).
  { eapply seg_ext; [|exact Hsegq]. intros b Hb. apply Hm0, HN, (H4 q); by rewrite ?HQ. }
  assert (HvL : forall b, b ∈ l1 ++ p :: l2 -> page_addr b)
    by (intros b Hb; apply (HvQ q); by rewrite ?HQ).
  destruct (unlink_ok m0 l1 p l2 Hseg0 Hnd HvL) as [Hseg Hfr].
  pose proof (unlink_eq m0 l1 p l2 Hseg0 Hnd HvL) as Hbr.
  rewrite Hcode. rewrite Hbr in Hseg, Hfr |- *.
  assert (Hf1 : final 0 l1 <> 0 -> N (final 0 l1)).
  { intros Hne. apply (H4 q); [done|]. apply Hin, elem_of_app. left. apply final_in. by intros ->. }
  assert (Hf2 : first 0 l2 <> 0 -> N (first 0 l2)).
  { intros Hne. apply (H4 q); [done|]. apply Hin, elem_of_app. right. destruct l2; [done|by left]. }
  destruct (bridge_foot m0 l1 l2 Hf1 Hf2) as [Hag Hheads].
  split; [|etrans; [|exact Hag]; unfold m0; destruct (_ =? 0); [by apply link_head_byte|done]].
  eapply lists_update; [exact HL|done|..].
  - rewrite HQ in *. apply list.NoDup_app in Hnd as (N1 & N2 & N3). apply list.NoDup_cons in N3 as [_ N3].
    apply list.NoDup_app. split_and!; [done| |done]. intros b Hb Hb2. apply (N2 b Hb). by right.
  - intros b Hb. apply (H4 q); [done|by apply Hin].
  - rewrite Hheads by done. unfold m0. rewrite Hpv. destruct l1 as [|x l1].
    + cbn [final Z.eqb app]. rewrite Hnx, loadn_storen_eq; [done|].
      destruct (decide (first 0 l2 = 0)) as [->|Hne]; [lia|].
      destruct (HN _ (Hf2 Hne)) as [[_ ?] _]. lia.
    + destruct (final 0 (x :: l1) =? 0) eqn:E; [|rewrite H1, HQ by done; done].
      exfalso. assert (Hx : final 0 (x :: l1) ∈ Q q)
        by (apply Hin, elem_of_app; left; by apply final_in).
      destruct (HN _ (H4 q _ Hq Hx)) as [[_ ?] _]. lia.
  - exact Hseg.
  - intros q' Hq' Hne. rewrite Hheads by done. unfold m0. destruct (_ =? 0); [|done].
    apply loadn_storen_ne. pose proof (head_inj q q' Hq Hq' ltac:(done)). lia.
  - intros q' b Hq' Hne Hb. pose proof (HN b (H4 q' b Hq' Hb)) as Hba.
    destruct (Hm0 b Hba) as [<- <-]. apply Hfr; [apply Hba|].
    intros Hb'%Hin. by apply Hne, (H5 q' q b).
  - intros q' b Hq' Hne Hb Hb'%Hin. by apply Hne, (H5 q' q b).
Qed.
End Node.
End Lists.
End HeapLists.
