(* ===== verification/HeapInv.v ===== *)
(** * The heap invariant

    What the bytes of the heap represent between two calls: a set of slabs with
    their free lists, the slab lists of the caches and the page table; and what
    a block handed out is. *)

From stdpp Require Import functions.
From S2P Require Import Prelude Memory CString Dll Heap HeapPages HeapLists.

Module HeapInv.
Import Heap HeapPages HeapLists.

(** ** Size classes *)

Definition cls (c : Z) : Prop := 0 <= c < 8.
Definition size_of (c : Z) : Z := 2 ^ (4 + c).
Definition max_objs (c : Z) : Z := 4056 / size_of c.

Lemma cls_cases c : cls c ->
  c = 0 \/ c = 1 \/ c = 2 \/ c = 3 \/ c = 4 \/ c = 5 \/ c = 6 \/ c = 7.
Proof. unfold cls. lia. Qed.

(** Case analysis on the size class, with the numbers computed. *)
Ltac classes Hc :=
  destruct (cls_cases _ Hc) as [->|[->|[->|[->|[->|[->|[->| ->]]]]]]];
  unfold max_objs, size_of in *; simpl in *.

Lemma size_facts c : cls c ->
  16 <= size_of c <= 2048 /\ size_of c mod 8 = 0 /\ 1 <= max_objs c <= 253 /\
  size_of c * max_objs c <= 4056 /\ default 0 (slab_sizes !! Z.to_nat c) = size_of c.
Proof.
  intros Hc. unfold cls in Hc.
  assert (H : forall P : Z -> Prop, P 0 -> P 1 -> P 2 -> P 3 -> P 4 -> P 5 -> P 6 -> P 7 -> P c).
  { intros P. destruct (cls_cases c Hc) as [->|[->|[->|[->|[->|[->|[->| ->]]]]]]]; auto. }
  apply H; vm_compute; repeat split; discriminate || reflexivity.
Qed.

Definition obj (p c k : Z) : Z := p + sizeof_slab + size_of c * k.

Lemma obj_bounds p c k : cls c -> 0 <= k < max_objs c ->
  p + 40 <= obj p c k /\ obj p c k + size_of c <= p + 4096.
Proof.
  intros Hc Hk. destruct (size_facts c Hc) as (H1 & _ & H2 & H3 & _). unfold obj, sizeof_slab. nia.
Qed.

Lemma obj_disjoint p c k k' : cls c -> k <> k' ->
  obj p c k + size_of c <= obj p c k' \/ obj p c k' + size_of c <= obj p c k.
Proof.
  intros Hc Hne. destruct (size_facts c Hc) as (H1 & _). unfold obj. nia.
Qed.

Lemma obj_inj p c k k' : cls c -> obj p c k = obj p c k' -> k = k'.
Proof.
  intros Hc He. destruct (decide (k = k')) as [|Hne]; [done|].
  destruct (size_facts c Hc) as (H1 & _). pose proof (obj_disjoint p c k k' Hc Hne). lia.
Qed.

(** ** Free lists *)

Fixpoint flist (m : mem) (o : Z) (fl : list Z) : Prop :=
  match fl with
  | [] => o = 0
  | a :: fl => o = a /\ flist m (load64 m a) fl
  end.

Lemma flist_agree (P : Z -> Prop) m m' o fl :
  agree P m m' -> (forall a b, a ∈ fl -> a <= b < a + 8 -> P b) -> flist m o fl -> flist m' o fl.
Proof.
  intros Hag. revert o. induction fl as [|a fl IH]; intros o HP; simpl; [done|].
  intros [-> H]. split; [done|]. rewrite (agree_loadn P 8 m m') by (done || (intros b Hb; apply (HP a); [by left|lia])).
  apply IH; [|done]. intros x b Hx. apply HP. by right.
Qed.

Lemma flist_head m o fl : flist m o fl -> o = first 0 fl.
Proof. destruct fl; simpl; [done|by intros [-> _]]. Qed.

(** A chain through consecutive objects. *)
Lemma flist_seq m f n i :
  0 <= i <= n -> (forall j, i <= j < n -> load64 m (f j) = if j + 1 =? n then 0 else f (j + 1)) ->
  flist m (if i =? n then 0 else f i) (f <$> seqZ i (n - i)).
Proof.
  intros Hi. remember (Z.to_nat (n - i)) as k eqn:Hk. revert i Hi Hk.
  induction k as [|k IH]; intros i Hi Hk Hl.
  - assert (i = n) as -> by lia. by rewrite Z.eqb_refl, Z.sub_diag.
  - destruct (i =? n) eqn:E; [lia|]. rewrite seqZ_cons by lia. cbn [fmap list_fmap flist].
    split; [done|]. rewrite Hl by lia. replace (Z.pred (n - i)) with (n - (i + 1)) by lia.
    replace (Z.succ i) with (i + 1) by lia. apply IH; [lia|lia|]. intros j Hj. apply Hl. lia.
Qed.

(** ** One slab *)

Section Slabs.
Context (caches : Z).

Definition cache_addr (c : Z) : Z := caches + sizeof_cache * c.

Record slab_ok (m : mem) (p c : Z) (fl : list Z) : Prop := {
  so_magic : magic m p = SLAB_MAGIC;
  so_cache : slab_cache m p = cache_addr c;
  so_use : in_use m p = max_objs c - Z.of_nat (length fl);
  so_list : flist m (free_list m p) fl;
  so_nodup : NoDup fl;
  so_objs : forall o, o ∈ fl -> exists k, 0 <= k < max_objs c /\ o = obj p c k;
}.

(** The bytes a slab's state lives in, its links apart. *)
Definition slab_byte (p : Z) (fl : list Z) (b : Z) : Prop :=
  p + 16 <= b < p + 40 \/ exists o, o ∈ fl /\ o <= b < o + 8.

Lemma slab_agree m m' p c fl :
  agree (slab_byte p fl) m m' -> slab_ok m p c fl -> slab_ok m' p c fl.
Proof.
  intros Hag [H1 H2 H3 H4 H5 H6].
  assert (Hw : forall n off, 16 <= off -> off + Z.of_nat n <= 40 ->
            loadn n m' (p + off) = loadn n m (p + off)).
  { intros n off Hlo Hhi. eapply agree_loadn; [exact Hag|]. intros b Hb. left. lia. }
  unfold magic, slab_cache, in_use, free_list in *.
  split; unfold magic, slab_cache, in_use, free_list; rewrite ?Hw by lia; try done.
  eapply flist_agree; [exact Hag| |done]. intros a b Ha Hb. right. by exists a.
Qed.

(** Free objects are no more than the slab has. *)
Lemma fl_length m p c fl : cls c -> slab_ok m p c fl -> Z.of_nat (length fl) <= max_objs c.
Proof.
  intros Hc Hs. pose proof (so_use _ _ _ _ Hs) as Hu.
  pose proof (load32_range m (p + 32)) as Hr. unfold in_use in Hu. lia.
Qed.

Lemma align_start p : p mod 4096 = 0 -> 0 <= p < 2 ^ 63 -> align_up (p + sizeof_slab) HEAP_ALIGN = p + 40.
Proof.
  intros Hp Hr. unfold align_up, sizeof_slab, HEAP_ALIGN. rewrite u64_id by lia.
  change (8 - 1) with (2 ^ 3 - 1). rewrite land_lnot_ones by lia. zdiv.
Qed.

Definition all_objs (p c : Z) : list Z := obj p c <$> seqZ 0 (max_objs c).

Lemma elem_all_objs p c o : o ∈ all_objs p c <-> exists k, 0 <= k < max_objs c /\ o = obj p c k.
Proof.
  unfold all_objs. rewrite list_elem_of_fmap. setoid_rewrite elem_of_seqZ.
  split; intros (k & H1 & H2); exists k; split; (done || lia).
Qed.

(** The loop of [slab_init_page] threads the free list. *)
Lemma thread_ok m p c :
  cls c -> page_addr p -> obj_size m (cache_addr c) = size_of c ->
  cache_addr c + 32 <= p \/ p + 4096 <= cache_addr c ->
  let '(m', curr) := for_ 0 (max_objs c - 1) (fun _ '(m, curr) =>
      (store64 m curr (curr + obj_size m (cache_addr c)), curr + obj_size m (cache_addr c)))
      (m, p + 40) in
  curr = obj p c (max_objs c - 1) /\ agree (outside (p + 40) (p + 4096)) m m' /\
  forall j, 0 <= j < max_objs c - 1 -> load64 m' (obj p c j) = obj p c (j + 1).
Proof.
  intros Hc [Hal Hpr] Hsz Haw. destruct (size_facts c Hc) as (Z1 & _ & Z2 & Z3 & _).
  pose proof (for_ind (fun i '(m', curr) => curr = obj p c i /\
      agree (outside (p + 40) (p + 4096)) m m' /\
      forall j, 0 <= j < i -> load64 m' (obj p c j) = obj p c (j + 1))
    0 (max_objs c - 1) (fun _ '(m, curr) =>
      (store64 m curr (curr + obj_size m (cache_addr c)), curr + obj_size m (cache_addr c)))
    (m, p + 40) ltac:(lia)) as H.
  assert (H0 : p + 40 = obj p c 0 /\ agree (outside (p + 40) (p + 4096)) m m /\
    forall j, 0 <= j < 0 -> load64 m (obj p c j) = obj p c (j + 1)).
  { split_and!; [unfold obj, sizeof_slab; lia|done|lia]. }
  specialize (H H0). destruct (for_ _ _ _ _) as [m' curr]. apply H. clear H H0.
  intros i [m1 curr1] Hi (-> & Hag & Hl).
  assert (Hs1 : obj_size m1 (cache_addr c) = size_of c).
  { rewrite <- Hsz. eapply agree_loadn; [exact Hag|]. intros b Hb. unfold outside. lia. }
  rewrite Hs1. assert (Hnext : obj p c i + size_of c = obj p c (i + 1)) by (unfold obj; nia).
  rewrite Hnext. pose proof (obj_bounds p c i Hc ltac:(lia)) as Hb1.
  pose proof (obj_bounds p c (i + 1) Hc ltac:(lia)) as Hb2. split_and!; [done|..].
  - etrans; [exact Hag|]. eapply agree_weaken; [apply agree_storen|]. unfold outside. lia.
  - intros j Hj. destruct (decide (j = i)) as [->|Hne].
    + apply loadn_storen_eq. lia.
    + rewrite loadn_storen_ne; [apply Hl; lia|]. pose proof (obj_disjoint p c i j Hc ltac:(lia)). lia.
Qed.

Lemma slab_init_ok m p c :
  cls c -> page_addr p -> obj_size m (cache_addr c) = size_of c ->
  0 <= cache_addr c < 2 ^ 63 -> cache_addr c + 32 <= p \/ p + 4096 <= cache_addr c ->
  slab_ok (slab_init_page m p (cache_addr c)) p c (all_objs p c) /\
  agree (outside p (p + 4096)) m (slab_init_page m p (cache_addr c)).
Proof.
  intros Hc Hpa Hsz Hcr Haw. pose proof Hpa as [Hal Hpr].
  destruct (size_facts c Hc) as (Z1 & _ & Z2 & Z3 & _).
  unfold slab_init_page. rewrite align_start by (done || lia).
  set (m0 := store64 _ (p + 24) (p + 40)).
  assert (Hag0 : agree (outside p (p + 40)) m m0).
  { unfold m0, set_prev, set_next. intros b Hb. unfold outside in Hb. by msimpl. }
  assert (Hsz' : obj_size (set_prev (set_next (store32 (store64 (store32 m (p + 36) SLAB_MAGIC) (p + 16)
     (cache_addr c)) (p + 32) 0) p 0) p 0) (cache_addr c) = size_of c).
  { rewrite <- Hsz. unfold obj_size, set_prev, set_next. by msimpl. }
  rewrite Hsz'. replace (PAGE_SIZE - (p + 40 - p)) with 4056 by (unfold PAGE_SIZE; lia).
  fold (max_objs c).
  assert (Hsz0 : obj_size m0 (cache_addr c) = size_of c).
  { rewrite <- Hsz. eapply agree_loadn; [exact Hag0|]. intros b Hb. unfold outside. lia. }
  pose proof (thread_ok m0 p c Hc Hpa Hsz0 Haw) as Hth.
  destruct (for_ _ _ _ _) as [m1 curr]. destruct Hth as (-> & Hag1 & Hl).
  pose proof (obj_bounds p c (max_objs c - 1) Hc ltac:(lia)) as Hb.
  assert (Hag2 : agree (outside (p + 40) (p + 4096)) m0 (store64 m1 (obj p c (max_objs c - 1)) 0)).
  { etrans; [exact Hag1|]. eapply agree_weaken; [apply agree_storen|]. unfold outside. lia. }
  assert (Hw : forall n off, 0 <= off -> off + Z.of_nat n <= 40 ->
            loadn n (store64 m1 (obj p c (max_objs c - 1)) 0) (p + off) = loadn n m0 (p + off)).
  { intros n off H1 H2. eapply agree_loadn; [exact Hag2|]. intros b Hb'. unfold outside. lia. }
  split.
  - split; unfold magic, slab_cache, in_use, free_list; rewrite ?Hw by lia.
    + unfold m0, set_prev, set_next. change SLAB_MAGIC with 0x51AB51AB. by msimpl.
    + unfold m0, set_prev, set_next. by msimpl.
    + unfold m0, set_prev, set_next. msimpl. unfold all_objs. rewrite length_fmap, length_seqZ. lia.
    + unfold m0. rewrite loadn_storen_eq by lia.
      pose proof (flist_seq (store64 m1 (obj p c (max_objs c - 1)) 0) (obj p c) (max_objs c) 0) as Hf.
      rewrite Z.sub_0_r in Hf. destruct (0 =? max_objs c) eqn:E; [lia|].
      replace (obj p c 0) with (p + 40) in Hf by (unfold obj, sizeof_slab; lia). apply Hf; [lia|].
      intros j Hj. destruct (j + 1 =? max_objs c) eqn:E2.
      * replace j with (max_objs c - 1) by lia. by rewrite loadn_storen_eq by lia.
      * rewrite loadn_storen_ne; [apply Hl; lia|].
        pose proof (obj_disjoint p c j (max_objs c - 1) Hc ltac:(lia)). lia.
    + unfold all_objs. apply NoDup_fmap_2_strong; [|apply NoDup_seqZ].
      intros x y _ _. by apply obj_inj.
    + intros o. apply elem_all_objs.
  - intros b Hb'. rewrite Hag2, Hag0; [done|..]; unfold outside in *; lia.
Qed.
End Slabs.
(** ** The heap *)

(** Every slab with its class and free list. *)
Abbreviation slabs := (gmap Z (Z * list Z)).

Section Inv.
Context (caches : Z) (h : heap_state).

Abbreviation T := (total_pages h).
Definition pg (i : Z) : Z := heap_start_addr h + 4096 * i.
Definition meta_pages : Z := (4 * T + 4095) / 4096.

Record layout : Prop := {
  ly_start : heap_start_addr h mod 4096 = 0;
  ly_pos : 0 < heap_start_addr h;
  ly_total : 0 < T < 2 ^ 16;
  ly_end : heap_end_addr h = heap_start_addr h + 4096 * T;
  ly_limit : heap_start_addr h + 4096 * T < 2 ^ 48;
  ly_meta : page_metadata h = heap_start_addr h;
  ly_room : meta_pages < T;
  ly_caches8 : caches mod 8 = 0;
  ly_caches : 0 < caches < 2 ^ 48;
  ly_apart : caches + 256 <= heap_start_addr h \/ heap_end_addr h <= caches;
}.

Definition is_nil (fl : list Z) : bool := match fl with [] => true | _ => false end.

(** Everything but the slab lists. *)
Record core (m : mem) (SL : slabs) : Prop := {
  co_pages : pages_ok h m;
  co_meta : forall i, 0 <= i < meta_pages -> page_type h m i = PAGE_TYPE_LARGE /\ page_count h m i = 1;
  co_slab : forall p c fl, SL !! p = Some (c, fl) -> cls c /\ slab_ok caches m p c fl;
  co_page : forall i, 0 <= i < T -> page_type h m i = PAGE_TYPE_SLAB <-> is_Some (SL !! pg i);
  co_dom : forall p, is_Some (SL !! p) -> exists i, meta_pages <= i < T /\ p = pg i;
  co_size : forall c, cls c -> obj_size m (cache_addr caches c) = size_of c /\
              load64 m (cache_addr caches c + 16) = 0;
}.

Definition is_slab (SL : slabs) (p : Z) : Prop := is_Some (SL !! p).

(** A slab is in the list of its class that its free list says. *)
Definition listed (SL : slabs) (Q : Z * bool -> list Z) : Prop :=
  forall q p, is_list q -> (p ∈ Q q) <-> exists fl, SL !! p = Some (q.1, fl) /\ q.2 = is_nil fl.

(** No slab is empty: its page would have been given back. *)
Definition used (SL : slabs) : Prop :=
  forall p c fl, SL !! p = Some (c, fl) -> Z.of_nat (length fl) < max_objs c.

Record heap_inv (m : mem) (SL : slabs) (Q : Z * bool -> list Z) : Prop := {
  hi_layout : layout;
  hi_core : core m SL;
  hi_lists : lists_ok caches (is_slab SL) m Q;
  hi_listed : listed SL Q;
  hi_used : used SL;
}.

(** The blocks handed out: address and usable size. *)
Definition live_obj (SL : slabs) (a z : Z) : Prop :=
  exists p c fl k, SL !! p = Some (c, fl) /\ 0 <= k < max_objs c /\ a = obj p c k /\
    (a ∉ fl) /\ z = size_of c.

Definition live_run (m : mem) (a z : Z) : Prop :=
  exists i, meta_pages <= i < T /\ page_type h m i = PAGE_TYPE_LARGE /\ 0 < page_count h m i /\
    a = pg i /\ z = 4096 * page_count h m i.

Definition live (m : mem) (SL : slabs) (a z : Z) : Prop := live_obj SL a z \/ live_run m a z.

(** The bytes that belong to the allocator. *)
Definition owned (m : mem) (SL : slabs) (b : Z) : Prop :=
  meta_byte h b \/ caches <= b < caches + 256 \/
  (exists p c fl, SL !! p = Some (c, fl) /\
     (p <= b < p + 40 \/ exists o, o ∈ fl /\ o <= b < o + 8)) \/
  (exists i, 0 <= i < T /\ page_type h m i = PAGE_TYPE_FREE /\ pg i <= b < pg i + 4096).

Section Facts.
Context (Hly : layout).

Lemma meta_bounds : 0 < meta_pages /\ page_metadata h + 4 * T <= pg meta_pages.
Proof.
  destruct Hly as [_ _ H _ _ Hm _ _ _ _]. rewrite Hm. unfold pg, meta_pages. zdiv.
Qed.

Lemma pg_page i : 0 <= i < T ->
  page_addr (pg i) /\ pg i + 4096 <= heap_end_addr h /\ heap_start_addr h <= pg i /\
  (caches + 256 <= pg i \/ pg i + 4096 <= caches).
Proof.
  intros Hi. destruct Hly as [H1 H2 H3 H4 H5 _ _ _ H6 H7]. unfold page_addr, pg.
  rewrite H4 in *. split_and!; [|lia..]. zdiv.
Qed.

Lemma pg_inj i j : pg i = pg j -> i = j.
Proof. unfold pg. lia. Qed.

(** The array of caches, one element at a time. *)
Lemma cache_bounds c : cls c ->
  caches <= cache_addr caches c /\ cache_addr caches c + 32 <= caches + 256 /\
  0 < cache_addr caches c < 2 ^ 63 /\ cache_addr caches c = head_addr caches (c, false).
Proof.
  unfold cls, cache_addr, sizeof_cache, head_addr. destruct Hly as [_ _ _ _ _ _ _ _ H6 _].
  simpl. lia.
Qed.
End Facts.

(** ** Blocks do not overlap *)

Section Live.
Context (m : mem) (SL : slabs) (Hly : layout) (Hco : core m SL).

Lemma slab_page p c fl : SL !! p = Some (c, fl) ->
  exists i, meta_pages <= i < T /\ p = pg i /\ page_type h m i = PAGE_TYPE_SLAB.
Proof.
  intros Hp. destruct (co_dom _ _ Hco p) as (i & Hi & ->); [by exists (c, fl)|].
  exists i. split_and!; [lia|lia|done|]. apply (co_page _ _ Hco); [|by exists (c, fl)].
  pose proof (meta_bounds Hly). lia.
Qed.

(** A large run contains no slab page and no free page. *)
Lemma run_pages i j :
  0 <= i < T -> page_type h m i = PAGE_TYPE_LARGE -> i <= j < i + page_count h m i ->
  j < T /\ page_type h m j <> PAGE_TYPE_FREE /\ page_type h m j <> PAGE_TYPE_SLAB.
Proof.
  intros Hi Ht Hj. destruct (co_pages _ _ Hco i Hi) as (_ & _ & _ & H4 & H5 & _).
  unfold PAGE_TYPE_FREE, PAGE_TYPE_SLAB, PAGE_TYPE_LARGE in *.
  destruct (decide (j = i)) as [->|Hne]; [lia|].
  destruct (H5 j ltac:(lia)) as [H6 H7]. split_and!; [lia|done|]. intros Hs.
  destruct (co_pages _ _ Hco j ltac:(lia)) as (_ & _ & H8 & _). specialize (H8 Hs). lia.
Qed.

Lemma live_bounds a z : live m SL a z ->
  pg meta_pages <= a /\ a + z <= heap_end_addr h /\ 0 < z /\ a mod 8 = 0.
Proof.
  destruct Hly as [L1 L2 L3 L4 _ _ _ _ _ _]. intros [(p & c & fl & k & Hp & Hk & -> & _ & ->)|H].
  - destruct (slab_page p c fl Hp) as (i & Hi & -> & _).
    destruct (co_slab _ _ Hco _ _ _ Hp) as [Hc _].
    destruct (size_facts c Hc) as (Z1 & Z2 & _). pose proof (obj_bounds (pg i) c k Hc Hk) as Hb.
    rewrite L4. split_and!; [unfold pg in *; lia|unfold pg in *; lia|lia|].
    unfold obj, sizeof_slab, pg. apply Z.mod_divide in Z2 as [y ->]; [|lia].
    apply Z.mod_divide in L1 as [x ->]; [|lia]. apply Z.mod_divide; [lia|].
    exists (512 * x + 512 * i + 5 + y * k). lia.
  - destruct H as (i & Hi & Ht & Hc & -> & ->).
    destruct (co_pages _ _ Hco i) as (_ & _ & _ & H4 & _); [pose proof (meta_bounds Hly); lia|].
    rewrite L4. unfold pg. split_and!; [lia|lia|lia|zdiv].
Qed.

(** A slab page and a run of pages are apart. *)
Lemma slab_run_apart p c fl i :
  SL !! p = Some (c, fl) -> 0 <= i < T -> page_type h m i = PAGE_TYPE_LARGE ->
  p + 4096 <= pg i \/ pg i + 4096 * page_count h m i <= p.
Proof.
  intros Hp Hi Ht. destruct (slab_page p c fl Hp) as (j & Hj & -> & Htj).
  destruct (decide (i <= j < i + page_count h m i)) as [D|D]; [|unfold pg; lia].
  by destruct (run_pages i j Hi Ht D) as (_ & _ & []).
Qed.

Lemma live_disjoint a z a' z' : live m SL a z -> live m SL a' z' ->
  (a = a' /\ z = z') \/ a + z <= a' \/ a' + z' <= a.
Proof.
  pose proof (meta_bounds Hly) as [Hmp _].
  intros [(p & c & fl & k & Hp & Hk & -> & _ & ->)|(i & Hi & Ht & Hn & -> & ->)]
         [(p' & c' & fl' & k' & Hp' & Hk' & -> & _ & ->)|(i' & Hi' & Ht' & Hn' & -> & ->)].
  - destruct (co_slab _ _ Hco _ _ _ Hp) as [Hc _]. destruct (co_slab _ _ Hco _ _ _ Hp') as [Hc' _].
    pose proof (obj_bounds p c k Hc Hk). pose proof (obj_bounds p' c' k' Hc' Hk').
    destruct (decide (p = p')) as [->|Hne].
    + rewrite Hp in Hp'. injection Hp' as <- <-.
      destruct (decide (k = k')) as [->|Hk2]; [by left|right]. by apply obj_disjoint.
    + right. destruct (slab_page _ _ _ Hp) as (j & _ & Hj & _).
      destruct (slab_page _ _ _ Hp') as (j' & _ & Hj' & _). unfold pg in *. lia.
  - right. destruct (co_slab _ _ Hco _ _ _ Hp) as [Hc _]. pose proof (obj_bounds p c k Hc Hk).
    pose proof (slab_run_apart p c fl i' Hp ltac:(lia) Ht'). lia.
  - right. destruct (co_slab _ _ Hco _ _ _ Hp') as [Hc' _]. pose proof (obj_bounds p' c' k' Hc' Hk').
    pose proof (slab_run_apart p' c' fl' i Hp' ltac:(lia) Ht). lia.
  - destruct (decide (i = i')) as [->|Hne]; [by left|right].
    pose proof (runs_disjoint h m i i' (co_pages _ _ Hco)). unfold pg. lia.
Qed.

(** The allocator keeps its hands off live blocks. *)
Lemma live_not_owned a z b : live m SL a z -> a <= b < a + z -> ~ owned m SL b.
Proof.
  pose proof (meta_bounds Hly) as [Hmp Hmb]. intros Hl Hb Ho.
  pose proof (live_bounds a z Hl) as (B1 & B2 & _ & _).
  pose proof (ly_apart Hly). pose proof (ly_start Hly).
  assert (Hpg : heap_start_addr h <= pg meta_pages) by (unfold pg; lia).
  destruct Ho as [Ho|[Ho|[(p' & c' & fl' & Hp' & Ho)|(j & Hj & Htj & Ho)]]].
  - unfold meta_byte in Ho. lia.
  - lia.
  - destruct (co_slab _ _ Hco _ _ _ Hp') as [Hc' Hok'].
    assert (Hin : p' <= b < p' + 4096).
    { destruct Ho as [Ho|(o & Hof & Ho)]; [lia|].
      destruct (so_objs _ _ _ _ _ Hok' o Hof) as (k' & Hk' & ->).
      pose proof (obj_bounds p' c' k' Hc' Hk'). destruct (size_facts c' Hc'). lia. }
    destruct Hl as [(p & c & fl & k & Hp & Hk & -> & Hnf & ->)|(i & Hi & Ht & Hn & -> & ->)].
    + destruct (co_slab _ _ Hco _ _ _ Hp) as [Hc _]. pose proof (obj_bounds p c k Hc Hk).
      destruct (decide (p = p')) as [->|Hne].
      * rewrite Hp in Hp'. injection Hp' as <- <-. destruct Ho as [Ho|(o & Hof & Ho)]; [lia|].
        destruct (so_objs _ _ _ _ _ Hok' o Hof) as (k' & Hk' & ->).
        destruct (decide (k = k')) as [->|Hk2]; [done|].
        pose proof (obj_disjoint p' c k k' Hc Hk2). destruct (size_facts c Hc). lia.
      * destruct (slab_page _ _ _ Hp) as (x & _ & Hx & _).
        destruct (slab_page _ _ _ Hp') as (x' & _ & Hx' & _). unfold pg in *. lia.
    + pose proof (slab_run_apart p' c' fl' i Hp' ltac:(lia) Ht). lia.
  - destruct Hl as [(p & c & fl & k & Hp & Hk & -> & Hnf & ->)|(i & Hi & Ht & Hn & -> & ->)].
    + destruct (co_slab _ _ Hco _ _ _ Hp) as [Hc _]. pose proof (obj_bounds p c k Hc Hk).
      destruct (slab_page _ _ _ Hp) as (x & _ & -> & Htx).
      assert (x = j) as -> by (unfold pg in *; lia). rewrite Htj in Htx. done.
    + assert (i <= j < i + page_count h m i) by (unfold pg in *; lia).
      by destruct (run_pages i j ltac:(lia) Ht ltac:(lia)) as (_ & [] & _).
Qed.
End Live.
End Inv.

End HeapInv.
