(* ===== verification/HeapSpec.v ===== *)
(** * What the heap promises

    Each operation keeps the invariant of [HeapInv]; a block handed out is
    inside the window, large enough, disjoint from every other live block, and
    its contents survive until it is freed. *)

From stdpp Require Import functions.
From S2P Require Import Prelude Memory CString Dll Heap HeapPages HeapLists HeapInv.

Module HeapSpec.
Import Heap HeapPages HeapLists HeapInv.

Section Ops.
Context (caches : Z) (h : heap_state).

Abbreviation T := (total_pages h).
Abbreviation pg := (pg h).
Abbreviation core := (core caches h).
Abbreviation heap_inv := (heap_inv caches h).
Abbreviation lists_ok := (lists_ok caches).
Abbreviation link_byte := (link_byte caches).
Abbreviation cache_addr := (cache_addr caches).
Abbreviation owned := (owned caches h).
Abbreviation live := (live h).

(** ** Frames *)

Section Frames.
Context (m : mem) (SL : slabs) (Hly : layout caches h) (Hco : core m SL).

Lemma slab_node p : is_slab SL p -> away caches p.
Proof.
  intros Hp. destruct (co_dom _ _ _ _ Hco p Hp) as (i & Hi & ->).
  pose proof (meta_bounds caches h Hly). destruct (pg_page caches h Hly i ltac:(lia)) as (H1 & _ & _ & H2).
  split; [done|lia].
Qed.

Lemma slab_apart p p' : is_slab SL p -> is_slab SL p' -> p <> p' -> p + 4096 <= p' \/ p' + 4096 <= p.
Proof.
  intros Hp Hp' Hne. destruct (co_dom _ _ _ _ Hco p Hp) as (i & _ & ->).
  destruct (co_dom _ _ _ _ Hco p' Hp') as (j & _ & ->). unfold HeapInv.pg in *. lia.
Qed.

Lemma slab_above p : is_slab SL p ->
  page_metadata h + 4 * T <= p /\ heap_start_addr h <= p /\ p + 4096 <= heap_end_addr h.
Proof.
  intros Hp. destruct (co_dom _ _ _ _ Hco p Hp) as (i & Hi & ->).
  destruct (meta_bounds caches h Hly). destruct (pg_page caches h Hly i ltac:(lia)) as (_ & H2 & H3 & _).
  unfold HeapInv.pg in *. lia.
Qed.

Lemma head_in q : is_list q -> caches <= head_addr caches q /\ head_addr caches q + 8 <= caches + 32 * q.1 + 16
  /\ caches + 32 * q.1 <= head_addr caches q.
Proof. destruct q as [c b]. unfold is_list, head_addr. simpl. destruct b; lia. Qed.

(** The bytes [core] is about are no link bytes. *)
Lemma meta_not_link b : meta_byte h b -> ~ link_byte (is_slab SL) b.
Proof.
  intros Hb [(q & Hq & Hh)|(p & Hp & Hpb)]; unfold meta_byte in Hb.
  - destruct (head_in q Hq) as (? & ? & ?). destruct q as [c ?]. unfold is_list in Hq. simpl in *.
    pose proof (ly_apart _ _ Hly). pose proof (ly_meta _ _ Hly). pose proof (ly_end _ _ Hly).
    pose proof (ly_total _ _ Hly). lia.
  - pose proof (slab_above p Hp). lia.
Qed.

Lemma slab_not_link p c fl b : SL !! p = Some (c, fl) -> slab_byte p fl b -> ~ link_byte (is_slab SL) b.
Proof.
  intros Hp Hb. destruct (co_slab _ _ _ _ Hco _ _ _ Hp) as [Hc Hok].
  assert (Hsp : is_slab SL p) by (by exists (c, fl)).
  assert (Hin : p + 16 <= b < p + 4096).
  { destruct Hb as [Hb|(o & Ho & Hb)]; [lia|].
    destruct (so_objs _ _ _ _ _ Hok o Ho) as (k & Hk & ->).
    pose proof (obj_bounds p c k Hc Hk). destruct (size_facts c Hc). lia. }
  intros [(q & Hq & Hh)|(p' & Hp' & Hpb)].
  - destruct (head_in q Hq) as (? & ? & ?). destruct q as [c' ?]. unfold is_list in Hq. simpl in *.
    destruct (slab_node p Hsp) as [_ Ha]. lia.
  - destruct (decide (p = p')) as [->|Hne]; [lia|].
    destruct (slab_apart p p' Hsp Hp' Hne); lia.
Qed.

Lemma size_not_link c b : cls c -> cache_addr c + 16 <= b < cache_addr c + 32 -> ~ link_byte (is_slab SL) b.
Proof.
  intros Hc Hb. destruct (cache_bounds caches h Hly c Hc) as (C1 & C2 & _).
  intros [(q & Hq & Hh)|(p & Hp & Hpb)].
  - destruct (head_in q Hq) as (? & ? & ?). destruct q as [c' ?]. unfold is_list, cls, HeapInv.cache_addr, sizeof_cache in *.
    simpl in *. lia.
  - destruct (slab_node p Hp) as [_ Ha]. lia.
Qed.

Lemma core_links m' : agree (fun b => ~ link_byte (is_slab SL) b) m m' -> core m' SL.
Proof.
  intros Hag. destruct Hco as [H1 H2 H3 H4 H5 H6].
  assert (Hpgs : forall i, 0 <= i < T -> page_type h m' i = page_type h m i /\ page_count h m' i = page_count h m i).
  { apply pages_agree. eapply agree_weaken; [exact Hag|]. exact meta_not_link. }
  pose proof (meta_bounds caches h Hly) as [Hmp _]. pose proof (ly_room _ _ Hly) as Hroom.
  split.
  - exact (pages_ok_same h _ m' Hpgs H1).
  - intros i Hi. destruct (Hpgs i ltac:(lia)) as [-> ->]. by apply H2.
  - intros p c fl Hp. destruct (H3 p c fl Hp) as [Hc Hok]. split; [done|].
    eapply slab_agree; [|exact Hok]. eapply agree_weaken; [exact Hag|].
    intros b. by eapply slab_not_link.
  - intros i Hi. destruct (Hpgs i Hi) as [-> _]. by apply H4.
  - exact H5.
  - intros c Hc. destruct (H6 c Hc) as [<- <-]. unfold obj_size.
    split; (eapply agree_loadn; [exact Hag|]); intros b Hb; apply (size_not_link c); (done || lia).
Qed.

(** Changing one slab inside its page, the links apart. *)
Lemma core_update m' p c fl0 fl :
  SL !! p = Some (c, fl0) -> slab_ok caches m' p c fl ->
  agree (fun b => ~ p + 16 <= b < p + 4096) m m' ->
  core m' (<[p := (c, fl)]> SL).
Proof.
  intros Hp Hok Hag. assert (Hsp : is_slab SL p) by (by exists (c, fl0)).
  destruct Hco as [H1 H2 H3 H4 H5 H6]. pose proof (slab_above p Hsp) as Hab.
  pose proof (meta_bounds caches h Hly) as [Hmp _]. pose proof (ly_room _ _ Hly) as Hroom.
  assert (Hpgs : forall i, 0 <= i < T -> page_type h m' i = page_type h m i /\ page_count h m' i = page_count h m i).
  { apply pages_agree. eapply agree_weaken; [exact Hag|]. unfold meta_byte. lia. }
  assert (Hdom : forall x, is_Some (<[p := (c, fl)]> SL !! x) <-> is_Some (SL !! x)).
  { intros x. destruct (decide (x = p)) as [->|Hne].
    - rewrite lookup_insert_eq, Hp. split; by eexists.
    - by rewrite lookup_insert_ne. }
  split.
  - exact (pages_ok_same h _ m' Hpgs H1).
  - intros i Hi. destruct (Hpgs i ltac:(lia)) as [-> ->]. by apply H2.
  - intros x c' fl' Hx. destruct (decide (x = p)) as [->|Hne].
    + rewrite lookup_insert_eq in Hx. injection Hx as <- <-. split; [by apply (H3 p c fl0)|done].
    + rewrite lookup_insert_ne in Hx by done. destruct (H3 x c' fl' Hx) as [Hc' Hok'].
      split; [done|]. eapply slab_agree; [|exact Hok']. eapply agree_weaken; [exact Hag|].
      intros b Hb Hin. assert (Hsx : is_slab SL x) by (by exists (c', fl')).
      assert (x + 16 <= b < x + 4096).
      { destruct Hb as [Hb|(o & Ho & Hb)]; [lia|].
        destruct (so_objs _ _ _ _ _ Hok' o Ho) as (k & Hk & ->).
        pose proof (obj_bounds x c' k Hc' Hk). destruct (size_facts c' Hc'). lia. }
      destruct (slab_apart x p Hsx Hsp Hne); lia.
  - intros i Hi. destruct (Hpgs i Hi) as [-> _]. rewrite Hdom. by apply H4.
  - intros x. rewrite Hdom. apply H5.
  - intros c' Hc'. destruct (H6 c' Hc') as [<- <-]. unfold obj_size.
    destruct (cache_bounds caches h Hly c' Hc') as (C1 & C2 & _). destruct (slab_node p Hsp) as [_ Ha].
    split; (eapply agree_loadn; [exact Hag|]); intros b Hb Hin; lia.
Qed.

(** The lists do not see such a change either. *)
Lemma lists_update_slab m' Q p v :
  is_slab SL p -> lists_ok (is_slab SL) m Q ->
  agree (fun b => ~ p + 16 <= b < p + 4096) m m' -> lists_ok (is_slab (<[p := v]> SL)) m' Q.
Proof.
  intros Hsp HL Hag. eapply lists_mono; [eapply lists_agree; [exact HL|]|].
  - eapply agree_weaken; [exact Hag|]. intros b [(q & Hq & Hh)|(x & Hx & Hb)] Hin.
    + destruct (head_in q Hq) as (? & ? & ?). destruct q as [c' ?]. unfold is_list in Hq. simpl in *.
      destruct (slab_node p Hsp) as [_ Ha]. lia.
    + destruct (decide (x = p)) as [->|Hne]; [lia|]. destruct (slab_apart x p Hx Hsp Hne); lia.
  - intros x Hx. unfold is_slab. destruct (decide (x = p)) as [->|Hne].
    + rewrite lookup_insert_eq. by eexists.
    + by rewrite lookup_insert_ne.
Qed.
End Frames.

(** ** Which list a slab is in *)

Lemma listed_change SL SL' Q Q' p :
  listed SL Q -> (forall x, x <> p -> SL' !! x = SL !! x) ->
  (forall q x, is_list q -> x <> p -> (x ∈ Q' q) <-> (x ∈ Q q)) ->
  (forall q, is_list q -> (p ∈ Q' q) <-> exists fl, SL' !! p = Some (q.1, fl) /\ q.2 = is_nil fl) ->
  listed SL' Q'.
Proof.
  intros HL HS HQ Hp q x Hq. destruct (decide (x = p)) as [->|Hne]; [by apply Hp|].
  rewrite HQ, HS by done. by apply HL.
Qed.

(** The free list changed, but not between empty and non-empty. *)
Lemma listed_same SL Q p c fl fl' :
  listed SL Q -> SL !! p = Some (c, fl) -> is_nil fl = is_nil fl' -> listed (<[p := (c, fl')]> SL) Q.
Proof.
  intros HL Hp Hn. eapply (listed_change _ _ _ _ p); [exact HL|..].
  - intros x Hx. by rewrite lookup_insert_ne.
  - done.
  - intros q Hq. rewrite (HL q p Hq), Hp, lookup_insert_eq.
    split; intros (fl0 & Heq & ->); injection Heq as <- <-.
    + by exists fl'.
    + by exists fl.
Qed.

(** A new slab, or one that changes list: it leaves [l1 ++ p :: l2] and goes
    to the front of its list. *)
Lemma listed_push SL SL' Q p c fl :
  listed SL Q -> cls c -> (forall x, x <> p -> SL' !! x = SL !! x) -> SL' !! p = Some (c, fl) ->
  (forall q, is_list q -> p ∉ Q q) ->
  listed SL' (<[(c, is_nil fl) := p :: Q (c, is_nil fl)]> Q).
Proof.
  intros HL Hc HS Hp Hno. eapply (listed_change _ _ _ _ p); [exact HL|done|..].
  - intros q x Hq Hx. destruct (decide (q = (c, is_nil fl))) as [->|Hne].
    + rewrite fn_lookup_insert, elem_of_cons. tauto.
    + by rewrite fn_lookup_insert_ne.
  - intros q Hq. rewrite Hp. destruct (decide (q = (c, is_nil fl))) as [->|Hne].
    + rewrite fn_lookup_insert. split; [by exists fl|by left].
    + rewrite fn_lookup_insert_ne by done. split; [by intros ?%Hno|].
      intros (fl0 & Heq & Hn). injection Heq as Hc0 <-. destruct Hne. destruct q; simpl in *. by subst.
Qed.

Lemma listed_drop SL SL' Q p q l1 l2 :
  listed SL Q -> is_list q -> Q q = l1 ++ p :: l2 -> p ∉ l1 ++ l2 ->
  (forall x, x <> p -> SL' !! x = SL !! x) -> SL' !! p = None ->
  listed SL' (<[q := l1 ++ l2]> Q) /\ forall q', is_list q' -> p ∉ (<[q := l1 ++ l2]> Q) q'.
Proof.
  intros HL Hq HQ Hp HS HN.
  assert (Hno : forall q', is_list q' -> p ∉ (<[q := l1 ++ l2]> Q) q').
  { intros q' Hq'. destruct (decide (q' = q)) as [->|Hne]; [by rewrite fn_lookup_insert|].
    rewrite fn_lookup_insert_ne by done. intros Hin.
    assert (Hin2 : p ∈ Q q) by (rewrite HQ; apply elem_of_app; right; by left).
    apply HL in Hin as (fl & Hf & Hb); [|done]. apply HL in Hin2 as (fl2 & Hf2 & Hb2); [|done].
    rewrite Hf in Hf2. injection Hf2 as Hc <-. destruct Hne. destruct q, q'; simpl in *. by subst. }
  split; [|done]. eapply (listed_change _ _ _ _ p); [exact HL|done|..].
  - intros q' x Hq' Hx. destruct (decide (q' = q)) as [->|Hne].
    + rewrite fn_lookup_insert, HQ, !elem_of_app, elem_of_cons. tauto.
    + by rewrite fn_lookup_insert_ne.
  - intros q' Hq'. rewrite HN. split; [by intros ?%Hno|]. by intros (fl & [=] & _).
Qed.
(** ** Taking an object *)

(** The second half of [cache_alloc], on a slab with a free object. *)
Definition take (m : mem) (c slab : Z) : Z * mem :=
  let obj := free_list m slab in
  let m := store64 m (slab + 24) (load64 m obj) in
  let m := store32 m (slab + 32) (u32 (in_use m slab + 1)) in
  if free_list m slab =? 0 then (obj, push_front (remove m c slab) (c + 8) slab) else (obj, m).

(** The slab's own fields. *)
Lemma take_fields m SL p c o fl :
  layout caches h -> core m SL -> SL !! p = Some (c, o :: fl) ->
  let m1 := store64 m (p + 24) (load64 m o) in
  let m2 := store32 m1 (p + 32) (u32 (in_use m1 p + 1)) in
  free_list m p = o /\ slab_ok caches m2 p c fl /\ free_list m2 p = first 0 fl /\
  agree (outside (p + 24) (p + 36)) m m2.
Proof.
  intros Hly Hco Hp m1 m2. destruct (co_slab _ _ _ _ Hco _ _ _ Hp) as [Hc Hok].
  pose proof (fl_length caches m p c _ Hc Hok) as Hlen. cbn [length] in Hlen.
  destruct Hok as [O1 O2 O3 O4 O5 O6]. destruct O4 as [Ho Hfl]. cbn [length] in O3.
  destruct (O6 o ltac:(left)) as (k & Hk & Hok). pose proof (obj_bounds p c k Hc Hk) as Hb.
  destruct (size_facts c Hc) as (Z1 & Z0 & Z2 & _).
  assert (Hag1 : agree (outside (p + 24) (p + 32)) m m1)
    by (eapply agree_weaken; [apply agree_storen|]; unfold outside; lia).
  assert (Hag : agree (outside (p + 24) (p + 36)) m m2).
  { intros b Hb'. unfold m2. rewrite load8_storen_ne, Hag1; [done|..]; unfold outside in *; lia. }
  assert (Hu : in_use m1 p = in_use m p).
  { eapply agree_loadn; [exact Hag1|]. unfold outside. lia. }
  assert (Hf2 : free_list m2 p = load64 m o).
  { unfold m2, m1, free_list. rewrite loadn_storen_ne by lia.
    apply loadn_storen_eq. apply load64_range. }
  assert (Hob : forall x, x ∈ fl -> p + 40 <= x).
  { intros x Hx. destruct (O6 x ltac:(by right)) as (j & Hj & ->).
    pose proof (obj_bounds p c j Hc Hj). lia. }
  split; [done|]. split; [|split; [by rewrite Hf2; apply flist_head in Hfl|exact Hag]].
  apply list.NoDup_cons in O5 as [Hno Hnd]. split.
  - unfold magic. rewrite <- O1. eapply agree_loadn; [exact Hag|]. unfold outside. lia.
  - unfold slab_cache. rewrite <- O2. eapply agree_loadn; [exact Hag|]. unfold outside. lia.
  - unfold m2, in_use at 1. rewrite Hu, O3. unfold u32. rewrite loadn_storen_mod.
    rewrite Z.mod_mod, Z.mod_small by lia. lia.
  - rewrite Hf2. eapply flist_agree; [exact Hag| |exact Hfl].
    intros a b Ha Hb'. specialize (Hob a Ha). unfold outside. lia.
  - done.
  - intros x Hx. apply O6. by right.
Qed.

Lemma list_head m SL Q q : lists_ok (is_slab SL) m Q -> is_list q -> load64 m (head_addr caches q) = first 0 (Q q).
Proof. intros HL. apply HL. Qed.

(** Moving a slab from list [q] to the other list of its cache. *)
Lemma move_ok m SL SL' Q p c fl q :
  layout caches h -> core m SL' -> lists_ok (is_slab SL') m Q -> listed SL Q ->
  cls c -> is_list q -> q.1 = c -> q.2 = negb (is_nil fl) ->
  (forall x, x <> p -> SL' !! x = SL !! x) -> SL' !! p = Some (c, fl) -> p ∈ Q q ->
  let m' := push_front (remove m (head_addr caches q) p) (head_addr caches (c, is_nil fl)) p in
  exists Q', core m' SL' /\ lists_ok (is_slab SL') m' Q' /\ listed SL' Q' /\
    agree (fun b => ~ link_byte (is_slab SL') b) m m'.
Proof.
  intros Hly Hco HL Hli Hc Hq Hq1 Hq2 HS Hp Hin m'.
  assert (HN : forall x, is_slab SL' x -> away caches x) by (intros x; by apply (slab_node m)).
  apply list_elem_of_split in Hin as (l1 & l2 & HQ).
  assert (Hno : p ∉ l1 ++ l2).
  { pose proof (lo_nodup _ _ _ _ HL q Hq) as Hnd. rewrite HQ in Hnd.
    rewrite <- Permutation_middle in Hnd. by apply list.NoDup_cons in Hnd as [? _]. }
  destruct (remove_ok caches _ HN m Q q p l1 l2 HL Hq HQ) as [HL1 Hag1].
  set (m1 := remove m (head_addr caches q) p) in *.
  set (SLd := delete p SL).
  destruct (listed_drop SL SLd Q p q l1 l2 Hli Hq HQ Hno) as [Hli1 Hno1].
  { intros x Hx. unfold SLd. by rewrite lookup_delete_ne. }
  { unfold SLd. by rewrite lookup_delete_eq. }
  assert (Hq' : is_list (c, is_nil fl)) by done.
  destruct (push_front_ok caches _ HN m1 _ (c, is_nil fl) p HL1 Hq') as [HL2 Hag2]; [by exists (c, fl)|done|].
  assert (Hag : agree (fun b => ~ link_byte (is_slab SL') b) m m') by (etrans; [exact Hag1|exact Hag2]).
  eexists. split; [by eapply core_links|]. split; [exact HL2|]. split; [|exact Hag].
  eapply (listed_push SLd); [done|done| |done|done].
  intros x Hx. unfold SLd. rewrite lookup_delete_ne by done. by apply HS.
Qed.

Lemma take_ok m SL Q p c o fl :
  layout caches h -> core m SL -> lists_ok (is_slab SL) m Q -> listed SL Q ->
  SL !! p = Some (c, o :: fl) ->
  let '(r, m') := take m (cache_addr c) p in
  r = o /\ let SL' := <[p := (c, fl)]> SL in
  exists Q', core m' SL' /\ lists_ok (is_slab SL') m' Q' /\ listed SL' Q' /\
    agree (fun b => ~ (p + 24 <= b < p + 36) /\ ~ link_byte (is_slab SL) b) m m'.
Proof.
  intros Hly Hco HL Hli Hp. unfold take.
  destruct (take_fields m SL p c o fl Hly Hco Hp) as (Ho & Hok2 & Hf2 & Hag2). rewrite Ho.
  set (m2 := store32 _ _ _) in *. set (SL' := <[p := (c, fl)]> SL).
  destruct (co_slab _ _ _ _ Hco _ _ _ Hp) as [Hc Hok].
  assert (Hsp : is_slab SL p) by (by exists (c, o :: fl)).
  assert (Hag3 : agree (fun b => ~ p + 16 <= b < p + 4096) m m2).
  { eapply agree_weaken; [exact Hag2|]. unfold outside. lia. }
  pose proof (core_update m SL Hly Hco m2 p c _ fl Hp Hok2 Hag3) as Hco2.
  pose proof (lists_update_slab m SL Hly Hco m2 Q p (c, fl) Hsp HL Hag3) as HL2.
  fold SL' in Hco2, HL2.
  assert (HSS : forall x, is_slab SL' x -> is_slab SL x).
  { intros x. unfold is_slab, SL'. destruct (decide (x = p)) as [->|Hne]; [done|by rewrite lookup_insert_ne]. }
  assert (HS : forall x, x <> p -> SL' !! x = SL !! x) by (intros x Hx; unfold SL'; by rewrite lookup_insert_ne).
  rewrite Hf2. destruct (cache_bounds caches h Hly c Hc) as (_ & _ & _ & Hh).
  destruct fl as [|a fl].
  - cbn [first Z.eqb]. split; [done|].
    destruct (move_ok m2 SL SL' Q p c [] (c, false)) as (Q' & Hco' & HL' & Hli' & Hag'); try done.
    { unfold SL'. by rewrite lookup_insert_eq. }
    { apply (Hli (c, false)); [done|]. by exists [o]. }
    cbn [is_nil] in *. replace (cache_addr c + 8) with (head_addr caches (c, true))
      by (unfold head_addr, HeapInv.cache_addr, sizeof_cache; simpl; lia).
    rewrite Hh. exists Q'. split_and!; [done..|]. intros b [Hb1 Hb2]. rewrite Hag', Hag2; [done|..].
    + unfold outside. lia.
    + intros [H|(x & Hx & H)]; apply Hb2; [by left|right; exists x; split; [by apply HSS|done]].
  - assert (Ha : a <> 0).
    { destruct (so_objs _ _ _ _ _ Hok a) as (k & Hk & ->); [right; by left|].
      pose proof (obj_bounds p c k Hc Hk). destruct (slab_node m SL Hly Hco p Hsp) as [[_ ?] _]. lia. }
    cbn [first]. destruct (a =? 0) eqn:E; [lia|]. split; [done|]. exists Q. split_and!; [done|done| |].
    + eapply listed_same; [exact Hli|exact Hp|done].
    + intros b [Hb1 _]. apply Hag2. unfold outside. lia.
Qed.

(** ** A fresh slab *)

Section Fresh.
Context (m m1 m2 : mem) (SL : slabs) (s c : Z) (fl : list Z).
Context (Hly : layout caches h) (Hco : core m SL) (Hc : cls c).
Context (Hrun : free_run h m s 1) (Hmk : marked h s 1 PAGE_TYPE_SLAB (fun j => if j =? s then 1 else 0) m m1).
Context (Hag : agree (outside (pg s) (pg s + 4096)) m1 m2) (Hok : slab_ok caches m2 (pg s) c fl).

Lemma fresh_range : meta_pages h <= s < T /\ page_type h m s = PAGE_TYPE_FREE.
Proof.
  destruct Hrun as (R1 & R2 & R3). specialize (R3 s ltac:(lia)). split; [|done]. split; [|lia].
  destruct (decide (meta_pages h <= s)) as [|D]; [done|].
  destruct (co_meta _ _ _ _ Hco s ltac:(lia)) as [Ht _]. by rewrite R3 in Ht.
Qed.

Lemma fresh_new : SL !! pg s = None.
Proof.
  destruct fresh_range as [Hs Hf]. destruct (SL !! pg s) eqn:E; [|done].
  pose proof (meta_bounds caches h Hly).
  destruct (co_page _ _ _ _ Hco s) as [_ Hcp]; [lia|]. rewrite Hcp in Hf by (rewrite E; by eexists). done.
Qed.

Lemma fresh_apart x : is_slab SL x -> x + 4096 <= pg s \/ pg s + 4096 <= x.
Proof.
  intros Hx. destruct (co_dom _ _ _ _ Hco x Hx) as (i & Hi & ->).
  assert (i <> s); [|unfold HeapInv.pg; lia]. intros ->. pose proof fresh_new as Hn.
  unfold is_slab in Hx. rewrite Hn in Hx. by destruct Hx.
Qed.

(** Nothing was written but the table and the page. *)
Lemma fresh_agree : agree (fun b => ~ meta_byte h b /\ outside (pg s) (pg s + 4096) b) m m2.
Proof. destruct Hmk as (_ & _ & Hm). intros b [H1 H2]. by rewrite Hag, Hm. Qed.

Lemma fresh_pages i : 0 <= i < T -> page_type h m2 i = page_type h m1 i /\ page_count h m2 i = page_count h m1 i.
Proof.
  apply pages_agree. eapply agree_weaken; [exact Hag|]. intros b Hb. unfold meta_byte, outside in *.
  destruct (meta_bounds caches h Hly) as [_ Hmb]. destruct fresh_range. unfold HeapInv.pg in *. lia.
Qed.

Lemma core_fresh : core m2 (<[pg s := (c, fl)]> SL).
Proof.
  pose proof Hco as [H1 H2 H3 H4 H5 H6]. destruct Hmk as (M1 & M2 & M3).
  destruct fresh_range as [Hs Hf]. destruct (meta_bounds caches h Hly) as [Hmp Hmb].
  pose proof (ly_room _ _ Hly) as Hroom.
  pose proof (pages_ok_alloc h m m1 s 1 PAGE_TYPE_SLAB H1 ltac:(lia) Hrun ltac:(by right) Hmk) as Hpo.
  split.
  - exact (pages_ok_same h _ _ fresh_pages Hpo).
  - intros i Hi. destruct (fresh_pages i ltac:(lia)) as [-> ->]. rewrite M1, M2, !decide_False by lia.
    by apply H2.
  - intros x c' fl' Hx. destruct (decide (x = pg s)) as [->|Hne].
    + rewrite lookup_insert_eq in Hx. injection Hx as <- <-. done.
    + rewrite lookup_insert_ne in Hx by done. destruct (H3 x c' fl' Hx) as [Hc' Hok'].
      split; [done|]. eapply slab_agree; [|exact Hok']. eapply agree_weaken; [exact fresh_agree|].
      intros b Hb. assert (Hsx : is_slab SL x) by (by exists (c', fl')).
      pose proof (fresh_apart x Hsx). pose proof (slab_above m SL Hly Hco x Hsx).
      assert (x + 16 <= b < x + 4096).
      { destruct Hb as [Hb|(o & Ho & Hb)]; [lia|].
        destruct (so_objs _ _ _ _ _ Hok' o Ho) as (k & Hk & ->).
        pose proof (obj_bounds x c' k Hc' Hk). destruct (size_facts c' Hc'). lia. }
      unfold meta_byte, outside. lia.
  - intros i Hi. destruct (fresh_pages i Hi) as [-> _]. rewrite M1. case_decide as D.
    + assert (i = s) as -> by lia. rewrite lookup_insert_eq. split; [by eexists|done].
    + rewrite lookup_insert_ne; [by apply H4|]. intros He%pg_inj. lia.
  - intros x. destruct (decide (x = pg s)) as [->|Hne]; [by exists s|].
    rewrite lookup_insert_ne by done. apply H5.
  - intros c' Hc'. destruct (H6 c' Hc') as [<- <-]. unfold obj_size.
    destruct (cache_bounds caches h Hly c' Hc') as (C1 & C2 & _).
    pose proof (pg_page caches h Hly s ltac:(lia)). pose proof (ly_apart _ _ Hly).
    pose proof (ly_meta _ _ Hly). pose proof (ly_end _ _ Hly). pose proof (ly_total _ _ Hly).
    split; (eapply agree_loadn; [exact fresh_agree|]); intros b Hb; unfold meta_byte, outside; lia.
Qed.

Lemma lists_fresh Q : lists_ok (is_slab SL) m Q -> lists_ok (is_slab (<[pg s := (c, fl)]> SL)) m2 Q.
Proof.
  intros HL. destruct fresh_range as [Hs _]. destruct (meta_bounds caches h Hly) as [Hmp _].
  eapply lists_mono; [eapply lists_agree; [exact HL|]|].
  - eapply agree_weaken; [exact fresh_agree|]. intros b [(q & Hq & Hh)|(x & Hx & Hb)].
    + destruct (head_in q Hq) as (? & ? & ?). destruct q as [c' ?]. unfold is_list in Hq. simpl in *.
      pose proof (pg_page caches h Hly s ltac:(lia)). pose proof (ly_apart _ _ Hly).
      pose proof (ly_meta _ _ Hly). pose proof (ly_end _ _ Hly). pose proof (ly_total _ _ Hly).
      unfold meta_byte, outside. lia.
    + pose proof (fresh_apart x Hx). pose proof (slab_above m SL Hly Hco x Hx).
      unfold meta_byte, outside. lia.
  - intros x Hx. unfold is_slab. destruct (decide (x = pg s)) as [->|Hne].
    + rewrite lookup_insert_eq. by eexists.
    + by rewrite lookup_insert_ne.
Qed.
End Fresh.

Lemma fresh_ok m SL Q c :
  layout caches h -> core m SL -> lists_ok (is_slab SL) m Q -> listed SL Q -> cls c ->
  let '(p, m1) := alloc_pages_backend h m 1 PAGE_TYPE_SLAB in
  (p = 0 /\ m1 = m /\ forall s, ~ free_run h m s 1) \/
  exists s, p = pg s /\ p <> 0 /\ first_run h m 1 s /\ SL !! p = None /\
    let SL' := <[p := (c, all_objs p c)]> SL in
    let m3 := push_front (slab_init_page m1 p (cache_addr c)) (cache_addr c) p in
    core m3 SL' /\ lists_ok (is_slab SL') m3 (<[(c, false) := p :: Q (c, false)]> Q) /\
    listed SL' (<[(c, false) := p :: Q (c, false)]> Q) /\
    marked h s 1 PAGE_TYPE_SLAB (fun j => if j =? s then 1 else 0) m m1 /\
    agree (fun b => ~ p <= b < p + 4096 /\ ~ link_byte (is_slab SL) b) m1 m3.
Proof.
  intros Hly Hco HL Hli Hc. pose proof Hly as [L1 L2 L3 L4 L5 L6 L7 L8 L9 L10].
  pose proof (alloc_pages_ok h m 1 PAGE_TYPE_SLAB ltac:(lia) ltac:(unfold PAGE_TYPE_SLAB; lia) ltac:(lia)
                ltac:(lia) ltac:(lia)) as H.
  destruct (alloc_pages_backend h m 1 PAGE_TYPE_SLAB) as [p m1].
  destruct H as [H|(s & Hp & Hfst & Hmk)]; [by left|right]. exists s.
  pose proof Hfst as [Hrun _]. fold (pg s) in Hp.
  destruct (fresh_range m SL s Hco Hrun) as [Hs _].
  destruct (meta_bounds caches h Hly) as [Hmp Hmb].
  destruct (pg_page caches h Hly s ltac:(lia)) as (Hpa & _ & _ & Hapart).
  destruct (cache_bounds caches h Hly c Hc) as (C1 & C2 & C3 & C4).
  pose proof (fresh_new m SL s Hly Hco Hrun) as Hnew. subst p.
  assert (Hsz : obj_size m1 (cache_addr c) = size_of c).
  { destruct (co_size _ _ _ _ Hco c Hc) as [<- _]. destruct Hmk as (_ & _ & Hm).
    eapply agree_loadn; [exact Hm|]. intros b Hb. unfold meta_byte. lia. }
  destruct (slab_init_ok caches m1 (pg s) c Hc Hpa Hsz ltac:(lia) ltac:(lia)) as [Hok Hag].
  set (m2 := slab_init_page m1 (pg s) (cache_addr c)) in *.
  pose proof (core_fresh m m1 m2 SL s c _ Hly Hco Hc Hrun Hmk Hag Hok) as Hco2.
  pose proof (lists_fresh m m1 m2 SL s c (all_objs (pg s) c) Hly Hco Hrun Hmk Hag Q HL) as HL2.
  set (SL' := <[pg s := (c, all_objs (pg s) c)]> SL) in *.
  assert (HN : forall x, is_slab SL' x -> away caches x) by (intros x; by apply (slab_node m2)).
  assert (Hno : forall q, is_list q -> pg s ∉ Q q).
  { intros q Hq Hin. apply Hli in Hin as (fl & Hfl & _); [|done]. by rewrite Hnew in Hfl. }
  destruct (push_front_ok caches _ HN m2 Q (c, false) (pg s) HL2 Hc) as [HL3 Hag3];
    [unfold SL', is_slab; rewrite lookup_insert_eq; by eexists|done|].
  rewrite <- C4 in HL3, Hag3. cbv zeta. split; [done|]. split; [destruct Hpa; lia|].
  split_and!; [done|done|by eapply core_links|done| |done|].
  - assert (Hnil : is_nil (all_objs (pg s) c) = false).
    { destruct (all_objs (pg s) c) eqn:E; [|done]. apply (f_equal length) in E. unfold all_objs in E.
      rewrite length_fmap, length_seqZ in E. destruct (size_facts c Hc). simpl in E. lia. }
    pose proof (listed_push SL SL' Q (pg s) c (all_objs (pg s) c) Hli Hc) as H. rewrite Hnil in H.
    apply H; [|by unfold SL'; rewrite lookup_insert_eq|done].
    intros x Hx. unfold SL'. by rewrite lookup_insert_ne.
  - intros b [Hb1 Hb2]. rewrite Hag3, Hag; [done|unfold outside; lia|].
    intros [H|(x & Hx & H)]; [apply Hb2; by left|].
    destruct (decide (x = pg s)) as [->|Hne]; [lia|]. apply Hb2. right. exists x. split; [|done].
    unfold is_slab, SL' in Hx. by rewrite lookup_insert_ne in Hx.
Qed.

(** ** [cache_alloc] *)

(** What an allocation does to the blocks: one more, nobody's bytes touched. *)
Definition handed_out (m : mem) (SL : slabs) (r z : Z) (m' : mem) (SL' : slabs) : Prop :=
  (forall a y, live m' SL' a y <-> live m SL a y \/ a = r /\ y = z) /\
  (forall y, ~ live m SL r y) /\ agree (fun b => ~ owned m SL b) m m'.

(** What it does to the pages: only those of the first free run may change. *)
Definition takes_run (m m' : mem) (n : Z) : Prop :=
  (forall i, 0 <= i < T -> page_type h m' i = page_type h m i) \/
  exists s, first_run h m n s /\ forall i, 0 <= i < T -> ~ s <= i < s + n -> page_type h m' i = page_type h m i.

(** The links, headers and free objects are the allocator's bytes. *)
Lemma link_owned m SL b : layout caches h -> core m SL -> link_byte (is_slab SL) b -> owned m SL b.
Proof.
  intros Hly Hco [(q & Hq & Hh)|(p & [[c fl] Hp] & Hb)].
  - right; left. destruct (head_in q Hq) as (? & ? & ?). destruct q as [c ?]. unfold is_list in Hq.
    simpl in *. lia.
  - right; right; left. exists p, c, fl. split; [done|]. left. lia.
Qed.

Lemma live_run_pages m m' :
  (forall i, meta_pages h <= i < T ->
     (page_type h m' i = PAGE_TYPE_LARGE <-> page_type h m i = PAGE_TYPE_LARGE) /\
     (page_type h m i = PAGE_TYPE_LARGE -> page_count h m' i = page_count h m i)) ->
  forall a z, live_run h m' a z <-> live_run h m a z.
Proof.
  intros Hp a z. split; intros (i & Hi & Ht & Hn & Ha & Hz); destruct (Hp i Hi) as [H1 H2];
    exists i; apply H1 in Ht as Ht'; [rewrite H2 in Hn, Hz by done|rewrite H2 by done]; done.
Qed.

Lemma live_obj_take SL p c o fl a z :
  (exists k, 0 <= k < max_objs c /\ o = obj p c k) -> o ∉ fl -> SL !! p = Some (c, o :: fl) ->
  live_obj (<[p := (c, fl)]> SL) a z <-> live_obj SL a z \/ a = o /\ z = size_of c.
Proof.
  intros (ko & Hko & Ho) Hno Hp. split.
  - intros (x & c' & fl' & k & Hx & Hk & -> & Hnf & ->). destruct (decide (x = p)) as [->|Hne].
    + rewrite lookup_insert_eq in Hx. injection Hx as <- <-.
      destruct (decide (obj p c k = o)) as [->|Hd]; [by right|left].
      exists p, c, (o :: fl), k. rewrite elem_of_cons. split_and!; (done || lia || tauto).
    + rewrite lookup_insert_ne in Hx by done. left. by exists x, c', fl', k.
  - intros [(x & c' & fl' & k & Hx & Hk & -> & Hnf & ->)|[-> ->]].
    + destruct (decide (x = p)) as [->|Hne].
      * rewrite Hp in Hx. injection Hx as <- <-. exists p, c, fl, k. rewrite lookup_insert_eq.
        rewrite elem_of_cons in Hnf. split_and!; (done || lia || tauto).
      * exists x, c', fl', k. by rewrite lookup_insert_ne.
    + exists p, c, fl, ko. rewrite lookup_insert_eq. split_and!; (done || lia).
Qed.

Lemma used_take SL p c o fl : used SL -> SL !! p = Some (c, o :: fl) -> used (<[p := (c, fl)]> SL).
Proof.
  intros Hu Hp x c' fl' Hx. destruct (decide (x = p)) as [->|Hne].
  - rewrite lookup_insert_eq in Hx. injection Hx as <- <-. specialize (Hu _ _ _ Hp). simpl in Hu. lia.
  - rewrite lookup_insert_ne in Hx by done. by eapply Hu.
Qed.

(** The partial slab is there: no page is allocated. *)
Lemma alloc_partial m SL Q p c l :
  heap_inv m SL Q -> cls c -> Q (c, false) = p :: l ->
  let '(r, m') := take m (cache_addr c) p in
  exists SL' Q', heap_inv m' SL' Q' /\ r <> 0 /\ handed_out m SL r (size_of c) m' SL' /\ takes_run m m' 1.
Proof.
  intros [Hly Hco HL Hli Hu] Hc HQ.
  destruct (proj1 (Hli (c, false) p Hc)) as (fl0 & Hp & Hn); [rewrite HQ; by left|].
  destruct fl0 as [|o fl]; [discriminate Hn|]. cbn [fst] in Hp.
  pose proof (take_ok m SL Q p c o fl Hly Hco HL Hli Hp) as H.
  destruct (take m (cache_addr c) p) as [r m']. destruct H as (-> & Q' & Hco' & HL' & Hli' & Hag).
  destruct (co_slab _ _ _ _ Hco _ _ _ Hp) as [_ Hok].
  pose proof (so_nodup _ _ _ _ _ Hok) as Hnd. apply list.NoDup_cons in Hnd as [Hno _].
  destruct (so_objs _ _ _ _ _ Hok o ltac:(left)) as (k & Hk & Ho).
  assert (Hsp : is_slab SL p) by (by exists (c, o :: fl)).
  exists (<[p := (c, fl)]> SL), Q'. split; [split; try done; by eapply used_take|].
  assert (Hag' : agree (fun b => ~ owned m SL b) m m').
  { eapply agree_weaken; [exact Hag|]. intros b Hb. split.
    - intros Hin. apply Hb. right; right; left. exists p, c, (o :: fl). split; [done|]. left. lia.
    - intros Hin. by apply Hb, link_owned. }
  assert (Hpages : forall i, 0 <= i < T -> page_type h m' i = page_type h m i /\ page_count h m' i = page_count h m i).
  { apply pages_agree. eapply agree_weaken; [exact Hag|]. intros b Hb.
    split; [|by apply (meta_not_link m SL Hly Hco)]. pose proof (slab_above m SL Hly Hco p Hsp).
    unfold meta_byte in Hb. lia. }
  destruct (meta_bounds caches h Hly) as [Hmp _]. split.
  { pose proof (obj_bounds p c k Hc Hk). destruct (slab_node m SL Hly Hco p Hsp) as [[_ ?] _]. lia. }
  split; [|left; intros i Hi; by destruct (Hpages i Hi)]. split_and!; [| |exact Hag'].
  - intros a y. unfold HeapInv.live. rewrite (live_obj_take SL p c o fl) by (done || by exists k).
    rewrite (live_run_pages m m'); [tauto|]. intros i Hi. destruct (Hpages i) as [-> ->]; [lia|done].
  - intros y Hl. assert (Hown : owned m SL o).
    { right; right; left. exists p, c, (o :: fl). split; [done|]. right. exists o. split; [by left|lia]. }
    pose proof (live_bounds caches h m SL Hly Hco o y Hl).
    by apply (live_not_owned caches h m SL Hly Hco o y o Hl); [lia|].
Qed.

(** A new slab is made for the object. *)
Lemma alloc_fresh m m1 SL Q c p s :
  heap_inv m SL Q -> cls c -> p = pg s -> SL !! p = None -> first_run h m 1 s ->
  marked h s 1 PAGE_TYPE_SLAB (fun j => if j =? s then 1 else 0) m m1 ->
  let SL1 := <[p := (c, all_objs p c)]> SL in
  let Q1 := <[(c, false) := p :: Q (c, false)]> Q in
  let m3 := push_front (slab_init_page m1 p (cache_addr c)) (cache_addr c) p in
  core m3 SL1 -> lists_ok (is_slab SL1) m3 Q1 -> listed SL1 Q1 ->
  agree (fun b => ~ p <= b < p + 4096 /\ ~ link_byte (is_slab SL) b) m1 m3 ->
  let '(r, m') := take m3 (cache_addr c) p in
  exists SL' Q', heap_inv m' SL' Q' /\ r <> 0 /\ handed_out m SL r (size_of c) m' SL' /\ takes_run m m' 1.
Proof.
  intros [Hly Hco HL Hli Hu] Hc Hps Hnew Hfst Hmk SL1 Q1 m3 Hco3 HL3 Hli3 Hag3.
  destruct (size_facts c Hc) as (Z1 & _ & Z2 & _).
  assert (Hall : all_objs p c = obj p c 0 :: (obj p c <$> seqZ 1 (max_objs c - 1))).
  { unfold all_objs. rewrite seqZ_cons by lia. done. }
  assert (Hp1 : SL1 !! p = Some (c, obj p c 0 :: (obj p c <$> seqZ 1 (max_objs c - 1))))
    by (unfold SL1; by rewrite lookup_insert_eq, Hall).
  set (fl := obj p c <$> seqZ 1 (max_objs c - 1)) in *.
  pose proof (take_ok m3 SL1 Q1 p c _ fl Hly Hco3 HL3 Hli3 Hp1) as H.
  destruct (take m3 (cache_addr c) p) as [r m']. destruct H as (-> & Q' & Hco' & HL' & Hli' & Hag).
  destruct (co_slab _ _ _ _ Hco3 _ _ _ Hp1) as [_ Hok].
  pose proof (so_nodup _ _ _ _ _ Hok) as Hnd. apply list.NoDup_cons in Hnd as [Hno _].
  pose proof Hfst as [Hrun _]. destruct (fresh_range m SL s Hco Hrun) as [Hs Hfree].
  destruct (meta_bounds caches h Hly) as [Hmp Hmb].
  destruct (pg_page caches h Hly s ltac:(lia)) as ([Hpal Hpr] & Hpe & _ & Hapart). rewrite <- Hps in *.
  pose proof (obj_bounds p c 0 Hc ltac:(lia)) as Hb0.
  assert (Hag' : agree (fun b => ~ owned m SL b) m m').
  { intros b Hb. rewrite Hag, Hag3; [destruct Hmk as (_ & _ & Hm); apply Hm|..].
    - intros Hin. apply Hb. by left.
    - split; [|intros Hin; by apply Hb, link_owned]. intros Hin. apply Hb. right; right; right.
      exists s. rewrite <- Hps. split_and!; (lia || done).
    - split; [intros Hin; apply Hb; right; right; right; exists s; rewrite <- Hps; split_and!; (lia || done)|].
      intros [Hin|(x & Hx & Hin)]; [by apply Hb, link_owned; [..|left]|].
      destruct (decide (x = p)) as [->|Hne].
      + apply Hb. right; right; right. exists s. rewrite <- Hps. split_and!; (lia || done).
      + apply Hb, link_owned; [done|done|]. right. exists x. split; [|done].
        unfold is_slab, SL1 in Hx. by rewrite lookup_insert_ne in Hx. }
  assert (Hpages : forall i, 0 <= i < T -> page_type h m' i = page_type h m1 i /\ page_count h m' i = page_count h m1 i).
  { intros i Hi. assert (Hsp1 : is_slab SL1 p) by (by exists (c, obj p c 0 :: fl)).
    pose proof (slab_above m3 SL1 Hly Hco3 p Hsp1).
    destruct (pages_agree h m3 m') with (i := i) as [-> ->]; [|done|].
    { eapply agree_weaken; [exact Hag|]. intros b Hb. split; [unfold meta_byte in Hb; lia|].
      by apply (meta_not_link m3 SL1 Hly Hco3). }
    apply (pages_agree h m1 m3); [|done]. eapply agree_weaken; [exact Hag3|]. intros b Hb.
    split; [unfold meta_byte in Hb; lia|]. by apply (meta_not_link m SL Hly Hco). }
  exists (<[p := (c, fl)]> SL1), Q'. split; [split; try done|].
  { intros x c' fl' Hx. destruct (decide (x = p)) as [->|Hne].
    - rewrite lookup_insert_eq in Hx. injection Hx as <- <-. unfold fl. rewrite length_fmap, length_seqZ. lia.
    - unfold SL1 in Hx. rewrite !lookup_insert_ne in Hx by done. by eapply Hu. }
  split; [lia|]. split.
  2:{ right. exists s. split; [exact Hfst|]. intros i Hi Ho. destruct (Hpages i Hi) as [-> _]. destruct Hmk as (M1 & _).
      by rewrite M1, decide_False by done. }
  split_and!; [| |exact Hag'].
  - intros a y. unfold HeapInv.live.
    rewrite (live_obj_take SL1 p c _ fl) by (done || (exists 0; split; [lia|done])).
    assert (Hlo : live_obj SL1 a y <-> live_obj SL a y).
    { split; intros (x & c' & fl' & k & Hx & Hk & -> & Hnf & ->).
      - unfold SL1 in Hx. destruct (decide (x = p)) as [->|Hne].
        + rewrite lookup_insert_eq in Hx. injection Hx as <- <-. exfalso. apply Hnf, elem_all_objs.
          by exists k.
        + rewrite lookup_insert_ne in Hx by done. by exists x, c', fl', k.
      - exists x, c', fl', k. unfold SL1. rewrite lookup_insert_ne; [done|]. intros <-. by rewrite Hnew in Hx. }
    rewrite Hlo, (live_run_pages m m'); [tauto|]. intros i Hi.
    destruct (Hpages i ltac:(lia)) as [-> ->]. destruct Hmk as (M1 & M2 & _). rewrite M1, M2.
    case_decide as D; [|done]. assert (i = s) as -> by lia. by rewrite Hfree.
  - intros y Hl. pose proof (live_bounds caches h m SL Hly Hco _ y Hl).
    apply (live_not_owned caches h m SL Hly Hco (obj p c 0) y (obj p c 0) Hl); [lia|].
    right; right; right. exists s. rewrite <- Hps. split_and!; (lia || done).
Qed.

Lemma cache_alloc_pages_ok m SL Q c :
  heap_inv m SL Q -> cls c ->
  let '(r, m') := cache_alloc h m (cache_addr c) in
  (r = 0 /\ m' = m /\ Q (c, false) = [] /\ forall s, ~ free_run h m s 1) \/
  exists SL' Q', heap_inv m' SL' Q' /\ r <> 0 /\ handed_out m SL r (size_of c) m' SL' /\ takes_run m m' 1.
Proof.
  intros Hinv Hc. pose proof Hinv as [Hly Hco HL Hli Hu].
  assert (Hcode : cache_alloc h m (cache_addr c) =
    (let slab := load64 m (cache_addr c) in
     let '(slab, m) :=
       if slab =? 0 then
         let '(slab, m) :=
           if nonzero (load64 m (cache_addr c + 16)) then
             let slab := load64 m (cache_addr c + 16) in
             let m := store64 m (cache_addr c + 16) (slab_next m slab) in
             let m := if nonzero (load64 m (cache_addr c + 16))
                      then set_prev m (load64 m (cache_addr c + 16)) 0 else m in
             (slab, m)
           else
             let '(slab, m) := alloc_pages_backend h m 1 PAGE_TYPE_SLAB in
             if slab =? 0 then (0, m) else (slab, slab_init_page m slab (cache_addr c)) in
         if slab =? 0 then (0, m) else (slab, push_front m (cache_addr c) slab)
       else (slab, m) in
     if slab =? 0 then (0, m) else take m (cache_addr c) slab)) by reflexivity.
  rewrite Hcode. clear Hcode. cbv zeta.
  destruct (cache_bounds caches h Hly c Hc) as (_ & _ & _ & Hh).
  assert (Hhead : load64 m (cache_addr c) = first 0 (Q (c, false))).
  { rewrite Hh. by apply (lo_head _ _ _ _ HL (c, false)). }
  rewrite Hhead. destruct (co_size _ _ _ _ Hco c Hc) as [_ ->]. cbn [nonzero Z.eqb negb].
  destruct (Q (c, false)) as [|p l] eqn:EQ.
  - cbn [first Z.eqb]. pose proof (fresh_ok m SL Q c Hly Hco HL Hli Hc) as Hf.
    destruct (alloc_pages_backend h m 1 PAGE_TYPE_SLAB) as [p m1].
    destruct Hf as [(-> & -> & Hno)|(s & Hps & Hp0 & Hfst & Hnew & Hco3 & HL3 & Hli3 & Hmk & Hag3)].
    { left. done. }
    assert (E0 : (p =? 0) = false) by lia. rewrite E0. cbv beta iota. rewrite E0. cbv beta iota. rewrite E0.
    rewrite EQ in HL3, Hli3.
    pose proof (alloc_fresh m m1 SL Q c p s Hinv Hc Hps Hnew Hfst Hmk) as H. rewrite EQ in H.
    specialize (H Hco3 HL3 Hli3 Hag3).
    destruct (take _ (cache_addr c) p) as [r m']. by right.
  - cbn [first]. assert (Hp : is_slab SL p).
    { destruct (proj1 (Hli (c, false) p Hc)) as (fl & Hp & _); [rewrite EQ; by left|]. by eexists. }
    destruct (slab_node m SL Hly Hco p Hp) as [[_ Hpr] _].
    assert (E0 : (p =? 0) = false) by lia. rewrite E0. cbv beta iota. rewrite E0.
    pose proof (alloc_partial m SL Q p c l Hinv Hc EQ) as H.
    destruct (take m (cache_addr c) p) as [r m']. by right.
Qed.

Lemma cache_alloc_ok m SL Q c :
  heap_inv m SL Q -> cls c ->
  let '(r, m') := cache_alloc h m (cache_addr c) in
  (r = 0 /\ m' = m /\ Q (c, false) = [] /\ forall s, ~ free_run h m s 1) \/
  exists SL' Q', heap_inv m' SL' Q' /\ r <> 0 /\ handed_out m SL r (size_of c) m' SL'.
Proof.
  intros Hinv Hc. pose proof (cache_alloc_pages_ok m SL Q c Hinv Hc) as H. destruct (cache_alloc h m (cache_addr c)) as [r m'].
  destruct H as [H|(SL' & Q' & H1 & H2 & H3 & _)]; [by left|right]. by exists SL', Q'.
Qed.

(** ** [cache_free] *)

(** What freeing does to the blocks: the one at [r] is gone, and only its own
    bytes and the allocator's were written. *)
Definition taken_back (m : mem) (SL : slabs) (r z : Z) (m' : mem) (SL' : slabs) : Prop :=
  (forall a y, live m' SL' a y <-> live m SL a y /\ a <> r) /\
  agree (fun b => ~ owned m SL b /\ ~ r <= b < r + z) m m'.

Definition give (m : mem) (slab ptr : Z) : mem :=
  let m := store64 m ptr (free_list m slab) in
  let m := store64 m (slab + 24) ptr in
  store32 m (slab + 32) (u32 (in_use m slab - 1)).

Section Give.
Context (m : mem) (SL : slabs) (Hly : layout caches h) (Hco : core m SL) (Hu : used SL).
Context (p c : Z) (fl : list Z) (k : Z).
Context (Hp : SL !! p = Some (c, fl)) (Hk : 0 <= k < max_objs c) (Hno : obj p c k ∉ fl).

Abbreviation o := (obj p c k).
Abbreviation m3 := (give m p o).
Definition SLg : slabs := <[p := (c, o :: fl)]> SL.

Lemma give_cls : cls c /\ slab_ok caches m p c fl /\ is_slab SL p /\ page_addr p /\
  p + 40 <= o /\ o + size_of c <= p + 4096 /\ 16 <= size_of c /\ Z.of_nat (length fl) < max_objs c.
Proof.
  destruct (co_slab _ _ _ _ Hco _ _ _ Hp) as [Hc Hok]. pose proof (obj_bounds p c k Hc Hk).
  destruct (size_facts c Hc). split_and!; try done; try lia.
  - by exists (c, fl).
  - apply (slab_node m SL Hly Hco). by exists (c, fl).
  - by eapply Hu.
Qed.

(** The header is found by rounding the pointer down. *)
Lemma give_slab : Z.land o PAGE_MASK = p.
Proof.
  destruct give_cls as (_ & _ & _ & [Hal Hr] & H1 & H2 & H3 & _). unfold PAGE_MASK, PAGE_SIZE.
  change (4096 - 1) with (2 ^ 12 - 1). rewrite land_lnot_ones by lia. zdiv.
Qed.

Lemma give_foot : agree (fun b => ~ p + 24 <= b < p + 36 /\ ~ o <= b < o + 8) m m3.
Proof.
  intros b Hb. unfold give. rewrite !load8_storen_ne by lia. done.
Qed.

Lemma give_agree : agree (fun b => ~ p + 16 <= b < p + 4096) m m3.
Proof.
  destruct give_cls as (_ & _ & _ & _ & H1 & H2 & H3 & _).
  eapply agree_weaken; [exact give_foot|]. intros b Hb. cbv beta in *. lia.
Qed.

Lemma give_fields :
  slab_ok caches m3 p c (o :: fl) /\ in_use m3 p = max_objs c - Z.of_nat (length (o :: fl)).
Proof.
  destruct give_cls as (Hc & [O1 O2 O3 O4 O5 O6] & _ & [_ Hpr] & H1 & H2 & H3 & H4).
  destruct (size_facts c Hc) as (_ & _ & Z2 & _).
  assert (Hf : free_list m3 p = o).
  { unfold give, free_list. rewrite loadn_storen_ne by lia. apply loadn_storen_eq. lia. }
  assert (Hin : in_use m3 p = max_objs c - Z.of_nat (length (o :: fl))).
  { unfold give, in_use at 1. rewrite loadn_storen_mod. unfold in_use in *.
    rewrite !loadn_storen_ne by lia. rewrite O3. cbn [length]. unfold u32.
    rewrite Z.mod_mod, Z.mod_small by lia. lia. }
  assert (Ho : load64 m3 o = free_list m p).
  { unfold give. rewrite !loadn_storen_ne by lia. apply loadn_storen_eq. apply load64_range. }
  split; [|exact Hin]. split; [..|exact Hin| | |].
  - unfold magic. rewrite <- O1. eapply agree_loadn; [exact give_foot|]. intros b Hb. cbv beta. lia.
  - unfold slab_cache. rewrite <- O2. eapply agree_loadn; [exact give_foot|]. intros b Hb. cbv beta. lia.
  - rewrite Hf. cbn [flist]. split; [done|]. rewrite Ho.
    eapply flist_agree; [exact give_foot| |exact O4]. intros a b Ha Hb. cbv beta.
    destruct (O6 a Ha) as (k' & Hk' & ->). assert (k <> k') by (intros ->; done).
    pose proof (obj_bounds p c k' Hc Hk'). pose proof (obj_disjoint p c k k' Hc ltac:(done)). lia.
  - apply NoDup_cons_2; done.
  - intros x [->|Hx]%elem_of_cons; [by exists k|by apply O6].
Qed.

Lemma SLg_other x : x <> p -> SLg !! x = SL !! x.
Proof. intros Hx. unfold SLg. by rewrite lookup_insert_ne. Qed.

Lemma SLg_p : SLg !! p = Some (c, o :: fl).
Proof. unfold SLg. by rewrite lookup_insert_eq. Qed.

Lemma SLg_dom x : is_slab SLg x <-> is_slab SL x.
Proof.
  unfold is_slab. destruct (decide (x = p)) as [->|Hne]; [|by rewrite SLg_other].
  rewrite SLg_p, Hp. split; by eexists.
Qed.

Lemma give_core : core m3 SLg.
Proof. by apply (core_update m SL Hly Hco m3 p c fl (o :: fl) Hp (proj1 give_fields) give_agree). Qed.

Lemma give_lists Q : lists_ok (is_slab SL) m Q -> lists_ok (is_slab SLg) m3 Q.
Proof.
  intros HL. apply (lists_update_slab m SL Hly Hco m3 Q p (c, o :: fl)); [apply give_cls|done|].
  exact give_agree.
Qed.

(** Objects of the other slabs, and of this one but [o]. *)
Lemma give_live_obj SL' a y :
  (forall x, x <> p -> SL' !! x = SL !! x) ->
  SL' !! p = Some (c, o :: fl) \/ SL' !! p = None /\ Z.of_nat (length (o :: fl)) = max_objs c ->
  live_obj SL' a y <-> live_obj SL a y /\ a <> o.
Proof.
  destruct give_cls as (Hc & Hok & Hsp & _ & H1 & H2 & H3 & _). intros HS HSp.
  assert (Hother : forall x c' fl' k', SL !! x = Some (c', fl') -> 0 <= k' < max_objs c' -> x <> p ->
            obj x c' k' <> o).
  { intros x c' fl' k' Hx Hk' Hne Heq. destruct (co_slab _ _ _ _ Hco _ _ _ Hx) as [Hc' _].
    pose proof (obj_bounds x c' k' Hc' Hk'). destruct (size_facts c' Hc').
    destruct (slab_apart m SL Hco x p ltac:(by exists (c', fl')) Hsp Hne); lia. }
  split.
  - intros (x & c' & fl' & k' & Hx & Hk' & -> & Hnf & ->). destruct (decide (x = p)) as [->|Hne].
    + destruct HSp as [HSp|[HSp _]]; rewrite HSp in Hx; [|done]. injection Hx as <- <-.
      rewrite elem_of_cons in Hnf. split; [exists p, c, fl, k'; split_and!; (done || lia || tauto)|tauto].
    + rewrite HS in Hx by done. split; [by exists x, c', fl', k'|by eapply Hother].
  - intros [(x & c' & fl' & k' & Hx & Hk' & -> & Hnf & ->) Hne]. destruct (decide (x = p)) as [->|Hxp].
    + rewrite Hp in Hx. injection Hx as <- <-. destruct HSp as [HSp|[_ Hfull]].
      * exists p, c, (o :: fl), k'. rewrite elem_of_cons. split_and!; (done || lia || tauto).
      * exfalso. (* all objects are free: [k'] is among them *)
        assert (Hsub : o :: fl ⊆+ all_objs p c).
        { apply NoDup_submseteq; [apply NoDup_cons_2; [done|apply (so_nodup _ _ _ _ _ Hok)]|].
          intros x Hx. apply elem_all_objs. apply elem_of_cons in Hx as [->|Hx]; [by exists k|].
          by apply (so_objs _ _ _ _ _ Hok). }
        assert (Hlen : length (all_objs p c) = length (o :: fl)).
        { unfold all_objs. rewrite length_fmap, length_seqZ. lia. }
        apply submseteq_length_Permutation in Hsub; [|lia].
        assert (Hin : obj p c k' ∈ o :: fl).
        { rewrite Hsub. apply elem_all_objs. by exists k'. }
        apply elem_of_cons in Hin as [?|?]; done.
    + exists x, c', fl', k'. rewrite HS by done. split_and!; (done || lia).
Qed.

(** Writing the slab, the links and the page table is the allocator's. *)
Lemma give_taken m' SL' :
  agree (fun b => ~ meta_byte h b /\ ~ link_byte (is_slab SL) b) m3 m' ->
  (forall i, meta_pages h <= i < T ->
     (page_type h m' i = PAGE_TYPE_LARGE <-> page_type h m i = PAGE_TYPE_LARGE) /\
     (page_type h m i = PAGE_TYPE_LARGE -> page_count h m' i = page_count h m i)) ->
  (forall x, x <> p -> SL' !! x = SL !! x) ->
  SL' !! p = Some (c, o :: fl) \/ SL' !! p = None /\ Z.of_nat (length (o :: fl)) = max_objs c ->
  taken_back m SL o (size_of c) m' SL'.
Proof.
  intros Hag Hpages HS HSp. destruct give_cls as (Hc & Hok & Hsp & _ & H1 & H2 & H3 & _). split.
  - intros a y. unfold HeapInv.live. rewrite (give_live_obj SL' a y HS HSp), (live_run_pages m m') by done.
    assert (Hr : live_run h m a y -> a <> o); [|tauto].
    intros Hr ->. assert (Hl : live m SL o y) by (by right).
    destruct Hr as (i & Hi & Ht & Hn & Ha & ->). destruct (meta_bounds caches h Hly) as [Hmp _].
    pose proof (slab_run_apart caches h m SL Hly Hco p c fl i Hp). unfold HeapInv.pg in *. lia.
  - intros b [Hb1 Hb2]. rewrite Hag, give_foot; [done|..].
    + split; [|lia]. intros Hin. apply Hb1. right; right; left. exists p, c, fl. split; [done|]. left. lia.
    + split; [intros Hin; apply Hb1; by left|]. intros Hin. by apply Hb1, link_owned.
Qed.

Lemma give_pages i : 0 <= i < T -> page_type h m3 i = page_type h m i /\ page_count h m3 i = page_count h m i.
Proof.
  destruct give_cls as (_ & _ & Hsp & _). apply pages_agree. eapply agree_weaken; [exact give_agree|].
  intros b Hb. pose proof (slab_above m SL Hly Hco p Hsp). unfold meta_byte in Hb. cbv beta. lia.
Qed.
End Give.

(** The page of an empty slab goes back. *)
Lemma core_release m m' SL p c fl i :
  layout caches h -> core m SL -> SL !! p = Some (c, fl) -> p = pg i -> meta_pages h <= i < T ->
  marked h i 1 PAGE_TYPE_FREE (fun _ => 0) m m' -> core m' (delete p SL).
Proof.
  intros Hly Hco Hp Hpi Hi Hmk. pose proof Hco as [H1 H2 H3 H4 H5 H6]. pose proof Hmk as (M1 & M2 & M3).
  destruct (meta_bounds caches h Hly) as [Hmp Hmb].
  assert (Ht : page_type h m i = PAGE_TYPE_SLAB).
  { apply H4; [lia|]. rewrite <- Hpi. by exists (c, fl). }
  destruct (H1 i ltac:(lia)) as (_ & _ & Hcnt & _). specialize (Hcnt Ht). split.
  - apply (pages_ok_free h m m' i); [done|lia|by rewrite Hcnt].
  - intros j Hj. rewrite M1, M2, !decide_False by lia. by apply H2.
  - intros x c' fl' Hx. apply lookup_delete_Some in Hx as [Hne Hx].
    destruct (H3 x c' fl' Hx) as [Hc' Hok']. split; [done|]. eapply slab_agree; [|exact Hok'].
    eapply agree_weaken; [exact M3|]. intros b Hb Hin.
    pose proof (slab_above m SL Hly Hco x ltac:(by exists (c', fl'))) as (Hab & _).
    assert (x <= b).
    { destruct Hb as [Hb|(o & Ho & Hb)]; [lia|].
      destruct (so_objs _ _ _ _ _ Hok' o Ho) as (k & Hk & ->). pose proof (obj_bounds x c' k Hc' Hk). lia. }
    unfold meta_byte in Hin. lia.
  - intros j Hj. rewrite M1. case_decide as D.
    + assert (j = i) as -> by lia. rewrite <- Hpi, lookup_delete_eq. split; [done|by intros []].
    + rewrite lookup_delete_ne; [by apply H4|]. rewrite Hpi. intros He%pg_inj. lia.
  - intros x [v Hx]. apply lookup_delete_Some in Hx as [_ Hx]. apply H5. by exists v.
  - intros c' Hc'. destruct (H6 c' Hc') as [<- <-]. unfold obj_size.
    destruct (cache_bounds caches h Hly c' Hc') as (C1 & C2 & _).
    pose proof (ly_apart _ _ Hly). pose proof (ly_meta _ _ Hly). pose proof (ly_end _ _ Hly).
    pose proof (ly_total _ _ Hly).
    split; (eapply agree_loadn; [exact M3|]); intros b Hb Hin; unfold meta_byte in Hin; lia.
Qed.

Lemma lists_narrow (N N' : Z -> Prop) m Q :
  lists_ok N m Q -> (forall q p, is_list q -> p ∈ Q q -> N' p) -> lists_ok N' m Q.
Proof. intros [H1 H2 H3 H4 H5] HN. split; eauto. Qed.

Lemma lists_meta m m' SL Q :
  layout caches h -> core m SL -> lists_ok (is_slab SL) m Q -> agree (fun b => ~ meta_byte h b) m m' ->
  lists_ok (is_slab SL) m' Q.
Proof.
  intros Hly Hco HL Hag. eapply lists_agree; [exact HL|]. eapply agree_weaken; [exact Hag|].
  intros b Hb Hm. by apply (meta_not_link m SL Hly Hco b Hm).
Qed.

Lemma free_empty m SL Q p c fl k :
  heap_inv m SL Q -> SL !! p = Some (c, fl) -> 0 <= k < max_objs c -> obj p c k ∉ fl ->
  Z.of_nat (length (obj p c k :: fl)) = max_objs c ->
  let m3 := give m p (obj p c k) in
  let m' := free_pages_backend h (remove m3 (head_addr caches (c, is_nil fl)) p) p in
  exists SL' Q', heap_inv m' SL' Q' /\ taken_back m SL (obj p c k) (size_of c) m' SL'.
Proof.
  intros [Hly Hco HL Hli Hu] Hp Hk Hno Hfull m3 m'.
  pose proof (give_core m SL Hly Hco Hu p c fl k Hp Hk Hno) as Hco3.
  pose proof (give_lists m SL Hly Hco Hu p c fl k Hp Hk Q HL) as HL3. fold m3 in Hco3, HL3.
  set (SL3 := SLg SL p c fl k) in *.
  assert (Hp3 : SL3 !! p = Some (c, obj p c k :: fl)) by apply SLg_p.
  assert (Hs3 : forall x, x <> p -> SL3 !! x = SL !! x) by (apply SLg_other).
  assert (HN : forall x, is_slab SL3 x -> away caches x) by (intros x; by apply (slab_node m3)).
  destruct (co_slab _ _ _ _ Hco _ _ _ Hp) as [Hc Hok]. set (q := (c, is_nil fl)).
  assert (Hq : is_list q) by done.
  assert (Hin : p ∈ Q q) by (apply Hli; [done|by exists fl]).
  apply list_elem_of_split in Hin as (l1 & l2 & HQ).
  destruct (remove_ok caches _ HN m3 Q q p l1 l2 HL3 Hq HQ) as [HL4 Hag4].
  set (m4 := remove m3 (head_addr caches q) p) in *.
  pose proof (core_links m3 SL3 Hly Hco3 m4 Hag4) as Hco4.
  destruct (co_dom _ _ _ _ Hco p) as (i & Hi & Hpi); [by exists (c, fl)|].
  destruct (meta_bounds caches h Hly) as [Hmp Hmb].
  assert (Ht4 : page_type h m4 i = PAGE_TYPE_SLAB).
  { apply (co_page _ _ _ _ Hco4); [lia|]. rewrite <- Hpi, Hp3. by eexists. }
  destruct (co_pages _ _ _ _ Hco4 i ltac:(lia)) as (_ & _ & Hcnt & Hend & _). specialize (Hcnt Ht4).
  pose proof (free_pages_ok h m4 p i (ly_end _ _ Hly) ltac:(destruct (ly_total _ _ Hly); lia) ltac:(lia)
                ltac:(rewrite Hpi; unfold HeapInv.pg; lia) Hend) as Hmk. rewrite Hcnt in Hmk.
  fold m' in Hmk. exists (delete p SL3), (<[q := l1 ++ l2]> Q).
  assert (Hno2 : p ∉ l1 ++ l2).
  { pose proof (lo_nodup _ _ _ _ HL q Hq) as Hnd. rewrite HQ in Hnd.
    rewrite <- Permutation_middle in Hnd. by apply list.NoDup_cons in Hnd as [? _]. }
  destruct (listed_drop SL (delete p SL3) Q p q l1 l2 Hli Hq HQ Hno2) as [Hli' Hnone].
  { intros x Hx. rewrite lookup_delete_ne by done. by apply Hs3. }
  { by rewrite lookup_delete_eq. }
  split; [split; [done|by eapply core_release|..|done|]|].
  - eapply lists_narrow; [eapply lists_meta; [done|exact Hco4|exact HL4|apply Hmk]|].
    intros q' x Hq' Hx. unfold is_slab. assert (x <> p) by (intros ->; by apply (Hnone q')).
    rewrite lookup_delete_ne by done. by apply (lo_node _ _ _ _ HL4 q').
  - intros x c' fl' Hx. apply lookup_delete_Some in Hx as [Hne Hx]. rewrite Hs3 in Hx by done. by eapply Hu.
  - apply (give_taken m SL Hly Hco Hu p c fl k Hp Hk Hno); fold m3.
    + intros b [Hb1 Hb2]. destruct Hmk as (_ & _ & Hm). rewrite Hm, Hag4; [done| |done].
      intros [H|(x & Hx & H)]; apply Hb2; [by left|right; exists x; split; [|done]].
      by apply (SLg_dom SL p c fl k Hp).
    + intros j Hj. destruct Hmk as (M1 & M2 & _). rewrite M1, M2.
      assert (H4 : page_type h m4 j = page_type h m j /\ page_count h m4 j = page_count h m j).
      { destruct (give_pages m SL Hly Hco Hu p c fl k Hp Hk j ltac:(lia)) as [<- <-]. fold m3.
        apply (pages_agree h m3 m4); [|lia]. eapply agree_weaken; [exact Hag4|].
        intros b Hb. by apply (meta_not_link m3 SL3 Hly Hco3). }
      destruct H4 as [H4 H4']. case_decide as D; [|by rewrite H4, H4'].
      assert (j = i) as -> by lia. rewrite <- H4, Ht4. done.
    + intros x Hx. rewrite lookup_delete_ne by done. by apply Hs3.
    + right. split; [by rewrite lookup_delete_eq|done].
Qed.

Lemma cache_free_ok m SL Q p c fl k :
  heap_inv m SL Q -> SL !! p = Some (c, fl) -> 0 <= k < max_objs c -> obj p c k ∉ fl ->
  let m' := cache_free h m (cache_addr c) (obj p c k) in
  exists SL' Q', heap_inv m' SL' Q' /\ taken_back m SL (obj p c k) (size_of c) m' SL'.
Proof.
  intros Hinv Hp Hk Hno m'. pose proof Hinv as [Hly Hco HL Hli Hu].
  destruct (co_slab _ _ _ _ Hco _ _ _ Hp) as [Hc Hok].
  destruct (give_fields m SL Hly Hco Hu p c fl k Hp Hk Hno) as [Hok3 Huse3].
  destruct (cache_bounds caches h Hly c Hc) as (_ & _ & _ & Hh).
  assert (Hh2 : cache_addr c + 8 = head_addr caches (c, true))
    by (unfold head_addr, HeapInv.cache_addr, sizeof_cache; simpl; lia).
  assert (Hnil : (free_list m p =? 0) = is_nil fl).
  { rewrite (flist_head _ _ _ (so_list _ _ _ _ _ Hok)). destruct fl as [|a fl]; [done|]. cbn [first is_nil].
    destruct (so_objs _ _ _ _ _ Hok a ltac:(left)) as (j & Hj & ->).
    pose proof (obj_bounds p c j Hc Hj).
    destruct (slab_node m SL Hly Hco p ltac:(by exists (c, obj p c j :: fl))) as [[_ ?] _].
    apply Z.eqb_neq. lia. }
  assert (Hcode : m' =
    if in_use (give m p (obj p c k)) p =? 0 then
      free_pages_backend h (remove (give m p (obj p c k)) (head_addr caches (c, is_nil fl)) p) p
    else if is_nil fl then push_front (remove (give m p (obj p c k)) (head_addr caches (c, true)) p) (head_addr caches (c, false)) p
    else give m p (obj p c k)).
  { unfold m', cache_free. rewrite (give_slab m SL Hly Hco Hu p c fl k Hp Hk), (so_magic _ _ _ _ _ Hok), Hnil.
    rewrite Z.eqb_refl. cbn [negb]. fold (give m p (obj p c k)). rewrite Hh2, Hh. by destruct (is_nil fl). }
  rewrite Hcode. clear Hcode m'. rewrite Huse3.
  destruct (max_objs c - Z.of_nat (length (obj p c k :: fl)) =? 0) eqn:E.
  { apply (free_empty m SL Q p c fl k Hinv Hp Hk Hno). lia. }
  pose proof (give_core m SL Hly Hco Hu p c fl k Hp Hk Hno) as Hco3.
  pose proof (give_lists m SL Hly Hco Hu p c fl k Hp Hk Q HL) as HL3.
  set (m3 := give m p (obj p c k)) in *. set (SL3 := SLg SL p c fl k) in *.
  assert (Hp3 : SL3 !! p = Some (c, obj p c k :: fl)) by apply SLg_p.
  assert (Hs3 : forall x, x <> p -> SL3 !! x = SL !! x) by (apply SLg_other).
  pose proof (fl_length _ _ _ _ _ Hc Hok3) as Hlen.
  assert (Hu3 : used SL3).
  { intros x c' fl' Hx. destruct (decide (x = p)) as [->|Hne].
    - rewrite Hp3 in Hx. injection Hx as <- <-. lia.
    - rewrite Hs3 in Hx by done. by eapply Hu. }
  assert (Htk : forall m', agree (fun b => ~ link_byte (is_slab SL3) b) m3 m' ->
            taken_back m SL (obj p c k) (size_of c) m' SL3).
  { intros m' Hag. apply (give_taken m SL Hly Hco Hu p c fl k Hp Hk Hno); fold m3; [| |done|by left].
    - eapply agree_weaken; [exact Hag|]. intros b [_ Hb] [H|(x & Hx & H)]; apply Hb; [by left|right].
      exists x. split; [|done]. by apply (SLg_dom SL p c fl k Hp).
    - intros i Hi. destruct (meta_bounds caches h Hly) as [Hmp _].
      destruct (give_pages m SL Hly Hco Hu p c fl k Hp Hk i ltac:(lia)) as [<- <-]. fold m3.
      destruct (pages_agree h m3 m') with (i := i) as [-> ->]; [|lia|done].
      eapply agree_weaken; [exact Hag|]. intros b Hb. by apply (meta_not_link m3 SL3 Hly Hco3). }
  destruct (is_nil fl) eqn:En.
  - destruct (move_ok m3 SL SL3 Q p c (obj p c k :: fl) (c, true)) as (Q' & Hco' & HL' & Hli' & Hag'); try done.
    { apply Hli; [done|]. exists fl. by rewrite En. }
    exists SL3, Q'. split; [by split|]. by apply Htk.
  - exists SL3, Q. split; [split; try done|by apply Htk].
    by apply (listed_same SL Q p c fl).
Qed.

End Ops.
End HeapSpec.
