(* ===== verification/Malloc.v ===== *)
(** * The heap's interface

    [malloc], [free], [calloc], [realloc] and [heap_init] against the set of
    live blocks. *)

From stdpp Require Import functions.
From S2P Require Import Prelude Memory CString Dll Heap HeapPages HeapLists HeapInv HeapSpec.

Module Malloc.
Import CString Heap HeapPages HeapLists HeapInv HeapSpec.

Section Api.
Context (caches : Z) (h : heap_state).

Abbreviation T := (total_pages h).
Abbreviation pg := (pg h).
Abbreviation core := (core caches h).
Abbreviation heap_inv := (heap_inv caches h).
Abbreviation lists_ok := (lists_ok caches).
Abbreviation cache_addr := (cache_addr caches).
Abbreviation owned := (owned caches h).
Abbreviation live := (live h).
Abbreviation handed_out := (handed_out caches h).
Abbreviation taken_back := (taken_back caches h).

(** ** Runs of pages *)

(** A change of the page table that gives and takes no slab page. *)
Lemma core_table m m' SL :
  layout caches h -> core m SL -> pages_ok h m' -> agree (fun b => ~ meta_byte h b) m m' ->
  (forall i, 0 <= i < meta_pages h -> page_type h m' i = page_type h m i /\ page_count h m' i = page_count h m i) ->
  (forall i, 0 <= i < T -> page_type h m' i = PAGE_TYPE_SLAB <-> page_type h m i = PAGE_TYPE_SLAB) ->
  core m' SL.
Proof.
  intros Hly [H1 H2 H3 H4 H5 H6] Hpo Hag Hmeta Hslab.
  assert (Hco : core m SL) by by split.
  destruct (meta_bounds caches h Hly) as [Hmp Hmb]. split; [done|..].
  - intros i Hi. destruct (Hmeta i Hi) as [-> ->]. by apply H2.
  - intros x c' fl' Hx. destruct (H3 x c' fl' Hx) as [Hc' Hok']. split; [done|].
    eapply slab_agree; [|exact Hok']. eapply agree_weaken; [exact Hag|]. intros b Hb Hin.
    pose proof (slab_above caches h m SL Hly Hco x ltac:(by exists (c', fl'))) as (Hab & _).
    assert (x <= b).
    { destruct Hb as [Hb|(o & Ho & Hb)]; [lia|].
      destruct (so_objs _ _ _ _ _ Hok' o Ho) as (k & Hk & ->). pose proof (obj_bounds x c' k Hc' Hk). lia. }
    unfold meta_byte in Hin. lia.
  - intros i Hi. rewrite Hslab by done. by apply H4.
  - exact H5.
  - intros c' Hc'. destruct (H6 c' Hc') as [<- <-]. unfold obj_size.
    destruct (cache_bounds caches h Hly c' Hc') as (C1 & C2 & _).
    pose proof (ly_apart _ _ Hly). pose proof (ly_meta _ _ Hly). pose proof (ly_end _ _ Hly).
    pose proof (ly_total _ _ Hly).
    split; (eapply agree_loadn; [exact Hag|]); intros b Hb Hin; unfold meta_byte in Hin; lia.
Qed.

Lemma inv_table m m' SL Q :
  heap_inv m SL Q -> pages_ok h m' -> agree (fun b => ~ meta_byte h b) m m' ->
  (forall i, 0 <= i < meta_pages h -> page_type h m' i = page_type h m i /\ page_count h m' i = page_count h m i) ->
  (forall i, 0 <= i < T -> page_type h m' i = PAGE_TYPE_SLAB <-> page_type h m i = PAGE_TYPE_SLAB) ->
  heap_inv m' SL Q.
Proof.
  intros [Hly Hco HL Hli Hu] Hpo Hag Hmeta Hslab. split; try done.
  - by eapply core_table.
  - by eapply lists_meta.
Qed.

Lemma alloc_run_ok m SL Q n :
  heap_inv m SL Q -> 0 < n ->
  let '(r, m') := alloc_pages_backend h m n PAGE_TYPE_LARGE in
  (r = 0 /\ m' = m /\ forall s, ~ free_run h m s n) \/
  exists SL' Q', heap_inv m' SL' Q' /\ r <> 0 /\ handed_out m SL r (4096 * n) m' SL' /\ takes_run h m m' n.
Proof.
  intros Hinv Hn. pose proof Hinv as [Hly Hco HL Hli Hu].
  pose proof Hly as [L1 L2 L3 L4 L5 L6 L7 L8 L9 L10].
  destruct (decide (n <= T)) as [Hnt|Hnt].
  2:{ rewrite alloc_pages_none by lia. left. split_and!; [done..|]. intros s (F1 & F2 & _). lia. }
  pose proof (alloc_pages_ok h m n PAGE_TYPE_LARGE ltac:(lia) ltac:(unfold PAGE_TYPE_LARGE; lia) ltac:(lia)
                ltac:(lia) ltac:(lia)) as H.
  destruct (alloc_pages_backend h m n PAGE_TYPE_LARGE) as [r m'].
  destruct H as [H|(s & Hr & Hfst & Hmk)]; [by left|right]. pose proof Hfst as [Hrun _].
  pose proof Hrun as (R1 & R2 & R3). pose proof Hmk as (M1 & M2 & M3). fold (pg s) in Hr.
  destruct (meta_bounds caches h Hly) as [Hmp Hmb].
  assert (Hsm : meta_pages h <= s).
  { destruct (decide (meta_pages h <= s)); [done|].
    destruct (co_meta _ _ _ _ Hco s ltac:(lia)) as [Ht _]. by rewrite R3 in Ht by lia. }
  exists SL, Q. split; [apply (inv_table m m' SL Q Hinv)|].
  - apply (pages_ok_alloc h m m' s n PAGE_TYPE_LARGE (co_pages _ _ _ _ Hco)); (done || by left).
  - done.
  - intros i Hi. by rewrite M1, M2, !decide_False by lia.
  - intros i Hi. rewrite M1. case_decide as D; [|done]. by rewrite R3.
  - split; [rewrite Hr; unfold HeapInv.pg; lia|]. split; [|right; exists s; split; [exact Hfst|]; intros i _ Ho; by rewrite M1, decide_False by done].
    split_and!.
    + intros a y. unfold HeapInv.live.
      assert (Hlr : live_run h m' a y <-> live_run h m a y \/ a = r /\ y = 4096 * n); [|rewrite Hlr; tauto].
      split.
      * intros (i & Hi & Ht & Hc & -> & ->). rewrite M1 in Ht. rewrite M2 in Hc. rewrite M2.
        case_decide as D; [|left; by exists i]. destruct (i =? s) eqn:E; [|lia]. right.
        assert (i = s) as -> by lia. done.
      * intros [(i & Hi & Ht & Hc & -> & ->)|[-> ->]].
        -- exists i. assert (~ s <= i < s + n) by (intros D; by rewrite R3 in Ht).
           rewrite M1, M2, !decide_False by done. done.
        -- exists s. rewrite M1, M2, !decide_True by lia. rewrite Z.eqb_refl. split_and!; (done || lia).
    + intros y Hl. rewrite Hr in Hl. pose proof (live_bounds caches h m SL Hly Hco _ y Hl).
      apply (live_not_owned caches h m SL Hly Hco (pg s) y (pg s) Hl); [lia|].
      right; right; right. exists s. split_and!; [lia|lia|apply R3; lia|lia|lia].
    + eapply agree_weaken; [exact M3|]. intros b Hb Hin. apply Hb. by left.
Qed.

(** ** [malloc] *)

(** The size class chosen: the smallest that fits. *)
Lemma class_of m SL size :
  core m SL -> 0 < size <= 2048 ->
  exists c, cls c /\ size <= size_of c /\ (0 < c -> size_of (c - 1) < size) /\
    for_exit 0 NUM_CACHE_SIZES (fun i (_ : unit) =>
      let c := caches + sizeof_cache * i in
      if size <=? obj_size m c then inr c else inl tt) tt = inr (cache_addr c).
Proof.
  intros Hco Hs.
  pose proof (for_exit_ind (fun i (_ : unit) => 0 < i -> size_of (i - 1) < size)
    (fun a => exists c, cls c /\ size <= size_of c /\ (0 < c -> size_of (c - 1) < size) /\ a = cache_addr c)
    0 NUM_CACHE_SIZES (fun i (_ : unit) =>
      let c := caches + sizeof_cache * i in
      if size <=? obj_size m c then inr c else inl tt) tt ltac:(unfold NUM_CACHE_SIZES; lia)
    (fun H => False_ind _ (Z.lt_irrefl 0 H))) as H.
  destruct (for_exit _ _ _ _) as [u|a].
  - exfalso. assert (Hlt : size_of (NUM_CACHE_SIZES - 1) < size); [|change (size_of (NUM_CACHE_SIZES - 1)) with 2048 in Hlt; lia].
    apply H; [|unfold NUM_CACHE_SIZES; lia]. clear H. intros i [] Hi Hlt. cbv zeta.
    destruct (co_size _ _ _ _ Hco i Hi) as [Hsz _]. fold (cache_addr i). rewrite Hsz.
    destruct (size <=? size_of i) eqn:E.
    + exists i. split_and!; (done || lia).
    + intros _. replace (i + 1 - 1) with i by lia. lia.
  - destruct H as (c & H1 & H2 & H3 & ->); [|by exists c]. intros i [] Hi Hlt. cbv zeta.
    destruct (co_size _ _ _ _ Hco i Hi) as [Hsz _]. fold (cache_addr i). rewrite Hsz.
    destruct (size <=? size_of i) eqn:E.
    + exists i. split_and!; (done || lia).
    + intros _. replace (i + 1 - 1) with i by lia. lia.
Qed.

(** Pages a request of [size] bytes may have to find. *)
Definition pages_needed (size : Z) : Z := if size <=? 2048 then 1 else (size + 4095) / 4096.

Lemma malloc_pages_ok m SL Q size :
  heap_inv m SL Q -> 0 <= size < 2 ^ 64 ->
  let '(r, m') := malloc caches h m size in
  (r = 0 /\ m' = m /\ (size = 0 \/ forall s, ~ free_run h m s (pages_needed size))) \/
  exists SL' Q' z, heap_inv m' SL' Q' /\ r <> 0 /\ size <= z /\ handed_out m SL r z m' SL' /\ takes_run h m m' (pages_needed size).
Proof.
  intros Hinv Hs. pose proof Hinv as [Hly Hco HL Hli Hu]. unfold malloc. unfold pages_needed.
  destruct (size =? 0) eqn:E0; [left; split_and!; [done|done|left; lia]|].
  destruct (size <=? 2048) eqn:E.
  - destruct (class_of m SL size Hco) as (c & Hc & Hfit & _ & Hsel); [lia|].
    cbv zeta in Hsel. rewrite Hsel.
    pose proof (cache_alloc_pages_ok caches h m SL Q c Hinv Hc) as H.
    destruct (cache_alloc h m (cache_addr c)) as [r m'].
    destruct H as [(H1 & H2 & _ & H3)|(SL' & Q' & H1 & H2 & H3)]; [left|right].
    + split_and!; [done|done|by right].
    + exists SL', Q', (size_of c). done.
  - unfold PAGE_SIZE. destruct (decide (size + 4096 - 1 < 2 ^ 64)) as [Hno|Hover].
    + rewrite u64_id by lia. replace (size + 4096 - 1) with (size + 4095) by lia.
      pose proof (alloc_run_ok m SL Q ((size + 4095) / 4096) Hinv ltac:(zdiv)) as H.
      destruct (alloc_pages_backend h m _ PAGE_TYPE_LARGE) as [r m'].
      destruct H as [(H1 & H2 & H3)|(SL' & Q' & H1 & H2 & H3)]; [left|right].
      * split_and!; [done|done|by right].
      * exists SL', Q', (4096 * ((size + 4095) / 4096)). split; [done|]. split; [done|]. split; [zdiv|done].
    + assert (Hz : u64 (size + 4096 - 1) / 4096 = 0) by wrap. rewrite Hz.
      destruct Hly as [_ _ L3 _ _ _ _ _ _ _].
      rewrite alloc_pages_none by lia. left. split_and!; [done|done|right]. intros s (F1 & F2 & _). zdiv.
Qed.

Lemma malloc_ok m SL Q size :
  heap_inv m SL Q -> 0 <= size < 2 ^ 64 ->
  let '(r, m') := malloc caches h m size in
  (r = 0 /\ m' = m /\ (size = 0 \/ forall s, ~ free_run h m s (pages_needed size))) \/
  exists SL' Q' z, heap_inv m' SL' Q' /\ r <> 0 /\ size <= z /\ handed_out m SL r z m' SL'.
Proof.
  intros Hinv Hs. pose proof (malloc_pages_ok m SL Q size Hinv Hs) as H. destruct (malloc caches h m size) as [r m'].
  destruct H as [H|(SL' & Q' & z & H1 & H2 & H3 & H4 & _)]; [by left|right]. by exists SL', Q', z.
Qed.

(** ** [free] *)

Lemma virt_page p i : layout caches h -> 0 <= i < T -> pg i <= p < pg i + 4096 -> virt_to_page_idx h p = i.
Proof.
  intros Hly Hi Hp. destruct Hly as [_ _ L3 L4 _ _ _ _ _ _]. apply page_idx; unfold HeapInv.pg in *; lia.
Qed.

Lemma free_run_ok m SL Q i :
  heap_inv m SL Q -> meta_pages h <= i < T -> page_type h m i = PAGE_TYPE_LARGE ->
  let m' := free_pages_backend h m (pg i) in
  heap_inv m' SL Q /\ taken_back m SL (pg i) (4096 * page_count h m i) m' SL.
Proof.
  intros Hinv Hi Ht m'. pose proof Hinv as [Hly Hco HL Hli Hu].
  destruct (meta_bounds caches h Hly) as [Hmp Hmb].
  destruct (co_pages _ _ _ _ Hco i ltac:(lia)) as (_ & _ & _ & Hend & _).
  pose proof (free_pages_ok h m (pg i) i (ly_end _ _ Hly) ltac:(destruct (ly_total _ _ Hly); lia) ltac:(lia)
                ltac:(unfold HeapInv.pg; lia) Hend) as Hmk. fold m' in Hmk. pose proof Hmk as (M1 & M2 & M3).
  assert (Hrun : forall j, i <= j < i + page_count h m i ->
            page_type h m j <> PAGE_TYPE_FREE /\ page_type h m j <> PAGE_TYPE_SLAB).
  { intros j Hj. by destruct (run_pages caches h m SL Hco i j ltac:(lia) Ht Hj) as (_ & ? & ?). }
  split.
  - apply (inv_table m m' SL Q Hinv).
    + by apply (pages_ok_free h m m' i (co_pages _ _ _ _ Hco)); [lia|].
    + done.
    + intros j Hj. by rewrite M1, M2, !decide_False by lia.
    + intros j Hj. rewrite M1. case_decide as D; [|done]. split; [done|]. by destruct (Hrun j D) as [_ ?].
  - split.
    + intros a y. unfold HeapInv.live.
      assert (Hlo : live_obj SL a y -> a <> pg i).
      { intros (p & c & fl & k & Hp & Hk & -> & _ & _).
        destruct (slab_page caches h m SL Hly Hco p c fl Hp) as (j & Hj & -> & Htj).
        destruct (co_slab _ _ _ _ Hco _ _ _ Hp) as [Hc _]. pose proof (obj_bounds (pg j) c k Hc Hk).
        destruct (size_facts c Hc). intros He. assert (j = i) as -> by (unfold HeapInv.pg in *; lia).
        by rewrite Ht in Htj. }
      assert (Hlr : live_run h m' a y <-> live_run h m a y /\ a <> pg i); [|rewrite Hlr; tauto].
      split.
      * intros (j & Hj & Htj & Hc & -> & ->). rewrite M1 in Htj. rewrite M2 in Hc. rewrite M2.
        case_decide as D; [done|]. split; [by exists j|]. intros He%pg_inj. subst j.
        lia.
      * intros [(j & Hj & Htj & Hc & -> & ->) Hne]. exists j. rewrite M1, M2.
        assert (j <> i) by (intros ->; done).
        assert (~ i <= j < i + page_count h m i).
        { intros D. destruct (co_pages _ _ _ _ Hco i ltac:(lia)) as (_ & _ & _ & _ & H5 & _).
          destruct (H5 j ltac:(lia)) as [_ H6]. lia. }
        by rewrite !decide_False.
    + eapply agree_weaken; [exact M3|]. intros b [Hb _] Hin. apply Hb. by left.
Qed.

Lemma free_block_ok m SL Q a z :
  heap_inv m SL Q -> live m SL a z ->
  let m' := free h m a in
  exists SL' Q', heap_inv m' SL' Q' /\ taken_back m SL a z m' SL'.
Proof.
  intros Hinv Hl m'. pose proof Hinv as [Hly Hco HL Hli Hu].
  destruct (meta_bounds caches h Hly) as [Hmp Hmb].
  pose proof (live_bounds caches h m SL Hly Hco a z Hl) as (B1 & _).
  assert (Ha0 : (a =? 0) = false).
  { apply Z.eqb_neq. pose proof (ly_pos _ _ Hly). unfold HeapInv.pg in B1. lia. }
  unfold m', free. rewrite Ha0.
  destruct Hl as [(p & c & fl & k & Hp & Hk & -> & Hno & ->)|(i & Hi & Ht & Hn & -> & ->)].
  - destruct (slab_page caches h m SL Hly Hco p c fl Hp) as (i & Hi & Hpi & Ht).
    destruct (co_slab _ _ _ _ Hco _ _ _ Hp) as [Hc Hok]. pose proof (obj_bounds p c k Hc Hk).
    destruct (size_facts c Hc). rewrite (virt_page _ i) by (try done; rewrite <- ?Hpi; lia).
    destruct (i <? T) eqn:E; [|lia]. rewrite Ht. change (PAGE_TYPE_SLAB =? PAGE_TYPE_SLAB) with true.
    cbv iota. rewrite (give_slab caches h m SL Hly Hco Hu p c fl k Hp Hk).
    rewrite (so_cache _ _ _ _ _ Hok). destruct (cache_bounds caches h Hly c Hc) as (_ & _ & Hcp & _).
    unfold nonzero. destruct (cache_addr c =? 0) eqn:Ez; [lia|]. cbn [negb].
    by apply (cache_free_ok caches h m SL Q p c fl k).
  - rewrite (virt_page _ i) by (try done; lia). destruct (i <? T) eqn:E; [|lia]. rewrite Ht.
    change (PAGE_TYPE_LARGE =? PAGE_TYPE_SLAB) with false.
    change (PAGE_TYPE_LARGE =? PAGE_TYPE_LARGE) with true. cbv iota.
    exists SL, Q. by apply free_run_ok.
Qed.
(** ** Writes by the program *)

(** The heap depends on the allocator's bytes only. *)
Lemma inv_write m m' SL Q :
  heap_inv m SL Q -> agree (owned m SL) m m' ->
  heap_inv m' SL Q /\ (forall a z, live m' SL a z <-> live m SL a z) /\
  (forall b, owned m' SL b <-> owned m SL b).
Proof.
  intros [Hly Hco HL Hli Hu] Hag. pose proof Hco as [H1 H2 H3 H4 H5 H6].
  assert (Hpgs : forall i, 0 <= i < T -> page_type h m' i = page_type h m i /\ page_count h m' i = page_count h m i).
  { apply pages_agree. eapply agree_weaken; [exact Hag|]. intros b Hb. by left. }
  pose proof (meta_bounds caches h Hly) as [Hmp _]. pose proof (ly_room _ _ Hly) as Hroom.
  split; [split; try done|split].
  - split.
    + exact (pages_ok_same h _ m' Hpgs H1).
    + intros i Hi. destruct (Hpgs i ltac:(lia)) as [-> ->]. by apply H2.
    + intros p c fl Hp. destruct (H3 p c fl Hp) as [Hc Hok]. split; [done|].
      eapply slab_agree; [|exact Hok]. eapply agree_weaken; [exact Hag|]. intros b Hb.
      right; right; left. exists p, c, fl. split; [done|]. destruct Hb as [Hb|Hb]; [left; lia|by right].
    + intros i Hi. destruct (Hpgs i Hi) as [-> _]. by apply H4.
    + exact H5.
    + intros c Hc. destruct (H6 c Hc) as [<- <-]. destruct (cache_bounds caches h Hly c Hc) as (C1 & C2 & _).
      unfold obj_size. split; (eapply agree_loadn; [exact Hag|]); intros b Hb; right; left; lia.
  - eapply lists_agree; [exact HL|]. eapply agree_weaken; [exact Hag|]. intros b. by apply link_owned.
  - intros a z. unfold HeapInv.live. rewrite (live_run_pages h m m'); [done|].
    intros i Hi. destruct (Hpgs i ltac:(lia)) as [-> ->]. done.
  - intros b. unfold HeapInv.owned.
    assert (Hfr : (exists i, 0 <= i < T /\ page_type h m' i = PAGE_TYPE_FREE /\ pg i <= b < pg i + 4096) <->
                  (exists i, 0 <= i < T /\ page_type h m i = PAGE_TYPE_FREE /\ pg i <= b < pg i + 4096)).
    { split; intros (i & Hi & Ht & Hb); exists i; destruct (Hpgs i Hi) as [E _];
        [rewrite <- E|rewrite E]; done. }
    rewrite Hfr. done.
Qed.

Lemma live_keeps m SL a z m' :
  layout caches h -> core m SL -> live m SL a z -> agree (fun b => ~ owned m SL b) m m' ->
  forall b, a <= b < a + z -> load8 m' b = load8 m b.
Proof. intros Hly Hco Hl Hag b Hb. apply Hag. by eapply live_not_owned. Qed.

(** ** [calloc] *)

Lemma calloc_ok m SL Q num size :
  heap_inv m SL Q -> 0 <= num -> 0 <= size -> num * size < 2 ^ 64 ->
  let '(r, m') := calloc caches h m num size in
  (r = 0 /\ m' = m /\ (num * size = 0 \/ forall s, ~ free_run h m s (pages_needed (num * size)))) \/
  exists SL' Q' z, heap_inv m' SL' Q' /\ r <> 0 /\ num * size <= z /\
    (forall a y, live m' SL' a y <-> live m SL a y \/ a = r /\ y = z) /\
    (forall y, ~ live m SL r y) /\
    (forall i, 0 <= i < num * size -> load8 m' (r + i) = 0) /\
    (forall a y b, live m SL a y -> a <= b < a + y -> load8 m' b = load8 m b).
Proof.
  intros Hinv Hn Hs Hlim. unfold calloc. rewrite u64_id by nia.
  pose proof (malloc_ok m SL Q (num * size) Hinv ltac:(nia)) as H.
  destruct (malloc caches h m (num * size)) as [r m1].
  destruct H as [(-> & -> & H)|(SL' & Q' & z & Hinv' & Hr & Hz & Hlive & Hnew & Hag)].
  { cbn [Z.eqb]. by left. }
  destruct (r =? 0) eqn:E; [lia|right].
  set (m2 := memset m1 r 0 (num * size)).
  pose proof Hinv as [Hly Hco _ _ _]. pose proof Hinv' as [_ Hco' _ _ _].
  assert (Hlr : live m1 SL' r z) by (apply Hlive; by right).
  assert (Hms : agree (outside r (r + num * size)) m1 m2) by (apply memset_agree; nia).
  destruct (inv_write m1 m2 SL' Q' Hinv') as (Hinv2 & Hl2 & _).
  { eapply agree_weaken; [exact Hms|]. intros b Hb. unfold outside.
    destruct (decide (r <= b < r + num * size)); [|lia].
    exfalso. by apply (live_not_owned caches h m1 SL' Hly Hco' r z b Hlr); [lia|]. }
  exists SL', Q', z. split_and!; [done|lia|done| |done| |].
  - intros a y. by rewrite Hl2.
  - intros i Hi. unfold m2. rewrite memset_spec by nia. by rewrite decide_True by lia.
  - intros a y b Hl Hb. rewrite Hms.
    + by eapply live_keeps.
    + assert (Hl1 : live m1 SL' a y) by (apply Hlive; by left). unfold outside.
      destruct (live_disjoint caches h m1 SL' Hly Hco' a y r z Hl1 Hlr) as [[-> _]|Hd]; [|lia].
      by apply Hnew in Hl.
Qed.

(** ** [realloc] *)

(** The size [realloc] reads off the allocator's data is the block's. *)
Lemma old_size_ok m SL Q a z :
  heap_inv m SL Q -> live m SL a z ->
  a <> 0 /\
  (let idx := virt_to_page_idx h a in
   if idx <? T then
     if page_type h m idx =? PAGE_TYPE_SLAB then
       let slab := Z.land a PAGE_MASK in
       if nonzero (slab_cache m slab) then obj_size m (slab_cache m slab) else 0
     else if page_type h m idx =? PAGE_TYPE_LARGE then page_count h m idx * PAGE_SIZE
     else 0
   else 0) = z.
Proof.
  intros Hinv Hl. pose proof Hinv as [Hly Hco HL Hli Hu].
  destruct (meta_bounds caches h Hly) as [Hmp Hmb].
  pose proof (live_bounds caches h m SL Hly Hco a z Hl) as (B1 & _).
  split; [pose proof (ly_pos _ _ Hly); unfold HeapInv.pg in B1; lia|].
  destruct Hl as [(p & c & fl & k & Hp & Hk & -> & Hno & ->)|(i & Hi & Ht & Hn & -> & ->)]; cbv zeta.
  - destruct (slab_page caches h m SL Hly Hco p c fl Hp) as (i & Hi & Hpi & Ht).
    destruct (co_slab _ _ _ _ Hco _ _ _ Hp) as [Hc Hok]. pose proof (obj_bounds p c k Hc Hk).
    destruct (size_facts c Hc). rewrite (virt_page _ i) by (try done; rewrite <- ?Hpi; lia).
    destruct (i <? T) eqn:E; [|lia]. rewrite Ht. change (PAGE_TYPE_SLAB =? PAGE_TYPE_SLAB) with true.
    cbv iota. rewrite (give_slab caches h m SL Hly Hco Hu p c fl k Hp Hk).
    rewrite (so_cache _ _ _ _ _ Hok). destruct (cache_bounds caches h Hly c Hc) as (_ & _ & Hcp & _).
    unfold nonzero. destruct (cache_addr c =? 0) eqn:Ez; [lia|]. cbn [negb].
    by apply (co_size _ _ _ _ Hco).
  - rewrite (virt_page _ i) by (try done; lia). destruct (i <? T) eqn:E; [|lia]. rewrite Ht.
    change (PAGE_TYPE_LARGE =? PAGE_TYPE_SLAB) with false.
    change (PAGE_TYPE_LARGE =? PAGE_TYPE_LARGE) with true. cbv iota. unfold PAGE_SIZE. lia.
Qed.

Lemma realloc_ok m SL Q a z new :
  heap_inv m SL Q -> live m SL a z -> 0 < new < 2 ^ 64 ->
  let '(r, m') := realloc caches h m a new in
  (new <= z /\ r = a /\ m' = m) \/
  (z < new /\ r = 0 /\ m' = m /\ forall s, ~ free_run h m s (pages_needed new)) \/
  z < new /\ r <> 0 /\ exists SL' Q' z', heap_inv m' SL' Q' /\ new <= z' /\
    (forall b y, live m SL b y -> r + z' <= b \/ b + y <= r) /\
    (forall b y, live m' SL' b y <-> (live m SL b y /\ b <> a) \/ b = r /\ y = z') /\
    (forall i, 0 <= i < z -> load8 m' (r + i) = load8 m (a + i)) /\
    (forall b y x, live m SL b y -> b <> a -> b <= x < b + y -> load8 m' x = load8 m x).
Proof.
  intros Hinv Hl Hn. destruct (old_size_ok m SL Q a z Hinv Hl) as [Ha0 Hold]. cbv zeta in Hold.
  unfold realloc. rewrite Hold. clear Hold. destruct (a =? 0) eqn:E0; [lia|].
  destruct (new =? 0) eqn:E1; [lia|]. destruct (new <=? z) eqn:E2; [left; split_and!; (done || lia)|].
  pose proof (malloc_ok m SL Q new Hinv ltac:(lia)) as H.
  destruct (malloc caches h m new) as [r m1].
  destruct H as [(-> & -> & Hwhy)|(SL1 & Q1 & z1 & Hinv1 & Hr & Hz & Hlive & Hnew & Hag)].
  { cbn [Z.eqb]. right; left. split_and!; [lia|done|done|]. destruct Hwhy; [lia|done]. }
  destruct (r =? 0) eqn:E3; [lia|]. right; right. split; [lia|]. split; [lia|].
  pose proof Hinv as [Hly Hco _ _ _]. pose proof Hinv1 as [_ Hco1 _ _ _].
  assert (Hlr : live m1 SL1 r z1) by (apply Hlive; by right).
  assert (Hla : live m1 SL1 a z) by (apply Hlive; by left).
  assert (Hra : r <> a) by (intros ->; by apply Hnew in Hl).
  destruct (live_disjoint caches h m1 SL1 Hly Hco1 r z1 a z Hlr Hla) as [[? _]|Hdis]; [done|].
  pose proof (live_bounds caches h m SL Hly Hco a z Hl) as (_ & _ & Hzp & _).
  pose proof (memcpy_moved m1 r a z ltac:(lia) ltac:(lia)) as Hcp.
  set (m2 := memcpy m1 r a z) in *.
  assert (Hag2 : agree (fun b => ~ r <= b < r + z) m1 m2).
  { intros b Hb. rewrite Hcp. by rewrite decide_False. }
  destruct (inv_write m1 m2 SL1 Q1 Hinv1) as (Hinv2 & Hl2 & Ho2).
  { eapply agree_weaken; [exact Hag2|]. intros b Hb Hin.
    by apply (live_not_owned caches h m1 SL1 Hly Hco1 r z1 b Hlr); [lia|]. }
  pose proof Hinv2 as [_ Hco2 _ _ _].
  destruct (free_block_ok m2 SL1 Q1 a z Hinv2) as (SL' & Q' & Hinv' & Hlive' & Hag'); [by apply Hl2|].
  exists SL', Q', z1. split_and!; [done|done|..].
  - intros b y Hb. assert (Hb1 : live m1 SL1 b y) by (apply Hlive; by left).
    destruct (live_disjoint caches h m1 SL1 Hly Hco1 r z1 b y Hlr Hb1) as [[-> _]|?]; [|done].
    by apply Hnew in Hb.
  - intros b y. rewrite Hlive', Hl2, Hlive. split; [tauto|]. intros [?|[-> ->]]; [tauto|].
    split; [by right|done].
  - intros i Hi. rewrite Hag'.
    + rewrite Hcp, decide_True by lia. replace (a + (r + i - r)) with (a + i) by lia.
      eapply live_keeps; [exact Hly|exact Hco|exact Hl|exact Hag|lia].
    + split; [|lia]. intros Hin. apply Ho2 in Hin.
      by apply (live_not_owned caches h m1 SL1 Hly Hco1 r z1 (r + i) Hlr); [lia|].
  - intros b y x Hb Hba Hx. assert (Hb1 : live m1 SL1 b y) by (apply Hlive; by left).
    destruct (live_disjoint caches h m1 SL1 Hly Hco1 b y r z1 Hb1 Hlr) as [[-> _]|Hd1];
      [by apply Hnew in Hb|].
    destruct (live_disjoint caches h m1 SL1 Hly Hco1 b y a z Hb1 Hla) as [[-> _]|Hd2]; [done|].
    rewrite Hag'.
    + rewrite Hag2 by lia. by eapply live_keeps.
    + split; [|lia]. intros Hin. apply Ho2 in Hin.
      by apply (live_not_owned caches h m1 SL1 Hly Hco1 b y x Hb1); [lia|].
Qed.
End Api.
(** ** [heap_init] *)

Section Init.
Context (caches start size : Z).

Let S := (start + 4095) / 4096 * 4096.
Let n := (size - (S - start)) / 4096.
Let h := HeapState S (S + 4096 * n) S n.

Context (Hs0 : 0 < start) (Hsz : S - start <= size) (Hlim : start + size < 2 ^ 48).
Context (Hn : (4 * n + 4095) / 4096 < n < 2 ^ 16).
Context (Hc8 : caches mod 8 = 0) (Hc : 0 < caches < 2 ^ 48).
Context (Hap : caches + 256 <= S \/ S + 4096 * n <= caches).

Lemma init_facts : 0 < n < 2 ^ 16 /\ S mod 4096 = 0 /\ start <= S < start + 4096 /\
  4096 * n <= size - (S - start).
Proof.
  assert (0 < n) by (clear -Hn; clearbody n; zdiv).
  split_and!; try lia; subst n S; clear; zdiv.
Qed.

Lemma init_layout : layout caches h.
Proof.
  destruct init_facts as (H1 & H2 & H3 & H4). revert H1 H2 H3 H4 Hn Hs0 Hlim Hap. subst h.
  clearbody n S. intros.
  split; unfold meta_pages; cbn [heap_start_addr heap_end_addr page_metadata total_pages];
    (done || lia).
Qed.

(** The page table after the memset and the reservation of its own pages. *)
Lemma init_pages m :
  let m1 := for_ 0 (meta_pages h) (fun i m => set_page h m i PAGE_TYPE_LARGE 1) (memset m S 0 (4 * n)) in
  (forall i, 0 <= i < n -> page_type h m1 i = (if i <? meta_pages h then PAGE_TYPE_LARGE else PAGE_TYPE_FREE) /\
     page_count h m1 i = if i <? meta_pages h then 1 else 0) /\
  agree (fun b => ~ meta_byte h b) m m1.
Proof.
  intros m1. destruct (meta_bounds caches h init_layout) as [Hmp _].
  assert (Hroom : meta_pages h < n) by apply (ly_room caches h init_layout).
  set (m0 := memset m S 0 (4 * n)) in m1.
  assert (Hmk : marked h 0 (meta_pages h) PAGE_TYPE_LARGE (fun _ => 1) m0 m1).
  { apply (for_ind (fun k m' => marked h 0 k PAGE_TYPE_LARGE (fun _ => 1) m0 m')); [lia|apply marked_0|].
    intros k m' Hk Hm. apply (marked_snoc h 0 k PAGE_TYPE_LARGE (fun _ => 1) m0 m'); try done; cbn [h total_pages]; lia. }
  destruct Hmk as (M1 & M2 & M3). split.
  - intros i Hi. rewrite M1, M2.
    assert (H0 : page_type h m0 i = 0 /\ page_count h m0 i = 0).
    { unfold page_type, page_count. cbn [h page_metadata]. split.
      - unfold m0. rewrite memset_spec by lia. by rewrite decide_True by lia.
      - apply memset_zero_loadn; lia. }
    destruct H0 as [-> ->]. destruct (i <? meta_pages h) eqn:E; [by rewrite !decide_True by lia|].
    by rewrite !decide_False by lia.
  - etrans; [|exact M3]. eapply agree_weaken; [apply memset_agree; lia|]. intros b Hb.
    unfold meta_byte, outside in *. cbn [h page_metadata total_pages] in Hb. lia.
Qed.

(** The caches, emptied. *)
Lemma init_caches m :
  let m2 := for_ 0 NUM_CACHE_SIZES (fun i m =>
      let c := caches + sizeof_cache * i in
      store64 (store64 (store64 (store64 m (c + 24) (default 0 (slab_sizes !! Z.to_nat i)))
        (c + 8) 0) c 0) (c + 16) 0) m in
  (forall c, cls c -> obj_size m2 (cache_addr caches c) = size_of c /\
     load64 m2 (cache_addr caches c) = 0 /\ load64 m2 (cache_addr caches c + 8) = 0 /\
     load64 m2 (cache_addr caches c + 16) = 0) /\
  agree (outside caches (caches + 256)) m m2.
Proof.
  set (Inv := fun (i : Z) (m' : mem) =>
    (forall c, 0 <= c < i -> obj_size m' (cache_addr caches c) = size_of c /\
       load64 m' (cache_addr caches c) = 0 /\ load64 m' (cache_addr caches c + 8) = 0 /\
       load64 m' (cache_addr caches c + 16) = 0) /\
    agree (outside caches (caches + 256)) m m').
  apply (for_ind Inv); [unfold NUM_CACHE_SIZES; lia|split; [lia|done]|].
  intros j m' Hj [H1 H2]. unfold NUM_CACHE_SIZES in Hj. cbv zeta.
  destruct (size_facts j Hj) as (Z1 & _ & _ & _ & ->). unfold Inv, obj_size, cache_addr, sizeof_cache in *.
  split.
  - intros c Hcj. destruct (decide (c = j)) as [->|Hne].
    + split_and!; by msimpl.
    + destruct (H1 c ltac:(lia)) as (<- & E1 & E2 & E3). split_and!; msimpl; done.
  - intros b Hb. unfold outside in Hb. rewrite !load8_storen_ne by lia. apply H2. unfold outside. lia.
Qed.

Lemma heap_init_ok h0 m :
  exists m', heap_init caches h0 m start size = (h, m') /\ heap_inv caches h m' ∅ (fun _ => []) /\
    (forall a z, ~ live h m' ∅ a z) /\
    (forall i, meta_pages h <= i < n -> page_type h m' i = PAGE_TYPE_FREE) /\
    agree (fun b => ~ owned caches h m' ∅ b) m m'.
Proof.
  pose proof init_layout as Hly. destruct (meta_bounds caches h Hly) as [Hmp Hmb].
  destruct init_facts as ([Hnn _] & _ & HSs & Hns). pose proof (ly_limit _ _ Hly) as Hlm.
  cbn [h heap_start_addr total_pages] in Hlm.
  assert (Hal : Z.land (u64 (start + PAGE_SIZE - 1)) PAGE_MASK = S).
  { unfold PAGE_MASK, PAGE_SIZE. rewrite u64_id by lia. change (4096 - 1) with (2 ^ 12 - 1).
    rewrite land_lnot_ones by lia. unfold S. zdiv. }
  set (m1 := for_ 0 (meta_pages h) (fun i m => set_page h m i PAGE_TYPE_LARGE 1) (memset m S 0 (4 * n))).
  destruct (init_pages m) as [Hpg Hag1]. fold m1 in Hpg, Hag1.
  set (m2 := for_ 0 NUM_CACHE_SIZES (fun i m =>
      let c := caches + sizeof_cache * i in
      store64 (store64 (store64 (store64 m (c + 24) (default 0 (slab_sizes !! Z.to_nat i)))
        (c + 8) 0) c 0) (c + 16) 0) m1).
  destruct (init_caches m1) as [Hca Hag2]. fold m2 in Hca, Hag2.
  assert (Hpg2 : forall i, 0 <= i < n -> page_type h m2 i = page_type h m1 i /\ page_count h m2 i = page_count h m1 i).
  { apply (pages_agree h). eapply agree_weaken; [exact Hag2|]. intros b Hb. unfold meta_byte, outside in *.
    cbn [h page_metadata total_pages] in Hb. clear -Hb Hap Hnn. lia. }
  exists m2. split.
  { unfold heap_init. rewrite Hal. rewrite (u64_id (S - start)) by lia.
    destruct (size <? S - start) eqn:E; [lia|]. unfold PAGE_SIZE. fold n.
    rewrite (u32_id n) by lia. destruct (n =? 0) eqn:E2; [lia|].
    rewrite (u32_id (n * 4096)), (u64_id (S + n * 4096)) by lia.
    replace (S + n * 4096) with (S + 4096 * n) by lia. fold h.
    assert (Hmpe : (n * 4 + 4096 - 1) / 4096 = meta_pages h).
    { unfold meta_pages. cbn [h total_pages]. f_equal. lia. }
    rewrite Hmpe. destruct (n <=? meta_pages h) eqn:E3; [pose proof (ly_room _ _ Hly); cbn [h total_pages] in *; lia|].
    by replace (n * 4) with (4 * n) by lia. }
  split; [split|split_and!].
  - done.
  - split.
    + intros i Hi. cbn [h total_pages] in Hi. destruct (Hpg2 i Hi) as [-> ->]. destruct (Hpg i Hi) as [-> ->].
      unfold PAGE_TYPE_FREE, PAGE_TYPE_SLAB, PAGE_TYPE_LARGE in *.
      destruct (i <? meta_pages h) eqn:E; split_and!; cbn [h total_pages]; try lia.
      intros _. exists i. destruct (Hpg2 i Hi) as [_ ->]. destruct (Hpg i Hi) as [_ ->]. rewrite E. lia.
    + intros i Hi. pose proof (ly_room _ _ Hly) as Hroom. cbn [h total_pages] in Hroom.
      destruct (Hpg2 i ltac:(lia)) as [-> ->]. destruct (Hpg i ltac:(lia)) as [-> ->].
      destruct (i <? meta_pages h) eqn:E; [done|lia].
    + intros p c fl Hp. by rewrite lookup_empty in Hp.
    + intros i Hi. cbn [h total_pages] in Hi. destruct (Hpg2 i Hi) as [-> _]. destruct (Hpg i Hi) as [-> _].
      rewrite lookup_empty. split; [|by intros []]. by destruct (i <? meta_pages h).
    + intros p [v Hp]. by rewrite lookup_empty in Hp.
    + intros c Hcc. by destruct (Hca c Hcc) as (H1 & _ & _ & H4).
  - split; try done.
    + intros [c b] Hq. destruct (Hca c Hq) as (_ & H2 & H3 & _). unfold head_addr. cbn [fst snd first].
      unfold cache_addr, sizeof_cache in *. destruct b; [done|]. by rewrite Z.add_0_r.
    + intros q _. constructor.
    + intros q p _ Hp. by apply elem_of_nil in Hp.
    + intros q q' p _ _ Hp. by apply elem_of_nil in Hp.
  - intros q p Hq. rewrite lookup_empty. split; [by intros ?%elem_of_nil|]. by intros (fl & [=] & _).
  - intros p c fl Hp. by rewrite lookup_empty in Hp.
  - intros a z [(p & c & fl & k & Hp & _)|(i & Hi & Ht & _)]; [by rewrite lookup_empty in Hp|].
    cbn [h total_pages] in Hi. destruct (Hpg2 i ltac:(lia)) as [E _]. rewrite E in Ht.
    destruct (Hpg i ltac:(lia)) as [E2 _]. rewrite E2 in Ht. destruct (i <? meta_pages h) eqn:E3; [lia|done].
  - intros i Hi. destruct (Hpg2 i ltac:(lia)) as [-> _]. destruct (Hpg i ltac:(lia)) as [-> _].
    destruct (i <? meta_pages h) eqn:E3; [lia|done].
  - intros b Hb. rewrite Hag2, Hag1; [done|..].
    + intros Hin. apply Hb. by left.
    + unfold outside. destruct (decide (caches <= b < caches + 256)); [|lia].
      exfalso. apply Hb. right; by left.
Qed.
End Init.
End Malloc.
