(* ===== verification/HeapTrace.v ===== *)
(** * The heap's contract

    An abstract heap is a finite map from the addresses of the blocks to their
    contents. [spec_step] says what a call may do to it; the theorems show that
    heap.c, run from [heap_init] by any client that keeps to the protocol,
    takes only such steps. *)

From S2P Require Import Prelude Memory CString Dll Heap HeapPages HeapLists HeapInv HeapSpec Malloc.

Module HeapTrace.
Import CString Heap HeapPages HeapLists HeapInv HeapSpec Malloc.

(** What a client does: the calls of heap.h, and accesses to its blocks. *)
Inductive op :=
| Malloc (size : Z)
| Calloc (num size : Z)
| Realloc (ptr size : Z)
| Free (ptr : Z)
| Read (ptr i : Z)
| Write (ptr i v : Z).

Definition exec (caches : Z) (h : heap_state) (m : mem) (o : op) : Z * mem :=
  match o with
  | Malloc size => malloc caches h m size
  | Calloc num size => calloc caches h m num size
  | Realloc ptr size => realloc caches h m ptr size
  | Free ptr => (0, free h m ptr)
  | Read ptr i => (load8 m (ptr + i), m)
  | Write ptr i v => (0, store8 m (ptr + i) v)
  end.

(** A client decides its next call from the results so far, latest first. *)
Fixpoint run (caches : Z) (h : heap_state) (client : list Z -> op) (n : nat) (rs : list Z) (m : mem)
  : list Z * mem :=
  match n with
  | O => (rs, m)
  | S n => let '(r, m) := exec caches h m (client rs) in run caches h client n (r :: rs) m
  end.

(** ** The specification *)

Abbreviation blocks := (gmap Z (list Z)).

Section Spec.
Context (lo hi : Z).

(** A block of the contents [l] at [r] that overlaps no other. *)
Definition fresh (B : blocks) (r : Z) (l : list Z) : Prop :=
  (lo <= r /\ r + Z.of_nat (length l) <= hi /\ r mod 8 = 0 /\ 0 < Z.of_nat (length l)) /\
  forall b l', B !! b = Some l' -> r + Z.of_nat (length l) <= b \/ b + Z.of_nat (length l') <= r.

Inductive spec_step (B : blocks) : op -> Z -> blocks -> Prop :=
| spec_malloc_null size : spec_step B (Malloc size) 0 B
| spec_malloc size r l :
    fresh B r l -> size <= Z.of_nat (length l) -> spec_step B (Malloc size) r (<[r:=l]> B)
| spec_calloc_null num size : spec_step B (Calloc num size) 0 B
| spec_calloc num size r l :
    fresh B r l -> num * size <= Z.of_nat (length l) ->
    (forall i, 0 <= i < num * size -> l !! Z.to_nat i = Some 0) ->
    spec_step B (Calloc num size) r (<[r:=l]> B)
| spec_realloc_malloc size r B' :
    spec_step B (Malloc size) r B' -> spec_step B (Realloc 0 size) r B'
| spec_realloc_free ptr B' :
    spec_step B (Free ptr) 0 B' -> spec_step B (Realloc ptr 0) 0 B'
| spec_realloc_fits ptr size l :
    B !! ptr = Some l -> size <= Z.of_nat (length l) -> spec_step B (Realloc ptr size) ptr B
| spec_realloc_null ptr size l :
    B !! ptr = Some l -> Z.of_nat (length l) < size -> spec_step B (Realloc ptr size) 0 B
| spec_realloc_moves ptr size l r l' :
    B !! ptr = Some l -> Z.of_nat (length l) < size ->
    fresh B r l' -> size <= Z.of_nat (length l') -> l `prefix_of` l' ->
    spec_step B (Realloc ptr size) r (<[r:=l']> (delete ptr B))
| spec_free_null : spec_step B (Free 0) 0 B
| spec_free ptr l : B !! ptr = Some l -> spec_step B (Free ptr) 0 (delete ptr B)
| spec_read ptr i l v :
    B !! ptr = Some l -> 0 <= i -> l !! Z.to_nat i = Some v -> spec_step B (Read ptr i) v B
| spec_write ptr i v l :
    B !! ptr = Some l -> 0 <= i < Z.of_nat (length l) ->
    spec_step B (Write ptr i v) 0 (<[ptr := <[Z.to_nat i := v]> l]> B).

Inductive spec_run (client : list Z -> op) : list Z -> blocks -> list Z -> blocks -> Prop :=
| spec_stop rs B : spec_run client rs B rs B
| spec_next rs B r B1 rs' B' :
    spec_step B (client rs) r B1 -> spec_run client (r :: rs) B1 rs' B' ->
    spec_run client rs B rs' B'.

(** The protocol: sizes are [size_t], and only blocks are freed, resized,
    read and written, the accesses inside their bounds. *)
Definition is_block (B : blocks) (ptr i : Z) : Prop :=
  exists l, B !! ptr = Some l /\ 0 <= i < Z.of_nat (length l).

Definition op_ok (B : blocks) (o : op) : Prop :=
  match o with
  | Malloc size => 0 <= size < 2 ^ 64
  | Calloc num size => 0 <= num /\ 0 <= size /\ num * size < 2 ^ 64
  | Realloc ptr size => (ptr = 0 \/ is_Some (B !! ptr)) /\ 0 <= size < 2 ^ 64
  | Free ptr => ptr = 0 \/ is_Some (B !! ptr)
  | Read ptr i => is_block B ptr i
  | Write ptr i v => is_block B ptr i /\ 0 <= v < 256
  end.

Definition well_behaved (client : list Z -> op) (rs : list Z) (B : blocks) : Prop :=
  forall rs' B', spec_run client rs B rs' B' -> op_ok B' (client rs').
End Spec.

(** ** The refinement *)

Section Refine.
Context (caches : Z) (h : heap_state).

Abbreviation pg := (pg h).
Abbreviation heap_inv := (heap_inv caches h).
Abbreviation owned := (owned caches h).
Abbreviation live := (live h).
Abbreviation lo := (pg (meta_pages h)).
Abbreviation hi := (heap_end_addr h).
Abbreviation fresh := (fresh lo hi).
Abbreviation spec_step := (spec_step lo hi).

Definition bytes (m : mem) (a z : Z) : list Z := arr 1 m a z.

Lemma bytes_keep m m' a z :
  (forall b, a <= b < a + z -> load8 m' b = load8 m b) -> bytes m' a z = bytes m a z.
Proof. intros H. apply arr_ext. intros i Hi. rewrite !loadn_1. apply H. lia. Qed.

Lemma length_bytes m a z : 0 <= z -> Z.of_nat (length (bytes m a z)) = z.
Proof. intros Hz. unfold bytes. rewrite length_arr. lia. Qed.

Lemma lookup_bytes m a z i : 0 <= i < z -> bytes m a z !! Z.to_nat i = Some (load8 m (a + i)).
Proof. intros Hi. unfold bytes. rewrite lookup_arr, loadn_1 by done. do 2 f_equal. lia. Qed.

(** The blocks are the live blocks, with the bytes memory holds. *)
Definition represents (m : mem) (SL : slabs) (B : blocks) : Prop :=
  (forall a z, live m SL a z -> B !! a = Some (bytes m a z)) /\
  (forall a l, B !! a = Some l -> live m SL a (Z.of_nat (length l))).

Definition refines (m : mem) (B : blocks) : Prop :=
  exists SL Q, heap_inv m SL Q /\ represents m SL B.

Section Steps.
Context (m : mem) (SL : slabs) (Q : Z * bool -> list Z) (B : blocks).
Context (Hinv : heap_inv m SL Q) (Hrep : represents m SL B).

Lemma block_live a l : B !! a = Some l ->
  live m SL a (Z.of_nat (length l)) /\ l = bytes m a (Z.of_nat (length l)).
Proof.
  intros Hl. destruct Hrep as [H1 H2]. pose proof (H2 a l Hl) as Hv. split; [done|].
  pose proof (H1 _ _ Hv) as E. rewrite Hl in E. by injection E.
Qed.

Lemma block_size a z z' : live m SL a z -> live m SL a z' -> z = z'.
Proof.
  intros H1 H2. destruct Hinv as [Hly Hco _ _ _].
  pose proof (live_bounds caches h m SL Hly Hco _ _ H1). pose proof (live_bounds caches h m SL Hly Hco _ _ H2).
  destruct (live_disjoint caches h m SL Hly Hco _ _ _ _ H1 H2) as [[_ ?]|]; [done|lia].
Qed.

(** A new block, the others kept. *)
Lemma represents_add m' SL' r z :
  (forall a y, live m' SL' a y <-> live m SL a y \/ a = r /\ y = z) ->
  (forall y, ~ live m SL r y) ->
  (forall a y b, live m SL a y -> a <= b < a + y -> load8 m' b = load8 m b) -> 0 <= z ->
  represents m' SL' (<[r := bytes m' r z]> B).
Proof.
  intros Hlive Hnew Hkeep Hz. destruct Hrep as [H1 H2]. split.
  - intros a y [Ha|[-> ->]]%Hlive; [|by rewrite lookup_insert_eq].
    rewrite lookup_insert_ne by (intros <-; by apply Hnew in Ha).
    rewrite (H1 a y Ha). f_equal. symmetry. apply bytes_keep. eauto.
  - intros a l. rewrite lookup_insert_Some. intros [[<- <-]|[Hne Hl]]; apply Hlive.
    + right. by rewrite length_bytes.
    + left. by apply H2.
Qed.

(** A block given back, the others kept. *)
Lemma represents_del m' SL' r :
  (forall a y, live m' SL' a y <-> live m SL a y /\ a <> r) ->
  (forall a y b, live m SL a y -> a <> r -> a <= b < a + y -> load8 m' b = load8 m b) ->
  represents m' SL' (delete r B).
Proof.
  intros Hlive Hkeep. destruct Hrep as [H1 H2]. split.
  - intros a y [Ha Hne]%Hlive. rewrite lookup_delete_ne by done.
    rewrite (H1 a y Ha). f_equal. symmetry. apply bytes_keep. eauto.
  - intros a l [Hne Hl]%lookup_delete_Some. apply Hlive. split; [by apply H2|done].
Qed.

(** A new block is fresh. *)
Lemma fresh_block m' SL' Q' r z l :
  heap_inv m' SL' Q' -> live m' SL' r z -> Z.of_nat (length l) = z ->
  (forall a y, live m SL a y -> a <> r -> live m' SL' a y) -> (forall y, ~ live m SL r y) ->
  fresh B r l.
Proof.
  intros [Hly Hco _ _ _] Hr <- Hl Hnew.
  pose proof (live_bounds caches h m' SL' Hly Hco _ _ Hr) as (B1 & B2 & B3 & B4).
  split; [split_and!; (done || lia)|]. intros b l' Hb. destruct (block_live b l' Hb) as [Hv _].
  assert (Hne : b <> r) by (intros ->; by apply Hnew in Hv).
  destruct (live_disjoint caches h m' SL' Hly Hco _ _ _ _ Hr (Hl _ _ Hv Hne)) as [[-> _]|?]; [done|lia].
Qed.
End Steps.

Lemma free_step m SL Q B ptr :
  heap_inv m SL Q -> represents m SL B -> ptr = 0 \/ is_Some (B !! ptr) ->
  exists B', spec_step B (Free ptr) 0 B' /\ refines (free h m ptr) B'.
Proof.
  intros Hinv Hrep [->|[l Hl]].
  { exists B. split; [constructor|]. by exists SL, Q. }
  pose proof Hinv as [Hly Hco _ _ _]. destruct (block_live m SL B Hrep ptr l Hl) as [Hv _].
  destruct (free_block_ok caches h m SL Q ptr _ Hinv Hv) as (SL' & Q' & Hinv' & Hlive & Hag).
  exists (delete ptr B). split; [by econstructor|]. exists SL', Q'. split; [done|].
  eapply represents_del; [done..|]. intros a y b Ha Hne Hb. apply Hag.
  split; [by eapply live_not_owned|].
  destruct (live_disjoint caches h m SL Hly Hco _ _ _ _ Ha Hv) as [[? _]|?]; [done|lia].
Qed.

Lemma malloc_step m SL Q B size :
  heap_inv m SL Q -> represents m SL B -> 0 <= size < 2 ^ 64 ->
  let '(r, m') := malloc caches h m size in
  exists B', spec_step B (Malloc size) r B' /\ refines m' B'.
Proof.
  intros Hinv Hrep Hs. pose proof (malloc_ok caches h m SL Q size Hinv Hs) as H.
  pose proof Hinv as [Hly Hco _ _ _]. destruct (malloc caches h m size) as [r m'].
  destruct H as [(-> & -> & _)|(SL' & Q' & z & Hinv' & _ & Hz & Hlive & Hnew & Hag)].
  { exists B. split; [constructor|]. by exists SL, Q. }
  assert (Hlr : live m' SL' r z) by (apply Hlive; by right).
  pose proof Hinv' as [_ Hco' _ _ _].
  pose proof (live_bounds caches h m' SL' Hly Hco' _ _ Hlr) as (_ & _ & Hz0 & _).
  exists (<[r := bytes m' r z]> B). split.
  - constructor; [|by rewrite length_bytes by lia].
    eapply (fresh_block m SL B Hrep m'); [done|done|by apply length_bytes; lia| |done].
    intros a y Ha _. apply Hlive. by left.
  - exists SL', Q'. split; [done|]. eapply represents_add; [done..| |lia].
    intros a y b Ha Hb. by eapply live_keeps.
Qed.

Lemma calloc_step m SL Q B num size :
  heap_inv m SL Q -> represents m SL B -> 0 <= num -> 0 <= size -> num * size < 2 ^ 64 ->
  let '(r, m') := calloc caches h m num size in
  exists B', spec_step B (Calloc num size) r B' /\ refines m' B'.
Proof.
  intros Hinv Hrep Hn Hs Hlim. pose proof (calloc_ok caches h m SL Q num size Hinv Hn Hs Hlim) as H.
  pose proof Hinv as [Hly Hco _ _ _]. destruct (calloc caches h m num size) as [r m'].
  destruct H as [(-> & -> & _)|(SL' & Q' & z & Hinv' & _ & Hz & Hlive & Hnew & H0 & Hkeep)].
  { exists B. split; [constructor|]. by exists SL, Q. }
  assert (Hlr : live m' SL' r z) by (apply Hlive; by right).
  pose proof Hinv' as [_ Hco' _ _ _].
  pose proof (live_bounds caches h m' SL' Hly Hco' _ _ Hlr) as (_ & _ & Hz0 & _).
  exists (<[r := bytes m' r z]> B). split.
  - constructor; [|by rewrite length_bytes by lia|].
    + eapply (fresh_block m SL B Hrep m'); [done|done|by apply length_bytes; lia| |done].
      intros a y Ha _. apply Hlive. by left.
    + intros i Hi. rewrite lookup_bytes by lia. f_equal. by apply H0.
  - exists SL', Q'. split; [done|]. eapply represents_add; [done..|lia].
Qed.

Lemma prefix_bytes m m' a r z z' : 0 <= z <= z' ->
  (forall i, 0 <= i < z -> load8 m' (r + i) = load8 m (a + i)) ->
  bytes m a z `prefix_of` bytes m' r z'.
Proof.
  intros Hz H. exists (bytes m' (r + z) (z' - z)). apply list_eq. intros k.
  destruct (decide (Z.of_nat k < z)) as [Hk|Hk].
  - rewrite lookup_app_l by (pose proof (length_bytes m a z); lia).
    replace k with (Z.to_nat (Z.of_nat k)) by lia. rewrite !lookup_bytes by lia. f_equal. apply H. lia.
  - pose proof (length_bytes m a z ltac:(lia)) as E1.
    rewrite lookup_app_r by lia. destruct (decide (Z.of_nat k < z')) as [Hk'|Hk'].
    + replace (k - length (bytes m a z))%nat with (Z.to_nat (Z.of_nat k - z)) by lia.
      replace k with (Z.to_nat (Z.of_nat k)) at 1 by lia. rewrite !lookup_bytes by lia.
      do 2 f_equal. lia.
    + pose proof (length_bytes m' r z' ltac:(lia)). pose proof (length_bytes m' (r + z) (z' - z) ltac:(lia)).
      rewrite !lookup_ge_None_2 by lia. done.
Qed.

Lemma realloc_step m SL Q B ptr size :
  heap_inv m SL Q -> represents m SL B -> ptr = 0 \/ is_Some (B !! ptr) -> 0 <= size < 2 ^ 64 ->
  let '(r, m') := realloc caches h m ptr size in
  exists B', spec_step B (Realloc ptr size) r B' /\ refines m' B'.
Proof.
  intros Hinv Hrep Hp Hs. destruct (decide (ptr = 0)) as [->|Hp0].
  { unfold realloc. cbn [Z.eqb]. pose proof (malloc_step m SL Q B size Hinv Hrep Hs) as H.
    destruct (malloc caches h m size) as [r m']. destruct H as (B' & H1 & H2). exists B'.
    split; [by constructor|done]. }
  destruct (decide (size = 0)) as [->|Hs0].
  { destruct (free_step m SL Q B ptr Hinv Hrep Hp) as (B' & H1 & H2).
    unfold realloc. destruct (ptr =? 0) eqn:E; [lia|]. cbn [Z.eqb]. exists B'. split; [by constructor|done]. }
  destruct Hp as [|[l Hl]]; [done|]. destruct (block_live m SL B Hrep ptr l Hl) as [Hv Hle].
  pose proof (realloc_ok caches h m SL Q ptr _ size Hinv Hv ltac:(lia)) as H.
  pose proof Hinv as [Hly Hco _ _ _]. destruct (realloc caches h m ptr size) as [r m'].
  destruct H as [(Hz & -> & ->)|[(Hz & -> & -> & _)|(Hz & _ & SL' & Q' & z' & Hinv' & Hz' & Hdis & Hlive & Hcp & Hkeep)]].
  - exists B. split; [by econstructor|]. by exists SL, Q.
  - exists B. split; [by econstructor|]. by exists SL, Q.
  - assert (Hlr : live m' SL' r z') by (apply Hlive; by right).
    pose proof Hinv' as [_ Hco' _ _ _].
    pose proof (live_bounds caches h m' SL' Hly Hco' _ _ Hlr) as (W1 & W2 & W3 & W4).
    assert (Hnew : forall y, ~ live m SL r y).
    { intros y Hy. pose proof (live_bounds caches h m SL Hly Hco _ _ Hy). specialize (Hdis _ _ Hy). lia. }
    assert (Hfr : fresh B r (bytes m' r z')).
    { split; rewrite length_bytes by lia; [split_and!; (done || lia)|].
      intros b l' Hb. apply (Hdis b). by apply (block_live m SL B Hrep). }
    exists (<[r := bytes m' r z']> (delete ptr B)). split.
    + econstructor; [done..|by rewrite length_bytes by lia|].
      rewrite Hle. apply prefix_bytes; [lia|done].
    + exists SL', Q'. split; [done|].
      assert (Hrp : ptr <> r) by (intros ->; by apply Hnew in Hv).
      destruct Hrep as [R1 R2]. split.
      * intros a y [[Ha Hne]|[-> ->]]%Hlive; [|by rewrite lookup_insert_eq].
        rewrite lookup_insert_ne by (intros <-; by apply Hnew in Ha).
        rewrite lookup_delete_ne by done. rewrite (R1 a y Ha). f_equal. symmetry.
        apply bytes_keep. eauto.
      * intros a l0. rewrite lookup_insert_Some. intros [[<- <-]|[Hne [Hne' Hl0]%lookup_delete_Some]]; apply Hlive.
        -- right. by rewrite length_bytes by lia.
        -- left. split; [by apply R2|done].
Qed.

Lemma access_step m SL Q B o :
  heap_inv m SL Q -> represents m SL B -> op_ok B o ->
  match o with Read _ _ | Write _ _ _ => True | _ => False end ->
  let '(r, m') := exec caches h m o in exists B', spec_step B o r B' /\ refines m' B'.
Proof.
  intros Hinv Hrep Hok Ho. destruct o as [| | | |ptr i|ptr i v]; try done; cbn [exec op_ok] in *; clear Ho.
  - destruct Hok as (l & Hl & Hi). destruct (block_live m SL B Hrep ptr l Hl) as [Hv Hle].
    exists B. split; [|by exists SL, Q]. econstructor; [done|lia|].
    by rewrite Hle, lookup_bytes by lia.
  - destruct Hok as [(l & Hl & Hi) Hv8]. destruct (block_live m SL B Hrep ptr l Hl) as [Hv Hle].
    pose proof Hinv as [Hly Hco _ _ _].
    destruct (inv_write caches h m (store8 m (ptr + i) v) SL Q Hinv) as (Hinv' & Hlive & _).
    { eapply agree_weaken; [apply agree_store8|]. intros b Hb. cbv beta in Hb. unfold outside.
      assert (~ b = ptr + i); [|lia]. intros ->.
      by apply (live_not_owned caches h m SL Hly Hco _ _ (ptr + i) Hv); [lia|]. }
    exists (<[ptr := <[Z.to_nat i := v]> l]> B). split; [by constructor|].
    exists SL, Q. split; [done|]. destruct Hrep as [R1 R2]. split.
    + intros a z Ha%Hlive. destruct (decide (a = ptr)) as [->|Hne].
      * rewrite lookup_insert_eq. f_equal. rewrite (block_size m SL Q Hinv ptr z _ Ha Hv). rewrite Hle at 1.
        unfold bytes. pose proof (arr_store 1 m ptr (Z.of_nat (length l)) i v Hi ltac:(lia)) as E.
        rewrite storen_1 in E. replace (ptr + Z.of_nat 1 * i) with (ptr + i) in E by lia. by rewrite E.
      * rewrite lookup_insert_ne by done. rewrite (R1 a z Ha). f_equal. symmetry. apply bytes_keep.
        intros b Hb. apply load8_store8_ne.
        destruct (live_disjoint caches h m SL Hly Hco _ _ _ _ Ha Hv) as [[? _]|?]; [done|lia].
    + intros a l0. rewrite lookup_insert_Some. intros [[<- <-]|[Hne Hl0]]; apply Hlive.
      * by rewrite length_insert.
      * by apply R2.
Qed.

(** One call. *)
Lemma exec_ok m B o : refines m B -> op_ok B o ->
  let '(r, m') := exec caches h m o in exists B', spec_step B o r B' /\ refines m' B'.
Proof.
  intros (SL & Q & Hinv & Hrep) Hok.
  destruct o; cbn [exec op_ok] in *.
  - exact (malloc_step m SL Q B size Hinv Hrep Hok).
  - destruct Hok as (H1 & H2 & H3). exact (calloc_step m SL Q B num size Hinv Hrep H1 H2 H3).
  - destruct Hok as [H1 H2]. exact (realloc_step m SL Q B ptr size Hinv Hrep H1 H2).
  - exact (free_step m SL Q B ptr Hinv Hrep Hok).
  - exact (access_step m SL Q B (Read ptr i) Hinv Hrep Hok I).
  - exact (access_step m SL Q B (Write ptr i v) Hinv Hrep Hok I).
Qed.

(** A slab in use has an object that is not on its free list. *)
Lemma spare_object c p fl : cls c -> Z.of_nat (length fl) < max_objs c ->
  exists k, 0 <= k < max_objs c /\ (obj p c k ∉ fl).
Proof.
  intros Hc Hlen. set (os := obj p c <$> seqZ 0 (max_objs c)).
  assert (Hnd : NoDup os).
  { apply NoDup_fmap_2_strong; [|apply NoDup_seqZ]. intros x y _ _. by apply obj_inj. }
  destruct (decide (Forall (fun o => o ∈ fl) os)) as [Hall|Hex].
  - exfalso. assert (Hsub : os ⊆+ fl).
    { apply NoDup_submseteq; [done|]. intros x Hx. rewrite list.Forall_forall in Hall. by apply Hall. }
    apply submseteq_length in Hsub. unfold os in Hsub. rewrite length_fmap, length_seqZ in Hsub. lia.
  - apply not_Forall_Exists in Hex; [|apply _]. apply list.Exists_exists in Hex.
    destruct Hex as (x & Hx & Hno). apply list_elem_of_fmap in Hx as (k & -> & Hk%elem_of_seqZ).
    exists k. split; [lia|done].
Qed.

Lemma no_blocks_free m :
  refines m ∅ -> forall i, meta_pages h <= i < total_pages h -> page_type h m i = PAGE_TYPE_FREE.
Proof.
  intros (SL & Q & Hinv & [R1 _]) i Hi. pose proof Hinv as [Hly Hco _ _ Hu].
  assert (Hno : forall a z, ~ live m SL a z).
  { intros a z Ha%R1. by rewrite lookup_empty in Ha. }
  destruct (meta_bounds caches h Hly) as [Hmp _].
  destruct (co_pages _ _ _ _ Hco i ltac:(lia)) as ([?|[Hs|Hlg]] & _ & _ & _ & _ & Hrun); [done|exfalso..].
  - apply (co_page _ _ _ _ Hco i ltac:(lia)) in Hs as [[c fl] Hp].
    destruct (co_slab _ _ _ _ Hco _ _ _ Hp) as [Hc _].
    destruct (spare_object c (pg i) fl Hc (Hu _ _ _ Hp)) as (k & Hk & Hno').
    apply (Hno (obj (pg i) c k) (size_of c)). left. by exists (pg i), c, fl, k.
  - destruct Hrun as (k & Hk & Hik); [by rewrite Hlg|].
    assert (Hmk : meta_pages h <= k).
    { destruct (decide (meta_pages h <= k)); [done|].
      destruct (co_meta _ _ _ _ Hco k ltac:(lia)) as [_ Hone]. lia. }
    apply (Hno (pg k) (4096 * page_count h m k)). right. exists k.
    destruct (co_pages _ _ _ _ Hco k ltac:(lia)) as (Hty & Hf & Hsl & _ & Hin & _).
    split_and!; [done|lia| |lia|done|done].
    destruct Hty as [Hty|[Hty|Hty]]; [specialize (Hf Hty); lia| |done].
    specialize (Hsl Hty). assert (k = i) as -> by lia. by rewrite Hlg in Hty.
Qed.

Lemma run_ok client n rs m B :
  refines m B -> well_behaved lo hi client rs B ->
  let '(rs', m') := run caches h client n rs m in
  exists B', spec_run lo hi client rs B rs' B' /\ refines m' B'.
Proof.
  revert rs m B. induction n as [|n IH]; intros rs m B Hr Hw; cbn [run].
  { exists B. split; [constructor|done]. }
  pose proof (exec_ok m B (client rs) Hr (Hw _ _ (spec_stop _ _ _ _ _))) as H.
  destruct (exec caches h m (client rs)) as [r m1]. destruct H as (B1 & Hst & Hr1).
  specialize (IH (r :: rs) m1 B1 Hr1). destruct (run _ _ _ _ _ _) as [rs' m'].
  destruct IH as (B' & Hrun & Hr').
  { intros rs2 B2 H2. apply Hw. by econstructor. }
  exists B'. split; [by econstructor|done].
Qed.

Lemma misaligned_ok m B size :
  refines m B -> 0 < size <= 2048 ->
  let '(r, m') := malloc caches h m size in r = 0 \/ r mod 16 = 8.
Proof.
  intros (SL & Q & Hinv & _) Hs. pose proof Hinv as [Hly Hco _ _ _].
  unfold malloc. destruct (size =? 0) eqn:E0; [lia|]. destruct (size <=? 2048) eqn:E; [|lia].
  destruct (class_of caches h m SL size Hco) as (c & Hc & Hfit & _ & Hsel); [lia|].
  cbv zeta in Hsel. rewrite Hsel.
  pose proof (cache_alloc_ok caches h m SL Q c Hinv Hc) as H.
  destruct (cache_alloc h m (cache_addr caches c)) as [r m'].
  destruct H as [(H1 & _)|(SL' & Q' & [Hly' Hco' _ _ _] & _ & Hlive & _)]; [by left|right].
  assert (Hr : live m' SL' r (size_of c)) by (apply Hlive; by right).
  destruct (size_facts c Hc) as (Z1 & _).
  destruct Hr as [(p & c' & fl & k & Hp & Hk & -> & _ & _)|(i & _ & _ & Hcnt & _ & Hz)]; [|lia].
  destruct (slab_page caches h m' SL' Hly' Hco' p c' fl Hp) as (i & _ & -> & _).
  destruct (co_slab _ _ _ _ Hco' _ _ _ Hp) as [Hc' _]. pose proof (ly_start _ _ Hly').
  unfold obj, sizeof_slab, HeapInv.pg. clear -Hc' H.
  assert (size_of c' mod 16 = 0) by (destruct (cls_cases c' Hc') as [->|[->|[->|[->|[->|[->|[->| ->]]]]]]]; done).
  assert (Hk : exists q, size_of c' = 16 * q) by (exists (size_of c' / 16); zdiv). destruct Hk as [q ->].
  replace (k * (16 * q)) with (16 * (k * q)) by lia. generalize (k * q). intros w. zdiv.
Qed.
End Refine.

(** An invariant shows a client to be well behaved. *)
Lemma well_behaved_by (lo hi : Z) client (I : list Z -> blocks -> Prop) rs B :
  I rs B -> (forall rs B, I rs B -> op_ok B (client rs)) ->
  (forall rs B r B', I rs B -> spec_step lo hi B (client rs) r B' -> I (r :: rs) B') ->
  well_behaved lo hi client rs B.
Proof.
  intros H0 Hok Hstep rs' B' Hrun. induction Hrun as [rs B|rs B r B1 rs' B' Hs Hrun IH]; [by apply Hok|].
  apply IH. by eapply Hstep.
Qed.

(** ** The properties *)

(** [r] is the address of the first run of [n] free pages, and [m'] is [m] with
    the run recorded in the page table. *)
Definition took_first_run (h : heap_state) (m : mem) (n type r : Z) (m' : mem) : Prop :=
  exists s, r = heap_start_addr h + 4096 * s /\ free_run h m s n /\ (forall s', s' < s -> ~ free_run h m s' n) /\
    (forall j, page_type h m' j = if decide (s <= j < s + n) then type else page_type h m j) /\
    (forall j, page_count h m' j = if decide (s <= j < s + n) then (if j =? s then n else 0) else page_count h m j) /\
    (forall b, outside (page_metadata h) (page_metadata h + 4 * total_pages h) b -> load8 m' b = load8 m b).

(** NULL, an address outside the window, one in a free page, or one in a large
    block beyond its first page. *)
Definition no_block_at (h : heap_state) (m : mem) (ptr : Z) : Prop :=
  ptr = 0 \/ outside (heap_start_addr h) (heap_end_addr h) ptr \/
  exists i, 0 <= i < total_pages h /\ heap_start_addr h + 4096 * i <= ptr < heap_start_addr h + 4096 * (i + 1) /\
    (page_type h m i = PAGE_TYPE_FREE \/ page_type h m i = PAGE_TYPE_LARGE /\ page_count h m i = 0).

(** C4 Whatever a client does through heap.h, as long as it frees, resizes and
    accesses only its own blocks, inside their bounds, its results are those of
    the abstract heap: the blocks are 8-aligned, lie inside the window, never
    overlap, hold at least the bytes asked for and keep their contents through
    every other call; calloc's are zero and realloc's start with the old bytes. *)
Theorem heap_trace_refines caches h client n rs m B :
  refines caches h m B ->
  well_behaved (pg h (meta_pages h)) (heap_end_addr h) client rs B ->
  let '(rs', m') := run caches h client n rs m in
  exists B', spec_run (pg h (meta_pages h)) (heap_end_addr h) client rs B rs' B' /\ refines caches h m' B'.
Proof. intros Hr Hw. exact (run_ok caches h client n rs m B Hr Hw). Qed.

(** [heap_init] on a window of memory sets up a heap with no blocks, every page
    beyond the page table free, and touches only the window's page-aligned part
    and the caches. *)
Lemma heap_init_refines caches h0 m start size :
  let base := (start + 4095) / 4096 * 4096 in
  let n := (size - (base - start)) / 4096 in
  0 < start -> base - start <= size -> start + size < 2 ^ 48 -> (4 * n + 4095) / 4096 < n < 2 ^ 16 ->
  caches mod 8 = 0 -> 0 < caches < 2 ^ 48 -> caches + 256 <= base \/ base + 4096 * n <= caches ->
  let '(h, m') := heap_init caches h0 m start size in
  h = HeapState base (base + 4096 * n) base n /\ refines caches h m' ∅ /\
  (forall i, meta_pages h <= i < n -> page_type h m' i = PAGE_TYPE_FREE) /\
  (forall b, outside base (base + 4096 * n) b -> outside caches (caches + 256) b -> load8 m' b = load8 m b).
Proof.
  intros base n H1 H2 H3 H4 H5 H6 H7.
  destruct (heap_init_ok caches start size H1 H2 H3 H4 H5 H6 H7 h0 m) as (m' & -> & Hinv & Hno & Hfree & Hag).
  split_and!; [done| |exact Hfree|].
  - eexists ∅, _. split; [exact Hinv|]. split; [by intros a z ?%Hno|]. intros a l Hl. by rewrite lookup_empty in Hl.
  - intros b Hb Hc. apply Hag. unfold outside in *.
    intros [Hm|[Hm|[(p & c & fl & Hp & _)|(i & Hi & _ & Hm)]]].
    + unfold meta_byte in Hm. cbn [page_metadata total_pages] in Hm. fold base n in Hm. lia.
    + lia.
    + by rewrite lookup_empty in Hp.
    + unfold pg in Hm. cbn [heap_start_addr total_pages] in *. fold base n in Hm, Hi. lia.
Qed.

(** C9 Nothing leaks and nothing stays fragmented: when every block has been
    freed every page beyond the page table is free again, and any request that
    fits the window succeeds. *)
Theorem heap_no_leak caches h m size :
  refines caches h m ∅ -> 0 < size < 2 ^ 64 -> pages_needed size <= total_pages h - meta_pages h ->
  (forall i, meta_pages h <= i < total_pages h -> page_type h m i = PAGE_TYPE_FREE) /\
  (malloc caches h m size).1 <> 0.
Proof.
  intros Hr Hs Hfit. pose proof (no_blocks_free caches h m Hr) as Hfree. split; [exact Hfree|].
  destruct Hr as (SL & Q & Hinv & _). pose proof (malloc_ok caches h m SL Q size Hinv ltac:(lia)) as H.
  destruct (meta_bounds caches h (hi_layout _ _ _ _ _ Hinv)) as [Hmp _].
  destruct (malloc caches h m size) as [r m']. cbn [fst].
  destruct H as [(_ & _ & [?|Hno])|(SL' & Q' & z & _ & Hr & _)]; [lia| |exact Hr].
  exfalso. apply (Hno (meta_pages h)). split; [lia|]. split; [lia|]. intros j Hj. apply Hfree. lia.
Qed.

(** C12 [malloc] gives up, and then changes nothing, only for a request of zero
    bytes or when no run of free pages is long enough for it. *)
Theorem malloc_fails_only_full caches h m B size :
  refines caches h m B -> 0 <= size < 2 ^ 64 ->
  let '(r, m') := malloc caches h m size in
  r = 0 -> m' = m /\ (size = 0 \/ forall s, ~ free_run h m s (pages_needed size)).
Proof.
  intros (SL & Q & Hinv & _) Hs. pose proof (malloc_ok caches h m SL Q size Hinv Hs) as H.
  destruct (malloc caches h m size) as [r m'].
  destruct H as [(_ & -> & H)|(SL' & Q' & z & _ & Hr & _)]; [done|done].
Qed.

(** [alloc_pages_backend] finds the first run of free pages of the length
    asked for and records it in the page table, or finds none because there is
    none and changes nothing. *)
Theorem alloc_pages_first_fit h m n type :
  0 < n < 2 ^ 16 -> 0 <= type < 256 -> 0 <= total_pages h < 2 ^ 32 ->
  0 <= heap_start_addr h -> heap_start_addr h + 4096 * total_pages h < 2 ^ 64 ->
  let '(r, m') := alloc_pages_backend h m n type in
  (r = 0 /\ m' = m /\ forall s, ~ free_run h m s n) \/ took_first_run h m n type r m'.
Proof.
  intros H1 H2 H3 H4 H5. pose proof (alloc_pages_ok h m n type H1 H2 H3 H4 H5) as H.
  destruct (alloc_pages_backend h m n type) as [r m'].
  destruct H as [H|(s & Hr & [Hf Hfst] & M1 & M2 & M3)]; [by left|right]. exists s.
  split_and!; [exact Hr|exact Hf|exact Hfst|exact M1|exact M2|].
  intros b Hb. apply M3. unfold meta_byte, outside in *. lia.
Qed.

(** [free] leaves the heap alone for NULL, for a pointer outside the window,
    for one into a free page and for one into a large block beyond its first
    page. *)
Theorem free_rejects h m ptr :
  heap_end_addr h = heap_start_addr h + 4096 * total_pages h -> total_pages h < 2 ^ 32 - 1 ->
  no_block_at h m ptr ->
  free h m ptr = m.
Proof.
  intros He HT H. unfold free. destruct (ptr =? 0) eqn:E0; [done|].
  destruct H as [?|[Ho|(i & Hi & Hp & Hty)]]; [lia| |].
  - unfold virt_to_page_idx, outside in *.
    assert (Hf : ((ptr <? heap_start_addr h) || (heap_end_addr h <=? ptr)) = true) by lia. rewrite Hf.
    assert (Hu : u32 (-1) = 2 ^ 32 - 1) by done. rewrite Hu.
    destruct (_ <? total_pages h) eqn:E; [lia|done].
  - rewrite (page_idx h ptr i He ltac:(lia) Hi Hp). destruct (i <? total_pages h) eqn:E; [|done].
    destruct Hty as [->|[-> Hc]]; [done|].
    change (PAGE_TYPE_LARGE =? PAGE_TYPE_SLAB) with false.
    change (PAGE_TYPE_LARGE =? PAGE_TYPE_LARGE) with true. cbv iota.
    unfold free_pages_backend. rewrite (page_idx h ptr i He ltac:(lia) Hi Hp). rewrite Hc.
    by destruct (_ <=? _).
Qed.

(** Every block of at most 2048 bytes starts 8 bytes past a multiple of 16,
    so none has the 16-byte alignment the AArch64 ABI gives [max_align_t]. *)
Theorem malloc_misaligned caches h m B size :
  refines caches h m B -> 0 < size <= 2048 ->
  let '(r, _) := malloc caches h m size in r = 0 \/ r mod 16 = 8.
Proof.
  intros Hr Hs. pose proof (misaligned_ok caches h m B size Hr Hs) as H.
  destruct (malloc caches h m size) as [r m']. exact H.
Qed.

(** ** Witnesses: a heap of sixteen pages *)

Definition demo_caches : Z := 0x1000.
Definition demo_h : heap_state := HeapState 0x50000000 0x50010000 0x50000000 16.
Definition demo_m : mem := (heap_init demo_caches boot_state ∅ 0x50000000 0x10000).2.

Lemma demo_refines : refines demo_caches demo_h demo_m ∅.
Proof.
  destruct (heap_init_ok demo_caches 0x50000000 0x10000 ltac:(lia) ltac:(by vm_compute) ltac:(lia)
    ltac:(by vm_compute) ltac:(done) ltac:(by vm_compute) ltac:(left; by vm_compute) boot_state ∅)
    as (m' & E & Hinv & Hno & _).
  unfold demo_m. rewrite E. eexists ∅, _. split; [exact Hinv|].
  split; [by intros a z ?%Hno|]. intros a l Hl. by rewrite lookup_empty in Hl.
Qed.

(** Allocate, write, read back, grow, read again, free. *)
Definition demo_client (rs : list Z) : op :=
  match rs with
  | [] => Malloc 100
  | [r] => if r =? 0 then Malloc 0 else Write r 5 42
  | [_; r] => if r =? 0 then Malloc 0 else Realloc r 3000
  | [q; _; r] => if q =? 0 then Malloc 0 else if r =? 0 then Malloc 0 else Read q 5
  | [_; q; _; r] => if q =? 0 then Malloc 0 else if r =? 0 then Malloc 0 else Free q
  | _ => Calloc 2 8
  end.

Definition demo_inv (rs : list Z) (B : blocks) : Prop :=
  let blk r := r = 0 \/ exists l, B !! r = Some l /\ 5 < Z.of_nat (length l) in
  match rs with
  | [r] | [_; r] => blk r
  | [q; _; r] | [_; q; _; r] => r = 0 \/ blk q
  | _ => True
  end.

Lemma demo_behaves lo hi : well_behaved lo hi demo_client [] ∅.
Proof.
  apply (well_behaved_by lo hi demo_client demo_inv); [done| |].
  - intros [|r [|r1 [|r2 [|r3 [|r4 rs]]]]] B HI; cbn [demo_client op_ok demo_inv] in *; try lia.
    + destruct (r =? 0) eqn:E; [cbn [op_ok]; lia|]. destruct HI as [?|(l & Hl & Hn)]; [lia|].
      cbn [op_ok]. split; [|lia]. exists l. split; [done|lia].
    + destruct (r1 =? 0) eqn:E; [cbn [op_ok]; lia|]. destruct HI as [?|(l & Hl & Hn)]; [lia|].
      cbn [op_ok]. split; [right; by exists l|lia].
    + destruct (r =? 0) eqn:E; [cbn [op_ok]; lia|]. destruct (r2 =? 0) eqn:E2; [cbn [op_ok]; lia|].
      destruct HI as [?|[?|(l & Hl & Hn)]]; [lia..|]. cbn [op_ok]. exists l. split; [done|lia].
    + destruct (r1 =? 0) eqn:E; [cbn [op_ok]; lia|]. destruct (r3 =? 0) eqn:E2; [cbn [op_ok]; lia|].
      destruct HI as [?|[?|(l & Hl & Hn)]]; [lia..|]. cbn [op_ok]. right. by exists l.
  - intros [|r [|r1 [|r2 [|r3 [|r4 rs]]]]] B v B' HI Hs; cbn [demo_client demo_inv] in *; try done.
    + inversion Hs as [|size r' l Hf Hsz| | | | | | | | | | |]; subst; [by left|right].
      exists l. rewrite lookup_insert_eq. split; [done|lia].
    + destruct (r =? 0) eqn:E; [left; lia|]. destruct HI as [?|(l & Hl & Hn)]; [lia|right].
      inversion Hs; subst. eexists. rewrite lookup_insert_eq. split; [done|]. rewrite length_insert.
      congruence || (match goal with H : B !! r = Some ?l' |- _ => rewrite Hl in H; injection H as <- end; lia).
    + destruct (r1 =? 0) eqn:E; [left; lia|]. destruct HI as [?|(l & Hl & Hn)]; [lia|].
      right. inversion Hs; subst; try lia.
      * right. exists l. split; [done|lia].
      * right. eexists. rewrite lookup_insert_eq. split; [done|lia].
    + destruct (r2 =? 0) eqn:E2; [left; lia|]. destruct HI as [?|HI]; [lia|]. right.
      destruct (r =? 0) eqn:E; [left; lia|]. inversion Hs; subst. exact HI.
Qed.

Lemma heap_trace_refines_witness :
  well_behaved (pg demo_h (meta_pages demo_h)) (heap_end_addr demo_h) demo_client [] ∅ /\
  let '(rs', m') := run demo_caches demo_h demo_client 6 [] demo_m in
  (exists B', spec_run (pg demo_h (meta_pages demo_h)) (heap_end_addr demo_h) demo_client [] ∅ rs' B' /\
     refines demo_caches demo_h m' B') /\
  rs' = [0x50001028; 0; 42; 0x50002000; 0; 0x50001028].
Proof.
  split; [apply demo_behaves|].
  pose proof (heap_trace_refines demo_caches demo_h demo_client 6 [] demo_m ∅ demo_refines (demo_behaves _ _)) as H.
  assert (E : (run demo_caches demo_h demo_client 6 [] demo_m).1 = [0x50001028; 0; 42; 0x50002000; 0; 0x50001028])
    by (vm_compute; reflexivity).
  destruct (run demo_caches demo_h demo_client 6 [] demo_m) as [rs' m']. split; [exact H|exact E].
Defined.

Lemma heap_no_leak_witness :
  refines demo_caches demo_h demo_m ∅ /\ pages_needed 61440 = 15 /\ (malloc demo_caches demo_h demo_m 61440).1 <> 0.
Proof.
  split; [exact demo_refines|]. split; [reflexivity|].
  apply (heap_no_leak demo_caches demo_h demo_m 61440 demo_refines); [lia|by vm_compute].
Defined.

Lemma malloc_fails_only_full_witness :
  (malloc demo_caches demo_h demo_m 61441).1 = 0 /\ forall s, ~ free_run demo_h demo_m s 16.
Proof.
  assert (E : (malloc demo_caches demo_h demo_m 61441).1 = 0) by (vm_compute; reflexivity).
  split; [exact E|].
  pose proof (malloc_fails_only_full demo_caches demo_h demo_m ∅ 61441 demo_refines ltac:(lia)) as H.
  destruct (malloc demo_caches demo_h demo_m 61441) as [r m']. cbn [fst] in E.
  destruct (H E) as (_ & [?|Hno]); [lia|exact Hno].
Defined.

Lemma alloc_pages_first_fit_witness :
  let '(r, m') := alloc_pages_backend demo_h demo_m 3 PAGE_TYPE_LARGE in
  r = 0x50001000 /\ page_count demo_h m' 1 = 3 /\ (forall s', s' < 1 -> ~ free_run demo_h demo_m s' 3).
Proof.
  pose proof (alloc_pages_first_fit demo_h demo_m 3 PAGE_TYPE_LARGE ltac:(lia) ltac:(by vm_compute)
    ltac:(by vm_compute) ltac:(by vm_compute) ltac:(by vm_compute)) as H.
  assert (E : (alloc_pages_backend demo_h demo_m 3 PAGE_TYPE_LARGE).1 = 0x50001000) by (vm_compute; reflexivity).
  destruct (alloc_pages_backend demo_h demo_m 3 PAGE_TYPE_LARGE) as [r m']. cbn [fst] in E. subst r.
  destruct H as [(H & _)|(s & Hr & _ & Hfst & _ & Hc & _)]; [discriminate H|].
  assert (s = 1) as -> by (cbn [heap_start_addr demo_h] in Hr; lia).
  split; [reflexivity|]. split; [|exact Hfst]. rewrite Hc. reflexivity.
Defined.

Lemma free_rejects_witness :
  let m := (alloc_pages_backend demo_h demo_m 3 PAGE_TYPE_LARGE).2 in
  free demo_h m 0x50002010 = m /\ free demo_h m 0x40000000 = m /\ free demo_h m 0x50008000 = m.
Proof.
  intros m. split; [|split].
  - apply (free_rejects demo_h m); [reflexivity|by vm_compute|].
    right; right. exists 2. split; [by vm_compute|]. split; [by vm_compute|]. right. by vm_compute.
  - apply (free_rejects demo_h m); [reflexivity|by vm_compute|]. right; left. by left.
  - apply (free_rejects demo_h m); [reflexivity|by vm_compute|].
    right; right. exists 8. split; [by vm_compute|]. split; [by vm_compute|]. left. by vm_compute.
Defined.

Lemma malloc_misaligned_witness :
  let '(r, _) := malloc demo_caches demo_h demo_m 16 in r <> 0 /\ r mod 16 = 8.
Proof.
  pose proof (malloc_misaligned demo_caches demo_h demo_m ∅ 16 demo_refines ltac:(lia)) as H.
  assert (E : (malloc demo_caches demo_h demo_m 16).1 = 0x50001028) by (vm_compute; reflexivity).
  destruct (malloc demo_caches demo_h demo_m 16) as [r m']. cbn [fst] in E. subst r.
  split; [discriminate|]. destruct H as [H|H]; [discriminate H|exact H].
Defined.
End HeapTrace.
