(* ===== verification/HeapApi.v ===== *)
(** * What the rest of the kernel relies on in the heap

    [HeapApi] is the interface of malloc and free for clients that do not look
    into their blocks' bytes; heap.c implements it. *)

From S2P Require Import Prelude Memory CString Dll Heap HeapPages HeapLists HeapInv HeapSpec Malloc HeapTrace.

(** [ha_inv a B]: the heap [a] is in order and has the blocks [B], given by
    their addresses and sizes. [ha_room a n]: its last [n] pages are free, which
    is enough for requests that need no more. *)
Class HeapApi (A : Type) := {
  ha_malloc : A -> Z -> Z * A;
  ha_free : A -> Z -> A;
  ha_inv : A -> gmap Z Z -> Prop;
  ha_block a B p : ha_inv a B -> is_Some (B !! p) -> 0 < p < 2 ^ 48;
  ha_malloc_spec a B n : ha_inv a B -> 0 <= n < 2 ^ 64 ->
    let '(r, a') := ha_malloc a n in
    (r = 0 /\ ha_inv a' B) \/
    exists z, r <> 0 /\ B !! r = None /\ n <= z /\ ha_inv a' (<[r := z]> B);
  ha_free_spec a B p : ha_inv a B -> p = 0 \/ is_Some (B !! p) -> ha_inv (ha_free a p) (delete p B);
  ha_room : A -> Z -> Prop;
  ha_room_spec a B n size : ha_inv a B -> ha_room a n -> 0 < size < 2 ^ 64 -> Malloc.pages_needed size <= n ->
    let '(r, a') := ha_malloc a size in r <> 0 /\ ha_room a' (n - Malloc.pages_needed size);
}.

Section Instance_.
Import Heap HeapInv HeapTrace.
Context (caches : Z) (h : heap_state).

Definition sizes (B : gmap Z (list Z)) : gmap Z Z := (fun l => Z.of_nat (length l)) <$> B.

Definition heap_api_inv (m : mem) (B : gmap Z Z) : Prop :=
  exists B', refines caches h m B' /\ B = sizes B'.

Lemma sizes_is_Some B p : is_Some (sizes B !! p) -> is_Some (B !! p).
Proof. unfold sizes. rewrite lookup_fmap. by intros ?%fmap_is_Some. Qed.

Lemma refines_block m B p l : refines caches h m B -> B !! p = Some l ->
  0 < pg h (meta_pages h) <= p /\ p + Z.of_nat (length l) <= heap_end_addr h < 2 ^ 48.
Proof.
  intros (SL & Q & [Hly Hco _ _ _] & [_ R2]) Hl.
  pose proof (live_bounds caches h m SL Hly Hco _ _ (R2 _ _ Hl)) as (H1 & H2 & H3 & _).
  destruct (meta_bounds caches h Hly) as [Hm _]. pose proof (ly_pos _ _ Hly). pose proof (ly_limit _ _ Hly).
  pose proof (ly_end _ _ Hly). unfold pg in *. lia.
Qed.

Lemma heap_api_block m B p : heap_api_inv m B -> is_Some (B !! p) -> 0 < p < 2 ^ 48.
Proof.
  intros (B' & Hr & ->) [l Hl]%sizes_is_Some. pose proof (refines_block m B' p l Hr Hl). lia.
Qed.

Lemma heap_api_malloc m B n : heap_api_inv m B -> 0 <= n < 2 ^ 64 ->
  let '(r, m') := malloc caches h m n in
  (r = 0 /\ heap_api_inv m' B) \/
  exists z, r <> 0 /\ B !! r = None /\ n <= z /\ heap_api_inv m' (<[r := z]> B).
Proof.
  intros (B' & Hr & ->) Hn. pose proof (exec_ok caches h m B' (Malloc n) Hr Hn) as H. cbn [exec] in H.
  destruct (malloc caches h m n) as [r m']. destruct H as (B1 & Hst & Hr1).
  inversion Hst as [|n' r' l Hf Hsz| | | | | | | | | | |]; subst.
  - left. split; [done|]. by exists B1.
  - right. exists (Z.of_nat (length l)). destruct Hf as [(F1 & F2 & _ & F3) Hdis].
    pose proof (refines_block m' _ r l Hr1 ltac:(apply lookup_insert_eq)) as Hb.
    split; [lia|]. split; [|split; [done|]].
    + destruct (B' !! r) as [l'|] eqn:E; [|unfold sizes; by rewrite lookup_fmap, E].
      destruct (Hdis r l' E); [lia|]. destruct Hr as (SL & Q & [Hly Hco _ _ _] & [_ R2]).
      pose proof (live_bounds caches h m SL Hly Hco _ _ (R2 _ _ E)). lia.
    + exists (<[r:=l]> B'). split; [done|]. unfold sizes. by rewrite fmap_insert.
Qed.

Lemma heap_api_free m B p : heap_api_inv m B -> p = 0 \/ is_Some (B !! p) ->
  heap_api_inv (free h m p) (delete p B).
Proof.
  intros (B' & Hr & ->) Hp.
  assert (Hp' : p = 0 \/ is_Some (B' !! p)) by (destruct Hp; [by left|right; by apply sizes_is_Some]).
  pose proof (exec_ok caches h m B' (Free p) Hr Hp') as (B1 & Hst & Hr1).
  exists B1. split; [done|]. inversion Hst; subst.
  - rewrite delete_id; [done|]. unfold sizes. rewrite lookup_fmap.
    destruct (B1 !! 0) as [l|] eqn:E; [|done]. pose proof (refines_block m B1 0 l Hr E). lia.
  - unfold sizes. by rewrite fmap_delete.
Qed.

Lemma heap_api_bounds m B p z : heap_api_inv m B -> B !! p = Some z -> 0 < heap_start_addr h <= p /\ p + z <= heap_end_addr h < 2 ^ 48 /\ page_metadata h + 4 * total_pages h <= p.
Proof.
  intros (B' & Hr & ->) Hp. unfold sizes in Hp. rewrite lookup_fmap in Hp. destruct (B' !! p) as [l|] eqn:Hl; [|done].
  injection Hp as <-. pose proof (refines_block m B' p l Hr Hl) as (H1 & H2 & H3). destruct Hr as (SL & Q & Hinv & _).
  destruct (meta_bounds caches h (hi_layout _ _ _ _ _ Hinv)). pose proof (ly_pos _ _ (hi_layout _ _ _ _ _ Hinv)). unfold pg in *. lia.
Qed.

Definition heap_room (m : mem) (n : Z) : Prop :=
  0 <= n <= total_pages h /\ forall i, total_pages h - n <= i < total_pages h -> page_type h m i = PAGE_TYPE_FREE.

Lemma room_agree m m' n : agree (HeapPages.meta_byte h) m m' -> heap_room m n -> heap_room m' n.
Proof.
  intros Hag [Hn Hf]. split; [done|]. intros i Hi. destruct (HeapPages.pages_agree h m m' Hag i) as [-> _]; [lia|]. by apply Hf.
Qed.

(** The first run that is long enough starts no later than the free end. *)
Lemma heap_room_spec m B n size : heap_api_inv m B -> heap_room m n -> 0 < size < 2 ^ 64 -> Malloc.pages_needed size <= n ->
  let '(r, m') := malloc caches h m size in r <> 0 /\ heap_room m' (n - Malloc.pages_needed size).
Proof.
  intros (B' & (SL & Q & Hinv & _) & _) [Hn Hfree] Hs Hfit.
  assert (Hp : 0 < Malloc.pages_needed size) by (unfold Malloc.pages_needed; destruct (size <=? 2048) eqn:E; zdiv).
  assert (Hrun : HeapPages.free_run h m (total_pages h - n) (Malloc.pages_needed size)).
  { split; [lia|]. split; [lia|]. intros j Hj. apply Hfree. lia. }
  pose proof (Malloc.malloc_pages_ok caches h m SL Q size Hinv ltac:(lia)) as H. destruct (malloc caches h m size) as [r m'].
  destruct H as [(_ & _ & [?|Hno])|(SL' & Q' & z & _ & Hr & _ & _ & Ht)]; [lia|by destruct (Hno _ Hrun)|].
  split; [exact Hr|]. split; [lia|]. intros i Hi. destruct Ht as [Ht|(s & [_ Hfst] & Ht)].
  - rewrite Ht by lia. apply Hfree. lia.
  - assert (s <= total_pages h - n). { destruct (decide (s <= total_pages h - n)); [done|]. destruct (Hfst (total_pages h - n)); [lia|done]. }
    rewrite Ht by lia. apply Hfree. lia.
Qed.

(** Writes outside the allocator's bytes leave the heap in order, with the same
    blocks. *)
Lemma api_kept m m' B' :
  refines caches h m B' -> (forall SL Q, HeapInv.heap_inv caches h m SL Q -> represents h m SL B' -> agree (owned caches h m SL) m m') ->
  heap_api_inv m' (sizes B').
Proof.
  intros (SL & Q & Hinv & [R1 R2]) Hag.
  destruct (Malloc.inv_write caches h m m' SL Q Hinv (Hag SL Q Hinv (conj R1 R2))) as (Hinv' & Hlive & _).
  exists (map_imap (fun a l => Some (bytes m' a (Z.of_nat (length l)))) B'). split.
  - exists SL, Q. split; [done|]. split.
    + intros a z Ha%Hlive. pose proof (R1 a z Ha) as Hl. rewrite map_lookup_imap, Hl. cbn.
      rewrite length_bytes; [done|]. pose proof (live_bounds caches h m SL (hi_layout _ _ _ _ _ Hinv) (hi_core _ _ _ _ _ Hinv) a z Ha). lia.
    + intros a l'. rewrite map_lookup_imap. destruct (B' !! a) as [l|] eqn:Hl; cbn; [|done]. intros [= <-].
      apply Hlive. rewrite length_bytes by lia. by apply R2.
  - apply map_eq. intros a. unfold sizes. rewrite !lookup_fmap, map_lookup_imap. destruct (B' !! a); cbn; [|done].
    rewrite length_bytes by lia. done.
Qed.

(** A client may write to its own block, ... *)
Lemma heap_write m m' B p z : heap_api_inv m B -> B !! p = Some z -> agree (fun b => ~ p <= b < p + z) m m' -> heap_api_inv m' B.
Proof.
  intros (B' & Hr & ->) Hp Hag. apply (api_kept m); [done|]. intros SL Q Hinv [_ R2].
  unfold sizes in Hp. rewrite lookup_fmap in Hp. destruct (B' !! p) as [l|] eqn:Hl; [|done]. injection Hp as <-.
  eapply agree_weaken; [exact Hag|]. intros b Ho Hb.
  by apply (live_not_owned caches h m SL (hi_layout _ _ _ _ _ Hinv) (hi_core _ _ _ _ _ Hinv) p _ b (R2 p l Hl)).
Qed.

(** ... and anybody outside the window and the caches. *)
Definition heap_bytes (b : Z) : Prop := heap_start_addr h <= b < heap_end_addr h \/ caches <= b < caches + 256.

Lemma owned_heap m SL Q b : HeapInv.heap_inv caches h m SL Q -> owned caches h m SL b -> heap_bytes b.
Proof.
  intros [Hly Hco _ _ _] Ho. unfold heap_bytes. pose proof (ly_meta _ _ Hly). pose proof (ly_end _ _ Hly).
  pose proof (ly_total _ _ Hly). destruct Ho as [Ho|[Ho|[(p & c & fl & Hp & Ho)|(i & Hi & _ & Ho)]]].
  - unfold HeapPages.meta_byte in Ho. lia.
  - by right.
  - left. destruct (co_slab _ _ _ _ Hco _ _ _ Hp) as [Hc Hok]. destruct (slab_page caches h m SL Hly Hco p c fl Hp) as (i & Hi & -> & _).
    assert (pg h i <= b < pg h i + 4096); [|unfold pg in *; pose proof (meta_bounds caches h Hly); unfold pg in *; lia].
    destruct Ho as [Ho|(o & Hof & Ho)]; [lia|]. destruct (so_objs _ _ _ _ _ Hok o Hof) as (k & Hk & ->).
    pose proof (obj_bounds (pg h i) c k Hc Hk). destruct (size_facts c Hc). lia.
  - left. unfold pg in Ho. lia.
Qed.

Lemma heap_apart m m' B : heap_api_inv m B -> agree heap_bytes m m' -> heap_api_inv m' B.
Proof.
  intros (B' & Hr & ->) Hag. apply (api_kept m); [done|]. intros SL Q Hinv _.
  eapply agree_weaken; [exact Hag|]. intros b. by apply (owned_heap m SL Q).
Qed.

#[export] Instance kernel_heap : HeapApi mem := {
  ha_malloc := malloc caches h;
  ha_free := free h;
  ha_inv := heap_api_inv;
  ha_block := heap_api_block;
  ha_malloc_spec := heap_api_malloc;
  ha_free_spec := heap_api_free;
  ha_room := heap_room;
  ha_room_spec := heap_room_spec;
}.

(** ** The footprint

    The same heap, and the bytes that are not its own are those of [m0]. *)

Context (m0 : mem).

Definition heap_from_inv (m : mem) (B : gmap Z Z) : Prop := heap_api_inv m B /\ agree (fun b => ~ heap_bytes b) m0 m.

Lemma heap_from_malloc m B n : heap_from_inv m B -> 0 <= n < 2 ^ 64 ->
  let '(r, m') := malloc caches h m n in
  (r = 0 /\ heap_from_inv m' B) \/
  exists z, r <> 0 /\ B !! r = None /\ n <= z /\ heap_from_inv m' (<[r := z]> B).
Proof.
  intros [HB Hag] Hn. pose proof (heap_api_malloc m B n HB Hn) as H.
  assert (Hk : agree (fun b => ~ heap_bytes b) m0 (malloc caches h m n).2).
  { destruct HB as (B' & (SL & Q & Hinv & _) & _). pose proof (Malloc.malloc_ok caches h m SL Q n Hinv Hn) as Hm.
    destruct (malloc caches h m n) as [r m']. destruct Hm as [(_ & -> & _)|(SL' & Q' & z & _ & _ & _ & _ & _ & Hm)]; [done|].
    intros b Hb. cbn [snd]. rewrite Hm; [by apply Hag|]. intros Ho. apply Hb. by apply (owned_heap m SL Q). }
  destruct (malloc caches h m n) as [r m']. cbn [snd] in Hk.
  destruct H as [[? ?]|(z & H1 & H2 & H3 & H4)]; [by left|right]. by exists z.
Qed.

Lemma heap_from_free m B p : heap_from_inv m B -> p = 0 \/ is_Some (B !! p) ->
  heap_from_inv (free h m p) (delete p B).
Proof.
  intros [HB Hag] Hp. split; [by apply heap_api_free|]. destruct Hp as [->|Hp]; [done|].
  destruct HB as (B' & (SL & Q & Hinv & Hrep) & ->). apply (sizes_is_Some B' p) in Hp as [l Hl].
  destruct (block_live h m SL B' Hrep p l Hl) as [Hv _].
  destruct (Malloc.free_block_ok caches h m SL Q p _ Hinv Hv) as (SL' & Q' & _ & _ & Hm).
  intros b Hb. rewrite Hm; [by apply Hag|]. split; [intros Ho; by apply Hb, (owned_heap m SL Q)|].
  intros Hr. apply Hb. left. pose proof (heap_api_bounds m (sizes B') p (Z.of_nat (length l))) as H.
  unfold sizes in H. rewrite lookup_fmap, Hl in H. specialize (H (ex_intro _ B' (conj (ex_intro _ SL (ex_intro _ Q (conj Hinv Hrep))) eq_refl)) eq_refl). lia.
Qed.

Lemma heap_from_block m B p : heap_from_inv m B -> is_Some (B !! p) -> 0 < p < 2 ^ 48.
Proof. intros [HB _]. exact (heap_api_block m B p HB). Qed.

Lemma heap_from_room m B n size : heap_from_inv m B -> heap_room m n -> 0 < size < 2 ^ 64 -> Malloc.pages_needed size <= n ->
  let '(r, m') := malloc caches h m size in r <> 0 /\ heap_room m' (n - Malloc.pages_needed size).
Proof. intros [HB _]. by apply (heap_room_spec m B). Qed.

Definition heap_from : HeapApi mem := {|
  ha_malloc := malloc caches h;
  ha_free := free h;
  ha_inv := heap_from_inv;
  ha_block := heap_from_block;
  ha_malloc_spec := heap_from_malloc;
  ha_free_spec := heap_from_free;
  ha_room := heap_room;
  ha_room_spec := heap_from_room;
|}.
End Instance_.
