(* ===== verification/Spinlock.v ===== *)
(** * Spinlocks (the [pthread_spin_*] functions of src/src/pthread.c)

    The lock is one atomic word. Every atomic operation is one step of the
    thread that performs it, the steps of the threads interleave, and the weak
    compare-exchange may fail for no reason. The theorems are about threads that
    run critical sections, each a sequence of steps on data the lock protects. *)

From S2P Require Import Prelude.

Module Spinlock.

Definition EBUSY : Z := 10.

(** ** The operations

    One function per atomic access: what it does to the lock word. *)

Definition pthread_spin_init (lock : Z) : Z * Z := (0, 0).

(** [atomic_compare_exchange]: success, and the new word. A weak exchange may
    also fail spuriously. *)
Definition compare_exchange (spurious : bool) (lock expected desired : Z) : bool * Z :=
  if negb spurious && (lock =? expected) then (true, desired) else (false, lock).

(** The two program points of [pthread_spin_lock]: at the exchange, and in the
    inner loop that waits for the word to change from 1. *)
Inductive spin_pc := TryExchange | Waiting.

#[export] Instance spin_pc_dec : EqDecision spin_pc.
Proof. solve_decision. Defined.

(** One step; [inr] is the [return 0]. *)
Definition spin_lock_step (spurious : bool) (lock : Z) (pc : spin_pc) : Z * (spin_pc + Z) :=
  match pc with
  | TryExchange =>
      let '(ok, lock) := compare_exchange spurious lock 0 1 in
      (lock, if ok then inr 0 else inl Waiting)
  | Waiting => (lock, if lock =? 1 then inl Waiting else inl TryExchange)
  end.

Definition pthread_spin_trylock (lock : Z) : Z * Z :=
  let '(ok, lock) := compare_exchange false lock 0 1 in (if ok then 0 else EBUSY, lock).

Definition pthread_spin_unlock (lock : Z) : Z * Z := (0, 0).

Definition pthread_spin_destroy (lock : Z) : Z * Z := (if nonzero lock then EBUSY else 0, lock).

(** ** Threads that share a lock

    [D] is the data the lock protects. A critical section is a list of atomic
    steps on it; a thread runs the critical sections of its program in order,
    each between [pthread_spin_lock] and [pthread_spin_unlock]. *)

Section Threads.
Context {D : Type}.

Definition section : Type := list (D -> D).

Definition run_section (d : D) (c : section) : D := foldl (fun d f => f d) d c.

Inductive place :=
| Outside
| Acquiring (pc : spin_pc)
| Inside (rest : section).

Record thread := Thread { at_ : place; todo : list section }.

(** [log] records whose critical section was entered, in order. *)
Record system := System {
  word : Z;
  data : D;
  threads : list thread;
  log : list (nat * section);
}.

Definition set_thread (s : system) (i : nat) (t : thread) : list thread := <[i := t]> (threads s).

Inductive step : system -> system -> Prop :=
| step_start s i c todo :
    threads s !! i = Some (Thread Outside (c :: todo)) ->
    step s (System (word s) (data s) (set_thread s i (Thread (Acquiring TryExchange) (c :: todo))) (log s))
| step_spin s i pc todo spurious lock pc' :
    threads s !! i = Some (Thread (Acquiring pc) todo) ->
    spin_lock_step spurious (word s) pc = (lock, inl pc') ->
    step s (System lock (data s) (set_thread s i (Thread (Acquiring pc') todo)) (log s))
| step_acquire s i pc c todo spurious lock r :
    threads s !! i = Some (Thread (Acquiring pc) (c :: todo)) ->
    spin_lock_step spurious (word s) pc = (lock, inr r) ->
    step s (System lock (data s) (set_thread s i (Thread (Inside c) todo)) (log s ++ [(i, c)]))
| step_inside s i f rest todo :
    threads s !! i = Some (Thread (Inside (f :: rest)) todo) ->
    step s (System (word s) (f (data s)) (set_thread s i (Thread (Inside rest) todo)) (log s))
| step_release s i todo :
    threads s !! i = Some (Thread (Inside []) todo) ->
    step s (System (pthread_spin_unlock (word s)).2 (data s) (set_thread s i (Thread Outside todo)) (log s)).

Definition reachable : system -> system -> Prop := rtc step.

(** The threads before they start, the lock initialised. *)
Definition start (d : D) (programs : list (list section)) : system :=
  System (pthread_spin_init 7).2 d (Thread Outside <$> programs) [].

Definition inside (t : thread) : option section :=
  match at_ t with Inside rest => Some rest | _ => None end.

(** What the sections entered so far do, one after the other. *)
Definition replay (d : D) (l : list (nat * section)) : D := foldl (fun d x => run_section d x.2) d l.

(** The part of the log that is thread [i]'s. *)
Definition mine (i : nat) (l : list (nat * section)) : list section :=
  (fun x => x.2) <$> filter (fun x => x.1 = i) l.

(** At most one thread is inside, exactly when the word is 1; the rest of its
    section turns the data into what the log replays to; every thread's entered
    sections and its remaining ones make up its program. *)
Record inv (d0 : D) (programs : list (list section)) (s : system) : Prop := {
  inv_word : word s = 0 \/ word s = 1;
  inv_free : word s = 0 ->
    (forall i t, threads s !! i = Some t -> inside t = None) /\ data s = replay d0 (log s);
  inv_held : word s = 1 -> exists i t rest,
    threads s !! i = Some t /\ inside t = Some rest /\
    (forall j u, threads s !! j = Some u -> j <> i -> inside u = None) /\
    run_section (data s) rest = replay d0 (log s);
  inv_progs : forall i t, threads s !! i = Some t ->
    programs !! i = Some (mine i (log s) ++ todo t);
  inv_acquiring : forall i t pc, threads s !! i = Some t -> at_ t = Acquiring pc -> todo t <> [];
}.

Lemma mine_snoc_same i l c : mine i (l ++ [(i, c)]) = mine i l ++ [c].
Proof. unfold mine. rewrite list.filter_app, fmap_app. by rewrite list.filter_cons_True, list.filter_nil. Qed.

Lemma mine_snoc_other i j l c : j <> i -> mine i (l ++ [(j, c)]) = mine i l.
Proof.
  intros Hne. unfold mine. rewrite list.filter_app, fmap_app.
  rewrite list.filter_cons_False, list.filter_nil by done. apply app_nil_r.
Qed.

Lemma replay_snoc d l i c : replay d (l ++ [(i, c)]) = run_section (replay d l) c.
Proof. unfold replay. by rewrite foldl_app. Qed.

(** A thread's update that keeps its program and stays outside. *)
Lemma inv_quiet d0 ps s i t t' :
  inv d0 ps s -> threads s !! i = Some t -> inside t = None -> inside t' = None -> todo t' = todo t ->
  (forall pc, at_ t' = Acquiring pc -> todo t' <> []) ->
  inv d0 ps (System (word s) (data s) (set_thread s i t') (log s)).
Proof.
  intros [H1 H2 H3 H4 H5] Hi Hin Hin' Htd Hacq. unfold set_thread.
  assert (Hl : forall j u, <[i:=t']> (threads s) !! j = Some u ->
            j = i /\ u = t' \/ j <> i /\ threads s !! j = Some u).
  { intros j u [(-> & -> & _)|[Hne Hu]]%list_lookup_insert_Some; [by left|right]. by split. }
  split; cbn [word data threads log]; [done|..].
  - intros Hw. destruct (H2 Hw) as [H2a H2b]. split; [|done].
    intros j u [[-> ->]|[_ Hu]]%Hl; [done|by eapply H2a].
  - intros Hw. destruct (H3 Hw) as (k & u & rest & Hk & Hr & Hoth & Hd).
    assert (Hki : k <> i) by (intros ->; rewrite Hi in Hk; injection Hk as <-; by rewrite Hr in Hin).
    exists k, u, rest. rewrite list_lookup_insert_ne by done. split_and!; [done..| |done].
    intros j v [[-> ->]|[_ Hv]]%Hl Hjk; [done|by eapply Hoth].
  - intros j u [[-> ->]|[_ Hu]]%Hl; [|by apply H4]. rewrite Htd. by apply H4.
  - intros j u pc [[-> ->]|[_ Hu]]%Hl Hp; [by eapply Hacq|by eapply H5].
Qed.

Lemma start_inv d ps : inv d ps (start d ps).
Proof.
  assert (Hl : forall i t, (Thread Outside <$> ps) !! i = Some t ->
            at_ t = Outside /\ ps !! i = Some (todo t)).
  { intros i t. rewrite list_lookup_fmap. intros (c & Hc & ->)%fmap_Some. by split. }
  split; cbn [word data threads log start pthread_spin_init snd]; [by left| |done| |].
  - intros _. split; [|done]. intros i t Ht. unfold inside. by destruct (Hl i t Ht) as [-> _].
  - intros i t Ht. by apply Hl.
  - intros i t pc Ht. by destruct (Hl i t Ht) as [-> _].
Qed.

(** Entering and leaving. *)
Lemma inv_enter d0 ps s i pc c td :
  inv d0 ps s -> threads s !! i = Some (Thread (Acquiring pc) (c :: td)) -> word s = 0 ->
  inv d0 ps (System 1 (data s) (set_thread s i (Thread (Inside c) td)) (log s ++ [(i, c)])).
Proof.
  intros [H1 H2 H3 H4 H5] Hi Hw. destruct (H2 Hw) as [Hout Hd]. unfold set_thread.
  pose proof (lookup_lt_Some _ _ _ Hi) as Hlt.
  split; cbn [word data threads log]; [by right|done| | |].
  - intros _. exists i, (Thread (Inside c) td), c.
    rewrite list_lookup_insert_eq by done. split_and!; [done..| |by rewrite replay_snoc, Hd].
    intros j u Hu Hji. rewrite list_lookup_insert_ne in Hu by done. by eapply Hout.
  - intros j u. rewrite list_lookup_insert_Some. intros [(<- & <- & _)|[Hne Hu]].
    + rewrite mine_snoc_same, (H4 _ _ Hi). cbn [todo]. by rewrite <- app_assoc.
    + rewrite mine_snoc_other by done. by apply H4.
  - intros j v pc'. rewrite list_lookup_insert_Some. intros [(<- & <- & _)|[Hne Hv]] Hp; [done|by eapply H5].
Qed.

Lemma inv_leave d0 ps s i td :
  inv d0 ps s -> threads s !! i = Some (Thread (Inside []) td) ->
  inv d0 ps (System 0 (data s) (set_thread s i (Thread Outside td)) (log s)).
Proof.
  intros [H1 H2 H3 H4 H5] Hi. unfold set_thread.
  destruct H1 as [Hw|Hw]; [by destruct (H2 Hw) as [Hout _]; specialize (Hout i _ Hi)|].
  destruct (H3 Hw) as (k & u & rest & Hk & Hr & Hoth & Hd).
  assert (k = i) as -> by (destruct (decide (k = i)); [done|]; by specialize (Hoth i _ Hi ltac:(done))).
  rewrite Hi in Hk. injection Hk as <-. injection Hr as <-. cbn [run_section foldl] in Hd.
  split; cbn [word data threads log]; [by left| |done| |].
  - intros _. split; [|done]. intros j v. rewrite list_lookup_insert_Some.
    intros [(<- & <- & _)|[Hne Hv]]; [done|]. by eapply Hoth.
  - intros j v. rewrite list_lookup_insert_Some. intros [(<- & <- & _)|[Hne Hv]]; [|by apply H4].
    by rewrite (H4 _ _ Hi).
  - intros j v pc'. rewrite list_lookup_insert_Some. intros [(<- & <- & _)|[Hne Hv]] Hp; [done|by eapply H5].
Qed.

Lemma inv_inside d0 ps s i f rest td :
  inv d0 ps s -> threads s !! i = Some (Thread (Inside (f :: rest)) td) ->
  inv d0 ps (System (word s) (f (data s)) (set_thread s i (Thread (Inside rest) td)) (log s)).
Proof.
  intros [H1 H2 H3 H4 H5] Hi. unfold set_thread. pose proof (lookup_lt_Some _ _ _ Hi) as Hlt.
  destruct H1 as [Hw|Hw]; [by destruct (H2 Hw) as [Hout _]; specialize (Hout i _ Hi)|].
  destruct (H3 Hw) as (k & u & rest' & Hk & Hr & Hoth & Hd).
  assert (k = i) as -> by (destruct (decide (k = i)); [done|]; by specialize (Hoth i _ Hi ltac:(done))).
  rewrite Hi in Hk. injection Hk as <-. injection Hr as <-.
  split; cbn [word data threads log]; [by right|lia| | |].
  - intros _. exists i, (Thread (Inside rest) td), rest.
    rewrite list_lookup_insert_eq by done. split_and!; [done..| |exact Hd].
    intros j v Hv Hji. rewrite list_lookup_insert_ne in Hv by done. by eapply Hoth.
  - intros j v. rewrite list_lookup_insert_Some. intros [(<- & <- & _)|[Hne Hv]]; [|by apply H4].
    by rewrite (H4 _ _ Hi).
  - intros j v pc'. rewrite list_lookup_insert_Some. intros [(<- & <- & _)|[Hne Hv]] Hp; [done|by eapply H5].
Qed.

Lemma spin_lock_step_word spurious lock pc :
  let '(lock', r) := spin_lock_step spurious lock pc in
  match r with inl _ => lock' = lock | inr r => lock = 0 /\ lock' = 1 /\ r = 0 end.
Proof.
  destruct pc; simpl; [|by destruct (lock =? 1)]. unfold compare_exchange.
  destruct spurious; simpl; [done|]. destruct (lock =? 0) eqn:E; [|done]. lia.
Qed.

Lemma step_inv d0 ps s s' : inv d0 ps s -> step s s' -> inv d0 ps s'.
Proof.
  intros Hinv Hst. destruct Hst as [s i c td Hi|s i pc td sp lock pc' Hi Hs|s i pc c td sp lock r Hi Hs
    |s i f rest td Hi|s i td Hi].
  - by eapply inv_quiet.
  - pose proof (spin_lock_step_word sp (word s) pc) as H. rewrite Hs in H. subst lock.
    eapply inv_quiet; [done..|]. intros _ _. exact (inv_acquiring _ _ _ Hinv i _ pc Hi eq_refl).
  - pose proof (spin_lock_step_word sp (word s) pc) as H. rewrite Hs in H. destruct H as (Hw & -> & _).
    by eapply inv_enter.
  - by apply inv_inside.
  - by apply inv_leave.
Qed.

Lemma reachable_inv d0 ps s : reachable (start d0 ps) s -> inv d0 ps s.
Proof.
  intros Hr. assert (H : inv d0 ps (start d0 ps)) by apply start_inv.
  induction Hr as [|s s1 s2 Hst _ IH]; [done|]. by apply IH, (step_inv d0 ps s).
Qed.

(** What is left to do: every schedule below makes it smaller. *)
Definition section_work (c : section) : nat := (5 + length c)%nat.

Definition work (t : thread) : nat :=
  let w := sum_list_with section_work (todo t) in
  match at_ t with
  | Outside => w
  | Acquiring Waiting => w - 1
  | Acquiring TryExchange => w - 2
  | Inside rest => (1 + length rest + w)%nat
  end.

Definition total_work (s : system) : nat := sum_list_with work (threads s).

Lemma sum_insert (l : list thread) i t t' :
  l !! i = Some t -> (work t' < work t)%nat ->
  (sum_list_with work (<[i := t']> l) < sum_list_with work l)%nat.
Proof.
  revert i. induction l as [|u l IH]; intros [|i] Hi Hw; [done..| |]; simpl in *.
  - injection Hi as ->. lia.
  - specialize (IH i Hi Hw). lia.
Qed.

Definition finished (t : thread) : bool :=
  match at_ t, todo t with Outside, [] => true | _, _ => false end.

Lemma finished_spec t : finished t = true <-> at_ t = Outside /\ todo t = [].
Proof.
  unfold finished. split; [by destruct (at_ t), (todo t)|]. by intros [-> ->].
Qed.

(** A thread that is not done can step when the lock is free. *)
Lemma idle_step d0 ps s i t :
  inv d0 ps s -> word s = 0 -> threads s !! i = Some t -> finished t = false ->
  exists s', step s s' /\ (total_work s' < total_work s)%nat.
Proof.
  intros [_ Hfree _ _ Hacq] Hw Hi Hnd. destruct (Hfree Hw) as [Hout _].
  specialize (Hout i t Hi). destruct t as [[|pc|rest] td]; [| |done].
  - destruct td as [|c td]; [done|]. eexists. split; [by eapply step_start|].
    eapply sum_insert; [done|]. unfold work, section_work. simpl. lia.
  - destruct td as [|c td]; [by destruct (Hacq i _ pc Hi)|]. destruct pc.
    + eexists. split; [eapply (step_acquire s i _ c td false); [done|]; simpl; by rewrite Hw|].
      eapply sum_insert; [done|]. unfold work, section_work. simpl. lia.
    + eexists. split; [eapply (step_spin s i _ _ false); [done|]; simpl; by rewrite Hw|].
      eapply sum_insert; [done|]. unfold work, section_work. simpl. lia.
Qed.

(** The thread inside can step when it is held. *)
Lemma held_step d0 ps s :
  inv d0 ps s -> word s = 1 -> exists s', step s s' /\ (total_work s' < total_work s)%nat.
Proof.
  intros [_ _ Hheld _ _] Hw. destruct (Hheld Hw) as (i & t & rest & Hi & Hr & _).
  destruct t as [[|pc|rest'] td]; [done..|]. injection Hr as ->. destruct rest as [|f rest].
  - eexists. split; [by eapply step_release|]. eapply sum_insert; [done|]. unfold work. simpl. lia.
  - eexists. split; [by eapply step_inside|]. eapply sum_insert; [done|]. unfold work. simpl. lia.
Qed.

Lemma can_finish d0 ps s :
  inv d0 ps s ->
  exists s', reachable s s' /\ word s' = 0 /\
    forall i t, threads s' !! i = Some t -> at_ t = Outside /\ todo t = [].
Proof.
  remember (total_work s) as n eqn:Hn. revert s Hn.
  induction (lt_wf n) as [n _ IH]; intros s -> Hinv.
  assert (Hgo : (exists s', step s s' /\ (total_work s' < total_work s)%nat) ->
    exists s', reachable s s' /\ word s' = 0 /\
      forall i t, threads s' !! i = Some t -> at_ t = Outside /\ todo t = []).
  { intros (s1 & Hst & Hlt). destruct (IH _ Hlt s1 eq_refl) as (s' & Hr & H); [by eapply step_inv|].
    exists s'. split; [by eapply rtc_l|done]. }
  destruct (inv_word _ _ _ Hinv) as [Hw|Hw]; [|by eapply Hgo, held_step].
  destruct (decide (Forall (fun t => finished t = true) (threads s))) as [Hall|Hex].
  { exists s. split; [apply rtc_refl|]. split; [done|]. intros i t Hi.
    apply finished_spec. by eapply (proj1 (Forall_lookup _ _) Hall). }
  apply not_Forall_Exists in Hex; [|apply _]. apply list.Exists_exists in Hex as (t & Ht & Hnd).
  apply list_elem_of_lookup in Ht as [i Hi]. apply not_true_is_false in Hnd.
  by eapply Hgo, idle_step.
Qed.

(** ** The properties *)

(** C16 Mutual exclusion: in every interleaving at most one thread is inside its
    critical section, and one is exactly when the word is 1. *)
Theorem spinlock_mutual_exclusion d programs s :
  reachable (start d programs) s ->
  (word s = 0 \/ word s = 1) /\
  (word s = 1 <-> exists i t, threads s !! i = Some t /\ inside t <> None) /\
  (forall i j t u, threads s !! i = Some t -> threads s !! j = Some u ->
     inside t <> None -> inside u <> None -> i = j).
Proof.
  intros [H1 H2 H3 _ _]%reachable_inv. split; [exact H1|]. split.
  - split.
    + intros (i & t & rest & Hi & Hr & _)%H3. exists i, t. by rewrite Hr.
    + intros (i & t & Hi & Hn). destruct H1 as [Hw|Hw]; [|done].
      destruct (H2 Hw) as [Hout _]. by destruct Hn; eapply Hout.
  - intros i j t u Hi Hj Ht Hu. destruct H1 as [Hw|Hw].
    { destruct (H2 Hw) as [Hout _]. by destruct Ht; eapply Hout. }
    destruct (H3 Hw) as (k & v & rest & _ & _ & Hoth & _).
    destruct (decide (i = k)) as [->|Hi']; [|by destruct Ht; eapply Hoth].
    destruct (decide (j = k)) as [->|Hj']; [done|by destruct Hu; eapply Hoth].
Qed.

(** C26 Critical sections are atomic: whenever the lock is free the protected
    data is what running the entered sections one after the other, in the order
    of their acquisitions, makes of the initial data, and each thread's sections
    were entered in program order, none lost and none twice. *)
Theorem spinlock_serialises d programs s :
  reachable (start d programs) s -> word s = 0 ->
  data s = replay d (log s) /\
  forall i t, threads s !! i = Some t -> programs !! i = Some (mine i (log s) ++ todo t).
Proof. intros [_ H2 _ H4 _]%reachable_inv Hw. split; [by apply H2|exact H4]. Qed.

(** No deadlock: from every state the threads can reach they can go on until
    all their programs are done. *)
Theorem spinlock_no_deadlock d programs s :
  reachable (start d programs) s ->
  exists s', reachable s s' /\ word s' = 0 /\
    forall i t, threads s' !! i = Some t -> at_ t = Outside /\ todo t = [].
Proof. intros Hr%reachable_inv. exact (can_finish d programs s Hr). Qed.
End Threads.

(** ** Witnesses: two threads that each add to a counter in two steps *)

Definition adder (k : Z) : list (Z * Z -> Z * Z) :=
  [(fun '(x, tmp) => (x, x)); (fun '(x, tmp) => (tmp + k, tmp))].

Definition demo_programs : list (list (list (Z * Z -> Z * Z))) := [[adder 1]; [adder 10]].

Lemma demo_run : exists s, reachable (start (0, 0) demo_programs) s /\ word s = 0 /\
  log s = [(0%nat, adder 1); (1%nat, adder 10)].
Proof.
  eexists. split.
  { unfold reachable, start, demo_programs. cbn [fmap list_fmap].
    eapply rtc_l; [eapply (step_start _ 0); reflexivity|cbn].
    eapply rtc_l; [eapply (step_acquire _ 0 _ _ _ false); reflexivity|cbn].
    eapply rtc_l; [eapply (step_start _ 1); reflexivity|cbn].
    eapply rtc_l; [eapply (step_spin _ 1 _ _ false); reflexivity|cbn].
    eapply rtc_l; [eapply (step_inside _ 0); reflexivity|cbn].
    eapply rtc_l; [eapply (step_spin _ 1 _ _ false); reflexivity|cbn].
    eapply rtc_l; [eapply (step_inside _ 0); reflexivity|cbn].
    eapply rtc_l; [eapply (step_release _ 0); reflexivity|cbn].
    eapply rtc_l; [eapply (step_spin _ 1 _ _ false); reflexivity|cbn].
    eapply rtc_l; [eapply (step_acquire _ 1 _ _ _ false); reflexivity|cbn].
    eapply rtc_l; [eapply (step_inside _ 1); reflexivity|cbn].
    eapply rtc_l; [eapply (step_inside _ 1); reflexivity|cbn].
    eapply rtc_l; [eapply (step_release _ 1); reflexivity|cbn].
    apply rtc_refl. }
  split; reflexivity.
Qed.

Lemma spinlock_mutual_exclusion_witness :
  exists s : system, reachable (start (0, 0) demo_programs) s /\ (word s = 0 \/ word s = 1).
Proof.
  destruct demo_run as (s & Hr & _). exists s. split; [exact Hr|].
  exact (proj1 (spinlock_mutual_exclusion (0, 0) demo_programs s Hr)).
Defined.

Lemma spinlock_serialises_witness :
  exists s : system, reachable (start (0, 0) demo_programs) s /\ data s = (11, 1).
Proof.
  destruct demo_run as (s & Hr & Hw & Hl). exists s. split; [exact Hr|].
  destruct (spinlock_serialises (0, 0) demo_programs s Hr Hw) as [-> _]. rewrite Hl. reflexivity.
Defined.

Lemma spinlock_no_deadlock_witness :
  exists s s' : system, reachable (start (0, 0) demo_programs) s /\ length (log s) = 2%nat /\
    reachable s s' /\ word s' = 0.
Proof.
  destruct demo_run as (s & Hr & _ & Hl).
  destruct (spinlock_no_deadlock (0, 0) demo_programs s Hr) as (s' & Hr' & Hw & _).
  exists s, s'. split; [exact Hr|]. split; [rewrite Hl; reflexivity|]. split; [exact Hr'|exact Hw].
Defined.
End Spinlock.
