(* ===== verification/Sched.v ===== *)
(** * Threads and the scheduler (src/src/pthread.c)

    The state and the operations. The tasks are records in a store indexed by
    their addresses; the heap is used through [HeapApi]. An access through a
    pointer that is not a live block is an error of the model, [BadAccess],
    and so is a loop that runs out of fuel, [Hang]. The body of each function
    between [pthread_spin_lock(&sched_lock)] and the matching unlock is one
    atomic step. *)

From stdpp Require Import functions.
From S2P Require Import Prelude Dll HeapApi Spinlock.

Module Sched.

Definition EAGAIN : Z := 6.
Definition EINVAL : Z := 28.
Definition MAX_CPUS : nat := 2.

(** ** Data *)

Record cpu_context := CpuContext {
  x19 : Z; x20 : Z; x21 : Z; x22 : Z; x23 : Z; x24 : Z; x25 : Z; x26 : Z; x27 : Z; x28 : Z;
  fp : Z; lr : Z; sp : Z;
  q8 : Z; q9 : Z; q10 : Z; q11 : Z; q12 : Z; q13 : Z; q14 : Z; q15 : Z;
}.

Definition zero_context : cpu_context :=
  CpuContext 0 0 0 0 0 0 0 0 0 0 0 0 0 0 0 0 0 0 0 0 0.

(** [task_priority] *)
Definition IDLE : Z := 0.
Definition LOW : Z := 1.
Definition NORMAL : Z := 2.
Definition HIGH : Z := 3.
Definition REALTIME : Z := 4.
Definition COUNT : Z := 5.

Inductive task_state :=
| TASK_RUNNING | TASK_READY | TASK_EXITED | TASK_BLOCKED | TASK_STOPPED | TASK_SLEEPING.

#[export] Instance task_state_dec : EqDecision task_state.
Proof. solve_decision. Defined.

Record task_t := Task {
  context : cpu_context;
  id : Z;
  state : task_state;
  priority : Z;
  next : Z;
  prev : Z;
  stack_page : Z;
  ret_value : Z;
  join_wait_queue : Z;
}.

(** [sizeof(task_t)]: 240 bytes of context, 56 of the rest, padded to 16. *)
Definition sizeof_task : Z := 304.

(** [memset(t, 0, sizeof(task_t))] *)
Definition zero_task : task_t := Task zero_context 0 TASK_RUNNING IDLE 0 0 0 0 0.

Definition with_context v t := Task v (id t) (state t) (priority t) (next t) (prev t) (stack_page t) (ret_value t) (join_wait_queue t).
Definition with_id v t := Task (context t) v (state t) (priority t) (next t) (prev t) (stack_page t) (ret_value t) (join_wait_queue t).
Definition with_state v t := Task (context t) (id t) v (priority t) (next t) (prev t) (stack_page t) (ret_value t) (join_wait_queue t).
Definition with_priority v t := Task (context t) (id t) (state t) v (next t) (prev t) (stack_page t) (ret_value t) (join_wait_queue t).
Definition with_next v t := Task (context t) (id t) (state t) (priority t) v (prev t) (stack_page t) (ret_value t) (join_wait_queue t).
Definition with_prev v t := Task (context t) (id t) (state t) (priority t) (next t) v (stack_page t) (ret_value t) (join_wait_queue t).
Definition with_stack_page v t := Task (context t) (id t) (state t) (priority t) (next t) (prev t) v (ret_value t) (join_wait_queue t).
Definition with_ret_value v t := Task (context t) (id t) (state t) (priority t) (next t) (prev t) (stack_page t) v (join_wait_queue t).
Definition with_join_wait_queue v t := Task (context t) (id t) (state t) (priority t) (next t) (prev t) (stack_page t) (ret_value t) v.

Record cpu_core_t := Core {
  cpu_id : Z;
  task : Z;
  task_to_free : Z;
}.

Record pthread_attr_t := Attr {
  detachstate : Z;
  stacksize : Z;
  stackaddr : Z;
  inheritsched : Z;
  schedpolicy : Z;
  schedparam : Z;
  is_initialized : Z;
}.

Section WithHeap.
Context {A : Type} {HA : HeapApi A}.

(** The file's statics, the tasks, the heap, and (for the errors of the model
    only) the addresses malloc has given out and free has not taken back. *)
Record sched := SchedState {
  tasks : Z -> task_t;
  alive : gset Z;
  heap : A;
  runqueues : Z -> Z;
  runqueues_tail : Z -> Z;
  active_priorities : Z;
  cores : list cpu_core_t;
  tid_counter : Z;
}.

Definition with_tasks v s := SchedState v (alive s) (heap s) (runqueues s) (runqueues_tail s) (active_priorities s) (cores s) (tid_counter s).
Definition with_heap a v s := SchedState (tasks s) a v (runqueues s) (runqueues_tail s) (active_priorities s) (cores s) (tid_counter s).
Definition with_runqueues v s := SchedState (tasks s) (alive s) (heap s) v (runqueues_tail s) (active_priorities s) (cores s) (tid_counter s).
Definition with_tails v s := SchedState (tasks s) (alive s) (heap s) (runqueues s) v (active_priorities s) (cores s) (tid_counter s).
Definition with_active v s := SchedState (tasks s) (alive s) (heap s) (runqueues s) (runqueues_tail s) v (cores s) (tid_counter s).
Definition with_cores v s := SchedState (tasks s) (alive s) (heap s) (runqueues s) (runqueues_tail s) (active_priorities s) v (tid_counter s).
Definition with_tid v s := SchedState (tasks s) (alive s) (heap s) (runqueues s) (runqueues_tail s) (active_priorities s) (cores s) v.

(** ** The monad *)

Inductive trap := BadAccess (p : Z) | Hang.

Definition M (X : Type) : Type := sched -> trap + (X * sched).

#[export] Instance M_ret : MRet M := fun X x s => inr (x, s).
#[export] Instance M_bind : MBind M := fun X Y f m s =>
  match m s with inl e => inl e | inr (x, s) => f x s end.

Definition stop {X} (e : trap) : M X := fun _ => inl e.
Definition gets {X} (f : sched -> X) : M X := fun s => inr (f s, s).
Definition modify (f : sched -> sched) : M () := fun s => inr ((), f s).

(** [*t] and assignments to its fields. *)
Definition get (t : Z) : M task_t := fun s =>
  if decide (t ∈ alive s) then inr (tasks s t, s) else inl (BadAccess t).
Definition upd (t : Z) (f : task_t -> task_t) : M () := fun s =>
  if decide (t ∈ alive s) then inr ((), with_tasks (<[t := f (tasks s t)]> (tasks s)) s)
  else inl (BadAccess t).

(** [runqueues[p]], [runqueues_tail[p]]: an index out of bounds is an error. *)
Definition in_count (p : Z) : M () := if decide (0 <= p < COUNT) then mret () else stop (BadAccess p).
Definition head (p : Z) : M Z := in_count p;; gets (fun s => runqueues s p).
Definition tail (p : Z) : M Z := in_count p;; gets (fun s => runqueues_tail s p).
Definition set_head (p v : Z) : M () := in_count p;; modify (fun s => with_runqueues (<[p := v]> (runqueues s)) s).
Definition set_tail (p v : Z) : M () := in_count p;; modify (fun s => with_tails (<[p := v]> (runqueues_tail s)) s).

(** [*get_core()] on CPU [cpu], whose [tpidr_el1] points at [cores[cpu]]. *)
Definition get_core (cpu : nat) : M cpu_core_t := fun s =>
  match cores s !! cpu with Some c => inr (c, s) | None => inl (BadAccess (Z.of_nat cpu)) end.
Definition set_core (cpu : nat) (c : cpu_core_t) : M () :=
  modify (fun s => with_cores (<[cpu := c]> (cores s)) s).
Definition current_task (cpu : nat) : M Z := c ← get_core cpu; mret (task c).
Definition sched_getcpu (cpu : nat) : M Z := c ← get_core cpu; mret (cpu_id c).
Definition set_current_task (cpu : nat) (t : Z) : M () :=
  c ← get_core cpu; set_core cpu (Core (cpu_id c) t (task_to_free c)).

(** [cores[sched_getcpu()]] *)
Definition own_core (cpu : nat) : M cpu_core_t := i ← sched_getcpu cpu; get_core (Z.to_nat i).
Definition set_task_to_free (cpu : nat) (t : Z) : M () :=
  i ← sched_getcpu cpu;
  c ← get_core (Z.to_nat i);
  set_core (Z.to_nat i) (Core (cpu_id c) (task c) t).

Definition malloc (n : Z) : M Z := fun s =>
  let '(r, a) := ha_malloc (heap s) n in
  inr (r, with_heap (if r =? 0 then alive s else {[r]} ∪ alive s) a s).
Definition free (p : Z) : M () := modify (fun s => with_heap (alive s ∖ {[p]}) (ha_free (heap s) p) s).

(** ** Run queues *)

Definition sched_enqueue_task (t : Z) : M () :=
  tk ← get t;
  let prio := priority tk in
  upd t (with_next 0);;
  upd t (with_prev 0);;
  h ← head prio;
  (if h =? 0 then
     set_head prio t;;
     set_tail prio t
   else
     tl ← tail prio;
     upd t (with_prev tl);;
     tl ← tail prio;
     upd tl (with_next t);;
     set_tail prio t);;
  modify (fun s => with_active (Z.lor (active_priorities s) (Z.shiftl 1 prio)) s).

Definition sched_dequeue_task (t : Z) : M () :=
  tk ← get t;
  let prio := priority tk in
  (if nonzero (prev tk) then upd (prev tk) (with_next (next tk))
   else
     h ← head prio;
     if h =? t then set_head prio (next tk) else mret ());;
  tk ← get t;
  (if nonzero (next tk) then upd (next tk) (with_prev (prev tk))
   else
     tl ← tail prio;
     if tl =? t then set_tail prio (prev tk) else mret ());;
  upd t (with_next 0);;
  upd t (with_prev 0);;
  h ← head prio;
  if h =? 0 then modify (fun s => with_active (Z.land (active_priorities s) (Z.lnot (Z.shiftl 1 prio))) s)
  else mret ().

Definition rotate_queue (prio : Z) : M () :=
  h ← head prio;
  if h =? 0 then mret ()
  else
    hd ← get h;
    if next hd =? 0 then mret ()
    else sched_dequeue_task h;; sched_enqueue_task h.

(** ** Switching

    The CPU's callee-saved registers go to [prev]'s context and [next]'s are
    loaded; the result is what the CPU goes on with. *)
Definition cpu_switch_to (prev next : Z) (regs : cpu_context) : M cpu_context :=
  upd prev (with_context regs);;
  n ← get next;
  mret (context n).

Definition reap (cpu : nat) : M () :=
  c ← own_core cpu;
  let dead_task := task_to_free c in
  if nonzero dead_task then
    set_task_to_free cpu 0;;
    d ← get dead_task;
    free (stack_page d);;
    free dead_task
  else mret ().

(** The task to run next: the first one of the highest active priority, or the
    core's own. *)
Definition pick_next (cpu : nat) : M Z :=
  active ← gets active_priorities;
  n ← (if 0 <? active then
         let highest := Z.log2 active in
         head (if COUNT <=? highest then COUNT - 1 else highest)
       else mret 0);
  if n =? 0 then c ← own_core cpu; mret (task c) else mret n.

Definition sched_yield (cpu : nat) (regs : cpu_context) : M cpu_context :=
  reap cpu;;
  prev_task ← current_task cpu;
  (if nonzero prev_task then
     p ← get prev_task;
     if bool_decide (state p = TASK_RUNNING) && negb (priority p =? IDLE) then
       upd prev_task (with_state TASK_READY);;
       sched_enqueue_task prev_task
     else mret ()
   else mret ());;
  next_task ← pick_next cpu;
  (if nonzero next_task then
     n ← get next_task;
     if negb (priority n =? IDLE) then
       sched_dequeue_task next_task;;
       upd next_task (with_state TASK_RUNNING)
     else upd next_task (with_state TASK_RUNNING)
   else mret ());;
  if negb (next_task =? prev_task) then
    set_current_task cpu next_task;;
    cpu_switch_to prev_task next_task regs
  else mret regs.

(** [idle], for as many turns of its loop as there are register files. *)
Definition idle_turns (cpu : nat) (turns : list cpu_context) : M () :=
  foldr (fun regs rest => sched_yield cpu regs;; rest) (mret ()) turns.

(** ** Threads *)

Section Threads.
Context (idle idle_flag ret_from_fork : Z).

Definition initialized (attr : option pthread_attr_t) : option pthread_attr_t :=
  match attr with Some at_ => if nonzero (is_initialized at_) then Some at_ else None | None => None end.

(** The result is the return value and what [*thread] receives, if anything. *)
Definition pthread_create (attr : option pthread_attr_t) (start_routine arg : Z) : M (Z * option Z) :=
  t ← malloc sizeof_task;
  if t =? 0 then mret (EAGAIN, None)
  else
    upd t (fun _ => zero_task);;
    page ← match initialized attr with
           | Some at_ => if stackaddr at_ =? 0 then malloc (stacksize at_) else mret (stackaddr at_)
           | None => malloc (4096 * 4)
           end;
    upd t (with_stack_page page);;
    if page =? 0 then free t;; mret (EAGAIN, None)
    else
      tid ← gets tid_counter;
      modify (with_tid (u64 (tid + 1)));;
      upd t (with_id tid);;
      upd t (with_state TASK_READY);;
      upd t (with_priority
        (if arg =? idle_flag then IDLE
         else match initialized attr with Some at_ => u32 (Z.rem (schedparam at_) 5) | None => NORMAL end));;
      upd t (with_next 0);;
      upd t (with_prev 0);;
      let stack_size := match initialized attr with Some at_ => stacksize at_ | None => 4096 * 4 end in
      page ← match initialized attr with
             | Some at_ => if stackaddr at_ =? 0 then malloc stack_size else mret (stackaddr at_)
             | None => malloc stack_size
             end;
      upd t (with_stack_page page);;
      if page =? 0 then free t;; mret (EAGAIN, None)
      else
        upd t (fun tk => with_context
          (CpuContext start_routine arg 0 0 0 0 0 0 0 0 0 ret_from_fork
             (Z.land (u64 (page + stack_size)) (Z.lnot 0xF)) 0 0 0 0 0 0 0 0) tk);;
        tk ← get t;
        (if negb (priority tk =? IDLE) then sched_enqueue_task t else mret ());;
        mret (0, Some t).

(** [while (waiting) { waiting->state = TASK_READY; sched_enqueue_task(waiting); }] *)
Fixpoint wake_all (fuel : nat) (waiting : Z) : M () :=
  if waiting =? 0 then mret ()
  else
    match fuel with
    | O => stop Hang
    | Datatypes.S fuel =>
        upd waiting (with_state TASK_READY);;
        sched_enqueue_task waiting;;
        wake_all fuel waiting
    end.

(** Up to the [sched_yield] that ends it; what the CPU goes on with is the
    result. *)
Definition pthread_exit (fuel : nat) (cpu : nat) (value_ptr : Z) (regs : cpu_context) : M cpu_context :=
  cur ← current_task cpu;
  upd cur (with_ret_value value_ptr);;
  upd cur (with_state TASK_EXITED);;
  set_task_to_free cpu cur;;
  c ← get cur;
  wake_all fuel (join_wait_queue c);;
  upd cur (with_join_wait_queue 0);;
  sched_dequeue_task cur;;
  sched_yield cpu regs.

(** [pthread_join] up to its waiting loop: the return value when it is decided
    at once, [None] when the caller goes on to poll. *)
Definition pthread_join_enter (cpu : nat) (thread : Z) : M (option Z) :=
  if thread =? 0 then mret (Some EINVAL)
  else
    t ← get thread;
    if negb (bool_decide (state t = TASK_EXITED)) then
      cur ← current_task cpu;
      upd cur (with_state TASK_BLOCKED);;
      t ← get thread;
      upd cur (with_next (join_wait_queue t));;
      upd thread (with_join_wait_queue cur);;
      mret None
    else mret (Some 0).

(** One round of [while (t->state != TASK_EXITED) sched_yield();]: the
    registers to go on with, or [None] when the loop ends. *)
Definition pthread_join_poll (cpu : nat) (thread : Z) (regs : cpu_context) : M (option cpu_context) :=
  t ← get thread;
  if negb (bool_decide (state t = TASK_EXITED)) then r ← sched_yield cpu regs; mret (Some r)
  else mret None.

Definition pthread_join_value (thread : Z) : M Z := t ← get thread; mret (ret_value t).

(** ** Initialisation *)

(** [malloc(sizeof(task_t))] whose result is cleared unchecked. *)
Definition new_task : M Z := t ← malloc sizeof_task; upd t (fun _ => zero_task);; mret t.

Definition sched_init : M () :=
  modify (fun s => with_cores
    (for_ 0 2 (fun i cs => <[Z.to_nat i := Core i 0
       (default 0 (task_to_free <$> cs !! Z.to_nat i))]> cs) (cores s)) s);;
  modify (fun s => with_runqueues (for_ 0 COUNT (fun i f => <[i := 0]> f) (runqueues s)) s);;
  modify (fun s => with_tails (for_ 0 COUNT (fun i f => <[i := 0]> f) (runqueues_tail s)) s);;
  '(_, thread) ← pthread_create None idle idle_flag;
  (* [idle_thread] is not initialised when the creation fails *)
  idle_thread ← match thread with Some t => mret t | None => stop (BadAccess 0) end;
  set_current_task 0 idle_thread;;
  main_task ← new_task;
  tid ← gets tid_counter;
  modify (with_tid (u64 (tid + 1)));;
  upd main_task (with_id tid);;
  upd main_task (with_state TASK_RUNNING);;
  upd main_task (with_priority NORMAL);;
  set_current_task 0 main_task.

Definition sched_init_secondary (cpu : Z) : M () :=
  if (cpu <? 0) || (Z.of_nat MAX_CPUS <=? cpu) then mret ()
  else
    let i := Z.to_nat cpu in
    c ← get_core i;
    set_core i (Core cpu (task c) (task_to_free c));;
    '(_, thread) ← pthread_create None idle idle_flag;
    idle_core2 ← match thread with Some t => mret t | None => stop (BadAccess 0) end;
    upd idle_core2 (with_priority IDLE);;
    set_current_task i idle_core2;;
    startup_task ← new_task;
    upd startup_task (with_priority IDLE);;
    upd startup_task (with_state TASK_RUNNING);;
    set_current_task i startup_task.
End Threads.
End WithHeap.

(** ** Attributes

    [None] is a NULL pointer; a getter's [bool] says whether its destination
    is not NULL. *)

Definition usable (attr : option pthread_attr_t) : bool :=
  match attr with Some a => nonzero (is_initialized a) | None => false end.

Definition pthread_attr_init (attr : option pthread_attr_t) : Z * option pthread_attr_t :=
  match attr with
  | None => (EINVAL, None)
  | Some a => (0, Some (Attr 0 (4096 * 4) 0 (inheritsched a) 0 2 1))
  end.

Definition pthread_attr_destroy (attr : option pthread_attr_t) : Z * option pthread_attr_t :=
  match attr with
  | None => (EINVAL, None)
  | Some a => (0, Some (Attr (detachstate a) (stacksize a) (stackaddr a) (inheritsched a) (schedpolicy a)
                         (schedparam a) 0))
  end.

(** A setter that checks [ok] and then applies [f]. *)
Definition attr_set (attr : option pthread_attr_t) (ok : bool) (f : pthread_attr_t -> pthread_attr_t)
  : Z * option pthread_attr_t :=
  if negb (usable attr) then (EINVAL, attr)
  else if negb ok then (EINVAL, attr)
  else (0, f <$> attr).

Definition attr_get {X} (attr : option pthread_attr_t) (dst : bool) (f : pthread_attr_t -> X) : Z * option X :=
  if negb (usable attr) || negb dst then (EINVAL, None) else (0, f <$> attr).

Definition pthread_attr_setstacksize attr (size : Z) := attr_set attr (negb (size <? 4096))
  (fun a => Attr (detachstate a) size (stackaddr a) (inheritsched a) (schedpolicy a) (schedparam a) (is_initialized a)).
Definition pthread_attr_getstacksize attr dst := attr_get attr dst stacksize.
Definition pthread_attr_setstack attr (addr size : Z) := attr_set attr (negb (size <? 4096))
  (fun a => Attr (detachstate a) size addr (inheritsched a) (schedpolicy a) (schedparam a) (is_initialized a)).
Definition pthread_attr_getstack attr (dst1 dst2 : bool) :=
  attr_get attr (dst1 && dst2) (fun a => (stackaddr a, stacksize a)).
Definition pthread_attr_setdetachstate attr (v : Z) := attr_set attr ((v =? 0) || (v =? 1))
  (fun a => Attr v (stacksize a) (stackaddr a) (inheritsched a) (schedpolicy a) (schedparam a) (is_initialized a)).
Definition pthread_attr_getdetachstate attr dst := attr_get attr dst detachstate.
Definition pthread_attr_setschedpolicy attr (v : Z) := attr_set attr true
  (fun a => Attr (detachstate a) (stacksize a) (stackaddr a) (inheritsched a) v (schedparam a) (is_initialized a)).
Definition pthread_attr_getschedpolicy attr dst := attr_get attr dst schedpolicy.
Definition pthread_attr_setschedparam attr (param : option Z) := match param with
  | None => (EINVAL, attr)
  | Some v => attr_set attr ((0 <=? v) && (v <? COUNT))
      (fun a => Attr (detachstate a) (stacksize a) (stackaddr a) (inheritsched a) (schedpolicy a) v (is_initialized a))
  end.
Definition pthread_attr_getschedparam attr dst := attr_get attr dst schedparam.

End Sched.
