(* ===== verification/SchedQueues.v ===== *)
(** * The run queues

    The queues as lists: what [sched_enqueue_task] and [sched_dequeue_task] do
    to them, by way of the doubly linked lists of [Dll]. *)

From stdpp Require Import functions.
From S2P Require Import Prelude Dll HeapApi Sched.

Module SchedQueues.
Import Sched.

Section Queues.
Context {A : Type} {HA : HeapApi A}.
Abbreviation sched := (@sched A).

(** ** Stepping through the monad *)

Lemma bind_ok {X Y} (m : M X) (f : X -> M Y) (s s' : sched) x :
  m s = inr (x, s') -> (m ≫= f) s = f x s'.
Proof. intros H. unfold mbind, M_bind. by rewrite H. Qed.

Lemma bind_fail {X Y} (m : M X) (f : X -> M Y) (s : sched) e :
  m s = inl e -> (m ≫= f) s = inl e.
Proof. intros H. unfold mbind, M_bind. by rewrite H. Qed.

Lemma get_ok t (s : sched) : t ∈ alive s -> get t s = inr (tasks s t, s).
Proof. intros H. unfold get. by rewrite decide_True. Qed.

Lemma upd_ok t f (s : sched) : t ∈ alive s ->
  upd t f s = inr ((), with_tasks (<[t := f (tasks s t)]> (tasks s)) s).
Proof. intros H. unfold upd. by rewrite decide_True. Qed.

Lemma head_ok p (s : sched) : 0 <= p < COUNT -> head p s = inr (runqueues s p, s).
Proof. intros H. unfold head, in_count, mbind, M_bind. by rewrite decide_True. Qed.

Lemma tail_ok p (s : sched) : 0 <= p < COUNT -> tail p s = inr (runqueues_tail s p, s).
Proof. intros H. unfold tail, in_count, mbind, M_bind. by rewrite decide_True. Qed.

Lemma set_head_ok p v (s : sched) : 0 <= p < COUNT ->
  set_head p v s = inr ((), with_runqueues (<[p := v]> (runqueues s)) s).
Proof. intros H. unfold set_head, in_count, mbind, M_bind. by rewrite decide_True. Qed.

Lemma set_tail_ok p v (s : sched) : 0 <= p < COUNT ->
  set_tail p v s = inr ((), with_tails (<[p := v]> (runqueues_tail s)) s).
Proof. intros H. unfold set_tail, in_count, mbind, M_bind. by rewrite decide_True. Qed.

(** ** The links *)

Definition pointer (p : Z) : Prop := 0 < p < 2 ^ 64.

Definition nx_of (s : sched) (t : Z) : Z := next (tasks s t).
Definition pv_of (s : sched) (t : Z) : Z := prev (tasks s t).
Definition set_nx_of (s : sched) (t v : Z) : sched := with_tasks (<[t := with_next v (tasks s t)]> (tasks s)) s.
Definition set_pv_of (s : sched) (t v : Z) : sched := with_tasks (<[t := with_prev v (tasks s t)]> (tasks s)) s.

#[export] Instance task_links : Links sched pointer.
Proof.
  refine {| nx := nx_of; pv := pv_of; set_nx := set_nx_of; set_pv := set_pv_of |};
    unfold nx_of, pv_of, set_nx_of, set_pv_of; intros; simpl;
    try (case_decide; [subst; by rewrite fn_lookup_insert|by rewrite fn_lookup_insert_ne]);
    try (destruct (decide (a = b)) as [->|]; [by rewrite fn_lookup_insert|by rewrite fn_lookup_insert_ne]).
  done.
Defined.

(** Two states that differ in the links of the tasks and the queues only. *)
Definition unlinked (t : task_t) : task_t := with_next 0 (with_prev 0 t).

Record same_tasks (s s' : sched) : Prop := {
  st_task : forall t, unlinked (tasks s' t) = unlinked (tasks s t);
  st_alive : alive s' = alive s;
  st_heap : heap s' = heap s;
  st_cores : cores s' = cores s;
  st_tid : tid_counter s' = tid_counter s;
}.

#[export] Instance same_tasks_equiv : Equivalence same_tasks.
Proof.
  split.
  - by intros s; split.
  - intros s s' []. by split.
  - intros s1 s2 s3 [H1 H2 H3 H4 H5] [G1 G2 G3 G4 G5]. split; [|congruence..]. intros t. by rewrite G1.
Qed.

Lemma unlinked_fields t t' : unlinked t = unlinked t' ->
  context t = context t' /\ id t = id t' /\ state t = state t' /\ priority t = priority t' /\
  stack_page t = stack_page t' /\ ret_value t = ret_value t' /\ join_wait_queue t = join_wait_queue t'.
Proof. destruct t, t'. unfold unlinked, with_next, with_prev. simpl. intros [=]. by subst. Qed.

Lemma same_set_nx s t v : same_tasks s (set_nx_of s t v).
Proof.
  split; [|done..]. intros u. unfold set_nx_of. simpl.
  destruct (decide (u = t)) as [->|Hne]; [by rewrite fn_lookup_insert|by rewrite fn_lookup_insert_ne].
Qed.

Lemma same_set_pv s t v : same_tasks s (set_pv_of s t v).
Proof.
  split; [|done..]. intros u. unfold set_pv_of. simpl.
  destruct (decide (u = t)) as [->|Hne]; [by rewrite fn_lookup_insert|by rewrite fn_lookup_insert_ne].
Qed.

Lemma same_link_back s tl t : same_tasks s (link_back s tl t).
Proof.
  unfold link_back. simpl. destruct (tl =? 0).
  - etrans; [apply same_set_nx|apply same_set_pv].
  - etrans; [|apply same_set_nx]. etrans; [|apply same_set_pv].
    etrans; [apply same_set_nx|apply same_set_pv].
Qed.

Lemma same_unlink s t : same_tasks s (unlink s t).
Proof.
  unfold unlink. simpl. destruct (pv_of s t =? 0); simpl;
    [|etrans; [apply same_set_nx|]]; destruct (_ =? 0); simpl; done || apply same_set_pv.
Qed.

(** ** The operations, as functions on states *)

Definition enqueue (s : sched) (t : Z) : sched :=
  let p := priority (tasks s t) in
  let s1 := link_back s (runqueues_tail s p) t in
  let s2 := if runqueues s p =? 0 then with_runqueues (<[p := t]> (runqueues s1)) s1 else s1 in
  let s3 := with_tails (<[p := t]> (runqueues_tail s2)) s2 in
  with_active (Z.lor (active_priorities s3) (Z.shiftl 1 p)) s3.

Definition dequeue (s : sched) (t : Z) : sched :=
  let p := priority (tasks s t) in
  let s1 := unlink s t in
  let s2 := set_pv_of (set_nx_of s1 t 0) t 0 in
  let s3 := if (pv_of s t =? 0) && (runqueues s p =? t)
            then with_runqueues (<[p := nx_of s t]> (runqueues s2)) s2 else s2 in
  let s4 := if (nx_of s t =? 0) && (runqueues_tail s p =? t)
            then with_tails (<[p := pv_of s t]> (runqueues_tail s3)) s3 else s3 in
  if runqueues s4 p =? 0 then with_active (Z.land (active_priorities s4) (Z.lnot (Z.shiftl 1 p))) s4 else s4.

Lemma enqueue_run s t :
  t ∈ alive s -> 0 <= priority (tasks s t) < COUNT ->
  (runqueues s (priority (tasks s t)) = 0 <-> runqueues_tail s (priority (tasks s t)) = 0) ->
  (runqueues_tail s (priority (tasks s t)) = 0 \/ runqueues_tail s (priority (tasks s t)) ∈ alive s) ->
  sched_enqueue_task t s = inr ((), enqueue s t).
Proof.
  intros Ht Hp Hht Htl. unfold sched_enqueue_task, enqueue, link_back. simpl.
  set (p := priority (tasks s t)) in *.
  erewrite bind_ok by (by apply get_ok). fold p.
  erewrite bind_ok by (by apply upd_ok). fold (set_nx_of s t 0).
  erewrite bind_ok by (by apply upd_ok). fold (set_pv_of (set_nx_of s t 0) t 0).
  erewrite bind_ok by (by apply head_ok). cbn [runqueues set_pv_of set_nx_of with_tasks].
  destruct (runqueues s p =? 0) eqn:Eh.
  - destruct (runqueues_tail s p =? 0) eqn:Et; [|lia].
    match goal with |- _ = inr ((), with_active _ ?s3) => rewrite (bind_ok _ _ _ s3 ()); [reflexivity|] end.
    erewrite bind_ok by (by apply set_head_ok). by apply set_tail_ok.
  - destruct (runqueues_tail s p =? 0) eqn:Et; [lia|]. destruct Htl as [|Htl]; [lia|].
    match goal with |- _ = inr ((), with_active _ ?s3) => rewrite (bind_ok _ _ _ s3 ()); [reflexivity|] end.
    erewrite bind_ok by (by apply tail_ok). erewrite bind_ok by (by apply upd_ok).
    erewrite bind_ok by (by apply tail_ok). cbn [runqueues_tail with_tasks].
    erewrite bind_ok by (by apply upd_ok). by apply set_tail_ok.
Qed.

(** The two conditional updates of [sched_dequeue_task]. *)
Definition unlink_prev (s : sched) (t : Z) : sched :=
  let p := priority (tasks s t) in
  if nonzero (pv_of s t) then set_nx_of s (pv_of s t) (nx_of s t)
  else if runqueues s p =? t then with_runqueues (<[p := nx_of s t]> (runqueues s)) s else s.

Definition unlink_next (s : sched) (t p : Z) : sched :=
  if nonzero (nx_of s t) then set_pv_of s (nx_of s t) (pv_of s t)
  else if runqueues_tail s p =? t then with_tails (<[p := pv_of s t]> (runqueues_tail s)) s else s.

Lemma unlink_prev_fields s t : pv_of s t <> t ->
  tasks (unlink_prev s t) t = tasks s t /\ runqueues_tail (unlink_prev s t) = runqueues_tail s /\
  alive (unlink_prev s t) = alive s.
Proof.
  intros Hp. unfold unlink_prev. destruct (nonzero (pv_of s t)).
  - unfold set_nx_of. simpl. by rewrite fn_lookup_insert_ne.
  - by destruct (_ =? t).
Qed.

Lemma dequeue_eq s t : pv_of s t <> t ->
  let p := priority (tasks s t) in
  let s1 := unlink_next (unlink_prev s t) t p in
  let s2 := set_pv_of (set_nx_of s1 t 0) t 0 in
  dequeue s t =
    if runqueues s2 p =? 0 then with_active (Z.land (active_priorities s2) (Z.lnot (Z.shiftl 1 p))) s2 else s2.
Proof.
  intros Hp. cbv zeta. unfold dequeue, unlink_next, unlink. simpl.
  destruct (unlink_prev_fields s t Hp) as (Ht & Htl & _).
  unfold nx_of at 5 6, pv_of at 7 8. unfold nx_of, pv_of. rewrite Ht, Htl. unfold unlink_prev, nonzero, pv_of, nx_of.
  destruct (prev (tasks s t) =? 0) eqn:E1; cbn [negb andb].
  - destruct (runqueues s (priority (tasks s t)) =? t) eqn:E2; destruct (next (tasks s t) =? 0) eqn:E3; cbn [negb andb];
      try (destruct (runqueues_tail s (priority (tasks s t)) =? t) eqn:E4); reflexivity.
  - assert (Hn : next (tasks (set_nx_of s (prev (tasks s t)) (next (tasks s t))) t) = next (tasks s t) /\
              prev (tasks (set_nx_of s (prev (tasks s t)) (next (tasks s t))) t) = prev (tasks s t)).
    { unfold set_nx_of. simpl. by rewrite fn_lookup_insert_ne. }
    destruct Hn as [-> ->]. destruct (next (tasks s t) =? 0) eqn:E3; cbn [negb andb];
      try (destruct (runqueues_tail s (priority (tasks s t)) =? t) eqn:E4); reflexivity.
Qed.

(** A task taken out of its queue has no links. *)
Lemma dequeue_unlinks s t : next (tasks (dequeue s t) t) = 0 /\ prev (tasks (dequeue s t) t) = 0.
Proof.
  assert (H : forall s0, next (tasks (set_pv_of (set_nx_of s0 t 0) t 0) t) = 0 /\ prev (tasks (set_pv_of (set_nx_of s0 t 0) t 0) t) = 0).
  { intros s0. unfold set_pv_of, set_nx_of. simpl. by rewrite !fn_lookup_insert. }
  unfold dequeue. cbv zeta. specialize (H (unlink s t)). revert H.
  generalize (set_pv_of (set_nx_of (unlink s t) t 0) t 0). intros s2 H.
  by repeat match goal with |- context [if ?b then _ else _] => destruct b; simpl end.
Qed.

Lemma dequeue_run s t :
  t ∈ alive s -> 0 <= priority (tasks s t) < COUNT -> pv_of s t <> t -> nx_of s t <> t ->
  (pv_of s t = 0 \/ pv_of s t ∈ alive s) -> (nx_of s t = 0 \/ nx_of s t ∈ alive s) ->
  sched_dequeue_task t s = inr ((), dequeue s t).
Proof.
  intros Ht Hp Hpt Hnt Hpv Hnx. rewrite dequeue_eq by done. unfold sched_dequeue_task.
  set (p := priority (tasks s t)) in *. cbv zeta.
  destruct (unlink_prev_fields s t Hpt) as (Et & Etl & Eal).
  erewrite bind_ok by (by apply get_ok). fold p.
  rewrite (bind_ok _ _ _ (unlink_prev s t) ()).
  2:{ unfold unlink_prev. fold (pv_of s t). destruct (nonzero (pv_of s t)) eqn:E.
      - unfold nonzero in E. destruct Hpv as [Hpv|Hpv]; [by rewrite Hpv in E|]. by apply upd_ok.
      - erewrite bind_ok by (by apply head_ok). fold p. destruct (_ =? t); [by apply set_head_ok|done]. }
  erewrite bind_ok by (apply get_ok; by rewrite Eal).
  rewrite (bind_ok _ _ _ (unlink_next (unlink_prev s t) t p) ()).
  2:{ unfold unlink_next. fold (nx_of (unlink_prev s t) t) (pv_of (unlink_prev s t) t).
      assert (En : nx_of (unlink_prev s t) t = nx_of s t) by (unfold nx_of; by rewrite Et).
      rewrite En. destruct (nonzero (nx_of s t)) eqn:E.
      - unfold nonzero in E. destruct Hnx as [Hnx|Hnx]; [by rewrite Hnx in E|].
        apply upd_ok. by rewrite Eal.
      - erewrite bind_ok by (by apply tail_ok). destruct (_ =? t); [by apply set_tail_ok|done]. }
  assert (Hal : t ∈ alive (unlink_next (unlink_prev s t) t p)).
  { unfold unlink_next. destruct (nonzero _); [by rewrite <- Eal in Ht|].
    destruct (_ =? t); by rewrite <- Eal in Ht. }
  erewrite bind_ok by (by apply upd_ok). fold (set_nx_of (unlink_next (unlink_prev s t) t p) t 0).
  erewrite bind_ok by (by apply upd_ok).
  fold (set_pv_of (set_nx_of (unlink_next (unlink_prev s t) t p) t 0) t 0).
  erewrite bind_ok by (by apply head_ok). by destruct (_ =? 0).
Qed.

(** ** The queues as lists *)

Definition queue_ok (s : sched) (p : Z) (q : list Z) : Prop :=
  runqueues s p = first 0 q /\ runqueues_tail s p = final 0 q /\ seg s 0 q 0 /\ NoDup q /\
  forall t, t ∈ q -> t ∈ alive s /\ pointer t /\ priority (tasks s t) = p /\ state (tasks s t) = TASK_READY.

(** Bit [p] of [active_priorities] is set exactly when queue [p] is not empty;
    idle tasks are never queued. *)
Record queues_ok (s : sched) (Q : Z -> list Z) : Prop := {
  qo_queue : forall p, 0 <= p < COUNT -> queue_ok s p (Q p);
  qo_active : forall p, 0 <= p < COUNT -> Z.testbit (active_priorities s) p = bool_decide (Q p <> []);
  qo_range : 0 <= active_priorities s < 2 ^ COUNT;
  qo_idle : Q IDLE = [];
}.

Lemma queue_valid s p q t : queue_ok s p q -> t ∈ q -> pointer t.
Proof. intros (_ & _ & _ & _ & H) Ht. by apply H. Qed.

Lemma head_nil s p q : queue_ok s p q -> runqueues s p = 0 <-> q = [].
Proof.
  intros (-> & _ & _ & _ & H). destruct q as [|t q]; [done|]. split; [|done].
  destruct (H t ltac:(left)) as (_ & Hv & _). unfold pointer in Hv. simpl. lia.
Qed.

Lemma tail_nil s p q : queue_ok s p q -> runqueues_tail s p = 0 <-> q = [].
Proof.
  intros (_ & -> & _ & _ & H). split; [|by intros ->]. intros E.
  destruct (final_cases (valid := pointer) q) as [[? _]|[_ Hv]]; [intros a Ha; by apply H|done|].
  rewrite E in Hv. unfold pointer in Hv. lia.
Qed.

(** Another queue's list is not disturbed by changes outside it. *)
Lemma queue_other s s' p q :
  queue_ok s p q -> same_tasks s s' -> runqueues s' p = runqueues s p -> runqueues_tail s' p = runqueues_tail s p ->
  (forall t, t ∈ q -> nx_of s' t = nx_of s t /\ pv_of s' t = pv_of s t) -> queue_ok s' p q.
Proof.
  intros (H1 & H2 & H3 & H4 & H5) Hs Hh Ht Hl. split_and!; [congruence|congruence| |done|].
  - eapply seg_ext; [|exact H3]. exact Hl.
  - intros t Hin. destruct (H5 t Hin) as (G1 & G2 & G3 & G4).
    destruct (unlinked_fields _ _ (st_task _ _ Hs t)) as (_ & _ & -> & -> & _).
    rewrite (st_alive _ _ Hs). done.
Qed.

Lemma set_bit_range a p : 0 <= a < 2 ^ COUNT -> 0 <= p < COUNT ->
  0 <= Z.lor a (Z.shiftl 1 p) < 2 ^ COUNT /\ 0 <= Z.land a (Z.lnot (Z.shiftl 1 p)) < 2 ^ COUNT.
Proof.
  intros Ha Hp. unfold COUNT in *. split.
  - apply lor_range; [lia|done|]. rewrite Z.shiftl_1_l. split; [lia|]. apply Z.pow_lt_mono_r; lia.
  - apply (land_range _ _ 5); [lia|done].
Qed.

Lemma set_bit a p i : 0 <= p -> 0 <= i ->
  Z.testbit (Z.lor a (Z.shiftl 1 p)) i = (if decide (i = p) then true else Z.testbit a i).
Proof.
  intros Hp Hi. rewrite Z.lor_spec, Z.shiftl_1_l, Z.pow2_bits_eqb by done. case_decide as D.
  - subst. by rewrite Z.eqb_refl, orb_true_r.
  - destruct (p =? i) eqn:E; [lia|]. by rewrite orb_false_r.
Qed.

Lemma clear_bit a p i : 0 <= p -> 0 <= i ->
  Z.testbit (Z.land a (Z.lnot (Z.shiftl 1 p))) i = (if decide (i = p) then false else Z.testbit a i).
Proof.
  intros Hp Hi. rewrite Z.land_spec, Z.lnot_spec, Z.shiftl_1_l, Z.pow2_bits_eqb by done. case_decide as D.
  - subst. by rewrite Z.eqb_refl, andb_false_r.
  - destruct (p =? i) eqn:E; [lia|]. by rewrite andb_true_r.
Qed.

Section Change.
Context (s : sched) (Q : Z -> list Z) (t : Z).
Context (HQ : queues_ok s Q) (Ht : t ∈ alive s) (Hv : pointer t).
Abbreviation p := (priority (tasks s t)).
Context (Hp : IDLE < p < COUNT).

Lemma same_enqueue : same_tasks s (enqueue s t).
Proof.
  unfold enqueue. cbv zeta. destruct (same_link_back s (runqueues_tail s p) t) as [H1 H2 H3 H4 H5].
  destruct (runqueues s p =? 0); by split.
Qed.

Lemma same_dequeue : same_tasks s (dequeue s t).
Proof.
  assert (H : same_tasks s (set_pv_of (set_nx_of (unlink s t) t 0) t 0)).
  { etrans; [|apply same_set_pv]. etrans; [|apply same_set_nx]. apply same_unlink. }
  unfold dequeue. cbv zeta. revert H. generalize (set_pv_of (set_nx_of (unlink s t) t 0) t 0).
  intros s2 [H1 H2 H3 H4 H5]. destruct (_ && _); destruct (_ && _); simpl; destruct (_ =? 0); by split.
Qed.

Lemma enqueue_links b : nx_of (enqueue s t) b = nx_of (link_back s (runqueues_tail s p) t) b /\
  pv_of (enqueue s t) b = pv_of (link_back s (runqueues_tail s p) t) b.
Proof. unfold enqueue. cbv zeta. by destruct (runqueues s p =? 0). Qed.

Lemma enqueue_heads q : queue_ok s p q ->
  (forall i, runqueues (enqueue s t) i = if decide (i = p) then first 0 (q ++ [t]) else runqueues s i) /\
  (forall i, runqueues_tail (enqueue s t) i = if decide (i = p) then t else runqueues_tail s i) /\
  active_priorities (enqueue s t) = Z.lor (active_priorities s) (Z.shiftl 1 p).
Proof.
  intros Hq. pose proof (head_nil s p q Hq) as Hn. destruct Hq as (Hh & _).
  assert (E : forall tl, let s1 := link_back s tl t in runqueues s1 = runqueues s /\
            runqueues_tail s1 = runqueues_tail s /\ active_priorities s1 = active_priorities s).
  { intros tl. cbv zeta. unfold link_back. by destruct (tl =? 0). }
  destruct (E (runqueues_tail s p)) as (E1 & E2 & E3). unfold enqueue. cbv zeta.
  set (s1 := link_back s (runqueues_tail s p) t) in *.
  destruct (runqueues s p =? 0) eqn:E0; cbn [runqueues runqueues_tail active_priorities with_runqueues with_tails with_active];
    rewrite ?E1, ?E2, ?E3; split_and!; try done; intros i; (case_decide as D; [subst i|]);
    rewrite ?fn_lookup_insert, ?fn_lookup_insert_ne by done; try done.
  - by rewrite (proj1 Hn) by lia.
  - rewrite Hh. destruct q; [simpl in *; lia|done].
Qed.

(** A task that is not queued goes to the back of its queue. *)
Lemma enqueue_ok :
  state (tasks s t) = TASK_READY -> t ∉ Q p ->
  sched_enqueue_task t s = inr ((), enqueue s t) /\ queues_ok (enqueue s t) (<[p := Q p ++ [t]]> Q).
Proof.
  intros Hst Hni. destruct HQ as [HQ1 HQ2 HQ3 HQ4]. unfold COUNT, IDLE in *.
  pose proof (HQ1 p ltac:(lia)) as Hqp. pose proof Hqp as (Hh & Htl & Hseg & Hnd & Hel).
  destruct (link_back_ok s t (Q p) Hseg Hnd (fun b Hb => proj1 (proj2 (Hel b Hb))) Hv Hni) as [Hseg' Hfr].
  pose proof same_enqueue as Hsame. split.
  { apply enqueue_run; [done|unfold COUNT; lia| |].
    - by rewrite (head_nil s p _ Hqp), (tail_nil s p _ Hqp).
    - rewrite Htl. destruct (final_cases (valid := pointer) (Q p)) as [[_ ->]|[Hne _]].
      + intros b Hb. by apply Hel.
      + by left.
      + right. by apply Hel, final_in. }
  rewrite <- Htl in Hseg', Hfr.
  destruct (enqueue_heads (Q p) Hqp) as (Erq & Etl & Eac).
  split; [|..|].
  - intros i Hi. destruct (decide (i = p)) as [->|Hne].
    + rewrite fn_lookup_insert. split_and!.
      * by rewrite Erq, decide_True.
      * by rewrite Etl, decide_True, final_snoc.
      * eapply seg_ext; [|exact Hseg']. intros b _. apply enqueue_links.
      * apply list.NoDup_app. split_and!; [done| |apply NoDup_singleton].
        intros b Hb ->%list_elem_of_singleton. done.
      * intros b Hb. destruct (unlinked_fields _ _ (st_task _ _ Hsame b)) as (_ & _ & -> & -> & _).
        rewrite (st_alive _ _ Hsame).
        apply elem_of_app in Hb as [Hb| ->%list_elem_of_singleton]; [by apply Hel|done].
    + rewrite fn_lookup_insert_ne by done. eapply queue_other; [by apply HQ1|exact Hsame|..].
      * by rewrite Erq, decide_False.
      * by rewrite Etl, decide_False.
      * intros b Hb. destruct (HQ1 i Hi) as (_ & _ & _ & _ & Hel'). destruct (Hel' b Hb) as (_ & Hvb & Hpb & _).
        destruct (enqueue_links b) as [-> ->]. apply Hfr; [done|].
        intros [Hin| ->%list_elem_of_singleton]%elem_of_app; [|done].
        destruct (Hel b Hin) as (_ & _ & Hpb' & _). lia.
  - intros i Hi. rewrite Eac, set_bit by lia. case_decide as D.
    + subst. rewrite fn_lookup_insert. symmetry. apply bool_decide_eq_true. by destruct (Q p).
    + rewrite fn_lookup_insert_ne by done. by apply HQ2.
  - rewrite Eac. apply set_bit_range; unfold COUNT; [done|lia].
  - rewrite fn_lookup_insert_ne by (unfold IDLE; lia). done.
Qed.

Lemma dequeue_links b : t <> b -> nx_of (dequeue s t) b = nx_of (unlink s t) b /\
  pv_of (dequeue s t) b = pv_of (unlink s t) b.
Proof.
  intros Hb. unfold dequeue. cbv zeta. unfold nx_of, pv_of.
  assert (E : tasks (set_pv_of (set_nx_of (unlink s t) t 0) t 0) b = tasks (unlink s t) b).
  { unfold set_pv_of, set_nx_of. cbn [tasks with_tasks]. by rewrite !fn_lookup_insert_ne. }
  rewrite <- E. destruct (_ && _); destruct (_ && _); cbn [runqueues with_runqueues with_tails]; by destruct (_ =? 0).
Qed.

Lemma unlink_statics : runqueues (unlink s t) = runqueues s /\
  runqueues_tail (unlink s t) = runqueues_tail s /\ active_priorities (unlink s t) = active_priorities s.
Proof. unfold unlink. simpl. destruct (_ =? 0); simpl; by destruct (_ =? 0). Qed.

Lemma dequeue_heads l1 l2 : queue_ok s p (l1 ++ t :: l2) ->
  (forall i, runqueues (dequeue s t) i = if decide (i = p) then first 0 (l1 ++ l2) else runqueues s i) /\
  (forall i, runqueues_tail (dequeue s t) i = if decide (i = p) then final 0 (l1 ++ l2) else runqueues_tail s i) /\
  active_priorities (dequeue s t) =
    (if decide (l1 ++ l2 = []) then Z.land (active_priorities s) (Z.lnot (Z.shiftl 1 p)) else active_priorities s).
Proof.
  intros (Hh & Htl & Hseg & Hnd & Hel).
  destruct (unlink_valid (valid := pointer) l1 t l2 Hnd (fun b Hb => proj1 (proj2 (Hel b Hb))))
    as (_ & Hv1 & Hv2 & Ht1 & Ht2 & _).
  destruct unlink_statics as (E1 & E2 & E3).
  pose proof (seg_nx s _ _ _ _ _ Hseg) as Hnx. pose proof (seg_pv s _ _ _ _ _ Hseg) as Hpv.
  change (nx s t) with (nx_of s t) in Hnx. change (pv s t) with (pv_of s t) in Hpv.
  assert (Hf : pv_of s t = 0 <-> l1 = []).
  { rewrite Hpv. destruct (final_cases (valid := pointer) l1 Hv1) as [[-> ->]|[Hne Hp']]; [done|].
    unfold pointer in Hp'. split; [lia|done]. }
  assert (Hl : nx_of s t = 0 <-> l2 = []).
  { rewrite Hnx. destruct (first_cases (valid := pointer) l2 Hv2) as [[-> ->]|[Hne Hp']]; [done|].
    unfold pointer in Hp'. split; [lia|done]. }
  assert (Hhead : forall i, (if (pv_of s t =? 0) && (runqueues s p =? t) then <[p := nx_of s t]> (runqueues s)
            else runqueues s) i = if decide (i = p) then first 0 (l1 ++ l2) else runqueues s i).
  { intros i. rewrite Hh. destruct (pv_of s t =? 0) eqn:E.
    - rewrite (proj1 Hf) by lia. cbn [app first andb]. rewrite Z.eqb_refl, Hnx.
      case_decide as D; [subst; by rewrite fn_lookup_insert|by rewrite fn_lookup_insert_ne].
    - cbn [andb]. case_decide as D; [subst i|done]. rewrite Hh. destruct l1; [by rewrite (proj2 Hf eq_refl) in E|done]. }
  assert (Htail : forall i, (if (nx_of s t =? 0) && (runqueues_tail s p =? t) then <[p := pv_of s t]> (runqueues_tail s)
            else runqueues_tail s) i = if decide (i = p) then final 0 (l1 ++ l2) else runqueues_tail s i).
  { intros i. rewrite Htl. destruct (nx_of s t =? 0) eqn:E.
    - rewrite (proj1 Hl) by lia. rewrite final_snoc, app_nil_r, Z.eqb_refl, Hpv. cbn [andb].
      case_decide as D; [subst; by rewrite fn_lookup_insert|by rewrite fn_lookup_insert_ne].
    - cbn [andb]. case_decide as D; [subst i|done]. rewrite Htl, !final_app. destruct l2; [by rewrite (proj2 Hl eq_refl) in E|done]. }
  assert (Hz : forall f : Z -> Z, (forall i, f i = if decide (i = p) then first 0 (l1 ++ l2) else runqueues s i) ->
            (f p =? 0) = bool_decide (l1 ++ l2 = [])).
  { intros f ->. rewrite decide_True by done.
    destruct (first_cases (valid := pointer) (l1 ++ l2)) as [[-> ->]|[Hne Hp']]; [|done|].
    - intros b [?|?]%elem_of_app; auto.
    - unfold pointer in Hp'. rewrite bool_decide_false by done. lia. }
  unfold dequeue. cbv zeta. set (s2 := set_pv_of (set_nx_of (unlink s t) t 0) t 0).
  assert (F1 : runqueues s2 = runqueues s) by done. assert (F2 : runqueues_tail s2 = runqueues_tail s) by done.
  assert (F3 : active_priorities s2 = active_priorities s) by done. clearbody s2.
  set (c1 := (pv_of s t =? 0) && (runqueues s p =? t)) in *.
  set (c2 := (nx_of s t =? 0) && (runqueues_tail s p =? t)) in *. clearbody c1 c2.
  destruct c1, c2; cbn [runqueues with_runqueues with_tails runqueues_tail]; rewrite ?F1, ?F2, (Hz _ Hhead);
    (destruct (decide (l1 ++ l2 = [])); [rewrite bool_decide_true by done|rewrite bool_decide_false by done]);
    cbn [runqueues runqueues_tail active_priorities with_runqueues with_tails with_active]; rewrite ?F1, ?F2, ?F3; done.
Qed.

(** Removing a queued task. *)
Lemma dequeue_ok l1 l2 : Q p = l1 ++ t :: l2 ->
  sched_dequeue_task t s = inr ((), dequeue s t) /\ queues_ok (dequeue s t) (<[p := l1 ++ l2]> Q).
Proof.
  intros HQp. destruct HQ as [HQ1 HQ2 HQ3 HQ4]. unfold COUNT, IDLE in *.
  pose proof (HQ1 p ltac:(lia)) as Hqp. rewrite HQp in Hqp. pose proof Hqp as (Hh & Htl & Hseg & Hnd & Hel).
  assert (Hval : forall b, b ∈ l1 ++ t :: l2 -> pointer b) by (intros b Hb; by apply Hel).
  destruct (unlink_valid (valid := pointer) l1 t l2 Hnd Hval) as (_ & Hv1 & Hv2 & Ht1 & Ht2 & Hnd1 & Hnd2 & Hdis).
  destruct (unlink_ok s l1 t l2 Hseg Hnd Hval) as [Hseg' Hfr].
  pose proof same_dequeue as Hsame. destruct (dequeue_heads l1 l2 Hqp) as (Erq & Etl & Eac).
  pose proof (seg_nx s _ _ _ _ _ Hseg) as Hnx. pose proof (seg_pv s _ _ _ _ _ Hseg) as Hpv.
  change (nx s t) with (nx_of s t) in Hnx. change (pv s t) with (pv_of s t) in Hpv.
  assert (Hin : forall b, b ∈ l1 ++ l2 -> b ∈ l1 ++ t :: l2).
  { intros b [?|?]%elem_of_app; apply elem_of_app; [by left|right; by right]. }
  assert (Hni : t ∉ l1 ++ l2) by (by rewrite elem_of_app; intros []).
  split.
  { assert (Hpt : pv_of s t <> t /\ (pv_of s t = 0 \/ pv_of s t ∈ alive s)).
    { rewrite Hpv. destruct (final_cases (valid := pointer) l1 Hv1) as [[-> ->]|[Hne _]].
      - unfold pointer in Hv. split; [lia|by left].
      - pose proof (final_in 0 l1 Hne) as Hf. split; [intros E; by rewrite E in Hf|right].
        apply Hel, elem_of_app. by left. }
    assert (Hnt : nx_of s t <> t /\ (nx_of s t = 0 \/ nx_of s t ∈ alive s)).
    { rewrite Hnx. destruct l2 as [|b l2]; cbn [first]; [unfold pointer in Hv; split; [lia|by left]|].
      split; [intros ->; apply Ht2; by left|right]. apply Hel, elem_of_app. right. right. by left. }
    destruct Hpt, Hnt. apply dequeue_run; (done || unfold COUNT; lia). }
  split; [|..|].
  - intros i Hi. destruct (decide (i = p)) as [->|Hne].
    + rewrite fn_lookup_insert. split_and!.
      * by rewrite Erq, decide_True.
      * by rewrite Etl, decide_True.
      * eapply seg_ext; [|exact Hseg']. intros b Hb. apply dequeue_links. by intros ->.
      * apply list.NoDup_app. split_and!; [done| |done]. intros b H1 H2. by eapply Hdis.
      * intros b Hb. destruct (unlinked_fields _ _ (st_task _ _ Hsame b)) as (_ & _ & -> & -> & _).
        rewrite (st_alive _ _ Hsame). by apply Hel, Hin.
    + rewrite fn_lookup_insert_ne by done. eapply queue_other; [by apply HQ1|exact Hsame|..].
      * by rewrite Erq, decide_False.
      * by rewrite Etl, decide_False.
      * intros b Hb. destruct (HQ1 i Hi) as (_ & _ & _ & _ & Hel'). destruct (Hel' b Hb) as (_ & Hvb & Hpb & _).
        destruct (dequeue_links b) as [-> ->]; [by intros <-|]. apply Hfr; [done|].
        intros Hbin%Hin. destruct (Hel b Hbin) as (_ & _ & Hpb' & _). lia.
  - intros i Hi. rewrite Eac. destruct (decide (i = p)) as [->|Hne].
    + rewrite fn_lookup_insert. case_decide as D.
      * rewrite clear_bit, decide_True by (done || lia). by rewrite D.
      * rewrite HQ2 by lia. rewrite HQp. rewrite !bool_decide_true; [done|done|by destruct l1].
    + rewrite fn_lookup_insert_ne by done. case_decide; [rewrite clear_bit, decide_False by (done || lia)|]; by apply HQ2.
  - rewrite Eac. case_decide; [apply set_bit_range; unfold COUNT; [done|lia]|done].
  - rewrite fn_lookup_insert_ne by (unfold IDLE; lia). done.
Qed.
End Change.
End Queues.
End SchedQueues.
