(* ===== verification/SchedYield.v ===== *)
(** * [sched_yield] against an abstract scheduler

    The abstract scheduler is a list of task addresses per priority and the task
    each core runs. *)

From stdpp Require Import functions.
From S2P Require Import Prelude Dll HeapApi Sched SchedQueues.

Module SchedYield.
Import Sched SchedQueues.

Abbreviation queues := (Z -> list Z).

(** The highest priority with a task ready. *)
Definition top (Q : queues) : option Z :=
  List.find (fun p => bool_decide (Q p <> [])) [REALTIME; HIGH; NORMAL; LOW; IDLE].

Lemma top_spec Q :
  match top Q with
  | Some h => 0 <= h < COUNT /\ Q h <> [] /\ forall p, h < p < COUNT -> Q p = []
  | None => forall p, 0 <= p < COUNT -> Q p = []
  end.
Proof.
  unfold top, COUNT, REALTIME, HIGH, NORMAL, LOW, IDLE. cbn [List.find].
  assert (H : forall p, Q p = [] \/ Q p <> []) by (intros p; destruct (Q p); [by left|by right]).
  assert (C : forall p lo, lo < p < 5 -> p = 4 \/ 4 <> p /\ (p = 3 \/ 3 <> p /\ (p = 2 \/ 2 <> p /\ (p = 1 \/ 1 <> p /\ lo < p < 1))))
    by lia.
  destruct (H 4) as [E4|E4]; [rewrite bool_decide_false by tauto|rewrite bool_decide_true by done; split_and!; (done || lia)].
  destruct (H 3) as [E3|E3]; [rewrite bool_decide_false by tauto|rewrite bool_decide_true by done; split_and!; try (done || lia)].
  2:{ intros p Hp. assert (p = 4) as -> by lia. done. }
  destruct (H 2) as [E2|E2]; [rewrite bool_decide_false by tauto|rewrite bool_decide_true by done; split_and!; try (done || lia)].
  2:{ intros p Hp. assert (p = 4 \/ p = 3) as [-> | ->] by lia; done. }
  destruct (H 1) as [E1|E1]; [rewrite bool_decide_false by tauto|rewrite bool_decide_true by done; split_and!; try (done || lia)].
  2:{ intros p Hp. assert (p = 4 \/ p = 3 \/ p = 2) as [-> |[-> | ->]] by lia; done. }
  destruct (H 0) as [E0|E0]; [rewrite bool_decide_false by tauto|rewrite bool_decide_true by done; split_and!; try (done || lia)].
  - intros p Hp. assert (p = 4 \/ p = 3 \/ p = 2 \/ p = 1 \/ p = 0) as [-> |[-> |[-> |[-> | ->]]]] by lia; done.
  - intros p Hp. assert (p = 4 \/ p = 3 \/ p = 2 \/ p = 1) as [-> |[-> |[-> | ->]]] by lia; done.
Qed.

(** The running task [c] of priority [p] goes to the back of its queue if it can
    run on, and the first task of the highest queue runs next. *)
Definition requeue (Q : queues) (c p : Z) (runs : bool) : queues :=
  if runs then <[p := Q p ++ [c]]> Q else Q.

Definition spec_yield (Q : queues) (c p : Z) (runs : bool) : queues * Z :=
  let Q1 := requeue Q c p runs in
  match top Q1 with
  | Some h => match Q1 h with n :: q => (<[h := q]> Q1, n) | [] => (Q1, c) end
  | None => (Q1, c)
  end.

Section Yield.
Context {A : Type} {HA : HeapApi A}.
Abbreviation sched := (@sched A).

(** The task runs on if it is asked to. *)
Definition runs (t : task_t) : bool := bool_decide (state t = TASK_RUNNING) && negb (priority t =? IDLE).

Record core_ok (s : sched) (cpu : nat) (c : cpu_core_t) : Prop := {
  ck_id : cpu_id c = Z.of_nat cpu;
  ck_free : task_to_free c = 0;
  ck_task : task c <> 0 -> task c ∈ alive s /\ 0 <= priority (tasks s (task c)) < COUNT /\
    state (tasks s (task c)) <> TASK_READY;
}.

(** The heap is in order, the queues are [Q], every core runs a task that is in
    no queue, and no two cores run the same one. *)
Record sched_inv (s : sched) (Q : queues) : Prop := {
  si_heap : exists B, ha_inv (heap s) B /\ forall p, p ∈ alive s <-> is_Some (B !! p);
  si_queues : queues_ok s Q;
  si_core : forall cpu c, cores s !! cpu = Some c -> core_ok s cpu c;
  si_apart : forall i j c d, cores s !! i = Some c -> cores s !! j = Some d -> i <> j ->
    task c <> 0 -> task c <> task d;
}.

Lemma alive_pointer s Q t : sched_inv s Q -> t ∈ alive s -> pointer t.
Proof.
  intros [(B & HB & Hd) _ _ _] Ht%Hd. pose proof (ha_block _ _ _ HB Ht). unfold pointer. lia.
Qed.

(** ** Changing a task's fields *)

Definition put (s : sched) (t : Z) (f : task_t -> task_t) : sched :=
  with_tasks (<[t := f (tasks s t)]> (tasks s)) s.

Lemma put_task (s : sched) t f u : tasks (put s t f) u = if decide (u = t) then f (tasks s t) else tasks s u.
Proof.
  unfold put. cbn [tasks with_tasks].
  case_decide as D; [subst; by rewrite fn_lookup_insert|by rewrite fn_lookup_insert_ne].
Qed.

(** A function that leaves links and priority alone. *)
Definition keeps (f : task_t -> task_t) : Prop :=
  forall k, next (f k) = next k /\ prev (f k) = prev k /\ priority (f k) = priority k.

Lemma keeps_state v : keeps (with_state v). Proof. done. Qed.
Lemma keeps_context v : keeps (with_context v). Proof. done. Qed.

Lemma put_queues (s : sched) Q t f :
  keeps f -> (state (f (tasks s t)) = state (tasks s t) \/ state (tasks s t) <> TASK_READY) ->
  queues_ok s Q -> queues_ok (put s t f) Q.
Proof.
  intros Hf Hst [H1 H2 H3 H4]. split; [|done..]. intros p Hp.
  destruct (H1 p Hp) as (G1 & G2 & G3 & G4 & G5). split_and!; [done|done| |done|].
  - eapply seg_ext; [|exact G3]. intros u _.
    change (nx_of (put s t f) u = nx_of s u /\ pv_of (put s t f) u = pv_of s u). unfold nx_of, pv_of.
    rewrite put_task. case_decide as D; [subst; by destruct (Hf (tasks s t)) as (-> & -> & _)|done].
  - intros u Hu. destruct (G5 u Hu) as (F1 & F2 & F3 & F4). rewrite put_task.
    case_decide as D; [subst u|done]. destruct (Hf (tasks s t)) as (_ & _ & ->).
    destruct Hst as [->|Hst]; [done|by rewrite F4 in Hst].
Qed.

(** The queues depend on nothing else. *)
Lemma queues_ext (s s' : sched) Q :
  queues_ok s Q -> tasks s' = tasks s -> alive s' = alive s -> runqueues s' = runqueues s ->
  runqueues_tail s' = runqueues_tail s -> active_priorities s' = active_priorities s -> queues_ok s' Q.
Proof.
  intros [H1 H2 H3 H4] E1 E2 E3 E4 E5. split; [|by rewrite E5..|done].
  intros p Hp. destruct (H1 p Hp) as (G1 & G2 & G3 & G4 & G5).
  unfold queue_ok. rewrite E1, E2, E3, E4. split_and!; [done|done| |done|done].
  eapply seg_ext; [|exact G3]. intros u _.
  change (nx_of s' u = nx_of s u /\ pv_of s' u = pv_of s u). unfold nx_of, pv_of. by rewrite E1.
Qed.

(** A task that is not READY is in no queue. *)
Lemma not_queued (s : sched) Q t p : queues_ok s Q -> 0 <= p < COUNT -> state (tasks s t) <> TASK_READY -> t ∉ Q p.
Proof. intros HQ Hp Hs Ht. apply Hs. by apply (qo_queue _ _ HQ p Hp). Qed.

(** ** The steps of [sched_yield] *)

Lemma get_core_ok cpu (s : sched) c : cores s !! cpu = Some c -> get_core cpu s = inr (c, s).
Proof. intros H. unfold get_core. by rewrite H. Qed.

Lemma own_core_ok (s : sched) cpu c : cores s !! cpu = Some c -> cpu_id c = Z.of_nat cpu ->
  own_core cpu s = inr (c, s).
Proof.
  intros H Hid. unfold own_core, sched_getcpu.
  rewrite (bind_ok _ _ _ s (cpu_id c)) by (by erewrite bind_ok by (by apply get_core_ok)).
  rewrite Hid, Nat2Z.id. by apply get_core_ok.
Qed.

Lemma reap_none (s : sched) cpu c : cores s !! cpu = Some c -> core_ok s cpu c -> reap cpu s = inr ((), s).
Proof.
  intros H [Hid Hfr _]. unfold reap. erewrite bind_ok by (by apply own_core_ok). by rewrite Hfr.
Qed.

Lemma log2_top a (Q : queues) h :
  0 <= a < 2 ^ COUNT -> (forall p, 0 <= p < COUNT -> Z.testbit a p = bool_decide (Q p <> [])) ->
  0 <= h < COUNT -> Q h <> [] -> (forall p, h < p < COUNT -> Q p = []) -> 0 < a /\ Z.log2 a = h.
Proof.
  intros Ha Hb Hh Hne Hup. assert (Hth : Z.testbit a h = true) by (rewrite Hb by done; by apply bool_decide_true).
  assert (Hpos : 0 < a).
  { destruct (decide (a = 0)) as [->|]; [by rewrite Z.testbit_0_l in Hth|lia]. }
  split; [done|]. pose proof (Z.bit_log2 a Hpos) as Hl.
  assert (Hlt : 0 <= Z.log2 a < COUNT).
  { split; [apply Z.log2_nonneg|]. apply Z.log2_lt_pow2; lia. }
  assert (~ Z.log2 a < h) by (intros ?; rewrite (Z.bits_above_log2 a h) in Hth by lia; done).
  destruct (decide (h < Z.log2 a)) as [D|D]; [|lia].
  rewrite Hb in Hl by done. rewrite Hup in Hl by lia. by rewrite bool_decide_false in Hl by tauto.
Qed.

Lemma pick_next_ok (s : sched) Q cpu c :
  queues_ok s Q -> cores s !! cpu = Some c -> cpu_id c = Z.of_nat cpu ->
  pick_next cpu s = inr (match top Q with Some h => first 0 (Q h) | None => task c end, s).
Proof.
  intros [H1 H2 H3 H4] Hc Hid. unfold pick_next. pose proof (top_spec Q) as Ht.
  rewrite (bind_ok _ _ s s (active_priorities s)) by done.
  destruct (top Q) as [h|].
  - destruct Ht as (Hh & Hne & Hup). destruct (log2_top _ Q h H3 H2 Hh Hne Hup) as [Hpos Hl].
    destruct (0 <? active_priorities s) eqn:E; [|lia]. rewrite Hl.
    destruct (COUNT <=? h) eqn:E2; [lia|].
    rewrite (bind_ok _ _ s s (runqueues s h)) by (by apply head_ok).
    destruct (H1 h Hh) as (Hhd & _ & _ & _ & Hel). rewrite Hhd.
    destruct (Q h) as [|t q]; [done|]. destruct (Hel t ltac:(left)) as (_ & Hv & _). unfold pointer in Hv.
    cbn [first]. by destruct (t =? 0) eqn:E3; [lia|].
  - assert (Hz : active_priorities s = 0).
    { apply Z.bits_inj'. intros i Hi. rewrite Z.testbit_0_l. destruct (decide (i < COUNT)).
      - rewrite H2, Ht by lia. by apply bool_decide_false; tauto.
      - rewrite <- (Z.mod_small (active_priorities s) (2 ^ COUNT)) by done.
        apply Z.mod_pow2_bits_high. unfold COUNT in *. lia. }
    rewrite Hz. cbn [Z.ltb Z.compare]. rewrite (bind_ok _ _ s s 0) by done. cbn [Z.eqb].
    erewrite bind_ok by (by apply own_core_ok). done.
Qed.

(** Two states with the same heap, cores and thread counter, the tasks changed
    by [g] up to their links. *)
Record changed (g : Z -> task_t -> task_t) (s s' : sched) : Prop := {
  ch_task : forall t, unlinked (tasks s' t) = unlinked (g t (tasks s t));
  ch_alive : alive s' = alive s;
  ch_heap : heap s' = heap s;
  ch_cores : cores s' = cores s;
  ch_tid : tid_counter s' = tid_counter s;
}.

Lemma unlinked_keeps f k k' : keeps f -> (forall k, unlinked (f k) = f (unlinked k)) ->
  unlinked k = unlinked k' -> unlinked (f k) = unlinked (f k').
Proof. intros _ Hf E. by rewrite !Hf, E. Qed.

Lemma changed_put (s : sched) t f : changed (fun u k => if decide (u = t) then f k else k) s (put s t f).
Proof. split; try done. intros u. rewrite put_task. case_decide as D; [by subst|done]. Qed.

Lemma changed_same (g : Z -> task_t -> task_t) (s s1 s2 : sched) :
  changed g s s1 -> same_tasks s1 s2 -> changed g s s2.
Proof. intros [H1 H2 H3 H4 H5] [G1 G2 G3 G4 G5]. split; [|congruence..]. intros t. by rewrite G1. Qed.

(** The first half: a task that can run on is queued again. *)
Definition put_back (prev_task : Z) : @M A () :=
  if nonzero prev_task then
    p ← get prev_task;
    if bool_decide (state p = TASK_RUNNING) && negb (priority p =? IDLE) then
      upd prev_task (with_state TASK_READY);; sched_enqueue_task prev_task
    else mret ()
  else mret ().

Lemma put_back_ok (s : sched) Q c :
  sched_inv s Q -> c <> 0 -> c ∈ alive s -> 0 <= priority (tasks s c) < COUNT -> state (tasks s c) <> TASK_READY ->
  let r := runs (tasks s c) in
  exists s1, put_back c s = inr ((), s1) /\ queues_ok s1 (requeue Q c (priority (tasks s c)) r) /\
    changed (fun t k => if decide (t = c) then (if r then with_state TASK_READY k else k) else k) s s1.
Proof.
  intros Hinv Hc0 Hc Hp Hst r. pose proof (si_queues _ _ Hinv) as HQ.
  pose proof (alive_pointer s Q c Hinv Hc) as Hv. unfold put_back.
  unfold nonzero. destruct (c =? 0) eqn:E; [lia|]. cbn [negb].
  erewrite bind_ok by (by apply get_ok). fold (runs (tasks s c)). fold r. unfold requeue.
  destruct r eqn:Er.
  - erewrite bind_ok by (by apply upd_ok). fold (put s c (with_state TASK_READY)).
    set (s1 := put s c (with_state TASK_READY)).
    assert (HQ1 : queues_ok s1 Q) by (apply put_queues; [apply keeps_state|by right|done]).
    assert (E1 : tasks s1 c = with_state TASK_READY (tasks s c)) by (unfold s1; by rewrite put_task, decide_True).
    assert (Hpr : priority (tasks s1 c) = priority (tasks s c)) by (by rewrite E1).
    assert (Hni : c ∉ Q (priority (tasks s1 c))) by (rewrite Hpr; exact (not_queued s Q c _ HQ Hp Hst)).
    assert (Hidle : priority (tasks s c) <> IDLE).
    { unfold r, runs in Er. apply andb_prop in Er as [_ Er]. apply negb_true_iff in Er. lia. }
    destruct (enqueue_ok s1 Q c HQ1 Hc Hv) as [-> HQ2]; [unfold COUNT, IDLE in *; lia|rewrite E1; reflexivity|exact Hni|].
    exists (enqueue s1 c). rewrite Hpr in HQ2. split_and!; [done|done|].
    eapply changed_same; [|apply same_enqueue].
    apply changed_put.
  - exists s. split_and!; [done|done|]. split; try done. intros t. by case_decide.
Qed.

(** The second half: the task picked leaves its queue and runs. *)
Definition start_task (next_task : Z) : @M A () :=
  if nonzero next_task then
    n ← get next_task;
    if negb (priority n =? IDLE) then
      sched_dequeue_task next_task;; upd next_task (with_state TASK_RUNNING)
    else upd next_task (with_state TASK_RUNNING)
  else mret ().

Definition set_running (n t : Z) (k : task_t) : task_t :=
  if decide (t = n) then with_state TASK_RUNNING k else k.

Lemma start_queued (s : sched) Q h n q :
  queues_ok s Q -> 0 <= h < COUNT -> Q h = n :: q ->
  exists s2, start_task n s = inr ((), s2) /\ queues_ok s2 (<[h := q]> Q) /\ changed (set_running n) s s2 /\
    next (tasks s2 n) = 0 /\ prev (tasks s2 n) = 0.
Proof.
  intros HQ Hh Hq. destruct (qo_queue _ _ HQ h Hh) as (_ & _ & _ & Hnd & Hel). rewrite Hq in *.
  destruct (Hel n ltac:(left)) as (Hn & Hv & Hp & Hst).
  assert (Hidle : h <> IDLE) by (intros ->; by rewrite (qo_idle _ _ HQ) in Hq).
  destruct (dequeue_ok s Q n HQ Hn Hv ltac:(unfold COUNT, IDLE in *; lia) [] q) as [Hd HQ2]; [by rewrite Hp|].
  rewrite Hp in HQ2. cbn [app] in HQ2. unfold start_task. unfold nonzero, pointer in *.
  destruct (n =? 0) eqn:E; [lia|]. cbn [negb]. erewrite bind_ok by (by apply get_ok). rewrite Hp.
  destruct (h =? IDLE) eqn:E2; [lia|]. cbn [negb]. erewrite bind_ok by exact Hd.
  pose proof (same_dequeue s n) as Hsame.
  rewrite upd_ok by (by rewrite (st_alive _ _ Hsame)). fold (put (dequeue s n) n (with_state TASK_RUNNING)).
  eexists. split; [done|]. split; [|split].
  - (* [n] has left every queue *)
    destruct HQ2 as [G1 G2 G3 G4]. split; [|done..]. intros p Hp'.
    destruct (G1 p Hp') as (F1 & F2 & F3 & F4 & F5).
    assert (Hni : n ∉ (<[h:=q]> Q) p).
    { destruct (decide (p = h)) as [->|Hne].
      - rewrite fn_lookup_insert. by apply list.NoDup_cons in Hnd as [? _].
      - rewrite fn_lookup_insert_ne by done. intros Hin.
        destruct (qo_queue _ _ HQ p Hp') as (_ & _ & _ & _ & Hel'). destruct (Hel' n Hin) as (_ & _ & Hp2 & _). lia. }
    split_and!; [done|done| |done|].
    + eapply seg_ext; [|exact F3]. intros u _.
      change (nx_of (put (dequeue s n) n (with_state TASK_RUNNING)) u = nx_of (dequeue s n) u /\
              pv_of (put (dequeue s n) n (with_state TASK_RUNNING)) u = pv_of (dequeue s n) u).
      unfold nx_of, pv_of. rewrite put_task. by case_decide; subst.
    + intros u Hu. rewrite put_task, decide_False by (by intros ->). by apply F5.
  - split; [|by destruct Hsame..]. intros t. rewrite put_task. unfold set_running.
    destruct (decide (t = n)) as [->|Hne]; [|apply (st_task _ _ Hsame)].
    apply (unlinked_keeps (with_state TASK_RUNNING)); [done|done|]. apply (st_task _ _ Hsame).
  - rewrite put_task, decide_True by done. apply dequeue_unlinks.
Qed.

Lemma start_idle (s : sched) Q n :
  queues_ok s Q -> n <> 0 -> n ∈ alive s -> priority (tasks s n) = IDLE -> state (tasks s n) <> TASK_READY ->
  exists s2, start_task n s = inr ((), s2) /\ queues_ok s2 Q /\ changed (set_running n) s s2.
Proof.
  intros HQ Hn0 Hn Hp Hst. unfold start_task, nonzero. destruct (n =? 0) eqn:E; [lia|]. cbn [negb].
  erewrite bind_ok by (by apply get_ok). rewrite Hp. change (IDLE =? IDLE) with true. cbn [negb].
  rewrite upd_ok by done. fold (put s n (with_state TASK_RUNNING)). eexists. split; [done|]. split.
  - apply put_queues; [apply keeps_state|by right|done].
  - apply changed_put.
Qed.

(** What a switch from [c] to [n] does to a task, its links apart. *)
Definition after_yield (c n : Z) (r : bool) (regs : cpu_context) (t : Z) (k : task_t) : task_t :=
  let k := if decide (t = c) then (if r then with_state TASK_READY k else k) else k in
  let k := set_running n t k in
  if decide (t = c /\ n <> c) then with_context regs k else k.

Lemma changed_trans (g1 g2 : Z -> task_t -> task_t) (s1 s2 s3 : sched) :
  (forall t k k', unlinked k = unlinked k' -> unlinked (g2 t k) = unlinked (g2 t k')) ->
  changed g1 s1 s2 -> changed g2 s2 s3 -> changed (fun t k => g2 t (g1 t k)) s1 s3.
Proof.
  intros Hg [H1 H2 H3 H4 H5] [G1 G2 G3 G4 G5]. split; [|congruence..].
  intros t. rewrite G1. by apply Hg.
Qed.

Lemma set_running_links n t k k' :
  unlinked k = unlinked k' -> unlinked (set_running n t k) = unlinked (set_running n t k').
Proof.
  intros E. unfold set_running. case_decide; [|done]. by apply (unlinked_keeps (with_state TASK_RUNNING)).
Qed.

Definition switch_task (cpu : nat) (prev_task next_task : Z) (regs : cpu_context) : @M A cpu_context :=
  if negb (next_task =? prev_task) then
    set_current_task cpu next_task;; cpu_switch_to prev_task next_task regs
  else mret regs.

Lemma sched_yield_eq cpu regs : sched_yield cpu regs =
  (reap cpu;;
   prev_task ← current_task cpu;
   put_back prev_task;;
   next_task ← pick_next cpu;
   start_task next_task;;
   switch_task cpu prev_task next_task regs).
Proof. done. Qed.

(** The task picked and the new queues. *)
Lemma spec_yield_cases (Q : queues) c p r :
  let Q1 := requeue Q c p r in let '(Q', n) := spec_yield Q c p r in
  match top Q1 with
  | Some h => exists q, 0 <= h < COUNT /\ Q1 h = n :: q /\ Q' = <[h := q]> Q1
  | None => n = c /\ Q' = Q1 /\ forall p', 0 <= p' < COUNT -> Q1 p' = []
  end.
Proof.
  cbv zeta. unfold spec_yield. pose proof (top_spec (requeue Q c p r)) as Ht.
  destruct (top (requeue Q c p r)) as [h|]; [|done]. destruct Ht as (Hh & Hne & _).
  destruct (requeue Q c p r h) as [|n q] eqn:E; [done|]. by exists q.
Qed.

(** The tasks [put_back] and [start_task] handle, for [sched_yield]'s choice. *)
Lemma choose_ok (s : sched) Q cpu co :
  sched_inv s Q -> cores s !! cpu = Some co -> task co <> 0 ->
  (state (tasks s (task co)) = TASK_RUNNING \/ exists p, 0 <= p < COUNT /\ Q p <> []) ->
  let c := task co in let r := runs (tasks s c) in
  let '(Q', n) := spec_yield Q c (priority (tasks s c)) r in
  exists s1 s2, put_back c s = inr ((), s1) /\ pick_next cpu s1 = inr (n, s1) /\
    start_task n s1 = inr ((), s2) /\ queues_ok s2 Q' /\
    changed (fun t k => set_running n t (if decide (t = c) then (if r then with_state TASK_READY k else k) else k)) s s2 /\
    n ∈ alive s /\ 0 <= priority (tasks s n) < COUNT /\ (n = c \/ state (tasks s n) = TASK_READY).
Proof.
  intros Hinv Hco Hc0 Hgo c r. pose proof (si_core _ _ Hinv _ _ Hco) as [Hid Hfr Hct].
  destruct (Hct Hc0) as (Hc & Hp & Hst). fold c in Hc, Hp, Hst.
  destruct (put_back_ok s Q c Hinv Hc0 Hc Hp Hst) as (s1 & E1 & HQ1 & Hch1). fold r in HQ1, Hch1.
  pose proof (spec_yield_cases Q c (priority (tasks s c)) r) as Hsp. cbv zeta in Hsp.
  set (Q1 := requeue Q c (priority (tasks s c)) r) in *.
  assert (Hco1 : cores s1 !! cpu = Some co) by (by rewrite (ch_cores _ _ _ Hch1)).
  pose proof (pick_next_ok s1 Q1 cpu co HQ1 Hco1 Hid) as Hpick.
  destruct (spec_yield Q c (priority (tasks s c)) r) as [Q' n].
  assert (Hview : forall t, priority (tasks s1 t) = priority (tasks s t) /\
            (t <> c -> state (tasks s1 t) = state (tasks s t))).
  { intros t. destruct (unlinked_fields _ _ (ch_task _ _ _ Hch1 t)) as (_ & _ & -> & -> & _).
    split; [by repeat case_match|]. intros Hne. by rewrite decide_False. }
  destruct (top Q1) as [h|] eqn:Et.
  - destruct Hsp as (q & Hh & Hq & ->). rewrite Hq in Hpick. cbn [first] in Hpick.
    destruct (start_queued s1 Q1 h n q HQ1 Hh Hq) as (s2 & E2 & HQ2 & Hch2 & _).
    destruct (qo_queue _ _ HQ1 h Hh) as (_ & _ & _ & _ & Hel).
    destruct (Hel n) as (Hn & _ & Hpn & Hsn); [rewrite Hq; by left|].
    rewrite (ch_alive _ _ _ Hch1) in Hn. destruct (Hview n) as [Hpn' Hsn'].
    assert (Hor : n = c \/ state (tasks s n) = TASK_READY).
    { destruct (decide (n = c)) as [->|Hne]; [by left|right]. by rewrite <- Hsn'. }
    exists s1, s2. split_and!; try done; try lia.
    eapply changed_trans; [intros; by apply set_running_links|exact Hch1|exact Hch2].
  - destruct Hsp as (-> & -> & Hemp).
    assert (Hr : r = false).
    { destruct r eqn:Er; [|done]. pose proof (Hemp (priority (tasks s c)) Hp) as He.
      unfold Q1, requeue in He. rewrite fn_lookup_insert in He. by destruct (Q (priority (tasks s c))). }
    assert (Hr' : runs (tasks s c) = false) by done.
    unfold Q1, requeue in *. clearbody r. subst r.
    assert (Hrun : state (tasks s c) = TASK_RUNNING).
    { destruct Hgo as [?|(p & Hpp & Hne)]; [done|by rewrite Hemp in Hne]. }
    assert (Hidle : priority (tasks s c) = IDLE).
    { unfold runs in Hr'. rewrite bool_decide_true in Hr' by done. cbn [andb] in Hr'.
      apply negb_false_iff in Hr'. lia. }
    assert (Hst1 : state (tasks s1 c) = TASK_RUNNING).
    { destruct (unlinked_fields _ _ (ch_task _ _ _ Hch1 c)) as (_ & _ & -> & _). by rewrite decide_True. }
    destruct (start_idle s1 Q c HQ1 Hc0) as (s2 & E2 & HQ2 & Hch2).
    { by rewrite (ch_alive _ _ _ Hch1). }
    { by destruct (Hview c) as [-> _]. }
    { by rewrite Hst1. }
    exists s1, s2. split_and!; try done; try lia; try (by left).
    eapply changed_trans; [intros; by apply set_running_links|exact Hch1|exact Hch2].
Qed.

Lemma context_links regs k k' :
  unlinked k = unlinked k' -> unlinked (with_context regs k) = unlinked (with_context regs k').
Proof. by apply (unlinked_keeps (with_context regs)). Qed.

(** The switch itself. *)
Lemma switch_ok (s s2 : sched) Q Q' cpu co c n (r : bool) regs :
  sched_inv s Q -> cores s !! cpu = Some co -> c = task co -> c <> 0 ->
  queues_ok s2 Q' ->
  changed (fun t k => set_running n t (if decide (t = c) then (if r then with_state TASK_READY k else k) else k)) s s2 ->
  n ∈ alive s ->
  exists s', switch_task cpu c n regs s2 =
      inr (if n =? c then regs else context (tasks s n), s') /\
    queues_ok s' Q' /\ cores s' = <[cpu := Core (cpu_id co) n 0]> (cores s) /\
    alive s' = alive s /\ heap s' = heap s /\ tid_counter s' = tid_counter s /\
    (forall t, unlinked (tasks s' t) = unlinked (after_yield c n r regs t (tasks s t))).
Proof.
  intros Hinv Hco Hc Hc0 HQ' [H1 H2 H3 H4 H5] Hn.
  destruct (si_core _ _ Hinv _ _ Hco) as [Hid Hfr Hct]. rewrite <- Hc in Hct. destruct (Hct Hc0) as (Hca & _).
  unfold after_yield, switch_task. destruct (n =? c) eqn:E; cbn [negb].
  - assert (n = c) as -> by lia. exists s2. split_and!; try done.
    + rewrite H4, list_insert_id; [done|]. rewrite Hco. f_equal. destruct co. simpl in *. congruence.
    + intros t. rewrite H1, (decide_False (P := t = c /\ c <> c)) by tauto. done.
  - assert (Hne : n <> c) by lia.
    set (s3 := with_cores (<[cpu := Core (cpu_id co) n 0]> (cores s2)) s2).
    assert (T3 : tasks s3 = tasks s2) by done.
    erewrite bind_ok.
    2:{ unfold set_current_task. erewrite bind_ok by (apply get_core_ok; by rewrite H4).
        rewrite Hfr. unfold set_core, modify. fold s3. reflexivity. }
    unfold cpu_switch_to. erewrite bind_ok by (apply upd_ok; cbn [alive s3 with_cores]; by rewrite H2).
    fold (put s3 c (with_context regs)).
    erewrite bind_ok by (apply get_ok; cbn [alive s3 put with_cores with_tasks]; by rewrite H2).
    exists (put s3 c (with_context regs)). split.
    { unfold mret, M_ret. do 2 f_equal. rewrite put_task, decide_False, T3 by done.
      destruct (unlinked_fields _ _ (H1 n)) as (-> & _). unfold set_running. by rewrite decide_True, decide_False. }
    split_and!; try done.
    + apply put_queues; [apply keeps_context|by left|].
      by eapply queues_ext; [exact HQ'|..].
    + cbn [cores put s3 with_cores with_tasks]. by rewrite H4.
    + intros t. rewrite put_task, !T3. destruct (decide (t = c)) as [->|Htc].
      * rewrite decide_True by done. apply context_links. rewrite H1. by rewrite decide_True.
      * rewrite (decide_False (P := t = c /\ n <> c)) by tauto. rewrite H1. by rewrite decide_False.
Qed.

Lemma yield_ok (s : sched) Q cpu co regs :
  sched_inv s Q -> cores s !! cpu = Some co -> task co <> 0 ->
  (state (tasks s (task co)) = TASK_RUNNING \/ exists p, 0 <= p < COUNT /\ Q p <> []) ->
  let c := task co in let r := runs (tasks s c) in
  let '(Q', n) := spec_yield Q c (priority (tasks s c)) r in
  exists s', sched_yield cpu regs s = inr (if n =? c then regs else context (tasks s n), s') /\
    sched_inv s' Q' /\ cores s' = <[cpu := Core (cpu_id co) n 0]> (cores s) /\
    alive s' = alive s /\ heap s' = heap s /\ tid_counter s' = tid_counter s /\
    (forall t, unlinked (tasks s' t) = unlinked (after_yield c n r regs t (tasks s t))) /\ n <> 0.
Proof.
  intros Hinv Hco Hc0 Hgo c r. pose proof (choose_ok s Q cpu co Hinv Hco Hc0 Hgo) as H.
  cbv zeta in H. fold c r in H.
  destruct (spec_yield Q c (priority (tasks s c)) r) as [Q' n].
  destruct H as (s1 & s2 & E1 & E2 & E3 & HQ' & Hch & Hn & Hpn & Hor).
  destruct (switch_ok s s2 Q Q' cpu co c n r regs Hinv Hco eq_refl Hc0 HQ' Hch Hn)
    as (s' & E4 & HQ2 & Hcs & Hal & Hhp & Htid & Htk).
  exists s'. rewrite sched_yield_eq.
  erewrite bind_ok by (eapply reap_none; [done|by apply (si_core _ _ Hinv)]).
  rewrite (bind_ok _ _ s s c) by (unfold current_task; by erewrite bind_ok by (by apply get_core_ok)).
  erewrite bind_ok by exact E1. erewrite bind_ok by exact E2. erewrite bind_ok by exact E3.
  split; [exact E4|].
  assert (Hst : forall t, t <> c -> t <> n -> state (tasks s' t) = state (tasks s t)).
  { intros t H1 H2. destruct (unlinked_fields _ _ (Htk t)) as (_ & _ & -> & _).
    unfold after_yield, set_running. by rewrite !decide_False by (tauto || done). }
  assert (Hpr : forall t, priority (tasks s' t) = priority (tasks s t)).
  { intros t. destruct (unlinked_fields _ _ (Htk t)) as (_ & _ & _ & -> & _).
    unfold after_yield, set_running. by repeat case_match. }
  assert (Hrn : state (tasks s' n) = TASK_RUNNING).
  { destruct (unlinked_fields _ _ (Htk n)) as (_ & _ & -> & _).
    unfold after_yield, set_running. rewrite (decide_True (P := n = n)) by done. by repeat case_match. }
  assert (Hn0 : n <> 0).
  { pose proof (alive_pointer s Q n Hinv Hn) as Hv. unfold pointer in Hv. lia. }
  pose proof (lookup_lt_Some _ _ _ Hco) as Hlt.
  assert (Hoth : forall j d, cores s !! j = Some d -> j <> cpu -> task d <> 0 -> task d <> c /\ task d <> n).
  { intros j d Hd Hj Hd0. assert (Hdc : task d <> c).
    { intros E. by apply (si_apart _ _ Hinv j cpu d co Hd Hco Hj Hd0). }
    split; [done|]. intros E. destruct (si_core _ _ Hinv j d Hd) as [_ _ Hck].
    destruct (Hck Hd0) as (_ & _ & Hns). rewrite E in Hns, Hdc. by destruct Hor. }
  split; [split|done].
  - destruct (si_heap _ _ Hinv) as (B & HB & Hd). exists B. by rewrite Hhp, Hal.
  - exact HQ2.
  - intros j d. rewrite Hcs, list_lookup_insert_Some. intros [(<- & <- & _)|[Hne Hd]].
    + split; cbn [cpu_id task_to_free task]; [by apply (si_core _ _ Hinv _ _ Hco)|done|].
      intros _. rewrite Hal, Hpr, Hrn. done.
    + destruct (si_core _ _ Hinv j d Hd) as [G1 G2 G3]. split; [done|done|]. intros Hd0.
      destruct (G3 Hd0) as (F1 & F2 & F3). destruct (Hoth j d Hd (not_eq_sym Hne) Hd0) as [Hdc Hdn].
      rewrite Hal, Hpr, Hst by done. done.
  - intros i j d e. rewrite Hcs, !list_lookup_insert_Some.
    intros [(<- & <- & _)|[Hi Hd]] [(<- & <- & _)|[Hj He]] Hij Hd0; cbn [task] in *; try done.
    + intros E. assert (He0 : task e <> 0) by (by rewrite <- E).
      destruct (Hoth j e He (not_eq_sym Hj) He0) as [_ Hne]. by rewrite E in Hne.
    + by destruct (Hoth i d Hd (not_eq_sym Hi) Hd0).
    + by apply (si_apart _ _ Hinv i j d e Hd He).
Qed.
End Yield.
End SchedYield.
