(* ===== verification/SchedCreate.v ===== *)
(** * [pthread_create] *)

From stdpp Require Import functions.
From S2P Require Import Prelude Dll HeapApi Sched SchedQueues SchedYield.

Module SchedCreate.
Import Sched SchedQueues SchedYield.

Section Create.
Context {A : Type} {HA : HeapApi A}.
Abbreviation sched := (@sched A).

(** ** Frames *)

Lemma queues_frame (s s' : sched) Q :
  queues_ok s Q ->
  (forall p t, 0 <= p < COUNT -> t ∈ Q p -> tasks s' t = tasks s t /\ t ∈ alive s') ->
  runqueues s' = runqueues s -> runqueues_tail s' = runqueues_tail s ->
  active_priorities s' = active_priorities s -> queues_ok s' Q.
Proof.
  intros [H1 H2 H3 H4] Hf E3 E4 E5. split; [|by rewrite E5..|done].
  intros p Hp. destruct (H1 p Hp) as (G1 & G2 & G3 & G4 & G5).
  unfold queue_ok. rewrite E3, E4. split_and!; [done|done| |done|].
  - eapply seg_ext; [|exact G3]. intros u Hu. destruct (Hf p u Hp Hu) as [E _].
    change (nx_of s' u = nx_of s u /\ pv_of s' u = pv_of s u). unfold nx_of, pv_of. by rewrite E.
  - intros u Hu. destruct (Hf p u Hp Hu) as [-> ?]. by destruct (G5 u Hu) as (_ & ? & ? & ?).
Qed.

Definition heap_ok (s : sched) : Prop :=
  exists B, ha_inv (heap s) B /\ forall p, p ∈ alive s <-> is_Some (B !! p).

Lemma inv_frame (s s' : sched) Q :
  sched_inv s Q -> heap_ok s' ->
  (forall p t, 0 <= p < COUNT -> t ∈ Q p -> tasks s' t = tasks s t /\ t ∈ alive s') ->
  (forall cpu c, cores s !! cpu = Some c -> task c <> 0 -> tasks s' (task c) = tasks s (task c) /\ task c ∈ alive s') ->
  runqueues s' = runqueues s -> runqueues_tail s' = runqueues_tail s ->
  active_priorities s' = active_priorities s -> cores s' = cores s -> sched_inv s' Q.
Proof.
  intros [H1 H2 H3 H4] Hh Hq Hc E1 E2 E3 E4. split; [done|by eapply queues_frame| |by rewrite E4].
  intros cpu c. rewrite E4. intros Hco. destruct (H3 cpu c Hco) as [G1 G2 G3]. split; [done|done|].
  intros Ht. destruct (Hc cpu c Hco Ht) as [-> ?]. split; [done|]. by apply G3.
Qed.

(** A live block that is no queued and no running task. *)
Definition loose (s : sched) (Q : queues) (t : Z) : Prop :=
  t ∈ alive s /\ (forall p, 0 <= p < COUNT -> t ∉ Q p) /\ forall cpu c, cores s !! cpu = Some c -> task c <> t.

Lemma put_loose (s : sched) Q t f : sched_inv s Q -> loose s Q t -> sched_inv (put s t f) Q.
Proof.
  intros Hinv (Ht & Hq & Hc). apply (inv_frame s); try done; [by destruct Hinv|..].
  - intros p u Hp Hu. rewrite put_task, decide_False by (intros ->; by apply (Hq p)).
    split; [done|]. by apply (qo_queue _ _ (si_queues _ _ Hinv) p Hp).
  - intros cpu c Hco H0. rewrite put_task, decide_False by (by eapply Hc). split; [done|].
    by apply (ck_task _ _ _ (si_core _ _ Hinv _ _ Hco)).
Qed.

Lemma loose_put (s : sched) Q t f u : loose s Q u -> loose (put s t f) Q u.
Proof. done. Qed.

(** Allocation and release. *)
Lemma malloc_heap (s : sched) n :
  heap_ok s -> 0 <= n < 2 ^ 64 ->
  exists r a l, malloc n s = inr (r, with_heap l a s) /\ heap_ok (with_heap l a s) /\
    (r = 0 /\ l = alive s \/ r <> 0 /\ (r ∉ alive s) /\ l = {[r]} ∪ alive s).
Proof.
  intros (B & HB & Hd) Hn. unfold malloc.
  pose proof (ha_malloc_spec _ _ n HB Hn) as H. destruct (ha_malloc (heap s) n) as [r a].
  exists r, a. eexists. split; [done|]. destruct H as [[-> Ha]|(z & Hr & Hnew & _ & Ha)].
  - split; [|by left]. by exists B.
  - assert (E : (r =? 0) = false) by lia. rewrite E.
    assert (r ∉ alive s) by (rewrite Hd, Hnew; by intros []). split; [|by right].
    exists (<[r:=z]> B). split; [done|]. intros p. cbn [alive with_heap]. rewrite elem_of_union, elem_of_singleton, Hd.
    destruct (decide (p = r)) as [->|Hne].
    + rewrite lookup_insert_eq. split; [by eexists|by left].
    + rewrite lookup_insert_ne by done. split; [by intros [?|?]|by right].
Qed.

Lemma malloc_run (s : sched) Q n :
  sched_inv s Q -> 0 <= n < 2 ^ 64 ->
  exists r s', malloc n s = inr (r, s') /\ sched_inv s' Q /\ tasks s' = tasks s /\ cores s' = cores s /\
    tid_counter s' = tid_counter s /\
    (r = 0 /\ alive s' = alive s \/ r <> 0 /\ (r ∉ alive s) /\ alive s' = {[r]} ∪ alive s /\ loose s' Q r) /\
    forall t, loose s Q t -> loose s' Q t.
Proof.
  intros Hinv Hn. destruct (malloc_heap s n (si_heap _ _ Hinv) Hn) as (r & a & l & E & Hh & Hal).
  exists r, (with_heap l a s). split; [done|].
  assert (Hq : forall p t, 0 <= p < COUNT -> t ∈ Q p -> t ∈ alive s).
  { intros p t Hp Ht. by apply (qo_queue _ _ (si_queues _ _ Hinv) p Hp). }
  assert (Hc : forall cpu c, cores s !! cpu = Some c -> task c <> 0 -> task c ∈ alive s).
  { intros cpu c Hco H0. by apply (ck_task _ _ _ (si_core _ _ Hinv _ _ Hco)). }
  assert (Hsub : forall t, t ∈ alive s -> t ∈ l).
  { intros t Ht. destruct Hal as [(_ & ->)|(_ & _ & ->)]; [done|apply elem_of_union; by right]. }
  split_and!; try done.
  - apply (inv_frame s); try done; [intros p t Hp Ht|intros cpu c Hco H0]; (split; [done|]); eauto.
  - destruct Hal as [(Hr & E2)|(Hr & Hni & E2)]; [by left|right]. split_and!; [done..|].
    split_and!; [cbn [alive with_heap]; rewrite E2; apply elem_of_union; left; by apply elem_of_singleton|..].
    + intros p Hp Hin. eauto.
    + intros cpu c Hco E3. apply Hni. rewrite <- E3. apply (Hc cpu c Hco). by rewrite E3.
  - intros t (H1 & H2 & H3). split_and!; [by apply Hsub|done|done].
Qed.

Lemma free_run (s : sched) Q t :
  sched_inv s Q -> loose s Q t ->
  exists s', free t s = inr ((), s') /\ sched_inv s' Q /\ tasks s' = tasks s /\ cores s' = cores s /\
    tid_counter s' = tid_counter s /\ alive s' = alive s ∖ {[t]}.
Proof.
  intros Hinv (Ht & Hq & Hc). destruct (si_heap _ _ Hinv) as (B & HB & Hd).
  eexists. split; [done|]. split_and!; try done. apply (inv_frame s); try done.
  - exists (delete t B). split; [apply ha_free_spec; [done|right; by apply Hd]|].
    intros p. cbn [alive with_heap]. rewrite elem_of_difference, elem_of_singleton, Hd.
    destruct (decide (p = t)) as [->|Hne].
    + rewrite lookup_delete_eq. split; [by intros []|by intros []].
    + rewrite lookup_delete_ne by done. split; [by intros []|by split].
  - intros p u Hp Hu. split; [done|]. cbn [alive with_heap]. apply elem_of_difference. split.
    + by apply (qo_queue _ _ (si_queues _ _ Hinv) p Hp).
    + intros ->%elem_of_singleton. by apply (Hq p).
  - intros cpu c Hco H0. split; [done|]. cbn [alive with_heap]. apply elem_of_difference. split.
    + by apply (ck_task _ _ _ (si_core _ _ Hinv _ _ Hco)).
    + intros E%elem_of_singleton. by eapply Hc.
Qed.

(** ** [pthread_create] *)

Section Threads.
Context (idle_flag ret_from_fork : Z).

(** The stack a thread is given: its size, and its address unless 0. *)
Definition stack_size (attr : option pthread_attr_t) : Z :=
  match initialized attr with Some a => stacksize a | None => 4096 * 4 end.
Definition stack_addr (attr : option pthread_attr_t) : Z :=
  match initialized attr with Some a => stackaddr a | None => 0 end.

Definition prio_of (attr : option pthread_attr_t) (arg : Z) : Z :=
  if arg =? idle_flag then IDLE
  else match initialized attr with Some a => u32 (Z.rem (schedparam a) 5) | None => NORMAL end.

Definition stack_for (attr : option pthread_attr_t) : @M A Z :=
  if stack_addr attr =? 0 then malloc (stack_size attr) else mret (stack_addr attr).

Definition start_context (attr : option pthread_attr_t) (page start_routine arg : Z) : cpu_context :=
  CpuContext start_routine arg 0 0 0 0 0 0 0 0 0 ret_from_fork
    (Z.land (u64 (page + stack_size attr)) (Z.lnot 0xF)) 0 0 0 0 0 0 0 0.

(** The assignments between the two allocations of the stack, and after them. *)
Definition fill (attr : option pthread_attr_t) (arg : Z) (t : Z) : @M A () :=
  tid ← gets tid_counter;
  modify (with_tid (u64 (tid + 1)));;
  upd t (with_id tid);;
  upd t (with_state TASK_READY);;
  upd t (with_priority (prio_of attr arg));;
  upd t (with_next 0);;
  upd t (with_prev 0).

Definition launch (attr : option pthread_attr_t) (start_routine arg page t : Z) : @M A (Z * option Z) :=
  upd t (fun tk => with_context (start_context attr page start_routine arg) tk);;
  tk ← get t;
  (if negb (priority tk =? IDLE) then sched_enqueue_task t else mret ());;
  mret (0, Some t).

Definition refuse (t : Z) : @M A (Z * option Z) := free t;; mret (EAGAIN, None).

Lemma bind_assoc {X Y Z'} (m : @M A X) (f : X -> @M A Y) (g : Y -> @M A Z') (s : sched) :
  ((m ≫= f) ≫= g) s = (m ≫= (fun x => f x ≫= g)) s.
Proof. unfold mbind, M_bind. by destruct (m s) as [|[]]. Qed.

Lemma bind_ext {X Y} (m : @M A X) (f g : X -> @M A Y) (s : sched) :
  (forall x s', f x s' = g x s') -> (m ≫= f) s = (m ≫= g) s.
Proof. intros H. unfold mbind, M_bind. by destruct (m s) as [|[]]. Qed.

Lemma pthread_create_eq attr start_routine arg (s : sched) :
  pthread_create idle_flag ret_from_fork attr start_routine arg s =
  (t ← malloc sizeof_task;
   if t =? 0 then mret (EAGAIN, None)
   else
     upd t (fun _ => zero_task);;
     page ← stack_for attr;
     upd t (with_stack_page page);;
     if page =? 0 then refuse t
     else
       fill attr arg t;;
       page ← stack_for attr;
       upd t (with_stack_page page);;
       if page =? 0 then refuse t else launch attr start_routine arg page t) s.
Proof.
  assert (E1 : (match initialized attr with
           | Some at_ => if stackaddr at_ =? 0 then malloc (stacksize at_) else mret (stackaddr at_)
           | None => malloc (4096 * 4) end : @M A Z) = stack_for attr).
  { unfold stack_for, stack_addr, stack_size. by destruct (initialized attr). }
  assert (E2 : (match initialized attr with
           | Some at_ => if stackaddr at_ =? 0 then malloc (stack_size attr) else mret (stackaddr at_)
           | None => malloc (stack_size attr) end : @M A Z) = stack_for attr).
  { unfold stack_for, stack_addr, stack_size. by destruct (initialized attr). }
  unfold pthread_create. cbv zeta. rewrite E1. fold (stack_size attr). fold (prio_of attr arg). rewrite E2.
  apply bind_ext. intros t s1. destruct (t =? 0); [done|].
  apply bind_ext. intros [] s2. apply bind_ext. intros page s3. apply bind_ext. intros [] s4.
  destruct (page =? 0); [done|]. unfold fill.
  rewrite bind_assoc. apply bind_ext. intros tid s5.
  do 5 (rewrite bind_assoc; apply bind_ext; intros [] ?).
  apply bind_ext. intros [] s11. done.
Qed.

(** The block malloc gave for the stack, if it did. *)
Definition stack_block (attr : option pthread_attr_t) (page : Z) : gset Z :=
  if decide (stack_addr attr = 0 /\ page <> 0) then {[page]} else ∅.

Lemma stack_for_run (s : sched) Q attr :
  sched_inv s Q -> 0 <= stack_size attr < 2 ^ 64 ->
  exists page s', stack_for attr s = inr (page, s') /\ sched_inv s' Q /\ tasks s' = tasks s /\ cores s' = cores s /\
    tid_counter s' = tid_counter s /\ (forall t, loose s Q t -> loose s' Q t) /\
    alive s' = stack_block attr page ∪ alive s /\ (stack_addr attr <> 0 -> page = stack_addr attr) /\
    (forall b, b ∈ stack_block attr page -> b = page /\ (b ∉ alive s)).
Proof.
  intros Hinv Hn. unfold stack_for. destruct (stack_addr attr =? 0) eqn:E.
  - destruct (malloc_run s Q _ Hinv Hn) as (r & s' & H1 & H2 & H3 & H4 & H5 & H6 & H7).
    exists r, s'. unfold stack_block. destruct H6 as [(-> & E2)|(Hr & Hn' & E2 & _)].
    + rewrite decide_False by tauto. rewrite (left_id_L ∅ (∪)). split_and!; try done. lia.
    + rewrite decide_True by (split; [lia|done]). split_and!; try done; [lia|].
      intros b ->%elem_of_singleton. done.
  - exists (stack_addr attr), s. unfold stack_block. rewrite decide_False by lia.
    rewrite (left_id_L ∅ (∪)). split_and!; done.
Qed.

Lemma upd_loose (s : sched) Q t f :
  sched_inv s Q -> loose s Q t -> upd t f s = inr ((), put s t f) /\ sched_inv (put s t f) Q /\ loose (put s t f) Q t.
Proof.
  intros Hinv Hl. split; [apply upd_ok; apply Hl|]. split; [by apply put_loose|done].
Qed.

Lemma with_tid_inv (s : sched) Q v : sched_inv s Q -> sched_inv (with_tid v s) Q.
Proof.
  intros H. apply (inv_frame s); try done; [by destruct H|..].
  - intros p t Hp Ht. split; [done|]. by apply (qo_queue _ _ (si_queues _ _ H) p Hp).
  - intros cpu c Hco H0. split; [done|]. by apply (ck_task _ _ _ (si_core _ _ H _ _ Hco)).
Qed.

Lemma fill_run (s : sched) Q attr arg t :
  sched_inv s Q -> loose s Q t ->
  let k := tasks s t in
  exists s', fill attr arg t s = inr ((), s') /\ sched_inv s' Q /\ loose s' Q t /\ alive s' = alive s /\
    cores s' = cores s /\ tid_counter s' = u64 (tid_counter s + 1) /\
    (forall u, u <> t -> tasks s' u = tasks s u) /\
    tasks s' t = Task (context k) (tid_counter s) TASK_READY (prio_of attr arg) 0 0 (stack_page k) (ret_value k)
      (join_wait_queue k).
Proof.
  intros Hinv Hl k. unfold fill. erewrite bind_ok by done.
  erewrite bind_ok by done. set (s0 := with_tid (u64 (tid_counter s + 1)) s).
  assert (I0 : sched_inv s0 Q) by (by apply with_tid_inv). assert (L0 : loose s0 Q t) by done.
  destruct (upd_loose s0 Q t (with_id (tid_counter s)) I0 L0) as (E1 & I1 & L1).
  erewrite bind_ok by exact E1.
  destruct (upd_loose _ Q t (with_state TASK_READY) I1 L1) as (E2 & I2 & L2). erewrite bind_ok by exact E2.
  destruct (upd_loose _ Q t (with_priority (prio_of attr arg)) I2 L2) as (E3 & I3 & L3). erewrite bind_ok by exact E3.
  destruct (upd_loose _ Q t (with_next 0) I3 L3) as (E4 & I4 & L4). erewrite bind_ok by exact E4.
  destruct (upd_loose _ Q t (with_prev 0) I4 L4) as (E5 & I5 & L5).
  eexists. split; [exact E5|]. split_and!; try done.
  - intros u Hu. by rewrite !put_task, !decide_False by done.
  - by rewrite !put_task, !decide_True by done.
Qed.

Lemma launch_run (s : sched) Q attr start_routine arg page t :
  sched_inv s Q -> loose s Q t -> state (tasks s t) = TASK_READY -> 0 <= priority (tasks s t) < COUNT ->
  let p := priority (tasks s t) in
  exists s', launch attr start_routine arg page t s = inr ((0, Some t), s') /\
    sched_inv s' (if p =? IDLE then Q else <[p := Q p ++ [t]]> Q) /\ alive s' = alive s /\ cores s' = cores s /\
    tid_counter s' = tid_counter s /\ (p = IDLE -> loose s' Q t) /\
    (forall u, u <> t -> unlinked (tasks s' u) = unlinked (tasks s u)) /\
    unlinked (tasks s' t) = unlinked (with_context (start_context attr page start_routine arg) (tasks s t)).
Proof.
  intros Hinv Hl Hst Hp p. unfold launch.
  destruct (upd_loose s Q t (fun tk => with_context (start_context attr page start_routine arg) tk) Hinv Hl) as (E1 & I1 & L1).
  erewrite bind_ok by exact E1. set (s1 := put s t _) in *.
  assert (Ht1 : tasks s1 t = with_context (start_context attr page start_routine arg) (tasks s t))
    by (unfold s1; by rewrite put_task, decide_True).
  assert (Hoth : forall u, u <> t -> tasks s1 u = tasks s u) by (intros u Hu; unfold s1; by rewrite put_task, decide_False).
  pose proof L1 as (Hal & Hnq & Hnc). erewrite bind_ok by (by apply get_ok).
  assert (Hp1 : priority (tasks s1 t) = p) by (by rewrite Ht1). rewrite Hp1.
  destruct (p =? IDLE) eqn:E; cbn [negb].
  - exists s1. split_and!; try done; [|by rewrite Ht1]. intros u Hu. by rewrite Hoth.
  - pose proof (alive_pointer s1 Q t I1 Hal) as Hv.
    destruct (enqueue_ok s1 Q t (si_queues _ _ I1) Hal Hv) as [E2 HQ2];
      [rewrite Hp1; unfold IDLE, COUNT in *; lia|by rewrite Ht1|rewrite Hp1; by apply Hnq|].
    rewrite Hp1 in HQ2. erewrite bind_ok by exact E2. pose proof (same_enqueue s1 t) as [G1 G2 G3 G4 G5].
    exists (enqueue s1 t). split_and!; try done; try (by rewrite ?G2, ?G4, ?G5); [|lia| |by rewrite G1, Ht1].
    + destruct I1 as [H1 H2 H3 H4]. split; [by rewrite G2, G3|done| |by rewrite G4].
      intros cpu c. rewrite G4. intros Hco. destruct (H3 cpu c Hco) as [F1 F2 F3]. split; [done|done|].
      intros H0. destruct (unlinked_fields _ _ (G1 (task c))) as (_ & _ & -> & -> & _). rewrite G2. by apply F3.
    + intros u Hu. by rewrite G1, Hoth.
Qed.

Lemma refuse_run (s : sched) Q t :
  sched_inv s Q -> loose s Q t ->
  exists s', refuse t s = inr ((EAGAIN, None), s') /\ sched_inv s' Q /\ tasks s' = tasks s /\ cores s' = cores s /\
    alive s' = alive s ∖ {[t]}.
Proof.
  intros Hinv Hl. destruct (free_run s Q t Hinv Hl) as (s' & E & H1 & H2 & H3 & _ & H4).
  exists s'. split; [|done]. unfold refuse. by erewrite bind_ok by exact E.
Qed.

(** The new thread [t] of a successful creation: its fields, its queue, its
    stack [page], and the stack [first_page] allocated before it, which
    nothing points to afterwards. *)
Record created (s : sched) (Q : queues) attr start_routine arg (t page first_page : Z) (s' : sched) : Prop := {
  cr_new : t ∉ alive s;
  cr_alive : alive s' = stack_block attr first_page ∪ stack_block attr page ∪ {[t]} ∪ alive s;
  cr_page : page <> 0 /\ (stack_addr attr <> 0 -> page = stack_addr attr) /\
            (page ∈ stack_block attr page -> page <> t /\ (page ∉ alive s) /\ (page ∉ stack_block attr first_page));
  cr_first : first_page <> 0 /\ forall b, b ∈ stack_block attr first_page -> b <> t /\ (b ∉ alive s);
  cr_task : unlinked (tasks s' t) = Task (start_context attr page start_routine arg) (tid_counter s) TASK_READY
              (prio_of attr arg) 0 0 page 0 0;
  cr_others : forall u, u ∈ alive s -> unlinked (tasks s' u) = unlinked (tasks s u);
  cr_tid : tid_counter s' = u64 (tid_counter s + 1);
  cr_inv : sched_inv s' (if prio_of attr arg =? IDLE then Q else <[prio_of attr arg := Q (prio_of attr arg) ++ [t]]> Q);
  cr_loose : prio_of attr arg = IDLE -> loose s' Q t;
}.

Lemma in_rest (X E : gset Z) t u : u <> t -> u ∈ E -> u ∈ (X ∪ ({[t]} ∪ E)) ∖ {[t]}.
Proof. intros Hne Hu. rewrite elem_of_difference, !elem_of_union, elem_of_singleton. tauto. Qed.

Lemma create_ok (s : sched) Q attr start_routine arg :
  sched_inv s Q -> 0 <= stack_size attr < 2 ^ 64 -> 0 <= prio_of attr arg < COUNT ->
  exists res s', pthread_create idle_flag ret_from_fork attr start_routine arg s = inr (res, s') /\
    cores s' = cores s /\
    ((res = (EAGAIN, None) /\ sched_inv s' Q /\ (forall u, u ∈ alive s -> u ∈ alive s' /\ tasks s' u = tasks s u)) \/
     exists t page first_page, res = (0, Some t) /\
       created s Q attr start_routine arg t page first_page s').
Proof.
  intros Hinv Hsz Hpr. rewrite pthread_create_eq.
  destruct (malloc_run s Q sizeof_task Hinv ltac:(unfold sizeof_task; lia)) as (t & s1 & E1 & I1 & T1 & C1 & D1 & A1 & _).
  erewrite bind_ok by exact E1. destruct (t =? 0) eqn:Et.
  { exists (EAGAIN, None), s1. split; [done|]. split; [done|]. left. split_and!; [done|done|].
    intros u Hu. rewrite T1. destruct A1 as [[_ ->]|(? & _)]; [done|lia]. }
  destruct A1 as [[? _]|(Ht0 & Hnew & A1 & L1)]; [lia|].
  destruct (upd_loose s1 Q t (fun _ => zero_task) I1 L1) as (E2 & I2 & L2). erewrite bind_ok by exact E2.
  set (s2 := put s1 t _) in *.
  destruct (stack_for_run s2 Q attr I2 Hsz) as (page1 & s3 & E3 & I3 & T3 & C3 & D3 & K3 & A3 & B3 & B3').
  erewrite bind_ok by exact E3. assert (L3 : loose s3 Q t) by (by apply K3).
  destruct (upd_loose s3 Q t (with_stack_page page1) I3 L3) as (E4 & I4 & L4). erewrite bind_ok by exact E4.
  set (s4 := put s3 t _) in *.
  assert (Hold : forall u, u ∈ alive s -> u <> t) by (by intros u Hu ->).
  assert (V4 : forall u, u <> t -> tasks s4 u = tasks s u).
  { intros u Hu. unfold s4. rewrite put_task, decide_False, T3 by done. unfold s2. by rewrite put_task, decide_False, T1. }
  assert (V4t : tasks s4 t = with_stack_page page1 zero_task).
  { unfold s4. rewrite put_task, decide_True, T3 by done. unfold s2. by rewrite put_task, decide_True. }
  change (alive s2) with (alive s1) in A3, B3'. rewrite A1 in A3, B3'.
  destruct (page1 =? 0) eqn:Ep1.
  { destruct (refuse_run s4 Q t I4 L4) as (s5 & E5 & I5 & T5 & C5 & A5).
    exists (EAGAIN, None), s5. split; [exact E5|]. split; [by rewrite C5; unfold s4, s2; simpl; rewrite C3; simpl|].
    left. split_and!; [done|done|]. intros u Hu. rewrite T5, V4 by auto. split; [|done].
    rewrite A5. change (alive s4) with (alive s3). rewrite A3. apply in_rest; auto. }
  destruct (fill_run s4 Q attr arg t I4 L4) as (s5 & E5 & I5 & L5 & A5 & C5 & D5 & V5 & V5t).
  erewrite bind_ok by exact E5. rewrite V4t in V5t. cbn [context stack_page ret_value join_wait_queue with_stack_page zero_task] in V5t.
  destruct (stack_for_run s5 Q attr I5 Hsz) as (page2 & s6 & E6 & I6 & T6 & C6 & D6 & K6 & A6 & B6 & B6').
  erewrite bind_ok by exact E6. assert (L6 : loose s6 Q t) by (by apply K6).
  destruct (upd_loose s6 Q t (with_stack_page page2) I6 L6) as (E7 & I7 & L7). erewrite bind_ok by exact E7.
  set (s7 := put s6 t _) in *.
  assert (V7 : forall u, u <> t -> tasks s7 u = tasks s u).
  { intros u Hu. unfold s7. by rewrite put_task, decide_False, T6, V5, V4. }
  assert (V7t : tasks s7 t = Task zero_context (tid_counter s) TASK_READY (prio_of attr arg) 0 0 page2 0 0).
  { unfold s7. rewrite put_task, decide_True, T6, V5t by done. unfold with_stack_page.
    cbn [context id state priority next prev ret_value join_wait_queue]. f_equal.
    change (tid_counter s4) with (tid_counter s3). rewrite D3. change (tid_counter s2) with (tid_counter s1). by rewrite D1. }
  assert (Hcores : cores s7 = cores s).
  { change (cores s7) with (cores s6). rewrite C6, C5. change (cores s4) with (cores s3). rewrite C3. exact C1. }
  assert (A5' : alive s5 = alive s3) by (by rewrite A5).
  destruct (page2 =? 0) eqn:Ep2.
  { destruct (refuse_run s7 Q t I7 L7) as (s8 & E8 & I8 & T8 & C8 & A8).
    exists (EAGAIN, None), s8. split; [exact E8|]. split; [by rewrite C8|]. left. split_and!; [done|done|].
    intros u Hu. specialize (Hold u Hu). rewrite T8, V7 by done. split; [|done].
    rewrite A8. change (alive s7) with (alive s6). rewrite A6, A5', A3.
    rewrite (assoc_L (∪)). by apply in_rest. }
  destruct (launch_run s7 Q attr start_routine arg page2 t I7 L7) as (s8 & E8 & I8 & A8 & C8 & D8 & L8 & V8 & V8t);
    [by rewrite V7t|by rewrite V7t|].
  rewrite V7t in I8, L8, V8t. cbn [priority] in I8, L8.
  exists (0, Some t), s8. split; [exact E8|]. split; [by rewrite C8|]. right.
  assert (Htid : tid_counter s8 = u64 (tid_counter s + 1)).
  { rewrite D8. change (tid_counter s7) with (tid_counter s6). rewrite D6, D5.
    change (tid_counter s4) with (tid_counter s3). rewrite D3. change (tid_counter s2) with (tid_counter s1). by rewrite D1. }
  exists t, page2, page1. split; [done|].
  split; [done| | | |by rewrite V8t| |done|exact I8|exact L8].
  - rewrite A8. change (alive s7) with (alive s6). rewrite A6, A5', A3.
    rewrite !(assoc_L (∪)). by rewrite (comm_L (∪) (stack_block attr page2)).
  - split; [lia|]. split; [done|]. intros Hb%B6'. destruct Hb as [_ Hb]. rewrite A5', A3 in Hb.
    rewrite !not_elem_of_union in Hb. rewrite not_elem_of_singleton in Hb. tauto.
  - split; [lia|]. intros b Hb. destruct (B3' b Hb) as [_ Hn]. rewrite not_elem_of_union, not_elem_of_singleton in Hn. tauto.
  - intros u Hu. by rewrite V8, V7 by auto.
Qed.

(** C19 [pthread_create] returns EAGAIN and gives no thread, with every task
    as it was, when an allocation fails; otherwise 0 and a fresh task: its entry
    point and argument in the context it starts with, its stack pointer at the
    aligned end of its stack, its priority from the attributes, at the back of
    the queue of its priority (in no queue when it is the idle priority). *)
Theorem pthread_create_spec (s : sched) Q attr start_routine arg :
  sched_inv s Q -> 0 <= stack_size attr < 2 ^ 64 -> 0 <= prio_of attr arg < COUNT ->
  exists res s', pthread_create idle_flag ret_from_fork attr start_routine arg s = inr (res, s') /\
    cores s' = cores s /\
    ((res = (EAGAIN, None) /\ sched_inv s' Q /\ (forall u, u ∈ alive s -> u ∈ alive s' /\ tasks s' u = tasks s u)) \/
     exists t page first_page, res = (0, Some t) /\ created s Q attr start_routine arg t page first_page s').
Proof. apply create_ok. Qed.

(** A thread whose stack [pthread_create] allocates costs two stacks: the
    first one stays allocated and neither the task nor anything else points to
    it. *)
Theorem pthread_create_leaks (s s' : sched) Q attr start_routine arg t :
  sched_inv s Q -> 0 <= stack_size attr < 2 ^ 64 -> 0 <= prio_of attr arg < COUNT -> stack_addr attr = 0 ->
  pthread_create idle_flag ret_from_fork attr start_routine arg s = inr ((0, Some t), s') ->
  exists leaked, (leaked ∉ alive s) /\ leaked ∈ alive s' /\ leaked <> t /\ leaked <> stack_page (tasks s' t) /\
    (forall p, 0 <= p < COUNT -> leaked ∉ Q p) /\ forall cpu c, cores s' !! cpu = Some c -> task c <> leaked.
Proof.
  intros Hinv Hsz Hpr Hsa E. destruct (create_ok s Q attr start_routine arg Hinv Hsz Hpr) as (res & s1 & E1 & C1 & Hres).
  rewrite E in E1. injection E1 as <- <-. destruct Hres as [(? & _)|(t' & page & leaked & [= <-] & [K1 K2 K3 K4 K5 _ _ _ _])]; [done|].
  destruct K4 as [Hl0 Hl]. destruct K3 as (Hp0 & _ & Hp).
  assert (Hb : forall b, b <> 0 -> stack_block attr b = {[b]}) by (intros b Hb; unfold stack_block; by rewrite decide_True).
  rewrite Hb in Hl by done. rewrite !Hb in Hp by done. rewrite !Hb in K2 by done.
  destruct (Hl leaked ltac:(by apply elem_of_singleton)) as [Hlt Hla].
  destruct (Hp ltac:(by apply elem_of_singleton)) as (_ & _ & Hpl). rewrite elem_of_singleton in Hpl.
  exists leaked. split; [done|]. split; [rewrite K2, !elem_of_union, !elem_of_singleton; tauto|]. split; [done|].
  split; [|split].
  - replace (stack_page (tasks s' t)) with page; [congruence|]. symmetry. exact (f_equal stack_page K5).
  - intros p Hp' Hin. by apply Hla, (qo_queue _ _ (si_queues _ _ Hinv) p Hp').
  - intros cpu c Hc Et. rewrite C1 in Hc. apply Hla. rewrite <- Et.
    apply (ck_task _ _ _ (si_core _ _ Hinv cpu c Hc)). by rewrite Et.
Qed.
End Threads.
End Create.
End SchedCreate.
