(* ===== verification/SchedInit.v ===== *)
(** * The initialisation of the scheduler

    [sched_init] from the state the kernel boots with: either the heap has no
    room, and an unchecked pointer is used, or the invariant of the scheduler
    holds and the caller has become the main task. *)

From stdpp Require Import functions.
From S2P Require Import Prelude Dll HeapApi Sched SchedQueues SchedYield SchedCreate.

Module SchedInit.
Import Sched SchedQueues SchedYield SchedCreate.

Section Init.
Context {A : Type} {HA : HeapApi A}.
Abbreviation sched := (@sched A).

Definition no_queues : queues := fun _ => [].

(** The file's statics before [sched_init]. *)
Record statics (s : sched) : Prop := {
  bs_heap : heap_ok s;
  bs_active : active_priorities s = 0;
  bs_cores : exists i j, cores s = [Core i 0 0; Core j 0 0];
}.

Lemma empty_queues (s : sched) :
  (forall p, 0 <= p < COUNT -> runqueues s p = 0 /\ runqueues_tail s p = 0) -> active_priorities s = 0 ->
  queues_ok s no_queues.
Proof.
  intros H E. split; [| |rewrite E; unfold COUNT; lia|done].
  - intros p Hp. destruct (H p Hp). unfold queue_ok, no_queues. split_and!; try done; [apply NoDup_nil_2|].
    intros t Ht. by apply not_elem_of_nil in Ht.
  - intros p Hp. rewrite E, Z.testbit_0_l. symmetry. apply bool_decide_false. intros F. by apply F.
Qed.

(** The statics once cleared: no task runs yet. *)
Definition cleared (s : sched) : sched :=
  with_tails (for_ 0 COUNT (fun i f => <[i := 0]> f) (runqueues_tail s))
    (with_runqueues (for_ 0 COUNT (fun i f => <[i := 0]> f) (runqueues s))
      (with_cores [Core 0 0 0; Core 1 0 0] s)).

Lemma cleared_queue f p : 0 <= p < COUNT -> for_ 0 COUNT (fun i f => <[i := 0]> f) f p = 0.
Proof.
  intros Hp. change (for_ 0 COUNT (fun i (f : Z -> Z) => <[i := 0]> f) f)
    with (<[4 := 0]> (<[3 := 0]> (<[2 := 0]> (<[1 := 0]> (<[0 := 0]> f)))) : Z -> Z).
  unfold COUNT in Hp. assert (p = 0 \/ p = 1 \/ p = 2 \/ p = 3 \/ p = 4) as H by lia.
  by repeat (destruct H as [->|H]; [done|]); subst.
Qed.

Lemma cleared_inv (s : sched) : statics s -> sched_inv (cleared s) no_queues.
Proof.
  intros [H1 H2 H3]. split; [done| | |].
  - apply empty_queues; [|done]. intros p Hp. by split; apply cleared_queue.
  - intros cpu c Hc. destruct cpu as [|[|]]; simpl in Hc; [injection Hc as <-..|by rewrite lookup_nil in Hc]; by split.
  - intros i j c d Hc _ _ H0. destruct i as [|[|]]; simpl in Hc; [injection Hc as <-..|by rewrite lookup_nil in Hc]; done.
Qed.

Lemma core_set (s : sched) cpu c v : cores s !! cpu = Some c ->
  set_current_task cpu v s = inr ((), with_cores (<[cpu := Core (cpu_id c) v (task_to_free c)]> (cores s)) s).
Proof. intros H. unfold set_current_task. by erewrite bind_ok by (by apply get_core_ok). Qed.

Lemma new_task_run (s : sched) :
  heap_ok s ->
  match new_task s with
  | inl e => e = BadAccess 0
  | inr (t, s') => exists a, t <> 0 /\ (t ∉ alive s) /\
      s' = put (with_heap ({[t]} ∪ alive s) a s) t (fun _ => zero_task) /\ heap_ok s'
  end.
Proof.
  intros H. unfold new_task.
  destruct (malloc_heap s sizeof_task H ltac:(unfold sizeof_task; lia)) as (r & a & l & E & Hh & Hal).
  erewrite bind_ok by exact E. destruct Hal as [(-> & ->)|(Hr & Hn & ->)].
  - assert (H0 : 0 ∉ alive s).
    { destruct H as (B & HB & Hd). rewrite Hd. intros H0. pose proof (ha_block _ _ _ HB H0). lia. }
    unfold mbind, M_bind, upd. rewrite decide_False by done. done.
  - erewrite bind_ok by (apply upd_ok; cbn [alive with_heap]; apply elem_of_union; left; by apply elem_of_singleton).
    exists a. by split_and!.
Qed.

Section Threads.
Context (idle idle_flag ret_from_fork : Z).

(** After [sched_init]: the caller is the main task [main] and core 0 runs it.
    The idle thread [idler] exists, and no core and no queue has it. *)
Record started (s : sched) (main idler : Z) (s' : sched) : Prop := {
  sd_inv : sched_inv s' no_queues;
  sd_cores : cores s' = [Core 0 main 0; Core 1 0 0];
  sd_new : main <> 0 /\ idler <> main /\ (main ∉ alive s) /\ (idler ∉ alive s) /\ main ∈ alive s';
  sd_alive : forall u, u ∈ alive s -> u ∈ alive s';
  sd_main : tasks s' main = Task zero_context (u64 (tid_counter s + 1)) TASK_RUNNING NORMAL 0 0 0 0 0;
  sd_idle : loose s' no_queues idler /\ priority (tasks s' idler) = IDLE /\ state (tasks s' idler) = TASK_READY;
  sd_tid : tid_counter s' = u64 (u64 (tid_counter s + 1) + 1);
}.

Definition main_fields (tid : Z) : task_t := Task zero_context tid TASK_RUNNING NORMAL 0 0 0 0 0.

(** The caller becomes a task. *)
Definition adopt_main (cpu : nat) : @M A () :=
  main_task ← new_task;
  tid ← gets tid_counter;
  modify (with_tid (u64 (tid + 1)));;
  upd main_task (with_id tid);;
  upd main_task (with_state TASK_RUNNING);;
  upd main_task (with_priority NORMAL);;
  set_current_task cpu main_task.

(** From the creation of the idle thread on. *)
Definition init_tail : @M A () :=
  '(_, thread) ← pthread_create idle_flag ret_from_fork None idle idle_flag;
  idle_thread ← match thread with Some t => mret t | None => stop (BadAccess 0) end;
  set_current_task 0 idle_thread;;
  adopt_main 0.

Lemma adopt_main_run (s : sched) cpu co :
  heap_ok s -> cores s !! cpu = Some co ->
  match adopt_main cpu s with
  | inl e => e = BadAccess 0
  | inr (_, s') => exists m, m <> 0 /\ (m ∉ alive s) /\ alive s' = {[m]} ∪ alive s /\ heap_ok s' /\
      cores s' = <[cpu := Core (cpu_id co) m (task_to_free co)]> (cores s) /\
      tasks s' m = main_fields (tid_counter s) /\ (forall u, u <> m -> tasks s' u = tasks s u) /\
      tid_counter s' = u64 (tid_counter s + 1) /\ runqueues s' = runqueues s /\
      runqueues_tail s' = runqueues_tail s /\ active_priorities s' = active_priorities s
  end.
Proof.
  intros Hh Hco. unfold adopt_main. pose proof (new_task_run s Hh) as Hnt. unfold mbind at 1, M_bind at 1.
  destruct (new_task s) as [e|[m s3]]; [exact Hnt|]. destruct Hnt as (a & Hm0 & Hm & -> & Hh3).
  assert (Hm3 : m ∈ {[m]} ∪ alive s) by (apply elem_of_union; left; by apply elem_of_singleton).
  erewrite bind_ok by done. erewrite bind_ok by done. do 3 (erewrite bind_ok by (by apply upd_ok)).
  erewrite core_set by exact Hco. exists m. split_and!; try done.
  - cbn [tasks with_tasks with_cores with_tid put with_heap]. by rewrite !fn_lookup_insert.
  - intros u Hu. cbn [tasks with_tasks with_cores with_tid put with_heap]. by rewrite !fn_lookup_insert_ne by done.
Qed.

Lemma sched_init_eq (s : sched) : (exists i j, cores s = [Core i 0 0; Core j 0 0]) ->
  sched_init idle idle_flag ret_from_fork s = init_tail (cleared s).
Proof.
  intros (i & j & E). unfold sched_init. erewrite bind_ok by done. erewrite bind_ok by done.
  erewrite bind_ok by done. fold init_tail. f_equal. unfold cleared, with_cores, with_runqueues, with_tails. cbn.
  by rewrite E.
Qed.

(** A core takes up a new task. *)
Lemma adopted_inv (s1 s5 : sched) Q cpu co m :
  sched_inv s1 Q -> cores s1 !! cpu = Some co -> heap_ok s5 -> (m ∉ alive s1) ->
  cores s5 = <[cpu := Core (cpu_id co) m 0]> (cores s1) -> alive s5 = {[m]} ∪ alive s1 ->
  (forall u, u <> m -> tasks s5 u = tasks s1 u) ->
  state (tasks s5 m) = TASK_RUNNING -> 0 <= priority (tasks s5 m) < COUNT ->
  runqueues s5 = runqueues s1 -> runqueues_tail s5 = runqueues_tail s1 ->
  active_priorities s5 = active_priorities s1 -> sched_inv s5 Q.
Proof.
  intros Hinv Hco Hh Hm C5 Hal Hoth Hst Hpr G1 G2 G3.
  assert (Hin : forall u, u ∈ alive s1 -> u ∈ alive s5 /\ u <> m).
  { intros u Hu. split; [rewrite Hal; apply elem_of_union; by right|by intros ->]. }
  assert (Hrun : forall i c, cores s1 !! i = Some c -> task c <> 0 -> task c ∈ alive s1).
  { intros i c Hc H0. by apply (ck_task _ _ _ (si_core _ _ Hinv i c Hc)). }
  split; [done|..].
  - apply (queues_frame s1); try done; [exact (si_queues _ _ Hinv)|]. intros p u Hp Hu.
    destruct (Hin u) as [? ?]; [by apply (qo_queue _ _ (si_queues _ _ Hinv) p Hp)|]. split; [by apply Hoth|done].
  - intros i c. rewrite C5, list_lookup_insert_Some. intros [(<- & <- & _)|[Hne Hc]].
    + split; [by apply (si_core _ _ Hinv cpu co Hco)|done|]. cbn [task]. intros _. rewrite Hst.
      split; [|by split]. rewrite Hal. apply elem_of_union. left. by apply elem_of_singleton.
    + destruct (si_core _ _ Hinv i c Hc) as [F1 F2 F3]. split; [done|done|]. intros H0.
      destruct (Hin _ (Hrun i c Hc H0)) as [? ?]. rewrite Hoth by done. split; [done|]. by apply F3.
  - intros i j c d. rewrite C5, !list_lookup_insert_Some.
    intros [(<- & <- & _)|[Hi Hc]] [(<- & <- & _)|[Hj Hd]] Hij H0; cbn [task] in *; try done.
    + intros E. destruct (Hin (task d)) as [_ ?]; [apply (Hrun j d Hd); by rewrite <- E|congruence].
    + by destruct (Hin _ (Hrun i c Hc H0)).
    + by apply (si_apart _ _ Hinv i j c d Hc Hd).
Qed.

Lemma init_tail_ok (s : sched) :
  sched_inv s no_queues -> cores s = [Core 0 0 0; Core 1 0 0] ->
  match init_tail s with
  | inl e => e = BadAccess 0
  | inr (_, s') => exists main idler, started s main idler s'
  end.
Proof.
  intros Hinv Hcs. unfold init_tail.
  destruct (create_ok idle_flag ret_from_fork s no_queues None idle idle_flag Hinv) as (res & s1 & E1 & C1 & Hres).
  { by vm_compute. }
  { unfold prio_of. by rewrite Z.eqb_refl. }
  erewrite bind_ok by exact E1. destruct Hres as [(-> & _)|(t & pg & fp & -> & Hcr)]; [done|].
  cbn beta iota. rewrite (bind_ok _ _ s1 s1 t) by done. rewrite Hcs in C1.
  erewrite bind_ok by (by apply core_set with (c := Core 0 0 0); rewrite C1).
  set (s2 := with_cores _ s1). destruct Hcr as [K1 K2 K3 K4 K5 K6 K7 K8 K9].
  assert (Ep : prio_of idle_flag None idle_flag = IDLE) by (unfold prio_of; by rewrite Z.eqb_refl).
  rewrite Ep in *. cbn [Z.eqb IDLE] in K8. destruct (K9 eq_refl) as (Ht & _).
  assert (C2 : cores s2 = [Core 0 t 0; Core 1 0 0]) by (unfold s2; cbn [cores with_cores]; by rewrite C1).
  pose proof (adopt_main_run s2 0 (Core 0 t 0) (si_heap _ _ K8) ltac:(by rewrite C2)) as Had.
  destruct (adopt_main 0 s2) as [e|[[] s5]]; [exact Had|].
  destruct Had as (m & Hm0 & Hm & Hal & Hh5 & C5 & T5 & Hoth & Htid & G1 & G2 & G3).
  change (alive s2) with (alive s1) in Hm, Hal. change (tid_counter s2) with (tid_counter s1) in T5, Htid.
  rewrite K7 in T5, Htid.
  assert (I5 : sched_inv s5 no_queues).
  { apply (adopted_inv s1 s5 _ 0 (Core 0 0 0) m); try done; [by rewrite C1|by rewrite C5, C2, C1|by rewrite T5..]. }
  rewrite C2 in C5. assert (Hne : t <> m) by (by intros ->).
  assert (Hin : forall u, u ∈ alive s -> u ∈ alive s1) by (intros u Hu; rewrite K2; apply elem_of_union; by right).
  assert (Hsub : forall u, u ∈ alive s1 -> u ∈ alive s5) by (intros u Hu; rewrite Hal; apply elem_of_union; by right).
  assert (Ht0 : t <> 0) by (pose proof (alive_pointer s1 _ t K8 Ht) as Hv; unfold pointer in Hv; lia).
  exists m, t. split; [exact I5|exact C5| | |exact T5| |exact Htid].
  - split_and!; [done|done|by intros ?%Hin|done|]. rewrite Hal. apply elem_of_union. left. by apply elem_of_singleton.
  - intros u Hu. by apply Hsub, Hin.
  - rewrite Hoth by done. split; [|split; [exact (f_equal priority K5)|exact (f_equal state K5)]].
    split_and!; [by apply Hsub|intros p _; apply not_elem_of_nil|]. rewrite C5.
    intros [|[|cpu]] c Hc; simpl in Hc; [injection Hc as <-..|by rewrite lookup_nil in Hc]; cbn [task]; [|done].
    by intros ->.
Qed.

(** [sched_init] makes the caller the main task, in order, or stops on the
    pointer malloc did not give. *)
Lemma sched_init_ok (s : sched) :
  statics s ->
  match sched_init idle idle_flag ret_from_fork s with
  | inl e => e = BadAccess 0
  | inr (_, s') => exists main idler, started s main idler s'
  end.
Proof.
  intros Hs. rewrite sched_init_eq by apply Hs.
  pose proof (init_tail_ok (cleared s) (cleared_inv s Hs) eq_refl) as H.
  destruct (init_tail (cleared s)) as [e|[[] s']]; [exact H|]. destruct H as (main & idler & []).
  by exists main, idler.
Qed.

(** ** The other core *)

Definition startup_fields : task_t := Task zero_context 0 TASK_RUNNING IDLE 0 0 0 0 0.

Definition adopt_startup (cpu : nat) : @M A () :=
  startup_task ← new_task;
  upd startup_task (with_priority IDLE);;
  upd startup_task (with_state TASK_RUNNING);;
  set_current_task cpu startup_task.

Lemma adopt_startup_run (s : sched) cpu co :
  heap_ok s -> cores s !! cpu = Some co ->
  match adopt_startup cpu s with
  | inl e => e = BadAccess 0
  | inr (_, s') => exists m, m <> 0 /\ (m ∉ alive s) /\ alive s' = {[m]} ∪ alive s /\ heap_ok s' /\
      cores s' = <[cpu := Core (cpu_id co) m (task_to_free co)]> (cores s) /\
      tasks s' m = startup_fields /\ (forall u, u <> m -> tasks s' u = tasks s u) /\
      tid_counter s' = tid_counter s /\ runqueues s' = runqueues s /\
      runqueues_tail s' = runqueues_tail s /\ active_priorities s' = active_priorities s
  end.
Proof.
  intros Hh Hco. unfold adopt_startup. pose proof (new_task_run s Hh) as Hnt. unfold mbind at 1, M_bind at 1.
  destruct (new_task s) as [e|[m s3]]; [exact Hnt|]. destruct Hnt as (a & Hm0 & Hm & -> & Hh3).
  assert (Hm3 : m ∈ {[m]} ∪ alive s) by (apply elem_of_union; left; by apply elem_of_singleton).
  do 2 (erewrite bind_ok by (by apply upd_ok)).
  erewrite core_set by exact Hco. exists m. split_and!; try done.
  - cbn [tasks with_tasks with_cores put with_heap]. by rewrite !fn_lookup_insert.
  - intros u Hu. cbn [tasks with_tasks with_cores put with_heap]. by rewrite !fn_lookup_insert_ne by done.
Qed.

(** Core [cpu] of [s'] runs the new task [m], of idle priority; the thread
    [idler] created for it is in no queue and on no core. *)
Record joined (s : sched) (Q : queues) (cpu : nat) (m idler : Z) (s' : sched) : Prop := {
  jd_inv : sched_inv s' Q;
  jd_cores : cores s' = <[cpu := Core (Z.of_nat cpu) m 0]> (cores s);
  jd_new : m <> 0 /\ idler <> m /\ (m ∉ alive s) /\ (idler ∉ alive s);
  jd_main : tasks s' m = startup_fields;
  jd_idle : loose s' Q idler /\ priority (tasks s' idler) = IDLE;
  jd_others : forall u, u ∈ alive s -> u ∈ alive s' /\ unlinked (tasks s' u) = unlinked (tasks s u);
}.

Definition secondary_tail (i : nat) : @M A () :=
  '(_, thread) ← pthread_create idle_flag ret_from_fork None idle idle_flag;
  idle_core2 ← match thread with Some t => mret t | None => stop (BadAccess 0) end;
  upd idle_core2 (with_priority IDLE);;
  set_current_task i idle_core2;;
  adopt_startup i.

Lemma secondary_tail_ok (s : sched) Q i co :
  sched_inv s Q -> cores s !! i = Some co ->
  match secondary_tail i s with
  | inl e => e = BadAccess 0
  | inr (_, s') => exists m idler, joined s Q i m idler s'
  end.
Proof.
  intros Hinv Hco. unfold secondary_tail.
  destruct (create_ok idle_flag ret_from_fork s Q None idle idle_flag Hinv) as (res & s1 & E1 & C1 & Hres).
  { by vm_compute. }
  { unfold prio_of. by rewrite Z.eqb_refl. }
  erewrite bind_ok by exact E1. destruct Hres as [(-> & _)|(t & pg & fp & -> & Hcr)]; [done|].
  cbn beta iota. rewrite (bind_ok _ _ s1 s1 t) by done. destruct Hcr as [K1 K2 K3 K4 K5 K6 K7 K8 K9].
  assert (Ep : prio_of idle_flag None idle_flag = IDLE) by (unfold prio_of; by rewrite Z.eqb_refl).
  rewrite Ep in *. cbn [Z.eqb IDLE] in K8. pose proof (K9 eq_refl) as Hlo.
  destruct (upd_loose s1 Q t (with_priority IDLE) K8 Hlo) as (E2 & I2 & Ht & Hq & Hc).
  erewrite bind_ok by exact E2. set (s2 := put s1 t _) in *.
  assert (Hco2 : cores s2 !! i = Some co) by (change (cores s2) with (cores s1); by rewrite C1).
  pose proof (si_core _ _ Hinv i co Hco) as [Hid Hfr _].
  erewrite bind_ok by (by apply core_set). set (s3 := with_cores _ s2).
  assert (Hco3 : cores s3 !! i = Some (Core (cpu_id co) t (task_to_free co))).
  { apply list_lookup_insert_eq. by eapply lookup_lt_Some. }
  pose proof (adopt_startup_run s3 i _ (si_heap _ _ I2) Hco3) as Had.
  destruct (adopt_startup i s3) as [e|[[] s5]]; [exact Had|].
  destruct Had as (m & Hm0 & Hm & Hal & Hh5 & C5 & T5 & Hoth & Htid & G1 & G2 & G3).
  change (alive s3) with (alive s1) in Hm, Hal. cbn [cpu_id task_to_free] in C5. rewrite Hid, Hfr in C5.
  cbn [cores s3 with_cores s2 put with_tasks] in C5. rewrite list_insert_insert_eq in C5.
  assert (I5 : sched_inv s5 Q).
  { apply (adopted_inv s2 s5 Q i co m); try done; [by rewrite C5, Hid|by rewrite T5..]. }
  assert (Hin : forall u, u ∈ alive s -> u ∈ alive s1) by (intros u Hu; rewrite K2; apply elem_of_union; by right).
  assert (Hsub : forall u, u ∈ alive s1 -> u ∈ alive s5 /\ u <> m).
  { intros u Hu. split; [rewrite Hal; apply elem_of_union; by right|by intros ->]. }
  destruct (Hsub t Ht) as [Ht5 Hne]. rewrite C1 in C5.
  exists m, t. split; [exact I5|exact C5| |exact T5| |].
  - split_and!; [done|done|by intros ?%Hin|done].
  - split.
    + split_and!; [done|exact Hq|]. rewrite C5. intros j c. rewrite list_lookup_insert_Some.
      intros [(<- & <- & _)|[_ Hj]]; cbn [task]; [by intros ->|]. apply (Hc j c). by rewrite <- C1 in Hj.
    + rewrite Hoth by done. change (tasks s3) with (tasks s2). unfold s2. by rewrite put_task, decide_True.
  - intros u Hu. destruct (Hsub u (Hin u Hu)) as [? Hum]. split; [done|]. rewrite Hoth by done.
    change (tasks s3) with (tasks s2). unfold s2. rewrite put_task, decide_False by (by intros ->). by apply K6.
Qed.

Lemma sched_init_secondary_ok (s : sched) Q cpu co :
  sched_inv s Q -> 0 <= cpu < Z.of_nat MAX_CPUS -> cores s !! Z.to_nat cpu = Some co ->
  match sched_init_secondary idle idle_flag ret_from_fork cpu s with
  | inl e => e = BadAccess 0
  | inr (_, s') => exists m idler, joined s Q (Z.to_nat cpu) m idler s'
  end.
Proof.
  intros Hinv Hcpu Hco. unfold sched_init_secondary. destruct ((cpu <? 0) || (Z.of_nat MAX_CPUS <=? cpu)) eqn:E; [lia|].
  cbv zeta. erewrite bind_ok by (by apply get_core_ok). erewrite bind_ok by done. fold (secondary_tail (Z.to_nat cpu)).
  destruct (si_core _ _ Hinv _ _ Hco) as [Hid Hfr _]. rewrite Z2Nat.id in Hid by lia.
  replace (with_cores _ s) with s; [by apply (secondary_tail_ok s Q _ co)|].
  rewrite list_insert_id; [by destruct s|]. rewrite Hco. destruct co. simpl in *. by subst.
Qed.
End Threads.
End Init.
End SchedInit.
