(* ===== verification/SchedSpec.v ===== *)
(** * What the scheduler promises

    Priorities, round robin among equals, and the refinement of an abstract
    scheduler by any sequence of [sched_yield] and [pthread_create] calls. *)

From stdpp Require Import functions.
From S2P Require Import Prelude Dll HeapApi Sched SchedQueues SchedYield SchedCreate SchedInit.

Module SchedSpec.
Import Sched SchedQueues SchedYield SchedCreate SchedInit.

Section Spec.
Context {A : Type} {HA : HeapApi A}.
Abbreviation sched := (@sched A).

Lemma queues_same (s : sched) (Q Q' : queues) :
  (forall p, 0 <= p < COUNT -> Q' p = Q p) -> queues_ok s Q -> queues_ok s Q'.
Proof.
  intros E [H1 H2 H3 H4]. split; [| |done|].
  - intros p Hp. rewrite E by done. by apply H1.
  - intros p Hp. rewrite E by done. by apply H2.
  - rewrite E; [done|]. unfold IDLE, COUNT. lia.
Qed.

Lemma inv_same (s : sched) (Q Q' : queues) :
  (forall p, 0 <= p < COUNT -> Q' p = Q p) -> sched_inv s Q -> sched_inv s Q'.
Proof. intros E [H1 H2 H3 H4]. split; [done|by eapply queues_same|done|done]. Qed.

(** ** [sched_yield] *)

(** The core [cpu] runs task [c]. *)
Definition runs_on (s : sched) (cpu : nat) (c : Z) : Prop :=
  exists co, cores s !! cpu = Some co /\ task co = c.

Definition switched (s : sched) (cpu : nat) (n : Z) : list cpu_core_t :=
  match cores s !! cpu with Some co => <[cpu := Core (cpu_id co) n 0]> (cores s) | None => cores s end.

(** C18 [sched_yield] implements the abstract scheduler: the caller goes to the
    back of its queue when it can run on, the first task of the highest
    non-empty queue (or else the caller) runs next and its saved registers are
    those the CPU goes on with, the caller's registers are saved, nothing else
    changes but the links of the queues, and the invariant holds again. No
    access leaves the live tasks. *)
Theorem sched_yield_spec (s : sched) Q cpu c regs :
  sched_inv s Q -> runs_on s cpu c -> c <> 0 ->
  state (tasks s c) = TASK_RUNNING \/ (exists p, 0 <= p < COUNT /\ Q p <> []) ->
  let r := runs (tasks s c) in
  let '(Q', n) := spec_yield Q c (priority (tasks s c)) r in
  exists s', sched_yield cpu regs s = inr (if n =? c then regs else context (tasks s n), s') /\
    sched_inv s' Q' /\ cores s' = switched s cpu n /\ n <> 0 /\
    alive s' = alive s /\ heap s' = heap s /\ tid_counter s' = tid_counter s /\
    (forall t, unlinked (tasks s' t) = unlinked (after_yield c n r regs t (tasks s t))).
Proof.
  intros Hinv (co & Hco & <-) Hc0 Hgo r. pose proof (yield_ok s Q cpu co regs Hinv Hco Hc0 Hgo) as H.
  cbv zeta in H. fold r in H. destruct (spec_yield Q (task co) (priority (tasks s (task co))) r) as [Q' n].
  destruct H as (s' & E & H1 & H2 & H3 & H4 & H5 & H6 & H7). exists s'. unfold switched. rewrite Hco. done.
Qed.

(** What is left in the queues is no higher than the task picked. *)
Lemma spec_yield_top Q c p0 r :
  let '(Q', n) := spec_yield Q c p0 r in
  forall p, 0 <= p < COUNT -> Q' p <> [] -> exists h, p <= h < COUNT /\ 0 <= h /\ n ∈ requeue Q c p0 r h.
Proof.
  unfold spec_yield. pose proof (top_spec (requeue Q c p0 r)) as Ht.
  destruct (top (requeue Q c p0 r)) as [h|]; [|by intros p Hp Hne; rewrite Ht in Hne].
  destruct Ht as (Hh & Hne & Hup). destruct (requeue Q c p0 r h) as [|n q] eqn:E; [done|].
  intros p Hp Hp'. exists h. split; [|split; [lia|rewrite E; left]].
  destruct (decide (h < p)); [|lia]. rewrite fn_lookup_insert_ne in Hp' by lia. rewrite Hup in Hp' by lia. done.
Qed.

Lemma requeue_elem Q c p0 r t h : t ∈ requeue Q c p0 r h -> t ∈ Q h \/ t = c /\ h = p0.
Proof.
  unfold requeue. destruct r; [|by left]. destruct (decide (h = p0)) as [->|Hne].
  - rewrite fn_lookup_insert. intros [?|?%list_elem_of_singleton]%elem_of_app; [by left|by right].
  - rewrite fn_lookup_insert_ne by done. by left.
Qed.

Lemma queued_priority (s : sched) Q p t : sched_inv s Q -> 0 <= p < COUNT -> t ∈ Q p ->
  priority (tasks s t) = p /\ state (tasks s t) = TASK_READY /\ t ∈ alive s.
Proof. intros H Hp Ht. destruct (qo_queue _ _ (si_queues _ _ H) p Hp) as (_ & _ & _ & _ & Hel). by destruct (Hel t Ht) as (? & _ & ? & ?). Qed.

Lemma after_yield_priority c n r regs t k : priority (after_yield c n r regs t k) = priority k.
Proof. unfold after_yield, set_running. by repeat case_match. Qed.

Lemma after_yield_running c n r regs k : state (after_yield c n r regs n k) = TASK_RUNNING.
Proof. unfold after_yield, set_running. rewrite (decide_True (P := n = n)) by done. by repeat case_match. Qed.

Lemma after_yield_other c n r regs t k : t <> c -> t <> n -> after_yield c n r regs t k = k.
Proof. intros H1 H2. unfold after_yield, set_running. by rewrite !decide_False by (tauto || done). Qed.

Lemma task_after (s s' : sched) c n r regs t :
  unlinked (tasks s' t) = unlinked (after_yield c n r regs t (tasks s t)) ->
  priority (tasks s' t) = priority (tasks s t) /\ (t = n -> state (tasks s' t) = TASK_RUNNING) /\
  (t <> c -> t <> n -> state (tasks s' t) = state (tasks s t)).
Proof.
  intros H. destruct (unlinked_fields _ _ H) as (_ & _ & -> & -> & _). rewrite after_yield_priority.
  split; [done|]. split; [intros ->; apply after_yield_running|]. intros H1 H2. by rewrite after_yield_other.
Qed.

Lemma switched_runs (s s' : sched) cpu c n : runs_on s cpu c -> cores s' = switched s cpu n -> runs_on s' cpu n.
Proof.
  intros (co & Hco & _) E. unfold switched in E. rewrite Hco in E. exists (Core (cpu_id co) n 0).
  rewrite E. split; [|done]. apply list_lookup_insert_eq. by eapply lookup_lt_Some.
Qed.

(** After [sched_yield] of a task that can run on, no task in a queue has a
    higher priority than the one the core runs. *)
Theorem sched_yield_highest (s : sched) Q cpu c regs :
  sched_inv s Q -> runs_on s cpu c -> c <> 0 -> state (tasks s c) = TASK_RUNNING ->
  exists r s' Q' n, sched_yield cpu regs s = inr (r, s') /\ sched_inv s' Q' /\ runs_on s' cpu n /\
    state (tasks s' n) = TASK_RUNNING /\
    forall p t, 0 <= p < COUNT -> t ∈ Q' p -> priority (tasks s' t) <= priority (tasks s' n).
Proof.
  intros Hinv Hon Hc0 Hrun. pose proof Hon as (co & Hco & Ec).
  pose proof (yield_ok s Q cpu co regs Hinv Hco) as H. rewrite Ec in H. specialize (H Hc0 (or_introl Hrun)). cbv zeta in H.
  pose proof (spec_yield_top Q c (priority (tasks s c)) (runs (tasks s c))) as Htop.
  destruct (spec_yield Q c (priority (tasks s c)) (runs (tasks s c))) as [Q' n].
  destruct H as (s' & E & Hinv' & Hcs & _ & _ & _ & Htk & _).
  eexists _, s', Q', n. split; [exact E|]. split; [done|]. destruct (task_after _ _ _ _ _ _ _ (Htk n)) as (Hpn & Hn & _).
  split; [|split; [by apply Hn|]].
  - apply (switched_runs s s' cpu c); [done|]. unfold switched. by rewrite Hco.
  - intros p t Hp Ht. destruct (queued_priority s' Q' p t Hinv' Hp Ht) as [-> _].
    destruct (Htop p Hp) as (h & Hh & H0 & Hn'); [by intros E'; rewrite E' in Ht; apply not_elem_of_nil in Ht|].
    rewrite Hpn. destruct (requeue_elem _ _ _ _ _ _ Hn') as [Hq|[-> ->]]; [|lia].
    destruct (queued_priority s Q h n Hinv ltac:(lia) Hq) as [-> _]. lia.
Qed.

(** ** Round robin *)

(** Call [sched_yield] once for each set of registers the running code leaves,
    and collect the tasks that run next. *)
Fixpoint yields (cpu : nat) (regs : list cpu_context) : @M A (list Z) :=
  match regs with
  | [] => mret []
  | r :: rs =>
      sched_yield cpu r;;
      t ← current_task cpu;
      ts ← yields cpu rs;
      mret (t :: ts)
  end.

(** Core [cpu] runs [c] at priority [p], with nothing ready above it. *)
Record turn (s : sched) (Q : queues) (cpu : nat) (p c : Z) : Prop := {
  tn_inv : sched_inv s Q;
  tn_on : runs_on s cpu c;
  tn_null : c <> 0;
  tn_state : state (tasks s c) = TASK_RUNNING;
  tn_prio : priority (tasks s c) = p /\ IDLE < p < COUNT;
  tn_top : forall p', p < p' < COUNT -> Q p' = [];
}.

Lemma top_is Q p : 0 <= p < COUNT -> Q p <> [] -> (forall p', p < p' < COUNT -> Q p' = []) -> top Q = Some p.
Proof.
  intros Hp Hne Hup. pose proof (top_spec Q) as Ht. destruct (top Q) as [h|]; [|by rewrite Ht in Hne].
  destruct Ht as (Hh & Hh' & Hup'). f_equal. destruct (decide (h < p)); [by rewrite Hup' in Hne by lia|].
  destruct (decide (p < h)); [by rewrite Hup in Hh' by lia|lia].
Qed.

(** The queue of its priority moves on by one. *)
Definition next_turn (q : list Z) (c : Z) : Z * list Z :=
  match q with [] => (c, []) | a :: q => (a, q ++ [c]) end.

Lemma turn_yield (s : sched) Q cpu p c regs :
  turn s Q cpu p c ->
  let '(n, q) := next_turn (Q p) c in
  exists r s', sched_yield cpu regs s = inr (r, s') /\ turn s' (<[p := q]> Q) cpu p n.
Proof.
  intros [Hinv Hon Hc0 Hst [Hp Hpr] Htop]. pose proof Hon as (co & Hco & Ec).
  pose proof (yield_ok s Q cpu co regs Hinv Hco) as H. rewrite Ec in H. specialize (H Hc0 (or_introl Hst)). cbv zeta in H.
  assert (Hr : runs (tasks s c) = true).
  { unfold runs. rewrite bool_decide_true by done. rewrite Hp. unfold IDLE in *. lia. }
  rewrite Hr, Hp in H. unfold spec_yield, requeue in H.
  set (Q1 := <[p := Q p ++ [c]]> Q : queues) in *.
  assert (E1 : Q1 p = Q p ++ [c]) by (unfold Q1; by rewrite fn_lookup_insert).
  rewrite (top_is Q1 p) in H; [|unfold IDLE in *; lia|rewrite E1; by destruct (Q p)|].
  2:{ intros p' Hp'. unfold Q1. rewrite fn_lookup_insert_ne by lia. by apply Htop. }
  assert (E2 : Q1 p = (next_turn (Q p) c).1 :: (next_turn (Q p) c).2) by (rewrite E1; by destruct (Q p)).
  rewrite E2 in H. destruct (next_turn (Q p) c) as [n q] eqn:En. cbn [fst snd] in *.
  destruct H as (s' & E & Hinv' & Hcs & _ & _ & _ & Htk & Hn0).
  destruct (task_after _ _ _ _ _ _ _ (Htk n)) as (Hpn & Hn & _).
  eexists _, s'. split; [exact E|]. split; [|apply (switched_runs s s' cpu c); [done|]|done|by apply Hn| |].
  - eapply inv_same; [|exact Hinv']. intros p' _. cbv beta. unfold Q1.
    destruct (decide (p' = p)) as [->|Hne]; [by rewrite !fn_lookup_insert|by rewrite !fn_lookup_insert_ne by done].
  - unfold switched. by rewrite Hco.
  - split; [|done]. rewrite Hpn. assert (Hin : n ∈ Q1 p) by (rewrite E2; left). rewrite E1 in Hin.
    apply elem_of_app in Hin as [Hin| ->%list_elem_of_singleton]; [|done].
    apply (queued_priority s Q p n Hinv); [unfold IDLE in *; lia|done].
  - intros p' Hp'. rewrite fn_lookup_insert_ne by lia. by apply Htop.
Qed.

Lemma turn_same (s : sched) (Q Q' : queues) cpu p c :
  (forall p, 0 <= p < COUNT -> Q' p = Q p) -> turn s Q cpu p c -> turn s Q' cpu p c.
Proof.
  intros E [H1 H2 H3 H4 [H5 H5'] H6]. split; try done; [by eapply inv_same|].
  intros p' Hp'. rewrite E by (unfold IDLE in *; lia). by apply H6.
Qed.

Lemma yields_cons (s s1 s2 : sched) Q cpu p a r r' regs ts :
  sched_yield cpu r s = inr (r', s1) -> turn s1 Q cpu p a -> yields cpu regs s1 = inr (ts, s2) ->
  yields cpu (r :: regs) s = inr (a :: ts, s2).
Proof.
  intros E Ht E2. cbn [yields]. erewrite bind_ok by exact E. destruct (tn_on _ _ _ _ _ Ht) as (co & Hco & Ec).
  rewrite (bind_ok _ _ s1 s1 a) by (unfold current_task; erewrite bind_ok by (by apply get_core_ok); by rewrite Ec).
  by erewrite bind_ok by exact E2.
Qed.

(** As many turns as tasks are waiting: they run in order. *)
Lemma turns (cpu : nat) p q1 : forall (s : sched) Q c q2 regs,
  turn s Q cpu p c -> Q p = q1 ++ q2 -> length regs = length q1 ->
  exists s', yields cpu regs s = inr (q1, s') /\
    turn s' (<[p := q2 ++ removelast (c :: q1)]> Q) cpu p (List.last (c :: q1) 0).
Proof.
  induction q1 as [|a q1 IH]; intros s Q c q2 regs Ht HQ Hl.
  - destruct regs; [|done]. exists s. split; [done|]. cbn [removelast List.last]. rewrite app_nil_r.
    eapply turn_same; [|exact Ht]. intros p' _. cbv beta.
    destruct (decide (p' = p)) as [->|?]; [by rewrite fn_lookup_insert|by rewrite fn_lookup_insert_ne].
  - destruct regs as [|r regs]; [done|]. pose proof (turn_yield s Q cpu p c r Ht) as H. rewrite HQ in H. cbn [next_turn app] in H.
    destruct H as (r' & s1 & E & Ht1).
    destruct (IH s1 _ a (q2 ++ [c]) regs Ht1) as (s2 & E2 & Ht2).
    { by rewrite fn_lookup_insert, (assoc_L (++)). }
    { by injection Hl. }
    exists s2. split; [by apply (yields_cons s s1 s2 _ cpu p a r r' regs q1 E Ht1)|].
    rewrite <- (assoc_L (++)) in Ht2. eapply turn_same; [|exact Ht2].
    intros p' _. cbv beta. destruct (decide (p' = p)) as [->|Hne]; [|by rewrite !fn_lookup_insert_ne by done].
    by rewrite !fn_lookup_insert.
Qed.

(** C17 Round robin: when the task [c] of a core and the tasks [Q p] waiting at
    its priority all keep running and yielding and nothing is ready above them,
    then each of the waiting tasks runs once, in order, then [c] again, and the
    queues are what they were. So no thread waits for more turns than there are
    threads before it. *)
Theorem sched_round_robin (s : sched) Q cpu p c regs :
  turn s Q cpu p c -> length regs = Datatypes.S (length (Q p)) ->
  exists s', yields cpu regs s = inr (Q p ++ [c], s') /\ turn s' Q cpu p c.
Proof.
  intros Ht Hl. destruct regs as [|r regs]; [done|]. injection Hl as Hl.
  pose proof (turn_yield s Q cpu p c r Ht) as H. destruct (Q p) as [|a q] eqn:EQ; cbn [next_turn] in H.
  - destruct H as (r' & s1 & E & Ht1). destruct regs; [|done]. exists s1. split; [by eapply yields_cons|].
    eapply turn_same; [|exact Ht1]. intros p' _. cbv beta.
    destruct (decide (p' = p)) as [->|Hne]; [by rewrite fn_lookup_insert|by rewrite fn_lookup_insert_ne by done].
  - destruct H as (r' & s1 & E & Ht1).
    destruct (turns cpu p (q ++ [c]) s1 _ a [] regs Ht1) as (s2 & E2 & Ht2).
    { by rewrite fn_lookup_insert, app_nil_r. }
    { rewrite length_app. cbn [length] in *. lia. }
    exists s2. split; [by eapply yields_cons|].
    rewrite app_comm_cons, removelast_last, last_last in Ht2. eapply turn_same; [|exact Ht2].
    intros p' _. cbv beta. destruct (decide (p' = p)) as [->|Hne]; [|by rewrite !fn_lookup_insert_ne by done].
    by rewrite fn_lookup_insert.
Qed.
End Spec.
End SchedSpec.
