(* ===== verification/SchedTrace.v ===== *)
(** * Sequences of scheduler calls

    The abstract scheduler as a step relation, and the refinement: whatever
    sequence of [sched_yield] and [pthread_create] calls the cores make, none
    leaves the live tasks, each does what the abstract scheduler does, and no
    thread that can run is lost. *)

From stdpp Require Import functions.
From S2P Require Import Prelude Dll HeapApi Sched SchedQueues SchedYield SchedCreate SchedInit SchedSpec.

Module SchedTrace.
Import Sched SchedQueues SchedYield SchedCreate SchedInit SchedSpec.

(** ** The abstract scheduler *)

(** The queues, the task each core runs (0 for a core not started), and the
    priorities of the threads there are. *)
Record spec := Spec {
  sq : queues;
  sruns : list Z;
  sprio : gmap Z Z;
}.

Inductive sop :=
| Yield (cpu : nat) (regs : cpu_context)
| Create (attr : option pthread_attr_t) (start_routine arg : Z).

Section Trace.
Context {A : Type} {HA : HeapApi A} (idle_flag ret_from_fork : Z).
Abbreviation sched := (@sched A).

(** A creation may fail; a thread of idle priority is in no queue. *)
Inductive spec_step : spec -> sop -> spec -> Prop :=
| step_yield Q run pr cpu regs c p Q' n :
    run !! cpu = Some c -> pr !! c = Some p ->
    spec_yield Q c p (negb (p =? IDLE)) = (Q', n) ->
    spec_step (Spec Q run pr) (Yield cpu regs) (Spec Q' (<[cpu := n]> run) pr)
| step_create Q run pr attr start_routine arg t p :
    p = prio_of idle_flag attr arg -> t <> 0 -> pr !! t = None ->
    spec_step (Spec Q run pr) (Create attr start_routine arg)
      (Spec (if p =? IDLE then Q else <[p := Q p ++ [t]]> Q) run (<[t := p]> pr))
| step_refused Q run pr attr start_routine arg :
    spec_step (Spec Q run pr) (Create attr start_routine arg) (Spec Q run pr).

Inductive spec_run : spec -> list sop -> spec -> Prop :=
| spec_run_nil σ : spec_run σ [] σ
| spec_run_cons σ o σ' os σ'' : spec_step σ o σ' -> spec_run σ' os σ'' -> spec_run σ (o :: os) σ''.

(** ** The calls *)

Definition exec_call (o : sop) : @M A () :=
  match o with
  | Yield cpu regs => sched_yield cpu regs;; mret ()
  | Create attr start_routine arg => pthread_create idle_flag ret_from_fork attr start_routine arg;; mret ()
  end.

Fixpoint exec_calls (os : list sop) : @M A () :=
  match os with [] => mret () | o :: os => exec_call o;; exec_calls os end.

(** Only a core that runs a task yields; an attribute object holds a priority
    the setters accept. *)
Definition call_ok (run : list Z) (o : sop) : Prop :=
  match o with
  | Yield cpu _ => exists c, run !! cpu = Some c /\ c <> 0
  | Create attr _ arg => 0 <= stack_size attr < 2 ^ 64 /\ 0 <= prio_of idle_flag attr arg < COUNT
  end.

(** ** The refinement *)

Record sched_refines (s : sched) (σ : spec) : Prop := {
  rf_inv : sched_inv s (sq σ);
  rf_cores : task <$> cores s = sruns σ;
  rf_prio : forall t p, sprio σ !! t = Some p -> t ∈ alive s /\ t <> 0 /\ priority (tasks s t) = p;
  rf_run : forall c, c ∈ sruns σ -> c <> 0 -> state (tasks s c) = TASK_RUNNING /\ is_Some (sprio σ !! c);
  rf_queue : forall p t, 0 <= p < COUNT -> t ∈ sq σ p -> is_Some (sprio σ !! t);
  rf_ready : forall t p, sprio σ !! t = Some p -> p <> IDLE -> t ∈ sq σ p \/ t ∈ sruns σ;
}.

Lemma spec_yield_elems Q c p r :
  let '(Q', n) := spec_yield Q c p r in
  (n = c \/ exists h, 0 <= h < COUNT /\ n ∈ requeue Q c p r h) /\
  (forall h t, t ∈ Q' h -> t ∈ requeue Q c p r h) /\
  (forall h t, t ∈ requeue Q c p r h -> t = n \/ t ∈ Q' h).
Proof.
  unfold spec_yield. pose proof (top_spec (requeue Q c p r)) as Ht.
  destruct (top (requeue Q c p r)) as [h|]; [|by split_and!; [left|..|right]].
  destruct Ht as (Hh & _ & _). destruct (requeue Q c p r h) as [|n q] eqn:E; [by split_and!; [left|..|right]|].
  split_and!.
  - right. exists h. split; [done|]. rewrite E. left.
  - intros h' t. destruct (decide (h' = h)) as [->|Hne]; [|by rewrite fn_lookup_insert_ne].
    rewrite fn_lookup_insert, E. by right.
  - intros h' t. destruct (decide (h' = h)) as [->|Hne]; [|rewrite fn_lookup_insert_ne by done; by right].
    rewrite fn_lookup_insert, E. intros [->|?]%elem_of_cons; [by left|by right].
Qed.

Lemma yield_refines (s : sched) σ cpu regs :
  sched_refines s σ -> call_ok (sruns σ) (Yield cpu regs) ->
  exists s' σ', exec_call (Yield cpu regs) s = inr ((), s') /\ spec_step σ (Yield cpu regs) σ' /\ sched_refines s' σ' /\
    exists c n, sruns σ' = <[cpu := n]> (sruns σ) /\ n <> 0 /\ sruns σ !! cpu = Some c.
Proof.
  intros [Hinv Hcs Hpr Hrun Hq Hrd] (c & Hc & Hc0). destruct σ as [Q run pr]. cbn [sq sruns sprio] in *.
  assert (Hcin : c ∈ run) by (by eapply list_elem_of_lookup_2).
  destruct (Hrun c Hcin Hc0) as [Hst [p Hp]]. destruct (Hpr c p Hp) as (Hal & _ & Hpc).
  assert (Hco : exists co, cores s !! cpu = Some co /\ task co = c).
  { rewrite <- Hcs, list_lookup_fmap in Hc. destruct (cores s !! cpu) as [co|]; [|done]. exists co. by injection Hc. }
  destruct Hco as (co & Hco & Ec). pose proof (yield_ok s Q cpu co regs Hinv Hco) as H. rewrite Ec in H.
  specialize (H Hc0 (or_introl Hst)). cbv zeta in H.
  assert (Hr : runs (tasks s c) = negb (p =? IDLE)) by (unfold runs; by rewrite bool_decide_true, Hpc).
  rewrite Hr, Hpc in H. pose proof (spec_yield_elems Q c p (negb (p =? IDLE))) as Hel.
  destruct (spec_yield Q c p (negb (p =? IDLE))) as [Q' n] eqn:Esp. destruct Hel as (Hn & Hsub & Hkeep).
  destruct H as (s' & E & Hinv' & Hcs' & Hal' & _ & _ & Htk & Hn0).
  assert (Hdom : forall h t, 0 <= h < COUNT -> t ∈ requeue Q c p (negb (p =? IDLE)) h -> is_Some (pr !! t)).
  { intros h t Hh [?|[-> _]]%requeue_elem; [by eapply Hq|by eexists]. }
  assert (Hview := fun t => task_after _ _ _ _ _ _ _ (Htk t)).
  pose proof (lookup_lt_Some _ _ _ Hc) as Hlt.
  exists s', (Spec Q' (<[cpu := n]> run) pr). split; [by (cbn [exec_call]; erewrite bind_ok by exact E)|].
  split; [by apply (step_yield Q run pr cpu regs c p)|]. split; [|by exists c, n].
  split; cbn [sq sruns sprio].
  - exact Hinv'.
  - by rewrite Hcs', list_fmap_insert, Hcs.
  - intros t q Ht. destruct (Hview t) as (-> & _). rewrite Hal'. by apply Hpr.
  - intros x Hx Hx0. destruct (decide (x = n)) as [->|Hne].
    + split; [by apply Hview|]. destruct Hn as [->|(h & Hh & Hn)]; [by eexists|by eapply Hdom].
    + apply list_elem_of_lookup in Hx as [j Hj]. apply list_lookup_insert_Some in Hj as [(_ & ? & _)|[Hj Hx]]; [done|].
      assert (Hxc : x <> c).
      { rewrite <- Hcs, list_lookup_fmap in Hx. destruct (cores s !! j) as [d|] eqn:Ed; [|done]. injection Hx as <-.
        rewrite <- Ec. by apply (si_apart _ _ Hinv j cpu d co). }
      destruct (Hview x) as (_ & _ & ->); [|done..]. apply Hrun; [by eapply list_elem_of_lookup_2|done].
  - intros h t Hh Ht%Hsub. by eapply Hdom.
  - intros t q Ht Hq0. destruct (Hrd t q Ht Hq0) as [Hin|Hin].
    + destruct (Hkeep q t) as [->|?]; [|right; by apply list_elem_of_insert|by left].
      unfold requeue. destruct (negb (p =? IDLE)); [|done]. destruct (decide (q = p)) as [->|Hne].
      * rewrite fn_lookup_insert. apply elem_of_app. by left.
      * by rewrite fn_lookup_insert_ne.
    + apply list_elem_of_lookup in Hin as [j Hj]. destruct (decide (j = cpu)) as [->|Hne].
      * assert (t = c) as -> by congruence. assert (q = p) as -> by congruence.
        destruct (Hkeep p c) as [->|?]; [|right; by apply list_elem_of_insert|by left].
        unfold requeue. assert (Ep : negb (p =? IDLE) = true) by lia. rewrite Ep, fn_lookup_insert.
        apply elem_of_app. right. by apply list_elem_of_singleton.
      * right. apply (list_elem_of_lookup_2 _ j). by rewrite list_lookup_insert_ne.
Qed.

Lemma create_refines (s : sched) σ attr start_routine arg :
  let o := Create attr start_routine arg in
  sched_refines s σ -> call_ok (sruns σ) o ->
  exists s' σ', exec_call o s = inr ((), s') /\ spec_step σ o σ' /\ sched_refines s' σ' /\ sruns σ' = sruns σ.
Proof.
  intros o [Hinv Hcs Hpr Hrun Hq Hrd] [Hsz Hp]. subst o. destruct σ as [Q run pr]. cbn [sq sruns sprio] in *.
  destruct (create_ok idle_flag ret_from_fork s Q attr start_routine arg Hinv Hsz Hp) as (res & s' & E & Ecs & Hres).
  exists s'. destruct Hres as [(-> & Hinv' & Hsame)|(t & pg & fp & -> & Hcr)].
  - exists (Spec Q run pr). split; [by (cbn [exec_call]; erewrite bind_ok by exact E)|]. split; [constructor|].
    split; [|done]. split; cbn [sq sruns sprio]; [done|by rewrite Ecs| | |done|done].
    + intros u q Hu. destruct (Hpr u q Hu) as (H1 & H2 & H3). by destruct (Hsame u H1) as [? ->].
    + intros u Hu H0. destruct (Hrun u Hu H0) as [H1 [q H2]]. destruct (Hpr u q H2) as (H3 & _).
      by destruct (Hsame u H3) as [_ ->].
  - destruct Hcr as [K1 K2 K3 K4 K5 K6 K7 K8 K9]. set (p := prio_of idle_flag attr arg) in *.
    assert (Hnew : pr !! t = None).
    { destruct (pr !! t) as [q|] eqn:Et; [|done]. by destruct (Hpr t q Et) as [? _]. }
    assert (Hal : forall u, u ∈ alive s -> u ∈ alive s') by (intros u Hu; rewrite K2; apply elem_of_union; by right).
    assert (Ht : t ∈ alive s') by (rewrite K2, !elem_of_union, elem_of_singleton; tauto).
    assert (Ht0 : t <> 0) by (pose proof (alive_pointer s' _ t K8 Ht) as Hv; unfold pointer in Hv; lia).
    assert (Hold : forall u q, pr !! u = Some q -> priority (tasks s' u) = priority (tasks s u) /\
              state (tasks s' u) = state (tasks s u) /\ u <> t).
    { intros u q Hu. destruct (Hpr u q Hu) as (H1 & _). split_and!; [exact (f_equal priority (K6 u H1))|exact (f_equal state (K6 u H1))|].
      intros ->. by rewrite Hu in Hnew. }
    exists (Spec (if p =? IDLE then Q else <[p := Q p ++ [t]]> Q) run (<[t := p]> pr)).
    split; [by (cbn [exec_call]; erewrite bind_ok by exact E)|]. split; [by constructor|]. split; [|done].
    split; cbn [sq sruns sprio]; [done|by rewrite Ecs| | | |].
    + intros u q. rewrite lookup_insert_Some. intros [[<- <-]|[Hne Hu]].
      * split_and!; [done|done|exact (f_equal priority K5)].
      * destruct (Hold u q Hu) as (-> & _). destruct (Hpr u q Hu) as (? & ? & ?). auto.
    + intros c Hc Hc0. destruct (Hrun c Hc Hc0) as [H1 [q H2]]. destruct (Hold c q H2) as (_ & -> & Hne).
      split; [done|]. rewrite lookup_insert_ne by done. by eexists.
    + intros h u Hh Hu. destruct (decide (u = t)) as [->|Hne]; [rewrite lookup_insert_eq; by eexists|].
      rewrite lookup_insert_ne by done. apply (Hq h u Hh). destruct (p =? IDLE); [done|].
      destruct (decide (h = p)) as [->|Hhp]; [|by rewrite fn_lookup_insert_ne in Hu].
      rewrite fn_lookup_insert in Hu. by apply elem_of_app in Hu as [?|?%list_elem_of_singleton].
    + intros u q. rewrite lookup_insert_Some. intros [[<- <-]|[Hne Hu]] Hq0.
      * left. destruct (p =? IDLE) eqn:Ep; [lia|]. rewrite fn_lookup_insert. apply elem_of_app. right. by apply list_elem_of_singleton.
      * destruct (Hrd u q Hu Hq0) as [Hin|?]; [left|by right]. destruct (p =? IDLE); [done|].
        destruct (decide (q = p)) as [->|Hqp]; [|by rewrite fn_lookup_insert_ne].
        rewrite fn_lookup_insert. apply elem_of_app. by left.
Qed.

(** One call, after which the cores that ran a task still do. *)
Lemma call_refines o (s : sched) σ : sched_refines s σ -> call_ok (sruns σ) o ->
  exists s1 σ1, exec_call o s = inr ((), s1) /\ spec_step σ o σ1 /\ sched_refines s1 σ1 /\
    forall o', call_ok (sruns σ) o' -> call_ok (sruns σ1) o'.
Proof.
  intros Hr Ho. destruct o as [cpu regs|attr st arg].
  - destruct (yield_refines s σ cpu regs Hr Ho) as (s1 & σ1 & E & Hs & Hr1 & c & n & Hrun & Hn0 & Hc).
    exists s1, σ1. split_and!; try done. intros [cpu' regs'|]; [|done].
    intros (c' & Hc' & Hc0'). rewrite Hrun. destruct (decide (cpu' = cpu)) as [->|Hne].
    + exists n. split; [|done]. apply list_lookup_insert_eq. by eapply lookup_lt_Some.
    + exists c'. by rewrite list_lookup_insert_ne.
  - destruct (create_refines s σ attr st arg Hr Ho) as (s1 & σ1 & E & Hs & Hr1 & Hrun).
    exists s1, σ1. split_and!; try done. by rewrite Hrun.
Qed.

Lemma trace_ok os : forall (s : sched) σ,
  sched_refines s σ -> Forall (call_ok (sruns σ)) os ->
  exists s' σ', exec_calls os s = inr ((), s') /\ spec_run σ os σ' /\ sched_refines s' σ'.
Proof.
  induction os as [|o os IH]; intros s σ Hr Hok; [exists s, σ; split; [done|split; [constructor|done]]|].
  inversion Hok as [|o' os' Ho Hos]; subst. destruct (call_refines o s σ Hr Ho) as (s1 & σ1 & E & Hs & Hr1 & Hk).
  destruct (IH s1 σ1 Hr1) as (s2 & σ2 & E2 & Hs2 & Hr2); [by eapply list.Forall_impl|].
  exists s2, σ2. split; [|split; [by eapply spec_run_cons|done]].
  cbn [exec_calls]. by erewrite bind_ok by exact E.
Qed.

(** C15 Whatever sequence of [sched_yield] and [pthread_create] the cores make,
    no call reads or writes a task that is not live, the abstract scheduler can
    make the same steps, and the two agree at the end: in particular every
    thread of more than idle priority is in the queue of its priority or on a
    core. *)
Theorem sched_trace_refines os (s : sched) σ :
  sched_refines s σ -> Forall (call_ok (sruns σ)) os ->
  exists s' σ', exec_calls os s = inr ((), s') /\ spec_run σ os σ' /\ sched_refines s' σ' /\
    forall t p, sprio σ' !! t = Some p -> p <> IDLE -> t ∈ sq σ' p \/ exists cpu, runs_on s' cpu t.
Proof.
  intros Hr Hos. destruct (trace_ok os s σ Hr Hos) as (s' & σ' & E & Hrun & Hr'). exists s', σ'.
  split_and!; try done. intros t p Ht Hp. destruct (rf_ready _ _ Hr' t p Ht Hp) as [?|Hin]; [by left|right].
  rewrite <- (rf_cores _ _ Hr') in Hin. apply list_elem_of_lookup in Hin as [cpu Hc]. exists cpu.
  rewrite list_lookup_fmap in Hc. destruct (cores s' !! cpu) as [co|] eqn:Eco; [|done]. exists co. by injection Hc.
Qed.

(** ** From the start *)

(** The invariant [sched_init] establishes, in the abstract scheduler's terms. *)
Definition boot_spec (main idler : Z) : spec := Spec no_queues [main; 0] {[main := NORMAL; idler := IDLE]}.

Lemma started_refines (s s' : sched) main idler : started s main idler s' -> sched_refines s' (boot_spec main idler).
Proof.
  intros [H1 H2 (H3 & H4 & H5 & H6 & H7) H8 H9 ((H10 & _ & _) & H11 & H12) H13].
  pose proof (alive_pointer s' _ idler H1 H10) as Hv. unfold pointer in Hv.
  split; cbn [sq sruns sprio boot_spec].
  - done.
  - by rewrite H2.
  - intros t p. rewrite lookup_insert_Some. intros [[<- <-]|[Hne Ht]]; [by rewrite H9|].
    apply lookup_singleton_Some in Ht as [<- <-]. split_and!; [done|lia|done].
  - intros c [->|Hc]%elem_of_cons Hc0; [|by apply list_elem_of_singleton in Hc].
    rewrite H9, lookup_insert_eq. split; [done|by eexists].
  - intros p t _ Ht. by apply not_elem_of_nil in Ht.
  - intros t p. rewrite lookup_insert_Some. intros [[<- <-]|[Hne Ht]] Hp; [right; left|].
    by apply lookup_singleton_Some in Ht as [<- <-].
Qed.

(** The second core joins: it runs a task of idle priority, and there is a
    thread of idle priority that no queue and no core has. *)
Definition joined_spec (σ : spec) (cpu : nat) (m idler : Z) : spec :=
  Spec (sq σ) (<[cpu := m]> (sruns σ)) (<[m := IDLE]> (<[idler := IDLE]> (sprio σ))).

Lemma joined_refines (s s' : sched) σ cpu m idler : sched_refines s σ -> sruns σ !! cpu = Some 0 ->
  joined s (sq σ) cpu m idler s' -> sched_refines s' (joined_spec σ cpu m idler).
Proof.
  intros [R1 R2 R3 R4 R5 R6] Hcpu [J1 J2 (J3 & J4 & J5 & J6) J7 [(J8 & _) J9] J10].
  pose proof (lookup_lt_Some _ _ _ Hcpu) as Hlt. rewrite <- R2, length_fmap in Hlt.
  assert (Hm : m ∈ alive s').
  { apply (ck_task _ _ _ (si_core _ _ J1 cpu (Core (Z.of_nat cpu) m 0) ltac:(rewrite J2; by apply list_lookup_insert_eq)) J3). }
  pose proof (alive_pointer s' _ idler J1 J8) as Hv. unfold pointer in Hv.
  assert (Hold : forall t, is_Some (sprio σ !! t) -> t <> m /\ t <> idler /\ state (tasks s' t) = state (tasks s t)).
  { intros t [p Ht]. destruct (R3 t p Ht) as (Hal & _). destruct (J10 t Hal) as [_ Hu].
    split_and!; [by intros ->|by intros ->|exact (f_equal state Hu)]. }
  split; cbn [sq sruns sprio joined_spec].
  - exact J1.
  - by rewrite J2, list_fmap_insert, R2.
  - intros t p. rewrite !lookup_insert_Some. intros [[<- <-]|[_ [[<- <-]|[_ Ht]]]].
    + by rewrite J7.
    + split_and!; [done|lia|done].
    + destruct (R3 t p Ht) as (Hal & H0 & Hp). destruct (J10 t Hal) as [? Hu]. split_and!; [done|done|].
      rewrite <- Hp. exact (f_equal priority Hu).
  - intros c Hc Hc0. apply list_elem_of_lookup in Hc as [k Hk]. apply list_lookup_insert_Some in Hk as [(_ & <- & _)|[_ Hk]].
    + rewrite J7, lookup_insert_eq. split; [done|by eexists].
    + destruct (R4 c (list_elem_of_lookup_2 _ _ _ Hk) Hc0) as [Hst Hp]. destruct (Hold c Hp) as (H1 & H2 & ->).
      by rewrite !lookup_insert_ne by done.
  - intros p t Hp Ht. pose proof (R5 p t Hp Ht) as Hs. destruct (Hold t Hs) as (H1 & H2 & _). by rewrite !lookup_insert_ne by done.
  - intros t p. rewrite !lookup_insert_Some. intros [[<- <-]|[_ [[<- <-]|[_ Ht]]]] Hp; [done|done|].
    destruct (R6 t p Ht Hp) as [?|Hin]; [by left|right]. apply list_elem_of_lookup in Hin as [k Hk].
    destruct (R3 t p Ht) as (_ & H0 & _). assert (k <> cpu) by (intros ->; congruence).
    apply (list_elem_of_lookup_2 _ k). by rewrite list_lookup_insert_ne.
Qed.

(** [sched_init] on the boot state either stops on the null pointer of a
    failed allocation it does not test, or leaves a scheduler in order: empty
    queues, core 0 running the caller as the main task at NORMAL priority, and
    an idle thread that no queue and no core has. *)
Theorem sched_init_refines idle (s : sched) :
  statics s ->
  match sched_init idle idle_flag ret_from_fork s with
  | inl e => e = BadAccess 0
  | inr (_, s') => exists main idler, sched_refines s' (boot_spec main idler) /\ main <> idler /\
      tasks s' main = main_fields (u64 (tid_counter s + 1))
  end.
Proof.
  intros Hs. pose proof (sched_init_ok idle idle_flag ret_from_fork s Hs) as H.
  destruct (sched_init idle idle_flag ret_from_fork s) as [e|[[] s']]; [exact H|]. destruct H as (main & idler & H).
  exists main, idler. split; [by apply (started_refines s)|]. destruct H. split; [by intros ->; tauto|done].
Qed.

(** [sched_init_secondary] starts another core beside a scheduler at work:
    the core runs a new task of idle priority, and neither the queues nor the
    threads there are change. *)
Theorem sched_init_secondary_refines idle (s : sched) σ cpu :
  sched_refines s σ -> 0 <= cpu < Z.of_nat MAX_CPUS -> sruns σ !! Z.to_nat cpu = Some 0 ->
  match sched_init_secondary idle idle_flag ret_from_fork cpu s with
  | inl e => e = BadAccess 0
  | inr (_, s') => exists m idler, m <> 0 /\ sprio σ !! m = None /\ sprio σ !! idler = None /\ idler <> m /\
      sched_refines s' (Spec (sq σ) (<[Z.to_nat cpu := m]> (sruns σ)) (<[m := IDLE]> (<[idler := IDLE]> (sprio σ))))
  end.
Proof.
  intros [Hinv Hcs Hpr Hrun Hq Hrd] Hcpu Hc. pose proof Hc as Hc'. rewrite <- Hcs, list_lookup_fmap in Hc'.
  destruct (cores s !! Z.to_nat cpu) as [co|] eqn:Hco; [|done].
  pose proof (sched_init_secondary_ok idle idle_flag ret_from_fork s (sq σ) cpu co Hinv Hcpu Hco) as H.
  destruct (sched_init_secondary idle idle_flag ret_from_fork cpu s) as [e|[[] s']]; [exact H|].
  destruct H as (m & idler & [J1 J2 (J3 & J4 & J5 & J6) J7 [(J8 & _ & _) J9] J10]).
  assert (Hnew : forall t, t ∉ alive s -> sprio σ !! t = None).
  { intros t Ht. destruct (sprio σ !! t) as [q|] eqn:E; [|done]. by destruct (Hpr t q E) as [? _]. }
  pose proof (alive_pointer s' _ idler J1 J8) as Hv. unfold pointer in Hv.
  pose proof (lookup_lt_Some _ _ _ Hco) as Hlt.
  assert (Hm : m ∈ alive s').
  { destruct (si_core _ _ J1 (Z.to_nat cpu) (Core (Z.of_nat (Z.to_nat cpu)) m 0)) as [_ _ Hk]; [rewrite J2; by apply list_lookup_insert_eq|].
    by apply Hk. }
  assert (Hold : forall t q, sprio σ !! t = Some q -> t <> m /\ t <> idler).
  { intros t q Ht. split; intros ->; by rewrite Hnew in Ht. }
  exists m, idler. split_and!; [done|by apply Hnew|by apply Hnew|done|]. split; cbn [sq sruns sprio].
  - done.
  - by rewrite J2, list_fmap_insert, Hcs.
  - intros t q. rewrite !lookup_insert_Some. intros [[<- <-]|[_ [[<- <-]|[_ Ht]]]].
    + by rewrite J7.
    + split_and!; [done|lia|done].
    + destruct (Hpr t q Ht) as (H1 & H2 & H3). destruct (J10 t H1) as [H4 H5]. split_and!; [done|done|].
      rewrite <- H3. exact (f_equal priority H5).
  - intros c Hc1 Hc0. destruct (decide (c = m)) as [->|Hne].
    + rewrite J7, lookup_insert_eq. split; [done|by eexists].
    + apply list_elem_of_lookup in Hc1 as [j Hj]. apply list_lookup_insert_Some in Hj as [(_ & ? & _)|[_ Hj]]; [done|].
      destruct (Hrun c) as [H1 [q H2]]; [by eapply list_elem_of_lookup_2|done|].
      destruct (Hpr c q H2) as (H3 & _). destruct (J10 c H3) as [_ H5]. destruct (Hold c q H2).
      rewrite !lookup_insert_ne by done. split; [rewrite <- H1; exact (f_equal state H5)|by eexists].
  - intros p t Hp Ht. destruct (Hq p t Hp Ht) as [q Hq']. destruct (Hold t q Hq').
    rewrite !lookup_insert_ne by done. by eexists.
  - intros t q. rewrite !lookup_insert_Some. intros [[<- <-]|[_ [[<- <-]|[_ Ht]]]] Hq0; [done|done|].
    destruct (Hrd t q Ht Hq0) as [?|Hin]; [by left|right]. destruct (Hpr t q Ht) as (_ & Ht0 & _).
    apply list_elem_of_lookup in Hin as [j Hj]. apply (list_elem_of_lookup_2 _ j).
    rewrite list_lookup_insert_ne; [done|]. congruence.
Qed.

(** A thread of idle priority that is in no queue and on no core. *)
Definition forgotten (σ : spec) (t : Z) : Prop :=
  sprio σ !! t = Some IDLE /\ (forall p, t ∉ sq σ p) /\ t ∉ sruns σ.

Lemma forgotten_step σ o σ' t : spec_step σ o σ' -> forgotten σ t -> forgotten σ' t.
Proof.
  intros Hs (Hp & Hq & Hr). unfold forgotten.
  inversion Hs as [Q run pr cpu regs c p Q' n Hc Hpc Hy|Q run pr attr st arg t' p Ep Ht0 Hnew|Q run pr attr st arg];
    subst; cbn [sq sruns sprio] in *; [| |done].
  - pose proof (spec_yield_elems Q c p (negb (p =? IDLE))) as Hel. rewrite Hy in Hel. destruct Hel as (Hn & Hsub & _).
    assert (Hre : forall h, t ∉ requeue Q c p (negb (p =? IDLE)) h).
    { intros h [?|[-> _]]%requeue_elem; [by apply (Hq h)|]. apply Hr. by eapply list_elem_of_lookup_2. }
    split; [done|]. split; [by intros h Ht%Hsub; apply (Hre h)|].
    intros [j Hj]%list_elem_of_lookup. apply list_lookup_insert_Some in Hj as [(_ & <- & _)|[_ Hj]].
    + destruct Hn as [->|(h & _ & Hn)]; [apply Hr; by eapply list_elem_of_lookup_2|by apply (Hre h)].
    + apply Hr. by eapply list_elem_of_lookup_2.
  - assert (Hne : t <> t') by (by intros ->; rewrite Hnew in Hp).
    split; [by rewrite lookup_insert_ne|]. split; [|done]. intros h Ht. destruct (_ =? IDLE); [by apply (Hq h)|].
    destruct (decide (h = prio_of idle_flag attr arg)) as [->|Hh]; [|rewrite fn_lookup_insert_ne in Ht by done; by apply (Hq h)].
    rewrite fn_lookup_insert in Ht. apply elem_of_app in Ht as [Ht| ->%list_elem_of_singleton]; [by eapply Hq|done].
Qed.

Lemma forgotten_run σ os σ' t : spec_run σ os σ' -> forgotten σ t -> forgotten σ' t.
Proof. induction 1 as [|? ? ? ? ? Hs _ IH]; [done|]. intros H. by eapply IH, forgotten_step. Qed.

(** The idle thread [sched_init] creates never runs: its only pointer,
    [cores[0].task], is overwritten by [current_task = main_task], and no
    sequence of calls brings it back. *)
Theorem idle_thread_never_runs idle (s s0 : sched) os :
  statics s -> sched_init idle idle_flag ret_from_fork s = inr ((), s0) ->
  (forall main, main <> 0 -> Forall (call_ok [main; 0]) os) ->
  exists idler s', exec_calls os s0 = inr ((), s') /\ idler ∈ alive s' /\ priority (tasks s' idler) = IDLE /\
    forall cpu, ~ runs_on s' cpu idler.
Proof.
  intros Hs Hi Hos. pose proof (sched_init_ok idle idle_flag ret_from_fork s Hs) as H. rewrite Hi in H.
  destruct H as (main & idler & H). pose proof (started_refines s s0 main idler H) as Hr.
  pose proof (alive_pointer s0 _ idler (sd_inv _ _ _ _ H) (proj1 (proj1 (sd_idle _ _ _ _ H)))) as Hv.
  destruct H as [_ _ (Hm0 & Hne & _) _ _ _ _]. unfold pointer in Hv.
  destruct (trace_ok os s0 (boot_spec main idler) Hr (Hos main Hm0)) as (s' & σ' & E & Hrun & Hr').
  assert (Hf : forgotten (boot_spec main idler) idler).
  { split; [|split]; cbn [boot_spec sprio sq sruns].
    - rewrite lookup_insert_ne by done. apply lookup_singleton_eq.
    - intros p. apply not_elem_of_nil.
    - rewrite !not_elem_of_cons. split_and!; [done|lia|apply not_elem_of_nil]. }
  destruct (forgotten_run _ _ _ _ Hrun Hf) as (Hq & _ & Hnr).
  destruct (rf_prio _ _ Hr' idler IDLE Hq) as (Ha & _ & Hp). exists idler, s'. split_and!; [done|done|done|].
  intros cpu (co & Hco & Ec). apply Hnr. rewrite <- (rf_cores _ _ Hr'), <- Ec.
  apply (list_elem_of_lookup_2 _ cpu). by rewrite list_lookup_fmap, Hco.
Qed.
End Trace.
End SchedTrace.
