(* ===== verification/SchedBoot.v ===== *)
(** * [sched_init] with room in the heap

    A heap with ten free pages at its end is enough: every request is served,
    so [sched_init] does not stop. *)

From stdpp Require Import functions.
From S2P Require Import Prelude Dll HeapApi Sched SchedQueues SchedYield SchedCreate SchedInit.

Module SchedBoot.
Import Sched SchedQueues SchedYield SchedCreate SchedInit.

Section Boot.
Context {A : Type} {HA : HeapApi A} (idle idle_flag ret_from_fork : Z).
Abbreviation sched := (@sched A).
Abbreviation pages := Malloc.Malloc.pages_needed.

(** The heap is in order and its last [n] pages are free. *)
Definition roomy (n : Z) (s : sched) : Prop := heap_ok s /\ ha_room (heap s) n.

Lemma malloc_roomy (s : sched) n size : roomy n s -> 0 < size < 2 ^ 64 -> pages size <= n ->
  exists r s', malloc size s = inr (r, s') /\ (r =? 0) = false /\ r ∈ alive s' /\ (forall u, u ∈ alive s -> u ∈ alive s') /\
    tasks s' = tasks s /\ cores s' = cores s /\ roomy (n - pages size) s'.
Proof.
  intros [Hh Hr] Hs Hn. destruct (malloc_heap s size Hh ltac:(lia)) as (r & a & l & E & Hh' & Hal).
  pose proof Hh as (B & HB & _). pose proof (ha_room_spec (heap s) B n size HB Hr Hs Hn) as H.
  assert (Ea : ha_malloc (heap s) size = (r, a)).
  { unfold malloc in E. destruct (ha_malloc (heap s) size) as [r0 a0]. by injection E as -> _ ->. }
  rewrite Ea in H. destruct H as [Hnz Hroom].
  exists r, (with_heap l a s). split; [done|]. split; [by apply Z.eqb_neq|]. split_and!; try done.
  - destruct Hal as [[? _]|(_ & _ & ->)]; [done|]. cbn [alive with_heap]. apply elem_of_union. left. by apply elem_of_singleton.
  - intros u Hu. destruct Hal as [[? _]|(_ & _ & ->)]; [done|]. cbn [alive with_heap]. apply elem_of_union. by right.
Qed.

Lemma fill_roomy (s : sched) n arg t : roomy n s -> t ∈ alive s ->
  exists s', fill idle_flag None arg t s = inr ((), s') /\ roomy n s' /\ t ∈ alive s' /\ cores s' = cores s /\
    priority (tasks s' t) = prio_of idle_flag None arg.
Proof.
  intros Hr Ht. eexists. split.
  { unfold fill. erewrite bind_ok by done. erewrite bind_ok by done. do 4 (erewrite bind_ok by (by apply upd_ok)). by apply upd_ok. }
  split_and!; try done. cbn [tasks with_tasks]. by rewrite !fn_lookup_insert.
Qed.

(** The creation of the idle thread: a task and two stacks. *)
Lemma create_idle_roomy (s : sched) n : roomy n s -> 9 <= n ->
  exists t s', pthread_create idle_flag ret_from_fork None idle idle_flag s = inr ((0, Some t), s') /\
    t ∈ alive s' /\ cores s' = cores s /\ roomy (n - 9) s'.
Proof.
  intros Hr Hn. rewrite pthread_create_eq.
  destruct (malloc_roomy s n sizeof_task Hr ltac:(by vm_compute)) as (t & s1 & E1 & Ht & A1 & _ & _ & C1 & R1); [change (pages sizeof_task) with 1; lia|].
  erewrite bind_ok by exact E1. rewrite Ht. erewrite bind_ok by (by apply upd_ok).
  change (stack_for None) with (malloc (A := A) (4096 * 4)). change (pages sizeof_task) with 1 in R1.
  destruct (malloc_roomy (put s1 t (fun _ => zero_task)) (n - 1) (4096 * 4) R1 ltac:(lia)) as (p1 & s3 & E3 & Hp1 & _ & M3 & _ & C3 & R3).
  { change (pages (4096 * 4)) with 4. lia. }
  assert (A3 : t ∈ alive s3) by by apply M3. change (pages (4096 * 4)) with 4 in R3.
  erewrite bind_ok by exact E3. erewrite bind_ok by (by apply upd_ok). rewrite Hp1. cbn beta iota.
  destruct (fill_roomy (put s3 t (with_stack_page p1)) (n - 1 - 4) idle_flag t R3 A3) as (s5 & E5 & R5 & A5 & C5 & P5).
  erewrite bind_ok by exact E5.
  destruct (malloc_roomy s5 (n - 1 - 4) (4096 * 4) R5 ltac:(lia)) as (p2 & s6 & E6 & Hp2 & _ & M6 & T6 & C6 & R6).
  { change (pages (4096 * 4)) with 4. lia. }
  erewrite bind_ok by exact E6. pose proof (M6 t A5) as A6. erewrite bind_ok by (by apply upd_ok). rewrite Hp2. cbn beta iota.
  unfold launch. erewrite bind_ok by (by apply upd_ok). erewrite bind_ok by (by apply get_ok).
  cbn [tasks with_tasks]. rewrite !fn_lookup_insert. change (priority _) with (priority (tasks s6 t)).
  rewrite T6, P5. unfold prio_of. rewrite Z.eqb_refl. cbn [negb Z.eqb IDLE]. erewrite bind_ok by done.
  eexists t, _. split; [done|]. change (pages (4096 * 4)) with 4 in R6. replace (n - 9) with (n - 1 - 4 - 4) by lia.
  split; [exact A6|]. split; [|exact R6]. cbn [cores with_tasks]. rewrite C6, C5. cbn [cores put with_tasks]. rewrite C3. exact C1.
Qed.

Lemma adopt_main_roomy (s : sched) n cpu co : roomy n s -> 1 <= n -> cores s !! cpu = Some co ->
  exists s', adopt_main cpu s = inr ((), s') /\ roomy (n - 1) s'.
Proof.
  intros Hr Hn Hco. unfold adopt_main, new_task.
  destruct (malloc_roomy s n sizeof_task Hr ltac:(by vm_compute)) as (m & s1 & E1 & _ & A1 & _ & _ & C1 & R1);
    [change (pages sizeof_task) with 1; lia|].
  eexists. rewrite bind_assoc. erewrite bind_ok by exact E1. rewrite bind_assoc. erewrite bind_ok by (by apply upd_ok). erewrite bind_ok by done.
  erewrite bind_ok by done. erewrite bind_ok by done. do 3 (erewrite bind_ok by (by apply upd_ok)).
  split; [apply core_set with (c := co); cbn [cores with_tasks with_tid]; by rewrite C1|exact R1].
Qed.

(** [sched_init] to the end: the caller gets a task too. *)
Lemma sched_init_roomy (s : sched) n : statics s -> ha_room (heap s) n -> 10 <= n ->
  exists main idler s', sched_init idle idle_flag ret_from_fork s = inr ((), s') /\
    started s main idler s' /\ roomy (n - 10) s'.
Proof.
  intros Hs Hr Hn. pose proof (sched_init_ok idle idle_flag ret_from_fork s Hs) as Hok.
  rewrite sched_init_eq in * by apply Hs. unfold init_tail in *.
  destruct (create_idle_roomy (cleared s) n) as (t & s1 & E1 & _ & C1 & R1); [split; [exact (bs_heap _ Hs)|exact Hr]|lia|].
  erewrite bind_ok in * by exact E1. cbn beta iota in *. rewrite (bind_ok _ _ s1 s1 t) in * by done.
  erewrite bind_ok in * by (by apply core_set with (c := Core 0 0 0); rewrite C1).
  set (s2 := with_cores _ s1) in *. assert (R2 : roomy (n - 9) s2) by exact R1.
  destruct (adopt_main_roomy s2 (n - 9) 0 (Core 0 t 0) R2 ltac:(lia)) as (s5 & E5 & R5).
  { cbn [s2 cores with_cores]. by rewrite C1. }
  rewrite E5 in *. destruct Hok as (main & idler & Hst). exists main, idler, s5. split; [done|]. split; [|by replace (n - 10) with (n - 9 - 1) by lia].
  destruct Hst. by split.
Qed.

(** The same for the second core. *)
Lemma adopt_startup_roomy (s : sched) n cpu co : roomy n s -> 1 <= n -> cores s !! cpu = Some co ->
  exists s', adopt_startup cpu s = inr ((), s') /\ roomy (n - 1) s'.
Proof.
  intros Hr Hn Hco. unfold adopt_startup, new_task.
  destruct (malloc_roomy s n sizeof_task Hr ltac:(by vm_compute)) as (m & s1 & E1 & _ & A1 & _ & _ & C1 & R1);
    [change (pages sizeof_task) with 1; lia|].
  eexists. rewrite bind_assoc. erewrite bind_ok by exact E1. rewrite bind_assoc. erewrite bind_ok by (by apply upd_ok). erewrite bind_ok by done.
  do 2 (erewrite bind_ok by (by apply upd_ok)).
  split; [apply core_set with (c := co); cbn [cores with_tasks]; by rewrite C1|exact R1].
Qed.

Lemma sched_init_secondary_roomy (s : sched) Q cpu co n : sched_inv s Q -> 0 <= cpu < Z.of_nat MAX_CPUS ->
  cores s !! Z.to_nat cpu = Some co -> ha_room (heap s) n -> 10 <= n ->
  exists m idler s', sched_init_secondary idle idle_flag ret_from_fork cpu s = inr ((), s') /\
    joined s Q (Z.to_nat cpu) m idler s'.
Proof.
  intros Hinv Hcpu Hco Hr Hn. pose proof (sched_init_secondary_ok idle idle_flag ret_from_fork s Q cpu co Hinv Hcpu Hco) as Hok.
  unfold sched_init_secondary in *. destruct ((cpu <? 0) || (Z.of_nat MAX_CPUS <=? cpu)) eqn:E; [lia|]. cbv zeta in *.
  erewrite bind_ok in * by (by apply get_core_ok). erewrite bind_ok in * by done. set (s0 := with_cores _ s) in *.
  destruct (create_idle_roomy s0 n) as (t & s1 & E1 & A1 & C1 & R1); [split; [exact (si_heap _ _ Hinv)|exact Hr]|lia|].
  erewrite bind_ok in * by exact E1. cbn beta iota in *. rewrite (bind_ok _ _ s1 s1 t) in * by done.
  erewrite bind_ok in * by (by apply upd_ok).
  assert (Hco1 : cores (put s1 t (with_priority IDLE)) !! Z.to_nat cpu = Some (Core cpu (task co) (task_to_free co))).
  { cbn [cores put with_tasks]. rewrite C1. cbn [s0 cores with_cores]. apply list_lookup_insert_eq. by eapply lookup_lt_Some. }
  erewrite bind_ok in * by (by apply core_set with (c := Core cpu (task co) (task_to_free co))).
  fold (adopt_startup (A := A) (Z.to_nat cpu)) in *.
  match type of Hok with context [adopt_startup _ ?x] => set (s2 := x) in * end.
  destruct (adopt_startup_roomy s2 (n - 9) (Z.to_nat cpu) (Core cpu t (task_to_free co)) R1 ltac:(lia)) as (s5 & E5 & R5).
  { cbn [s2 cores with_cores cpu_id task_to_free]. apply list_lookup_insert_eq. by eapply lookup_lt_Some. }
  rewrite E5 in *. destruct Hok as (m & idler & Hj). by exists m, idler, s5.
Qed.
End Boot.
End SchedBoot.
