(* ===== verification/SchedHeap.v ===== *)
(** * The scheduler over different views of one heap

    What a view promises of the heap does not change what the scheduler does,
    and an invariant kept under one view holds under any other in which the
    heap is in order. *)

From S2P Require Import Prelude HeapApi Sched SchedQueues SchedYield SchedCreate SchedInit SchedSpec SchedTrace.

Module SchedHeap.
Import Sched SchedQueues SchedYield SchedCreate SchedInit SchedSpec SchedTrace.

Section From.
Context {A : Type} (HA HA' : HeapApi A) (idle idle_flag ret_from_fork : Z).
Context (Hmalloc : @ha_malloc A HA = @ha_malloc A HA') (Hfree : @ha_free A HA = @ha_free A HA').

Lemma malloc_from : Sched.malloc (HA := HA) = Sched.malloc (HA := HA').
Proof using Hmalloc. unfold Sched.malloc. by rewrite Hmalloc. Qed.
Lemma free_from : Sched.free (HA := HA) = Sched.free (HA := HA').
Proof using Hfree. unfold Sched.free. by rewrite Hfree. Qed.
Lemma new_task_from : new_task (HA := HA) = new_task (HA := HA').
Proof using Hmalloc. unfold new_task. by rewrite malloc_from. Qed.
Lemma create_from : pthread_create (HA := HA) = pthread_create (HA := HA').
Proof using Hmalloc Hfree. unfold pthread_create. by rewrite malloc_from, free_from. Qed.
Lemma yield_from : sched_yield (HA := HA) = sched_yield (HA := HA').
Proof using Hfree. unfold sched_yield, reap. by rewrite free_from. Qed.
Lemma sched_init_from : sched_init (HA := HA) idle idle_flag ret_from_fork = sched_init (HA := HA') idle idle_flag ret_from_fork.
Proof using Hmalloc Hfree. unfold sched_init. by rewrite create_from, new_task_from. Qed.
Lemma secondary_from : sched_init_secondary (HA := HA) idle idle_flag ret_from_fork = sched_init_secondary (HA := HA') idle idle_flag ret_from_fork.
Proof using Hmalloc Hfree. unfold sched_init_secondary. by rewrite create_from, new_task_from. Qed.
Lemma call_from : exec_call (HA := HA) idle_flag ret_from_fork = exec_call (HA := HA') idle_flag ret_from_fork.
Proof using Hmalloc Hfree. unfold exec_call. by rewrite create_from, yield_from. Qed.
End From.

(** The scheduler does not see what is written into the blocks. *)
Lemma heap_swap {A} (HA HA' : HeapApi A) (s : @sched A) Q l m : sched_inv (HA := HA) s Q -> (forall p, p ∈ alive s -> p ∈ l) ->
  heap_ok (HA := HA') (with_heap l m s) -> sched_inv (HA := HA') (with_heap l m s) Q.
Proof.
  intros Hinv Hsub Hh. split; [exact Hh|..].
  - apply (queues_frame s); try done; [exact (si_queues _ _ Hinv)|]. intros p t Hp Ht. split; [done|]. apply Hsub.
    by apply (qo_queue _ _ (si_queues _ _ Hinv) p Hp).
  - intros cpu c Hco. destruct (si_core _ _ Hinv cpu c Hco) as [G1 G2 G3]. split; [done|done|]. intros Ht.
    destruct (G3 Ht) as (G4 & G5 & G6). split; [by apply Hsub|done].
  - exact (si_apart _ _ Hinv).
Qed.

Lemma refines_swap {A} (HA HA' : HeapApi A) (s : @sched A) σ l m : sched_refines (HA := HA) s σ -> (forall p, p ∈ alive s -> p ∈ l) ->
  heap_ok (HA := HA') (with_heap l m s) -> sched_refines (HA := HA') (with_heap l m s) σ.
Proof.
  intros [R1 R2 R3 R4 R5 R6] Hsub Hh. split; try done; [by apply (heap_swap HA)|].
  intros t p Ht. destruct (R3 t p Ht) as (H1 & H2). split; [by apply Hsub|done].
Qed.
End SchedHeap.
