(* ===== verification/SchedThreads.v ===== *)
(** * The end of a thread: [pthread_exit] and [pthread_join] *)

From stdpp Require Import functions.
From S2P Require Import Prelude Dll HeapApi Sched SchedQueues SchedYield SchedCreate SchedSpec.

Module SchedThreads.
Import Sched SchedQueues SchedYield SchedCreate SchedSpec.

Section Threads.
Context {A : Type} {HA : HeapApi A}.
Abbreviation sched := (@sched A).

(** ** [wake_all] *)

(** An insertion at the tail of the queue of [w] cannot fail. *)
Definition can_append (s : sched) (w : Z) : Prop :=
  let p := priority (tasks s w) in
  w ∈ alive s /\ w <> 0 /\ 0 <= p < COUNT /\
  (runqueues s p = 0 <-> runqueues_tail s p = 0) /\ (runqueues_tail s p = 0 \/ runqueues_tail s p ∈ alive s).

Lemma enqueue_ends (s : sched) t :
  let p := priority (tasks s t) in
  runqueues (enqueue s t) p = (if runqueues s p =? 0 then t else runqueues s p) /\
  runqueues_tail (enqueue s t) p = t.
Proof.
  cbv zeta. unfold enqueue, link_back. cbv zeta. simpl.
  destruct (runqueues_tail s (priority (tasks s t)) =? 0), (runqueues s (priority (tasks s t)) =? 0); simpl;
    by rewrite ?fn_lookup_insert.
Qed.

Lemma append_again (s : sched) w :
  can_append s w -> sched_enqueue_task w s = inr ((), enqueue s w) /\ can_append (enqueue s w) w.
Proof.
  intros (Hw & Hw0 & Hp & Hht & Htl). split; [by apply enqueue_run|].
  pose proof (same_enqueue s w) as [G1 G2 _ _ _]. destruct (enqueue_ends s w) as [E1 E2].
  unfold can_append. rewrite (proj1 (proj2 (proj2 (proj2 (unlinked_fields _ _ (G1 w)))))), G2, E1, E2.
  cbv zeta. split_and!; [done|done|lia|lia| |by right].
  split; [|done]. destruct (_ =? 0) eqn:E; lia.
Qed.

Lemma put_can_append (s : sched) t f w :
  keeps f -> can_append s w -> can_append (put s t f) w.
Proof.
  intros Hf H. unfold can_append in *. replace (priority (tasks (put s t f) w)) with (priority (tasks s w)); [exact H|].
  rewrite put_task. case_decide as D; [subst; by destruct (Hf (tasks s t)) as (_ & _ & ->)|done].
Qed.

Lemma wake_hangs fuel : forall (s : sched) w, can_append s w -> wake_all fuel w s = inl Hang.
Proof.
  induction fuel as [|fuel IH]; intros s w H; pose proof H as (Hw & Hw0 & _).
  - cbn [wake_all]. by destruct (w =? 0) eqn:E; [lia|].
  - cbn [wake_all]. destruct (w =? 0) eqn:E; [lia|]. erewrite bind_ok by (by apply upd_ok).
    fold (put s w (with_state TASK_READY)).
    destruct (append_again _ _ (put_can_append s w (with_state TASK_READY) w (keeps_state _) H)) as [E1 H1].
    erewrite bind_ok by exact E1. by apply IH.
Qed.

Lemma queued_can_append (s : sched) Q w :
  queues_ok s Q -> w ∈ alive s -> w <> 0 -> 0 <= priority (tasks s w) < COUNT -> can_append s w.
Proof.
  intros HQ Hw Hw0 Hp. pose proof (qo_queue _ _ HQ _ Hp) as Hq. split_and!; try done; try lia.
  - by rewrite (head_nil s _ _ Hq), (tail_nil s _ _ Hq).
  - destruct Hq as (_ & -> & _ & _ & Hel).
    destruct (final_cases (valid := pointer) (Q (priority (tasks s w)))) as [[_ ->]|[Hne _]].
    + intros b Hb. by apply Hel.
    + by left.
    + right. by apply Hel, final_in.
Qed.

(** ** [pthread_exit] *)

(** Up to the waiting list. *)
Lemma exit_prefix (s : sched) Q cpu c v fuel regs :
  sched_inv s Q -> runs_on s cpu c -> c <> 0 ->
  exists s1, pthread_exit fuel cpu v regs s =
    (wake_all fuel (join_wait_queue (tasks s c));;
     upd c (with_join_wait_queue 0);; sched_dequeue_task c;; sched_yield cpu regs) s1 /\
    queues_ok s1 Q /\ alive s1 = alive s /\ (forall t, t <> c -> tasks s1 t = tasks s t) /\
    tasks s1 c = with_state TASK_EXITED (with_ret_value v (tasks s c)) /\
    cores s1 !! cpu = Some (Core (Z.of_nat cpu) c c).
Proof.
  intros Hinv (co & Hco & <-) Hc0. destruct (si_core _ _ Hinv _ _ Hco) as [Hid Hfr Hct].
  destruct (Hct Hc0) as (Hc & Hp & Hst). set (c := task co) in *. unfold pthread_exit.
  rewrite (bind_ok _ _ s s c) by (unfold current_task; by erewrite bind_ok by (by apply get_core_ok)).
  erewrite bind_ok by (by apply upd_ok). fold (put s c (with_ret_value v)).
  erewrite bind_ok by (by apply upd_ok). fold (put (put s c (with_ret_value v)) c (with_state TASK_EXITED)).
  set (s2 := put (put s c (with_ret_value v)) c (with_state TASK_EXITED)).
  assert (T2 : tasks s2 c = with_state TASK_EXITED (with_ret_value v (tasks s c))).
  { unfold s2. by rewrite !put_task, !decide_True by done. }
  assert (Q2 : queues_ok s2 Q).
  { apply put_queues; [apply keeps_state| |apply put_queues; [done|by left|apply Hinv]].
    right. by rewrite put_task, decide_True. }
  assert (Hset : set_task_to_free cpu c s2 = inr ((), with_cores (<[cpu := Core (Z.of_nat cpu) c c]> (cores s2)) s2)).
  { unfold set_task_to_free, sched_getcpu.
    rewrite (bind_ok _ _ s2 s2 (cpu_id co)) by (by erewrite bind_ok by (by apply get_core_ok)).
    rewrite Hid, Nat2Z.id. erewrite bind_ok by (by apply get_core_ok). by rewrite Hid. }
  erewrite bind_ok by exact Hset. erewrite bind_ok by (by apply get_ok).
  exists (with_cores (<[cpu := Core (Z.of_nat cpu) c c]> (cores s2)) s2). split_and!.
  - cbn [tasks with_cores]. by rewrite T2.
  - by apply (queues_ext s2).
  - done.
  - intros t Ht. cbn [tasks with_cores]. unfold s2. by rewrite !put_task, !decide_False.
  - exact T2.
  - apply list_lookup_insert_eq. by eapply lookup_lt_Some.
Qed.

(** C23 A thread that exits while another waits in [pthread_join] for it never
    finishes: the loop that wakes the joiners tests a pointer it never
    advances, so it queues the same task for ever, with [sched_lock] held. *)
Theorem pthread_exit_joiner_hangs (s : sched) Q cpu c w v regs :
  sched_inv s Q -> runs_on s cpu c -> c <> 0 ->
  join_wait_queue (tasks s c) = w -> w <> 0 -> w ∈ alive s -> 0 <= priority (tasks s w) < COUNT ->
  forall fuel, pthread_exit fuel cpu v regs s = inl Hang.
Proof.
  intros Hinv Hon Hc0 Hw Hw0 Hwa Hp fuel.
  destruct (exit_prefix s Q cpu c v fuel regs Hinv Hon Hc0) as (s1 & -> & HQ & Hal & Hoth & Tc & _).
  rewrite Hw. apply bind_fail. apply wake_hangs. apply (queued_can_append s1 Q); [done|by rewrite Hal|done|].
  destruct (decide (w = c)) as [->|Hne]; [by rewrite Tc|by rewrite Hoth].
Qed.

(** The task a core has marked is freed by the next [sched_yield] there. *)
Lemma reap_run (s : sched) cpu t d :
  cores s !! cpu = Some (Core (Z.of_nat cpu) t d) -> d <> 0 -> d ∈ alive s ->
  exists s', reap cpu s = inr ((), s') /\ cores s' !! cpu = Some (Core (Z.of_nat cpu) t 0) /\ (d ∉ alive s').
Proof.
  intros Hc Hd0 Hd. unfold reap. rewrite (bind_ok _ _ s s (Core (Z.of_nat cpu) t d)) by (by apply own_core_ok).
  cbv zeta. cbn [task_to_free]. unfold nonzero. destruct (d =? 0) eqn:E; [lia|]. cbn [negb].
  set (s1 := with_cores (<[cpu := Core (Z.of_nat cpu) t 0]> (cores s)) s).
  assert (E1 : set_task_to_free cpu 0 s = inr ((), s1)).
  { unfold set_task_to_free, sched_getcpu.
    rewrite (bind_ok _ _ s s (Z.of_nat cpu)) by (by erewrite bind_ok by (by apply get_core_ok)).
    rewrite Nat2Z.id. by erewrite bind_ok by (by apply get_core_ok). }
  erewrite bind_ok by exact E1. erewrite bind_ok by (by apply get_ok). erewrite bind_ok by done.
  eexists. split; [done|]. split.
  - cbn [cores with_heap s1 with_cores]. apply list_lookup_insert_eq. by eapply lookup_lt_Some.
  - cbn [alive with_heap]. rewrite elem_of_difference, elem_of_singleton. tauto.
Qed.

(** A thread that exits with nobody waiting frees its own task and stack in
    the [sched_yield] that ends [pthread_exit], while it still is the current
    task, and [sched_yield] then reads the freed task. *)
Theorem pthread_exit_reads_freed (s : sched) Q cpu c v regs fuel :
  sched_inv s Q -> runs_on s cpu c -> c <> 0 ->
  join_wait_queue (tasks s c) = 0 -> next (tasks s c) = 0 -> prev (tasks s c) = 0 ->
  pthread_exit fuel cpu v regs s = inl (BadAccess c).
Proof.
  intros Hinv Hon Hc0 Hw Hnx Hpv. pose proof Hon as (co & Hco & Ec).
  destruct (si_core _ _ Hinv _ _ Hco) as [_ _ Hct]. rewrite Ec in Hct. destruct (Hct Hc0) as (Hc & Hp & _).
  destruct (exit_prefix s Q cpu c v fuel regs Hinv Hon Hc0) as (s1 & -> & HQ & Hal & _ & Tc & Hcore).
  rewrite Hw. rewrite (bind_ok _ _ s1 s1 ()) by (by destruct fuel).
  erewrite bind_ok by (apply upd_ok; by rewrite Hal). fold (put s1 c (with_join_wait_queue 0)).
  set (s2 := put s1 c (with_join_wait_queue 0)).
  assert (T2 : tasks s2 c = with_join_wait_queue 0 (tasks s1 c)) by (unfold s2; by rewrite put_task, decide_True).
  assert (Hn2 : nx_of s2 c = 0 /\ pv_of s2 c = 0) by (unfold nx_of, pv_of; by rewrite T2, Tc).
  destruct Hn2 as [Hn2 Hp2].
  erewrite bind_ok by (apply dequeue_run; rewrite ?T2, ?Hn2, ?Hp2, ?Tc; try done; [by rewrite <- Hal in Hc|by left..]).
  pose proof (same_dequeue s2 c) as [G1 G2 G3 G4 G5]. set (s3 := dequeue s2 c) in *.
  assert (Hc3 : cores s3 !! cpu = Some (Core (Z.of_nat cpu) c c)) by (by rewrite G4).
  destruct (reap_run s3 cpu c c Hc3) as (s4 & E4 & C4 & A4); [done|rewrite G2; unfold s2; cbn [alive put with_tasks]; by rewrite Hal|].
  rewrite sched_yield_eq. erewrite bind_ok by exact E4.
  rewrite (bind_ok _ _ s4 s4 c) by (unfold current_task; by erewrite bind_ok by (by apply get_core_ok)).
  apply bind_fail. unfold put_back, nonzero. destruct (c =? 0) eqn:E0; [lia|]. cbn [negb].
  apply bind_fail. unfold get. by rewrite decide_False.
Qed.

(** ** [pthread_join] *)

(** Changing a task that is in no queue, and a field no invariant is about. *)
Lemma put_unqueued (s : sched) Q t f :
  sched_inv s Q -> (forall p, 0 <= p < COUNT -> t ∉ Q p) -> (forall k, priority (f k) = priority k) ->
  state (f (tasks s t)) <> TASK_READY -> sched_inv (put s t f) Q.
Proof.
  intros [H1 H2 H3 H4] Ht Hf Hst. split; [done| | |done].
  - apply (queues_frame s); try done. intros p u Hp Hu. rewrite put_task, decide_False by (intros ->; by apply (Ht p)).
    split; [done|]. by apply (qo_queue _ _ H2 p Hp).
  - intros cpu co Hco. destruct (H3 cpu co Hco) as [G1 G2 G3]. split; [done|done|]. intros H0.
    destruct (G3 H0) as (F1 & F2 & F3). rewrite put_task.
    case_decide as D; [|done]. subst t. rewrite Hf. split; [done|by split].
Qed.

Lemma put_keeps (s : sched) Q t f :
  sched_inv s Q -> keeps f -> (forall k, state (f k) = state k) -> sched_inv (put s t f) Q.
Proof.
  intros [H1 H2 H3 H4] Hf Hst. split; [done|apply put_queues; [done|left; apply Hst|done]| |done].
  intros cpu co Hco. destruct (H3 cpu co Hco) as [G1 G2 G3]. split; [done|done|]. intros H0. rewrite put_task.
  case_decide as D; [|by apply G3]. subst t. rewrite Hst. destruct (Hf (tasks s (task co))) as (_ & _ & ->). by apply G3.
Qed.

(** The caller [c] waits for [th]. *)
Definition waits (s : sched) (c th : Z) (s' : sched) : Prop :=
  tasks s' c = with_next (join_wait_queue (tasks s th)) (with_state TASK_BLOCKED (tasks s c)) /\
  tasks s' th = with_join_wait_queue c (tasks s th) /\
  (forall t, t <> c -> t <> th -> tasks s' t = tasks s t) /\
  alive s' = alive s /\ cores s' = cores s.

Lemma join_enter_ok (s : sched) Q cpu c th :
  sched_inv s Q -> runs_on s cpu c -> c <> 0 -> th ∈ alive s -> th <> c -> state (tasks s th) <> TASK_EXITED ->
  exists s', pthread_join_enter cpu th s = inr (None, s') /\ sched_inv s' Q /\ waits s c th s'.
Proof.
  intros Hinv (co & Hco & Ec) Hc0 Hth Hne Hst. unfold pthread_join_enter.
  destruct (si_core _ _ Hinv _ _ Hco) as [_ _ Hct]. rewrite Ec in Hct. destruct (Hct Hc0) as (Hc & _ & Hcs).
  assert (Hnq : forall p, 0 <= p < COUNT -> c ∉ Q p) by (intros p Hp; exact (not_queued s Q c p (si_queues _ _ Hinv) Hp Hcs)).
  pose proof (alive_pointer s Q th Hinv Hth) as Hv. unfold pointer in Hv. destruct (th =? 0) eqn:E; [lia|].
  erewrite bind_ok by (by apply get_ok). rewrite bool_decide_false by done. cbn [negb].
  rewrite (bind_ok _ _ s s c) by (unfold current_task; erewrite bind_ok by (by apply get_core_ok); by rewrite Ec).
  erewrite bind_ok by (by apply upd_ok). fold (put s c (with_state TASK_BLOCKED)).
  set (s1 := put s c (with_state TASK_BLOCKED)).
  assert (I1 : sched_inv s1 Q) by (by apply put_unqueued).
  assert (T1 : tasks s1 th = tasks s th) by (unfold s1; by rewrite put_task, decide_False).
  erewrite bind_ok by (by apply get_ok). rewrite T1. set (w := join_wait_queue (tasks s th)).
  erewrite bind_ok by (by apply upd_ok). fold (put s1 c (with_next w)). set (s2 := put s1 c (with_next w)).
  assert (I2 : sched_inv s2 Q).
  { apply put_unqueued; [done|done|done|]. unfold s1. by rewrite put_task, decide_True. }
  erewrite bind_ok by (by apply upd_ok). fold (put s2 th (with_join_wait_queue c)).
  exists (put s2 th (with_join_wait_queue c)). split; [done|]. split; [by apply put_keeps|].
  split_and!; try done.
  - by rewrite put_task, decide_False; [unfold s2, s1; rewrite !put_task, !decide_True|intros ->].
  - rewrite put_task, decide_True by done. unfold s2. by rewrite put_task, decide_False, T1.
  - intros t H1 H2. rewrite put_task, decide_False by done. unfold s2, s1. by rewrite !put_task, !decide_False.
Qed.

Lemma blocked_picks (s : sched) Q c p :
  sched_inv s Q -> (forall p, 0 <= p < COUNT -> c ∉ Q p) -> (exists p, 0 <= p < COUNT /\ Q p <> []) ->
  (spec_yield Q c p false).2 <> c /\ exists h, 0 <= h < COUNT /\ (spec_yield Q c p false).2 ∈ Q h.
Proof.
  intros Hinv Hc (p' & Hp' & Hne). unfold spec_yield, requeue. pose proof (top_spec Q) as Ht.
  destruct (top Q) as [h|]; [|by rewrite Ht in Hne]. destruct Ht as (Hh & Hq & _).
  destruct (Q h) as [|n q] eqn:E; [done|]. cbn [snd]. split.
  - intros ->. apply (Hc h Hh). rewrite E. left.
  - exists h. split; [done|]. rewrite E. left.
Qed.

(** C20 [pthread_join]: a null thread is EINVAL; a thread that has exited gives
    its value at once; otherwise the caller becomes BLOCKED, heads the thread's
    list of joiners, its registers are saved, and, when some thread is ready,
    the core goes on with the first one of the highest priority, the caller in
    no queue. *)
Theorem pthread_join_spec (s : sched) Q cpu c th regs :
  sched_inv s Q -> runs_on s cpu c -> c <> 0 -> th ∈ alive s -> th <> c ->
  pthread_join_enter cpu 0 s = inr (Some EINVAL, s) /\
  (state (tasks s th) = TASK_EXITED ->
     pthread_join_enter cpu th s = inr (Some 0, s) /\ pthread_join_value th s = inr (ret_value (tasks s th), s)) /\
  (state (tasks s th) <> TASK_EXITED -> (exists p, 0 <= p < COUNT /\ Q p <> []) ->
     let '(Q', n) := spec_yield Q c (priority (tasks s c)) false in
     exists s1 s2, pthread_join_enter cpu th s = inr (None, s1) /\
       pthread_join_poll cpu th regs s1 = inr (Some (context (tasks s n)), s2) /\
       sched_inv s2 Q' /\ runs_on s2 cpu n /\ n <> c /\ join_wait_queue (tasks s2 th) = c /\
       state (tasks s2 c) = TASK_BLOCKED /\ context (tasks s2 c) = regs).
Proof.
  intros Hinv Hon Hc0 Hth Hne. split; [done|]. pose proof (alive_pointer s Q th Hinv Hth) as Hv. unfold pointer in Hv.
  split.
  - intros Hst. unfold pthread_join_enter, pthread_join_value. destruct (th =? 0) eqn:E; [lia|].
    split; erewrite bind_ok by (by apply get_ok); [by rewrite bool_decide_true|done].
  - intros Hst Hgo. destruct (join_enter_ok s Q cpu c th Hinv Hon Hc0 Hth Hne Hst) as (s1 & E1 & I1 & Tc & Tth & Toth & Hal & Hcs).
    assert (Hon1 : runs_on s1 cpu c) by (unfold runs_on; by rewrite Hcs). pose proof Hon1 as (co & Hco & Ec).
    pose proof (yield_ok s1 Q cpu co regs I1 Hco) as H. rewrite Ec in H. specialize (H Hc0 (or_intror Hgo)). cbv zeta in H.
    assert (Hr : runs (tasks s1 c) = false) by (unfold runs; rewrite Tc; by rewrite bool_decide_false).
    assert (Hp : priority (tasks s1 c) = priority (tasks s c)) by (by rewrite Tc).
    rewrite Hr, Hp in H.
    assert (Hnq : forall p, 0 <= p < COUNT -> c ∉ Q p).
    { intros p Hp'. apply (not_queued s1 Q c p (si_queues _ _ I1) Hp'). by rewrite Tc. }
    destruct (blocked_picks s Q c (priority (tasks s c)) Hinv Hnq Hgo) as [Hnc _].
    destruct (spec_yield Q c (priority (tasks s c)) false) as [Q' n]. cbn [snd] in Hnc.
    destruct H as (s2 & E2 & I2 & C2 & _ & _ & _ & Htk & _).
    destruct (n =? c) eqn:En; [lia|]. exists s1, s2. split; [exact E1|].
    assert (Hctx : context (tasks s1 n) = context (tasks s n)).
    { destruct (decide (n = th)) as [->|Hnt]; [by rewrite Tth|by rewrite Toth]. }
    split; [|split; [exact I2|split; [|split; [done|]]]].
    + unfold pthread_join_poll. erewrite bind_ok by (apply get_ok; by rewrite Hal). rewrite Tth.
      rewrite bool_decide_false by done. cbn [negb]. erewrite bind_ok by exact E2. by rewrite Hctx.
    + apply (switched_runs s1 s2 cpu c n); [done|]. unfold switched. by rewrite Hco.
    + pose proof (Htk c) as Hk. unfold after_yield, set_running in Hk.
      rewrite (decide_True (P := c = c /\ n <> c)), (decide_False (P := c = n)), decide_True in Hk by auto.
      destruct (unlinked_fields _ _ Hk) as (-> & _ & -> & _). rewrite Tc. split; [|done].
      destruct (unlinked_fields _ _ (Htk th)) as (_ & _ & _ & _ & _ & _ & ->).
      unfold after_yield, set_running. rewrite (decide_False (P := th = c /\ n <> c)), (decide_False (P := th = c)) by tauto.
      case_decide; by rewrite Tth.
Qed.

(** When no other thread is ready, a thread that joins does not stop: the
    core's idle thread is not found, the BLOCKED caller is picked and made
    RUNNING again with its own registers, and the link from it to the joiners
    before it is lost. *)
Theorem pthread_join_alone (s : sched) Q cpu c th regs :
  sched_inv s Q -> runs_on s cpu c -> c <> 0 -> th ∈ alive s -> th <> c -> state (tasks s th) <> TASK_EXITED ->
  (forall p, 0 <= p < COUNT -> Q p = []) -> priority (tasks s c) <> IDLE -> prev (tasks s c) = 0 ->
  let w := join_wait_queue (tasks s th) in
  w = 0 \/ w ∈ alive s -> w <> c ->
  exists s1 s2, pthread_join_enter cpu th s = inr (None, s1) /\ state (tasks s1 c) = TASK_BLOCKED /\
    next (tasks s1 c) = w /\
    pthread_join_poll cpu th regs s1 = inr (Some regs, s2) /\ runs_on s2 cpu c /\
    state (tasks s2 c) = TASK_RUNNING /\ next (tasks s2 c) = 0.
Proof.
  intros Hinv Hon Hc0 Hth Hne Hst Hemp Hpi Hpv w Hw Hwc. pose proof Hon as (co & Hco & Ec).
  destruct (join_enter_ok s Q cpu c th Hinv Hon Hc0 Hth Hne Hst) as (s1 & E1 & I1 & Tc & Tth & Toth & Hal & Hcs).
  destruct (si_core _ _ Hinv _ _ Hco) as [Hid Hfr Hct]. rewrite Ec in Hct. destruct (Hct Hc0) as (Hc & Hp & _).
  fold w in Tc. rewrite <- Hcs in Hco. pose proof (si_core _ _ I1 _ _ Hco) as Hck.
  assert (Hn1 : nx_of s1 c = w) by (unfold nx_of; by rewrite Tc).
  assert (Hp1 : pv_of s1 c = 0) by (unfold pv_of; by rewrite Tc).
  assert (Hc1 : c ∈ alive s1) by (by rewrite Hal).
  exists s1, (put (dequeue s1 c) c (with_state TASK_RUNNING)). pose proof (same_dequeue s1 c) as [G1 G2 G3 G4 G5].
  split; [exact E1|]. split; [by rewrite Tc|]. split; [by rewrite Tc|]. split.
  - unfold pthread_join_poll. erewrite bind_ok by (apply get_ok; by rewrite Hal). rewrite Tth.
    rewrite bool_decide_false by done. cbn [negb]. rewrite sched_yield_eq.
    rewrite (bind_ok _ _ s1 (put (dequeue s1 c) c (with_state TASK_RUNNING)) regs); [done|].
    erewrite bind_ok by (by eapply reap_none).
    rewrite (bind_ok _ _ s1 s1 c) by (unfold current_task; erewrite bind_ok by (by apply get_core_ok); by rewrite Ec).
    rewrite (bind_ok _ _ s1 s1 ()).
    2:{ unfold put_back, nonzero. destruct (c =? 0) eqn:E0; [lia|]. cbn [negb].
        erewrite bind_ok by (by apply get_ok). rewrite Tc. by rewrite bool_decide_false. }
    erewrite bind_ok by (apply (pick_next_ok s1 Q cpu co (si_queues _ _ I1) Hco Hid)).
    pose proof (top_spec Q) as Ht. destruct (top Q) as [h|]; [by destruct Ht as (Hh & Hq & _); rewrite Hemp in Hq|].
    rewrite Ec. rewrite (bind_ok _ _ s1 (put (dequeue s1 c) c (with_state TASK_RUNNING)) ()).
    2:{ unfold start_task, nonzero. destruct (c =? 0) eqn:E0; [lia|]. cbn [negb].
        erewrite bind_ok by (by apply get_ok). rewrite Tc. cbn [priority with_next with_state].
        destruct (priority (tasks s c) =? IDLE) eqn:E2; [lia|]. cbn [negb].
        erewrite bind_ok by (apply dequeue_run; rewrite ?Hn1, ?Hp1, ?Hal, ?Tc; try done; by left).
        apply upd_ok. by rewrite G2. }
    unfold switch_task. by rewrite Z.eqb_refl.
  - split; [exists co; split; [|done]; change (cores (dequeue s1 c) !! cpu = Some co); by rewrite G4|]. rewrite put_task, decide_True by done. split; [done|].
    cbn [next with_state]. apply dequeue_unlinks.
Qed.
End Threads.
End SchedThreads.
