(* ===== verification/SchedAttr.v ===== *)
(** * Thread attributes

    Sequences of calls on an attribute object, and what they promise to
    [pthread_create]. *)

From S2P Require Import Prelude Dll HeapApi Sched SchedCreate.

Module SchedAttr.
Import Sched SchedCreate.

Inductive attr_op :=
| Init | Destroy
| SetStackSize (size : Z) | SetStack (addr size : Z) | SetDetachState (v : Z)
| SetSchedPolicy (v : Z) | SetSchedParam (param : option Z).

Definition attr_call (o : attr_op) (attr : option pthread_attr_t) : Z * option pthread_attr_t :=
  match o with
  | Init => pthread_attr_init attr
  | Destroy => pthread_attr_destroy attr
  | SetStackSize size => pthread_attr_setstacksize attr size
  | SetStack addr size => pthread_attr_setstack attr addr size
  | SetDetachState v => pthread_attr_setdetachstate attr v
  | SetSchedPolicy v => pthread_attr_setschedpolicy attr v
  | SetSchedParam param => pthread_attr_setschedparam attr param
  end.

(** The object after a sequence of calls, and their results. *)
Fixpoint attr_calls (os : list attr_op) (attr : option pthread_attr_t) : list Z * option pthread_attr_t :=
  match os with
  | [] => ([], attr)
  | o :: os => let '(r, attr) := attr_call o attr in let '(rs, attr) := attr_calls os attr in (r :: rs, attr)
  end.

(** The arguments at their widths. *)
Definition attr_args (o : attr_op) : Prop :=
  match o with
  | SetStackSize size => 0 <= size < 2 ^ 64
  | SetStack addr size => 0 <= addr < 2 ^ 64 /\ 0 <= size < 2 ^ 64
  | _ => True
  end.

(** What every object is that came out of [pthread_attr_init]. *)
Record attr_ok (a : pthread_attr_t) : Prop := {
  ao_flag : is_initialized a = 0 \/ is_initialized a = 1;
  ao_detach : detachstate a = 0 \/ detachstate a = 1;
  ao_size : 4096 <= stacksize a < 2 ^ 64;
  ao_addr : 0 <= stackaddr a < 2 ^ 64;
  ao_param : 0 <= schedparam a < COUNT;
}.

Lemma attr_call_ok o a : attr_args o -> attr_ok a ->
  exists r a', attr_call o (Some a) = (r, Some a') /\ (r = 0 \/ r = EINVAL) /\ attr_ok a' /\
    (r = EINVAL -> a' = a).
Proof.
  intros Ho [H1 H2 H3 H4 H5].
  assert (Hset : forall ok f, (ok = true -> attr_ok (f a)) ->
    exists r a', attr_set (Some a) ok f = (r, Some a') /\ (r = 0 \/ r = EINVAL) /\ attr_ok a' /\ (r = EINVAL -> a' = a)).
  { intros ok f Hf. unfold attr_set. destruct (usable (Some a)), ok; cbn [negb];
      [exists 0, (f a)|exists EINVAL, a..]; (split; [reflexivity|]); (split; [by (left + right)|]); (split; [|done]);
      [by apply Hf|done..]. }
  destruct o as [| |size|addr size|v|v|[v|]]; cbn [attr_call attr_args] in *.
  - exists 0, (Attr 0 (4096 * 4) 0 (inheritsched a) 0 2 1). split; [done|]. split; [by left|]. split; [|done].
    split; cbn; unfold COUNT; lia.
  - eexists 0, _. split; [done|]. split; [by left|]. split; [|done]. split; cbn; try done. by left.
  - apply Hset. intros E. split; cbn; try done. lia.
  - apply Hset. intros E. split; cbn; try done; lia.
  - apply Hset. intros E. split; cbn; try done. lia.
  - apply Hset. intros E. by split.
  - apply Hset. intros E. split; cbn; try done. lia.
  - exists EINVAL, a. by split_and!; [|right|split|].
Qed.

Lemma attr_calls_ok os : forall a, Forall attr_args os -> attr_ok a ->
  exists rs a', attr_calls os (Some a) = (rs, Some a') /\ Forall (fun r => r = 0 \/ r = EINVAL) rs /\ attr_ok a'.
Proof.
  induction os as [|o os IH]; intros a Hos Ha; [by exists [], a|].
  inversion Hos as [|o' os' Ho Hos']; subst. destruct (attr_call_ok o a Ho Ha) as (r & a1 & E1 & Hr & Ha1 & _).
  destruct (IH a1 Hos' Ha1) as (rs & a2 & E2 & Hrs & Ha2). exists (r :: rs), a2.
  cbn [attr_calls]. rewrite E1, E2. split_and!; [done|by constructor|done].
Qed.

Lemma create_args idle_flag a arg : attr_ok a ->
  4096 <= stack_size (Some a) < 2 ^ 64 /\ 0 <= prio_of idle_flag (Some a) arg < COUNT.
Proof.
  intros [_ _ H3 _ H5]. unfold stack_size, prio_of, initialized, COUNT, NORMAL, IDLE in *.
  destruct (nonzero (is_initialized a)); (split; [lia|]); destruct (arg =? idle_flag); try lia.
  rewrite Z.rem_mod_nonneg, (Z.mod_small _ 5), u32_id by lia. lia.
Qed.

(** C25 Whatever calls are made on an attribute object after
    [pthread_attr_init], all of them return 0 or EINVAL, the object stays well
    formed, and [pthread_create] can use it: its stack size is at least a page
    and fits, its priority is one of the scheduler's queues. *)
Theorem attr_calls_valid idle_flag os a arg :
  Forall attr_args os ->
  exists rs a', attr_calls (Init :: os) (Some a) = (0 :: rs, Some a') /\
    Forall (fun r => r = 0 \/ r = EINVAL) rs /\ attr_ok a' /\
    4096 <= stack_size (Some a') < 2 ^ 64 /\ 0 <= prio_of idle_flag (Some a') arg < COUNT.
Proof.
  intros Hos.
  destruct (attr_calls_ok os (Attr 0 (4096 * 4) 0 (inheritsched a) 0 2 1) Hos) as (rs & a' & E & Hrs & Ha').
  { split; cbn; unfold COUNT; lia. }
  exists rs, a'. cbn [attr_calls attr_call pthread_attr_init]. rewrite E.
  destruct (create_args idle_flag a' arg Ha') as [H1 H2]. exact (conj eq_refl (conj Hrs (conj Ha' (conj H1 H2)))).
Qed.

(** What a setter of the attribute object accepts, its getter gives back;
    what it rejects leaves the object as it was; and a destroyed object answers
    every call but [pthread_attr_init] with EINVAL. *)
Theorem attr_roundtrip a size addr v policy :
  is_initialized a = 1 ->
  (let '(r, a1) := pthread_attr_setstacksize (Some a) size in
   if 4096 <=? size then r = 0 /\ pthread_attr_getstacksize a1 true = (0, Some size) else (r, a1) = (EINVAL, Some a)) /\
  (let '(r, a1) := pthread_attr_setstack (Some a) addr size in
   if 4096 <=? size then r = 0 /\ pthread_attr_getstack a1 true true = (0, Some (addr, size)) else (r, a1) = (EINVAL, Some a)) /\
  (let '(r, a1) := pthread_attr_setdetachstate (Some a) v in
   if (v =? 0) || (v =? 1) then r = 0 /\ pthread_attr_getdetachstate a1 true = (0, Some v) else (r, a1) = (EINVAL, Some a)) /\
  (let '(r, a1) := pthread_attr_setschedpolicy (Some a) policy in
   r = 0 /\ pthread_attr_getschedpolicy a1 true = (0, Some policy)) /\
  (let '(r, a1) := pthread_attr_setschedparam (Some a) (Some v) in
   if (0 <=? v) && (v <? COUNT) then r = 0 /\ pthread_attr_getschedparam a1 true = (0, Some v)
   else (r, a1) = (EINVAL, Some a)) /\
  (let '(r, a1) := pthread_attr_destroy (Some a) in
   r = 0 /\ (forall o, o <> Init -> o <> Destroy -> (attr_call o a1).1 = EINVAL) /\
   pthread_attr_getstacksize a1 true = (EINVAL, None) /\ pthread_attr_getschedparam a1 true = (EINVAL, None)).
Proof.
  intros Hi. assert (Hu : usable (Some a) = true) by (unfold usable; by rewrite Hi).
  unfold pthread_attr_setstacksize, pthread_attr_setstack, pthread_attr_setdetachstate, pthread_attr_setschedpolicy,
    pthread_attr_setschedparam, attr_set. rewrite Hu. cbn [negb].
  assert (Hneg : negb (size <? 4096) = (4096 <=? size)) by lia. rewrite Hneg.
  assert (Hget : forall X (f : pthread_attr_t -> X) b, is_initialized b = 1 -> attr_get (Some b) true f = (0, Some (f b))).
  { intros X f b Hb. unfold attr_get, usable. by rewrite Hb. }
  split_and!.
  - destruct (4096 <=? size); cbn [negb]; [split; [done|by apply Hget]|done].
  - destruct (4096 <=? size); cbn [negb]; [split; [done|by apply Hget]|done].
  - destruct (_ || _); cbn [negb]; [split; [done|by apply Hget]|done].
  - done.
  - by apply Hget.
  - destruct (_ && _); cbn [negb]; [split; [done|by apply Hget]|done].
  - cbn [pthread_attr_destroy]. split; [done|]. split; [|done]. by intros [] H1 H2; try done; destruct param.
Qed.
End SchedAttr.
