(* ===== verification/Errno.v ===== *)
(** * Error numbers (src/include/errno.h)

    The table of the header, which names share a number, and that the numbers
    the thread functions return are those of the table. *)

From stdpp Require Import strings.
From S2P Require Import Prelude Spinlock Sched.

Module Errno.
Import Spinlock Sched.
Open Scope string_scope.
Open Scope Z_scope.

Definition ENOTSUP : Z := 61.

(** In the order of the header; two names stand for another one. *)
Definition error_numbers : list (string * Z) :=
  [("E2BIG", 1); ("EACCES", 2); ("EADDRINUSE", 3); ("EADDRNOTAVAIL", 4); ("EAFNOSUPPORT", 5); ("EAGAIN", 6);
   ("EALREADY", 7); ("EBADF", 8); ("EBADMSG", 9); ("EBUSY", 10); ("ECANCELED", 11); ("ECHILD", 12); ("ECONNABORTED",
   13); ("ECONNREFUSED", 14); ("ECONNRESET", 15); ("EDEADLK", 16); ("EDESTADDRREQ", 17); ("EDOM", 18); ("EDQUOT", 19);
   ("EEXIST", 20); ("EFAULT", 21); ("EFBIG", 22); ("EHOSTUNREACH", 23); ("EIDRM", 24); ("EILSEQ", 25); ("EINPROGRESS",
   26); ("EINTR", 27); ("EINVAL", 28); ("EIO", 29); ("EISCONN", 30); ("EISDIR", 31); ("ELOOP", 32); ("EMFILE", 33);
   ("EMLINK", 34); ("EMSGSIZE", 35); ("EMULTIHOP", 36); ("ENAMETOOLONG", 37); ("ENETDOWN", 38); ("ENETRESET", 39);
   ("ENETUNREACH", 40); ("ENFILE", 41); ("ENOBUFS", 42); ("ENODATA", 43); ("ENODEV", 44); ("ENOENT", 45); ("ENOEXEC",
   46); ("ENOLCK", 47); ("ENOLINK", 48); ("ENOMEM", 49); ("ENOMSG", 50); ("ENOPROTOOPT", 51); ("ENOSPC", 52);
   ("ENOSR", 53); ("ENOSTR", 54); ("ENOSYS", 55); ("ENOTCONN", 56); ("ENOTDIR", 57); ("ENOTEMPTY", 58);
   ("ENOTRECOVERABLE", 59); ("ENOTSOCK", 60); ("ENOTSUP", 61); ("ENOTTY", 62); ("ENXIO", 63); ("EOPNOTSUPP", ENOTSUP);
   ("EOVERFLOW", 65); ("EOWNERDEAD", 66); ("EPERM", 67); ("EPIPE", 68); ("EPROTO", 69); ("EPROTONOSUPPORT", 70);
   ("EPROTOTYPE", 71); ("ERANGE", 72); ("EROFS", 73); ("ESPIPE", 74); ("ESRCH", 75); ("ESTALE", 76); ("ETIME", 77);
   ("ETIMEDOUT", 78); ("ETXTBSY", 79); ("EWOULDBLOCK", EAGAIN); ("EXDEV", 81)].

Definition error_number (name : string) : option Z := 
  x ← list_find (fun x => x.1 = name) error_numbers; Some x.2.2.

(** Two different names that share a number. *)
Definition aliases (x y : string * Z) : bool :=
  existsb (fun p => bool_decide (p = (x.1, y.1) \/ p = (y.1, x.1))) [("EAGAIN", "EWOULDBLOCK"); ("ENOTSUP", "EOPNOTSUPP")].

Lemma error_numbers_checked :
  forallb (fun x => forallb (fun y => bool_decide (x.1 = y.1 -> x.2 = y.2) &&
    (bool_decide (x.2 <> y.2) || bool_decide (x.1 = y.1) || aliases x y)) error_numbers) error_numbers = true.
Proof. by vm_compute. Qed.

(** A name has one number, a positive one below 128, and only the two pairs
    POSIX lets be equal share a number. *)
Theorem error_numbers_distinct x y : x ∈ error_numbers -> y ∈ error_numbers ->
  0 < x.2 < 128 /\ (x.1 = y.1 -> x = y) /\ (x.2 = y.2 -> x = y \/ aliases x y = true).
Proof.
  intros Hx Hy. pose proof (forallb_elem _ _ y (forallb_elem _ _ x error_numbers_checked Hx) Hy) as [H1 H2]%andb_true_iff.
  apply bool_decide_eq_true_1 in H1.
  split.
  { assert (Hr : forallb (fun x => (0 <? x.2) && (x.2 <? 128)) error_numbers = true) by by vm_compute.
    pose proof (forallb_elem _ _ x Hr Hx) as H. cbn in H. lia. }
  destruct x as [n v], y as [n' v']. cbn [fst snd] in *. split; [intros ->; by rewrite H1|]. intros ->.
  destruct (decide (n = n')) as [->|Hne]; [by left|]. right. rewrite !bool_decide_eq_false_2 in H2; [done|done|by intros H].
Qed.

(** The thread functions return the numbers of the header. *)
Lemma thread_numbers : error_number "EAGAIN" = Some EAGAIN /\ error_number "EINVAL" = Some EINVAL /\ error_number "EBUSY" = Some EBUSY.
Proof. by vm_compute. Qed.
End Errno.
