(* ===== verification/SchedDemo.v ===== *)
(** * A concrete scheduler

    The scheduler on the kernel's heap, with a region of 64 pages: the boot, two
    threads, and the inputs at which the theorems of the scheduler are used. *)

From stdpp Require Import functions.
From S2P Require Import Prelude Memory Dll CString Heap HeapPages HeapLists HeapInv HeapSpec Malloc HeapTrace HeapApi.
From S2P Require Import Sched SchedQueues SchedYield SchedCreate SchedInit SchedSpec SchedTrace SchedThreads SchedAttr.

Module SchedDemo.
Import Sched SchedQueues SchedYield SchedCreate SchedInit SchedSpec SchedTrace SchedThreads SchedAttr.

Definition caches : Z := 0x1000.
Definition region : Heap.heap_state := Heap.HeapState 0x50000000 0x50040000 0x50000000 64.
Definition free_heap : Memory.mem := (Heap.heap_init caches Heap.boot_state ∅ 0x50000000 0x40000).2.

#[local] Instance heap_api : HeapApi Memory.mem := kernel_heap caches region.
Abbreviation sched_mem := (@sched Memory.mem).

Lemma free_heap_ok : HeapTrace.refines caches region free_heap ∅.
Proof.
  destruct (Malloc.heap_init_ok caches 0x50000000 0x40000 ltac:(lia) ltac:(by vm_compute) ltac:(lia)
    ltac:(by vm_compute) ltac:(done) ltac:(by vm_compute) ltac:(left; by vm_compute) Heap.boot_state ∅)
    as (m' & E & Hinv & Hno & _).
  unfold free_heap. rewrite E. eexists ∅, _. split; [exact Hinv|].
  split; [by intros a z ?%Hno|]. intros a l Hl. by rewrite lookup_empty in Hl.
Qed.

Definition idle : Z := 0x40001000.
Definition idle_flag : Z := 0x40002000.
Definition ret_from_fork : Z := 0x40003000.

(** The statics at boot. *)
Definition off : sched_mem :=
  SchedState (fun _ => zero_task) ∅ free_heap (fun _ => 0) (fun _ => 0) 0 [Core 0 0 0; Core 0 0 0] 0.

Lemma off_ok : statics off.
Proof.
  split; [|done|by exists 0, 0]. exists ∅. split; [exists ∅; split; [exact free_heap_ok|done]|].
  intros p. rewrite lookup_empty. split; [by intros ?%elem_of_empty|by intros []].
Qed.

Definition result {X} (r : trap + (X * sched_mem)) : sched_mem := match r with inr (_, s) => s | inl _ => off end.
Definition value {X} (r : trap + (X * sched_mem)) : option X := match r with inr (x, _) => Some x | inl _ => None end.

Lemma result_eq {X} (r : trap + (X * sched_mem)) x : value r = Some x -> r = inr (x, result r).
Proof. destruct r as [|[y s]]; [done|]. simpl. by intros [= ->]. Qed.

(** After [sched_init], and after two more threads. *)
Definition booted : sched_mem := result (sched_init idle idle_flag ret_from_fork off).
Definition one : sched_mem := result (pthread_create idle_flag ret_from_fork None 0x40004000 1 booted).
Definition two : sched_mem := result (pthread_create idle_flag ret_from_fork None 0x40005000 2 one).

Definition main : Z := 0x50001228.
Definition t1 : Z := 0x50001428.
Definition t2 : Z := 0x50001628.

Definition one_queued : queues := <[NORMAL := [t1]]> no_queues.
Definition two_queued : queues := <[NORMAL := [t1; t2]]> one_queued.

Lemma booted_eq : sched_init idle idle_flag ret_from_fork off = inr ((), booted).
Proof.
  assert (E : value (sched_init idle idle_flag ret_from_fork off) = Some ()) by (vm_compute; reflexivity).
  exact (result_eq _ _ E).
Qed.

Lemma booted_started : exists idler, started off main idler booted.
Proof.
  pose proof (sched_init_ok idle idle_flag ret_from_fork off off_ok) as H.
  rewrite booted_eq in H. destruct H as (m & i & H). exists i.
  assert (C : cores booted = [Core 0 main 0; Core 1 0 0]) by (vm_compute; reflexivity).
  pose proof (sd_cores _ _ _ _ H) as C'. rewrite C in C'. by injection C' as ->.
Qed.

Lemma booted_inv : sched_inv booted no_queues.
Proof. destruct booted_started as [i H]. exact (sd_inv _ _ _ _ H). Qed.

Lemma size_ok : 0 <= stack_size None < 2 ^ 64.
Proof. by vm_compute. Qed.

Lemma made (s : sched_mem) Q start arg t :
  sched_inv s Q -> (arg =? idle_flag) = false ->
  value (pthread_create idle_flag ret_from_fork None start arg s) = Some (0, Some t) ->
  let s' := result (pthread_create idle_flag ret_from_fork None start arg s) in
  sched_inv s' (<[NORMAL := Q NORMAL ++ [t]]> Q) /\ cores s' = cores s /\
  forall u, u ∈ alive s -> unlinked (tasks s' u) = unlinked (tasks s u).
Proof.
  intros Hinv Ha Hv. assert (Hp : prio_of idle_flag None arg = NORMAL) by (unfold prio_of; by rewrite Ha).
  destruct (create_ok idle_flag ret_from_fork s Q None start arg Hinv size_ok) as (res & s' & E & C & H).
  { by rewrite Hp. }
  rewrite E in Hv |- *. injection Hv as ->. cbn [result]. destruct H as [[? _]|(t' & pg & fp & [= <-] & H)]; [done|].
  destruct H as [_ _ _ _ _ H6 _ H8 _]. rewrite Hp in H8. done.
Qed.

Lemma one_ok : sched_inv one one_queued /\ cores one = [Core 0 main 0; Core 1 0 0].
Proof.
  destruct (made booted no_queues 0x40004000 1 t1 booted_inv eq_refl ltac:(vm_compute; reflexivity)) as (H1 & H2 & _).
  split; [exact H1|]. unfold one. rewrite H2. vm_compute. reflexivity.
Qed.

Lemma two_ok : sched_inv two two_queued /\ cores two = [Core 0 main 0; Core 1 0 0].
Proof.
  destruct one_ok as [H1 H2].
  destruct (made one one_queued 0x40005000 2 t2 H1 eq_refl ltac:(vm_compute; reflexivity)) as (H3 & H4 & _).
  split; [exact H3|]. unfold two. by rewrite H4.
Qed.

(** ** Initialisation, creation *)

Lemma sched_init_refines_witness :
  statics off /\ exists main idler, sched_refines booted (boot_spec main idler) /\ main <> idler /\
    tasks booted main = main_fields 1.
Proof.
  split; [exact off_ok|]. pose proof (sched_init_refines idle_flag ret_from_fork idle off off_ok) as H.
  rewrite booted_eq in H. exact H.
Defined.

Lemma pthread_create_spec_witness :
  sched_inv booted no_queues /\ exists res s',
    pthread_create idle_flag ret_from_fork None 0x40004000 1 booted = inr (res, s') /\ cores s' = cores booted /\
    ((res = (EAGAIN, None) /\ sched_inv s' no_queues /\ (forall u, u ∈ alive booted -> u ∈ alive s' /\ tasks s' u = tasks booted u)) \/
     exists t page first_page, res = (0, Some t) /\
       created idle_flag ret_from_fork booted no_queues None 0x40004000 1 t page first_page s').
Proof.
  split; [exact booted_inv|].
  apply (pthread_create_spec idle_flag ret_from_fork booted no_queues None 0x40004000 1 booted_inv size_ok). by vm_compute.
Defined.

Lemma one_eq : pthread_create idle_flag ret_from_fork None 0x40004000 1 booted = inr ((0, Some t1), one).
Proof.
  assert (E : value (pthread_create idle_flag ret_from_fork None 0x40004000 1 booted) = Some (0, Some t1))
    by (vm_compute; reflexivity).
  exact (result_eq _ _ E).
Qed.

Lemma pthread_create_leaks_witness :
  sched_inv booted no_queues /\ pthread_create idle_flag ret_from_fork None 0x40004000 1 booted = inr ((0, Some t1), one) /\
  exists leaked, (leaked ∉ alive booted) /\ leaked ∈ alive one /\ leaked <> t1 /\ leaked <> stack_page (tasks one t1) /\
    (forall p, 0 <= p < COUNT -> leaked ∉ no_queues p) /\ forall cpu c, cores one !! cpu = Some c -> task c <> leaked.
Proof.
  split; [exact booted_inv|]. split; [exact one_eq|].
  apply (pthread_create_leaks idle_flag ret_from_fork booted one no_queues None 0x40004000 1 t1 booted_inv size_ok);
    [by vm_compute|reflexivity|exact one_eq].
Defined.

(** ** [sched_yield] *)

Lemma main_on_two : runs_on two 0 main.
Proof. exists (Core 0 main 0). split; [|reflexivity]. rewrite (proj2 two_ok). reflexivity. Qed.

Lemma main_runs : state (tasks two main) = TASK_RUNNING /\ priority (tasks two main) = NORMAL.
Proof. split; vm_compute; reflexivity. Qed.

Lemma main_can : runs (tasks two main) = true.
Proof. vm_compute. reflexivity. Qed.

Lemma sched_yield_spec_witness :
  sched_inv two two_queued /\ runs_on two 0 main /\ exists Q' s',
    sched_yield 0 zero_context two = inr (context (tasks two t1), s') /\ sched_inv s' Q' /\ runs_on s' 0 t1 /\
    Q' NORMAL = [t2; main].
Proof.
  split; [exact (proj1 two_ok)|]. split; [exact main_on_two|].
  pose proof (sched_yield_spec two two_queued 0 main zero_context (proj1 two_ok) main_on_two ltac:(done)
    (or_introl (proj1 main_runs))) as H.
  cbv zeta in H. rewrite main_can, (proj2 main_runs) in H.
  destruct (spec_yield two_queued main NORMAL true) as [Q' n] eqn:E.
  assert (En : n = t1 /\ Q' NORMAL = [t2; main]).
  { assert (E1 : ((spec_yield two_queued main NORMAL true).2, (spec_yield two_queued main NORMAL true).1 NORMAL)
        = (t1, [t2; main])) by (vm_compute; reflexivity).
    rewrite E in E1. by injection E1. }
  assert (E2 : (t1 =? main) = false) by reflexivity.
  destruct En as [-> HQ']. destruct H as (s' & H1 & H2 & H3 & _). exists Q', s'. rewrite E2 in H1. split; [exact H1|]. split; [exact H2|]. split; [|exact HQ'].
  apply (switched_runs two s' 0 main t1 main_on_two H3).
Defined.

Lemma sched_yield_highest_witness :
  sched_inv two two_queued /\ exists r s' Q' n, sched_yield 0 zero_context two = inr (r, s') /\ sched_inv s' Q' /\
    runs_on s' 0 n /\ state (tasks s' n) = TASK_RUNNING /\
    forall p t, 0 <= p < COUNT -> t ∈ Q' p -> priority (tasks s' t) <= priority (tasks s' n).
Proof.
  split; [exact (proj1 two_ok)|].
  exact (sched_yield_highest two two_queued 0 main zero_context (proj1 two_ok) main_on_two ltac:(done) (proj1 main_runs)).
Defined.

Lemma two_turn : turn two two_queued 0 NORMAL main.
Proof.
  split; [exact (proj1 two_ok)|exact main_on_two|done|exact (proj1 main_runs)|split; [exact (proj2 main_runs)|done]|].
  intros p Hp. unfold two_queued, one_queued. unfold NORMAL in *. rewrite !fn_lookup_insert_ne by lia. done.
Qed.

Lemma sched_round_robin_witness :
  turn two two_queued 0 NORMAL main /\ exists s',
    yields 0 [zero_context; zero_context; zero_context] two = inr ([t1; t2; main], s') /\
    turn s' two_queued 0 NORMAL main.
Proof.
  split; [exact two_turn|].
  exact (sched_round_robin two two_queued 0 NORMAL main [zero_context; zero_context; zero_context] two_turn eq_refl).
Defined.

(** ** Sequences of calls *)

Definition calls : list sop :=
  [Create None 0x40004000 1; Yield 0 zero_context; Create None 0x40005000 2; Yield 0 zero_context; Yield 0 zero_context].

Lemma calls_ok m : m <> 0 -> Forall (call_ok idle_flag [m; 0]) calls.
Proof. intros Hm. repeat constructor; try (exists m; by split); by vm_compute. Qed.

Lemma sched_trace_refines_witness :
  exists idler, sched_refines booted (boot_spec main idler) /\ Forall (call_ok idle_flag [main; 0]) calls /\
    exists s' σ', exec_calls idle_flag ret_from_fork calls booted = inr ((), s') /\
      spec_run idle_flag (boot_spec main idler) calls σ' /\ sched_refines s' σ' /\
      forall t p, sprio σ' !! t = Some p -> p <> IDLE -> t ∈ sq σ' p \/ exists cpu, runs_on s' cpu t.
Proof.
  destruct booted_started as [idler H]. exists idler.
  assert (Hr : sched_refines booted (boot_spec main idler)) by exact (started_refines off booted main idler H).
  assert (Hc : Forall (call_ok idle_flag [main; 0]) calls) by (by apply calls_ok).
  split; [exact Hr|]. split; [exact Hc|].
  exact (sched_trace_refines idle_flag ret_from_fork calls booted (boot_spec main idler) Hr Hc).
Defined.

Definition both : sched_mem := result (sched_init_secondary idle idle_flag ret_from_fork 1 booted).

Lemma both_eq : sched_init_secondary idle idle_flag ret_from_fork 1 booted = inr ((), both).
Proof.
  assert (E : value (sched_init_secondary idle idle_flag ret_from_fork 1 booted) = Some ()) by (vm_compute; reflexivity).
  exact (result_eq _ _ E).
Qed.

Lemma sched_init_secondary_refines_witness :
  exists i m idler, sched_refines booted (boot_spec main i) /\
    sched_refines both (Spec no_queues [main; m] (<[m := IDLE]> (<[idler := IDLE]> (sprio (boot_spec main i))))).
Proof.
  destruct booted_started as [i H]. exists i.
  assert (Hr : sched_refines booted (boot_spec main i)) by exact (started_refines off booted main i H).
  pose proof (sched_init_secondary_refines idle_flag ret_from_fork idle booted (boot_spec main i) 1 Hr ltac:(by vm_compute) eq_refl) as H1.
  rewrite both_eq in H1. destruct H1 as (m & idler & _ & _ & _ & _ & H1). exists m, idler. split; [exact Hr|exact H1].
Defined.

Lemma idle_thread_never_runs_witness :
  statics off /\ exists idler s', exec_calls idle_flag ret_from_fork calls booted = inr ((), s') /\ idler ∈ alive s' /\
    priority (tasks s' idler) = IDLE /\ forall cpu, ~ runs_on s' cpu idler.
Proof.
  split; [exact off_ok|].
  exact (idle_thread_never_runs idle_flag ret_from_fork idle off booted calls off_ok booted_eq (fun m Hm => calls_ok m Hm)).
Defined.

(** ** Exit and join *)

Lemma main_on_booted : runs_on booted 0 main.
Proof.
  assert (E : cores booted !! 0%nat = Some (Core 0 main 0)) by (vm_compute; reflexivity). exact (ex_intro _ _ (conj E eq_refl)).
Qed.

Lemma pthread_exit_reads_freed_witness :
  sched_inv booted no_queues /\ runs_on booted 0 main /\
  pthread_exit 0 0 7 zero_context booted = inl (BadAccess main).
Proof.
  split; [exact booted_inv|]. split; [exact main_on_booted|].
  apply (pthread_exit_reads_freed booted no_queues 0 main 7 zero_context 0 booted_inv main_on_booted ltac:(done));
    vm_compute; reflexivity.
Defined.

(** The main task joins the first thread, which then exits. *)
Definition joining : sched_mem := result (pthread_join_enter 0 t1 one).
Definition waiting : sched_mem := result (sched_yield 0 zero_context joining).

Lemma main_on_one : runs_on one 0 main.
Proof. exists (Core 0 main 0). split; [|reflexivity]. rewrite (proj2 one_ok). reflexivity. Qed.

Lemma t1_alive : t1 ∈ alive one.
Proof. by apply (qo_queue _ _ (si_queues _ _ (proj1 one_ok)) NORMAL); [|left]. Qed.

Lemma t1_ready : state (tasks one t1) <> TASK_EXITED.
Proof.
  assert (E : state (tasks one t1) = TASK_READY) by (vm_compute; reflexivity). rewrite E. discriminate.
Qed.

Lemma joining_ok : sched_inv joining one_queued /\ cores joining = [Core 0 main 0; Core 1 0 0].
Proof.
  destruct (join_enter_ok one one_queued 0 main t1 (proj1 one_ok) main_on_one ltac:(done) t1_alive ltac:(done) t1_ready)
    as (s' & E & H & _ & _ & _ & _ & C).
  unfold joining. rewrite E. cbn [result]. split; [exact H|]. rewrite C. exact (proj2 one_ok).
Qed.

Lemma joining_blocked : runs (tasks joining main) = false /\ priority (tasks joining main) = NORMAL.
Proof. split; vm_compute; reflexivity. Qed.

Lemma one_waits : exists p, 0 <= p < COUNT /\ one_queued p <> [].
Proof. exists NORMAL. split; [by vm_compute|]. by vm_compute. Qed.

Lemma waiting_ok : exists Q, sched_inv waiting Q /\ runs_on waiting 0 t1.
Proof.
  destruct joining_ok as [Hinv Hc].
  assert (Hco : cores joining !! 0%nat = Some (Core 0 main 0)) by (by rewrite Hc).
  pose proof (yield_ok joining one_queued 0 (Core 0 main 0) zero_context Hinv Hco ltac:(done)
    (or_intror one_waits)) as H.
  cbv zeta in H. cbn [task] in H. rewrite (proj1 joining_blocked), (proj2 joining_blocked) in H.
  destruct (spec_yield one_queued main NORMAL false) as [Q' n] eqn:E.
  assert (En : n = t1).
  { assert (E1 : (spec_yield one_queued main NORMAL false).2 = t1) by (vm_compute; reflexivity). by rewrite E in E1. }
  destruct H as (s' & H1 & H2 & H3 & _). exists Q'.
  assert (Ew : waiting = s') by (unfold waiting; rewrite H1; reflexivity). rewrite Ew. split; [exact H2|].
  exists (Core 0 n 0). split; [|exact En]. rewrite H3, Hc. reflexivity.
Qed.

Lemma pthread_exit_joiner_hangs_witness :
  exists Q, sched_inv waiting Q /\ runs_on waiting 0 t1 /\ forall fuel, pthread_exit fuel 0 7 zero_context waiting = inl Hang.
Proof.
  destruct waiting_ok as (Q & Hinv & Hon). exists Q. split; [exact Hinv|]. split; [exact Hon|].
  apply (pthread_exit_joiner_hangs waiting Q 0 t1 main 7 zero_context Hinv Hon ltac:(done)).
  - vm_compute. reflexivity.
  - done.
  - apply (bool_decide_eq_true_1 (main ∈ alive waiting)). vm_compute. reflexivity.
  - assert (E : priority (tasks waiting main) = NORMAL) by (vm_compute; reflexivity). rewrite E. clear. split; [discriminate|reflexivity].
Defined.

Lemma pthread_join_spec_witness :
  sched_inv one one_queued /\ runs_on one 0 main /\ exists Q' s1 s2,
    pthread_join_enter 0 t1 one = inr (None, s1) /\
    pthread_join_poll 0 t1 zero_context s1 = inr (Some (context (tasks one t1)), s2) /\ sched_inv s2 Q' /\
    runs_on s2 0 t1 /\ join_wait_queue (tasks s2 t1) = main /\ state (tasks s2 main) = TASK_BLOCKED.
Proof.
  split; [exact (proj1 one_ok)|]. split; [exact main_on_one|].
  destruct (pthread_join_spec one one_queued 0 main t1 zero_context (proj1 one_ok) main_on_one ltac:(done) t1_alive ltac:(done))
    as (_ & _ & H).
  specialize (H t1_ready one_waits).
  assert (Hp : priority (tasks one main) = NORMAL) by (vm_compute; reflexivity). rewrite Hp in H.
  destruct (spec_yield one_queued main NORMAL false) as [Q' n] eqn:E.
  assert (En : n = t1).
  { assert (E1 : (spec_yield one_queued main NORMAL false).2 = t1) by (vm_compute; reflexivity). by rewrite E in E1. }
  subst n. destruct H as (s1 & s2 & H1 & H2 & H3 & H4 & _ & H5 & H6 & _). exists Q', s1, s2.
  exact (conj H1 (conj H2 (conj H3 (conj H4 (conj H5 H6))))).
Defined.

(** The only other thread is the idle one. *)
Definition idle_thread : Z := 0x50001028.

Lemma pthread_join_alone_witness :
  sched_inv booted no_queues /\ runs_on booted 0 main /\ exists s1 s2,
    pthread_join_enter 0 idle_thread booted = inr (None, s1) /\ state (tasks s1 main) = TASK_BLOCKED /\
    next (tasks s1 main) = 0 /\ pthread_join_poll 0 idle_thread zero_context s1 = inr (Some zero_context, s2) /\
    runs_on s2 0 main /\ state (tasks s2 main) = TASK_RUNNING /\ next (tasks s2 main) = 0.
Proof.
  split; [exact booted_inv|]. split; [exact main_on_booted|].
  assert (Ha : idle_thread ∈ alive booted).
  { apply (bool_decide_eq_true_1 (idle_thread ∈ alive booted)). vm_compute. reflexivity. }
  assert (Hs : state (tasks booted idle_thread) = TASK_READY) by (vm_compute; reflexivity).
  assert (Hp : priority (tasks booted main) = NORMAL) by (vm_compute; reflexivity).
  assert (Hv : prev (tasks booted main) = 0) by (vm_compute; reflexivity).
  assert (Hw : join_wait_queue (tasks booted idle_thread) = 0) by (vm_compute; reflexivity).
  pose proof (pthread_join_alone booted no_queues 0 main idle_thread zero_context booted_inv main_on_booted ltac:(done) Ha
    ltac:(done) ltac:(by rewrite Hs) (fun _ _ => eq_refl) ltac:(by rewrite Hp) Hv) as H.
  cbv zeta in H. rewrite Hw in H. exact (H (or_introl eq_refl) ltac:(done)).
Defined.

(** ** Attributes *)

Lemma attr_calls_valid_witness :
  let os := [SetStackSize 100; SetStackSize 8192; SetSchedParam (Some 4); SetSchedParam (Some 5); Destroy; SetDetachState 1] in
  Forall attr_args os /\ exists rs a', attr_calls (Init :: os) (Some (Attr 9 9 9 9 9 9 9)) = (0 :: rs, Some a') /\
    Forall (fun r => r = 0 \/ r = EINVAL) rs /\ attr_ok a' /\
    4096 <= stack_size (Some a') < 2 ^ 64 /\ 0 <= prio_of idle_flag (Some a') 0 < COUNT.
Proof.
  intros os. assert (H : Forall attr_args os) by (unfold os; repeat (apply Forall_cons_2; [cbn; done || lia|]); apply Forall_nil_2). split; [exact H|].
  exact (attr_calls_valid idle_flag os (Attr 9 9 9 9 9 9 9) 0 H).
Defined.

Lemma attr_roundtrip_witness :
  is_initialized (Attr 0 16384 0 0 0 2 1) = 1 /\
  (pthread_attr_setstacksize (Some (Attr 0 16384 0 0 0 2 1)) 8192).1 = 0.
Proof.
  split; [reflexivity|].
  destruct (attr_roundtrip (Attr 0 16384 0 0 0 2 1) 8192 0 1 0 eq_refl) as (H & _).
  destruct (pthread_attr_setstacksize (Some (Attr 0 16384 0 0 0 2 1)) 8192) as [r a1]. exact (proj1 H).
Defined.
End SchedDemo.
