(* ===== verification/Stdio.v ===== *)
(** * Console input and output (src/src/stdio.c)

    The routines as programs over the console: the memory, the characters the
    UART has sent and those it will receive. Reads of the UART's flag register
    are a parameter, [uart_fr n] for the n-th read; its bit 4 is also set when
    nothing is left to receive. [Spin] is a loop that has run out of fuel,
    [Undefined] a step C leaves undefined. *)

From S2P Require Import Prelude Memory CString Strings.

Module Stdio.
Import Strings.

Definition EOF : Z := -1.

Record console := Con {
  memory : mem;
  sent : list Z;
  incoming : list Z;
  polls : nat;
}.

Inductive stuck := Undefined | Spin.

Definition IO (X : Type) : Type := console -> stuck + (X * console).

#[export] Instance IO_ret : MRet IO := fun X x s => inr (x, s).
#[export] Instance IO_bind : MBind IO := fun X Y f m s =>
  match m s with inl e => inl e | inr (x, s) => f x s end.

Definition halt {X} (e : stuck) : IO X := fun _ => inl e.
Definition peek {X} (f : console -> X) : IO X := fun s => inr (f s, s).

Fixpoint loop_io {S R} (fuel : nat) (body : S -> IO (S + R)) (s : S) : IO R :=
  match fuel with
  | O => halt Spin
  | Datatypes.S fuel =>
      x ← body s;
      match x with inl s => loop_io fuel body s | inr r => mret r end
  end.

Definition load (a : Z) : IO Z := peek (fun s => load8 (memory s) a).
Definition change (f : mem -> mem) : IO () := fun s => inr ((), Con (f (memory s)) (sent s) (incoming s) (polls s)).
Definition store (a v : Z) : IO () := change (fun m => store8 m a v).

(** A local array: an access past its end is undefined. *)
Definition set_at (buffer : list Z) (i : nat) (v : Z) : IO (list Z) :=
  if decide (i < length buffer)%nat then mret (<[i := v]> buffer) else halt Undefined.

Section Uart.
Context (uart_fr : nat -> Z) (patience : nat).

(** A read of the flag register. *)
Definition read_fr : IO Z := fun s =>
  let v := uart_fr (polls s) in
  inr (if decide (incoming s = []) then Z.lor v (Z.shiftl 1 4) else v,
       Con (memory s) (sent s) (incoming s) (Datatypes.S (polls s))).

(** The loop that waits while a bit of the flag register is set. *)
Definition wait_clear (bit : Z) : IO () :=
  loop_io patience (fun _ : () => v ← read_fr; mret (if nonzero (Z.land v (Z.shiftl 1 bit)) then inl () else inr ())) ().

(** A write and a read of the data register. *)
Definition send (c : Z) : IO () := fun s => inr ((), Con (memory s) (sent s ++ [c]) (incoming s) (polls s)).
Definition receive : IO Z := fun s =>
  match incoming s with
  | [] => inl Undefined
  | c :: l => inr (c, Con (memory s) (sent s) l (polls s))
  end.

(** ** Characters and strings *)

Definition putchar (c : Z) : IO Z :=
  if 127 <? c then mret EOF
  else wait_clear 5;; send (u8 c);; mret c.

Definition getchar : IO Z :=
  wait_clear 4;;
  c ← receive;
  let c := Z.land c 0xFF in
  putchar c;;
  mret c.

(** The string at [str] is read by [rd]: from memory, or from a local array. *)
Definition puts_from (rd : Z -> IO Z) (fuel : nat) (str : Z) : IO Z :=
  loop_io fuel (fun '(str, ret) =>
    c ← rd str;
    if negb (c =? 0) then putchar c;; mret (inl (str + 1, ret + 1)) else mret (inr ret)) (str, 0).

Definition __puts (fuel : nat) (str : Z) : IO Z := puts_from load fuel str.

Definition puts (fuel : nat) (str : Z) : IO Z :=
  ret ← puts_from load fuel str;
  putchar 10;;
  mret (ret + 1).

Definition gets (fuel : nat) (str : Z) : IO Z :=
  i ← loop_io fuel (fun i =>
    c ← getchar;
    let c := u8 c in
    if negb (c =? 10) && negb (c =? 13) then store (str + i) c;; mret (inl (u32 (i + 1))) else mret (inr i)) 0;
  if i =? 0 then mret 0 else store (str + i) 0;; mret str.

(** ** Numbers *)

(** [while (i > 0) putchar(buffer[--i]);] *)
Fixpoint unwind (buffer : list Z) (i : nat) : IO () :=
  match i with
  | O => mret ()
  | Datatypes.S i => putchar (nth i buffer 0);; unwind buffer i
  end.

(** The two loops of printd, printld and printlu, with a buffer of [size]. *)
Definition digits (size : nat) (more : Z -> bool) (num ret : Z) : IO Z :=
  '(buffer, i, ret) ← loop_io (Datatypes.S size) (fun '(num, buffer, i, ret) =>
    if more num then
      buffer ← set_at buffer i (48 + Z.rem num 10);
      mret (inl (Z.quot num 10, buffer, Datatypes.S i, ret + 1))
    else mret (inr (buffer, i, ret))) (num, repeat 0 size, O, ret);
  unwind buffer i;;
  mret ret.

(** [-num] in a signed type of [w] bits. *)
Definition negate (w : Z) (num : Z) : IO Z :=
  if num =? - 2 ^ (w - 1) then halt Undefined else mret (- num).

Definition signed_decimal (w : Z) (size : nat) (num : Z) : IO Z :=
  if num =? 0 then putchar 48;; mret 1
  else
    '(num, ret) ← (if num <? 0 then putchar 45;; num ← negate w num; mret (num, 1) else mret (num, 0));
    digits size (fun num => 0 <? num) num ret.

Definition printd (num : Z) : IO Z := signed_decimal 32 12 num.
Definition printld (num : Z) : IO Z := signed_decimal 64 20 num.

Definition printlu (num : Z) : IO Z :=
  if num =? 0 then putchar 48;; mret 1 else digits 20 nonzero num 0.

Definition hex_char (uppercase : bool) (digit : Z) : Z :=
  u8 (if digit <? 10 then 48 + digit else (if uppercase then 65 else 97) + digit - 10).

(** [for (int j = 0, k = i - 1; j < k; j++, k--)]: exchange the ends. *)
Definition reverse_buf (buf : list Z) (i : Z) : list Z :=
  let '(buf, _, _) := while_by (fun '(_, j, k) => k - j) (fun '(_, j, k) => j <? k) (fun '(buf, j, k) =>
    let temp := nth (Z.to_nat j) buf 0 in
    let buf := <[Z.to_nat j := nth (Z.to_nat k) buf 0]> buf in
    (<[Z.to_nat k := temp]> buf, j + 1, k - 1)) (buf, 0, i - 1) in buf.

Definition hex (size : nat) (limit : nat) (num : Z) (uppercase : bool) : IO Z :=
  '(buf, i) ← loop_io (Datatypes.S size) (fun '(num, buf, i) =>
    let digit := Z.rem num 16 in
    buf ← set_at buf i (hex_char uppercase digit);
    let i := Datatypes.S i in
    let num := Z.quot num 16 in
    mret (if (0 <? num) && (i <? limit)%nat then inl (num, buf, i) else inr (buf, i))) (num, repeat 0 size, O);
  buf ← set_at buf i 0;
  let buf := reverse_buf buf (Z.of_nat i) in
  puts_from (fun a => mret (nth (Z.to_nat a) buf 0)) (Datatypes.S size) 0;;
  mret (Z.of_nat i - 1).

Definition printlx (num : Z) (uppercase : bool) : IO Z := hex 20 31 num uppercase.
Definition printx (num : Z) (uppercase : bool) : IO Z := hex 16 15 num uppercase.

(** ** [printf] and [scanf]

    [args] are the arguments [va_arg] has not read yet, as 64-bit values. *)

Definition va_arg (args : list Z) : IO (Z * list Z) :=
  match args with [] => halt Undefined | v :: args => mret (v, args) end.

(** One round of the loop. *)
Definition printf_step (fuel : nat) : Z * list Z * Z -> IO (Z * list Z * Z + Z) := fun '(p, args, ret) =>
    c ← load p;
    if c =? 0 then mret (inr ret)
    else if c =? 37 then
      c1 ← load (p + 1);
      if c1 =? 108 then
        c2 ← load (p + 2);
        if c2 =? 120 then
          '(v, args) ← va_arg args; n ← printlx (i64 v) false; mret (inl (p + 3, args, ret + n))
        else if c2 =? 88 then
          '(v, args) ← va_arg args; n ← printlx (i64 v) true; mret (inl (p + 3, args, ret + n))
        else if c2 =? 100 then
          '(v, args) ← va_arg args; n ← printld (i64 v); mret (inl (p + 3, args, ret + n))
        else if c2 =? 117 then
          '(v, args) ← va_arg args; n ← printlu (u64 v); mret (inl (p + 3, args, ret + n))
        else mret (inl (p, args, ret))
      else if c1 =? 100 then
        '(v, args) ← va_arg args; n ← printd (i32 v); mret (inl (p + 2, args, ret + n))
      else if c1 =? 115 then
        '(v, args) ← va_arg args; n ← __puts fuel v; mret (inl (p + 2, args, ret + n))
      else if c1 =? 120 then
        '(v, args) ← va_arg args; n ← printx (i32 v) false; mret (inl (p + 2, args, ret + n))
      else if c1 =? 88 then
        '(v, args) ← va_arg args; n ← printx (i32 v) true; mret (inl (p + 2, args, ret + n))
      else mret (inl (p + 1, args, ret))
    else putchar c;; mret (inl (p + 1, args, ret + 1)).

Definition printf (fuel : nat) (fmt : Z) (args : list Z) : IO Z :=
  loop_io fuel (printf_step fuel) (fmt, args, 0).

(** [buf] is the address of the local array of 64 characters; nothing keeps
    [gets] inside it. *)
Definition scand (fuel : nat) (buf : Z) : IO Z :=
  gets fuel buf;;
  m ← peek memory;
  match atoi fuel m buf with
  | None => halt Spin
  | Some None => halt Undefined
  | Some (Some v) => mret v
  end.

Definition scanf (fuel : nat) (buf : Z) (format : Z) (args : list Z) : IO Z :=
  loop_io fuel (fun '(p, args, ret) =>
    c ← load p;
    if c =? 0 then mret (inr ret)
    else if c =? 37 then
      c1 ← load (p + 1);
      if c1 =? 108 then mret (inl (p, args, ret))
      else if c1 =? 100 then
        '(num, args) ← va_arg args;
        v ← scand fuel buf;
        change (fun m => store32 m num (u32 v));;
        mret (inl (p + 2, args, ret + 1))
      else mret (inl (p, args, ret))
    else mret (inl (p + 1, args, ret))) (format, args, 0).
End Uart.
End Stdio.
