(* ===== verification/StdioSpec.v ===== *)
(** * What the console routines print and read

    A program that only prints is described by [prints]: the characters it
    sends. The numerals are described by their value. *)

From S2P Require Import Prelude Memory CString Strings Stdio.

Module StdioSpec.
Import Strings Stdio.

(** ** Stepping *)

Lemma io_bind {X Y} (m : IO X) (f : X -> IO Y) s s' x : m s = inr (x, s') -> (m ≫= f) s = f x s'.
Proof. intros H. unfold mbind, IO_bind. by rewrite H. Qed.

Lemma io_stuck {X Y} (m : IO X) (f : X -> IO Y) s e : m s = inl e -> (m ≫= f) s = inl e.
Proof. intros H. unfold mbind, IO_bind. by rewrite H. Qed.

(** The console after some characters have been sent. *)
Record sends (s : console) (l : list Z) (s' : console) : Prop := {
  sn_memory : memory s' = memory s;
  sn_sent : sent s' = sent s ++ l;
  sn_incoming : incoming s' = incoming s;
}.

(** In any console with the memory [m], [p] returns [x] having sent [l]. *)
Definition prints {X} (m : mem) (p : IO X) (x : X) (l : list Z) : Prop :=
  forall s, memory s = m -> exists s', p s = inr (x, s') /\ sends s l s'.

Lemma sends_nil s : sends s [] s.
Proof. split; [done|by rewrite app_nil_r|done]. Qed.

Lemma sends_trans s1 s2 s3 l1 l2 : sends s1 l1 s2 -> sends s2 l2 s3 -> sends s1 (l1 ++ l2) s3.
Proof.
  intros [H1 H2 H3] [G1 G2 G3]. split; [by rewrite G1|by rewrite G2, H2, (assoc_L (++))|by rewrite G3].
Qed.

Lemma prints_ret {X} m (x : X) : prints m (mret x) x [].
Proof. intros s _. exists s. split; [done|apply sends_nil]. Qed.

Lemma prints_bind {X Y} m (p : IO X) (f : X -> IO Y) x y l1 l2 :
  prints m p x l1 -> prints m (f x) y l2 -> prints m (p ≫= f) y (l1 ++ l2).
Proof.
  intros H1 H2 s Hm. destruct (H1 s Hm) as (s1 & E1 & S1).
  destruct (H2 s1) as (s2 & E2 & S2); [by rewrite (sn_memory _ _ _ S1)|].
  exists s2. split; [by erewrite io_bind by exact E1|by eapply sends_trans].
Qed.

(** A step that sends nothing. *)
Lemma prints_bind_l {X Y} m (p : IO X) (f : X -> IO Y) x y l :
  prints m p x [] -> prints m (f x) y l -> prints m (p ≫= f) y l.
Proof. intros H1 H2. exact (prints_bind m p f x y [] l H1 H2). Qed.

Lemma prints_bind_r {X Y} m (p : IO X) (f : X -> IO Y) x y l :
  prints m p x l -> prints m (f x) y [] -> prints m (p ≫= f) y l.
Proof. intros H1 H2. rewrite <- (app_nil_r l). exact (prints_bind m p f x y l [] H1 H2). Qed.

Lemma prints_load m a : prints m (load a) (load8 m a) [].
Proof. intros s <-. exists s. split; [done|apply sends_nil]. Qed.

Lemma prints_set m buffer (i : nat) v : (i < length buffer)%nat -> prints m (set_at buffer i v) (<[i := v]> buffer) [].
Proof. intros H. unfold set_at. rewrite decide_True by done. apply prints_ret. Qed.

Lemma prints_loop_next {S R} m fuel (body : S -> IO (S + R)) a a' r l1 l2 :
  prints m (body a) (inl a') l1 -> prints m (loop_io fuel body a') r l2 ->
  prints m (loop_io (Datatypes.S fuel) body a) r (l1 ++ l2).
Proof. intros H1 H2. cbn [loop_io]. by eapply prints_bind. Qed.

Lemma prints_loop_done {S R} m fuel (body : S -> IO (S + R)) a r l :
  prints m (body a) (inr r) l -> prints m (loop_io (Datatypes.S fuel) body a) r l.
Proof. intros H1. cbn [loop_io]. eapply prints_bind_r; [exact H1|apply prints_ret]. Qed.

(** What reaches the terminal of a list of characters. *)
Definition visible (l : list Z) : list Z := filter (fun c => c <= 127) l.

Section Uart.
Context (uart_fr : nat -> Z) (patience : nat).

(** The UART is found ready within [patience] reads of its flags: a documented
    duty of the hardware. *)
Definition responsive : Prop :=
  forall bit n, bit = 4 \/ bit = 5 -> exists k, (k < patience)%nat /\ Z.testbit (uart_fr (n + k)) bit = false.

Context (Hready : responsive).

Abbreviation putchar := (putchar uart_fr patience).
Abbreviation getchar := (getchar uart_fr patience).

Lemma wait_ok bit k : forall fuel s, (k < fuel)%nat ->
  Z.testbit (uart_fr (polls s + k)) bit = false -> bit = 5 \/ bit = 4 /\ incoming s <> [] ->
  exists s', loop_io fuel (fun _ : () =>
      v ← read_fr uart_fr; mret (if nonzero (Z.land v (Z.shiftl 1 bit)) then inl () else inr ())) () s = inr ((), s') /\
    sends s [] s'.
Proof.
  induction k as [|k IH]; intros [|fuel] s Hf Hb Hbit; try lia; cbn [loop_io].
  all: set (v := if decide (incoming s = []) then Z.lor (uart_fr (polls s)) (Z.shiftl 1 4) else uart_fr (polls s)).
  all: set (s1 := Con (memory s) (sent s) (incoming s) (Datatypes.S (polls s))).
  all: assert (H1 : sends s [] s1) by (split; [done|by rewrite app_nil_r|done]).
  all: assert (Hv : Z.testbit v bit = Z.testbit (uart_fr (polls s)) bit)
    by (unfold v; destruct Hbit as [->|[-> Hne]]; [case_decide; [|done]; by rewrite Z.lor_spec, orb_false_r|by rewrite decide_False]).
  all: erewrite io_bind by (rewrite (io_bind _ _ s s1 v) by done; rewrite nonzero_land_shiftl, Hv by lia; reflexivity).
  - rewrite Nat.add_0_r in Hb. rewrite Hb. exists s1. done.
  - destruct (Z.testbit (uart_fr (polls s)) bit); [|by exists s1].
    destruct (IH fuel s1) as (s2 & E2 & S2); [lia| |done|].
    + rewrite <- Hb. f_equal. f_equal. cbn [polls s1]. lia.
    + exists s2. split; [exact E2|]. exact (sends_trans s s1 s2 [] [] H1 S2).
Qed.

Lemma wait_clear_ok bit s : bit = 5 \/ bit = 4 /\ incoming s <> [] ->
  exists s', wait_clear uart_fr patience bit s = inr ((), s') /\ sends s [] s'.
Proof.
  intros Hbit. destruct (Hready bit (polls s)) as (k & Hk & Hb); [tauto|].
  by apply (wait_ok bit k).
Qed.

Lemma putchar_ok m c : c <= 127 -> prints m (putchar c) c [u8 c].
Proof.
  intros Hc s <-. unfold Stdio.putchar. destruct (127 <? c) eqn:E; [lia|].
  destruct (wait_clear_ok 5 s) as (s1 & E1 & S1); [by left|]. erewrite io_bind by exact E1.
  eexists. split; [by erewrite io_bind by done|]. rewrite <- (app_nil_l [u8 c]). eapply sends_trans; [exact S1|].
  by split.
Qed.

Lemma putchar_high m c : 127 < c -> prints m (putchar c) EOF [].
Proof. intros Hc. unfold Stdio.putchar. destruct (127 <? c) eqn:E; [|lia]. apply prints_ret. Qed.

(** A character as printing routines pass it: one outside ASCII is dropped. *)
Lemma putchar_byte m c : 0 <= c < 256 -> exists r, prints m (putchar c) r (visible [c]).
Proof.
  intros Hc. unfold visible. destruct (decide (c <= 127)) as [D|D].
  - exists c. rewrite filter_cons_True, filter_nil by done. pose proof (putchar_ok m c D) as H. by rewrite u8_id in H by lia.
  - exists EOF. rewrite filter_cons_False by done. apply putchar_high. lia.
Qed.

(** ** Strings *)

(** The bytes that [f] gives from [a] on are [l] and a terminator. *)
Fixpoint text_at (f : Z -> Z) (a : Z) (l : list Z) : Prop :=
  match l with
  | [] => f a = 0
  | c :: l => f a = c /\ 0 < c < 256 /\ text_at f (a + 1) l
  end.

Lemma cstr_text m a l : cstr m a l -> text_at (load8 m) a l.
Proof.
  revert a. induction l as [|c l IH]; intros a; [done|]. intros (H1 & H2 & H3). cbn [text_at].
  pose proof (load8_range m a). split_and!; [done|lia|lia|by apply IH].
Qed.

Lemma text_at_intro f l : forall a,
  (forall (x : nat) c, l !! x = Some c -> f (a + Z.of_nat x) = c /\ 0 < c < 256) -> f (a + len l) = 0 -> text_at f a l.
Proof.
  induction l as [|c l IH]; intros a H H0; [by rewrite Z.add_0_r in H0|]. cbn [text_at].
  destruct (H O c eq_refl) as [H1 H2]. rewrite Z.add_0_r in H1. split_and!; try done; try lia.
  apply IH; [|rewrite <- H0; f_equal; simpl; lia]. intros x d Hx.
  replace (a + 1 + Z.of_nat x) with (a + Z.of_nat (Datatypes.S x)) by lia. exact (H (Datatypes.S x) d Hx).
Qed.

Lemma puts_ok m (rd : Z -> IO Z) f l :
  (forall a, prints m (rd a) (f a) []) ->
  forall fuel str ret, text_at f str l -> (length l < fuel)%nat ->
  prints m (loop_io fuel (fun '(str, ret) =>
    c ← rd str;
    if negb (c =? 0) then putchar c;; mret (inl (str + 1, ret + 1)) else mret (inr ret)) (str, ret)) (ret + len l) (visible l).
Proof.
  intros Hrd. induction l as [|c l IH]; intros [|fuel] str ret Hl Hf; try (simpl in Hf; lia).
  - rewrite Z.add_0_r. apply prints_loop_done. eapply prints_bind_l; [apply Hrd|]. cbn [text_at] in Hl. rewrite Hl.
    apply prints_ret.
  - destruct Hl as (H1 & H2 & H3). replace (ret + len (c :: l)) with (ret + 1 + len l) by (simpl; lia).
    change (c :: l) with ([c] ++ l). unfold visible. rewrite list.filter_app.
    eapply prints_loop_next; [|apply IH; [exact H3|simpl in Hf; lia]].
    eapply prints_bind_l; [apply Hrd|]. rewrite H1. destruct (c =? 0) eqn:E; [lia|]. cbn [negb].
    destruct (putchar_byte m c ltac:(lia)) as [r Hr]. eapply prints_bind_r; [exact Hr|apply prints_ret].
Qed.

Lemma puts_memory m fuel str l : cstr m str l -> (length l < fuel)%nat ->
  prints m (__puts uart_fr patience fuel str) (len l) (visible l).
Proof. intros Hl Hf. apply (puts_ok m load (load8 m) l (prints_load m) fuel str 0); [by apply cstr_text|done]. Qed.
End Uart.
End StdioSpec.
