(* ===== verification/StdioNumbers.v ===== *)
(** * The number printers

    printd, printld and printlu print the decimal numeral of every value but
    the least one; printx and printlx print the hexadecimal numeral of every
    value that is not negative. No loop runs past its buffer. *)

From S2P Require Import Prelude Memory CString Strings Stdio StdioSpec.

Module StdioNumbers.
Import Strings Stdio StdioSpec.

(** ** Numerals *)

Definition hex_digit (uppercase : bool) (c : Z) : Z := if c <=? 57 then c - 48 else c - (if uppercase then 65 else 97) + 10.
Definition dec_digit (c : Z) : Z := c - 48.

(** The value of a list of digits, the first one the most significant. *)
Definition numeral_value (b : Z) (val : Z -> Z) (l : list Z) : Z := foldl (fun v c => v * b + val c) 0 l.

(** [l] is the shortest list of digits of [n] in base [b]. *)
Record numeral (b : Z) (val : Z -> Z) (n : Z) (l : list Z) : Prop := {
  nu_value : numeral_value b val l = n;
  nu_digits : forall c, c ∈ l -> 32 < c <= 127 /\ 0 <= val c < b;
  nu_short : match l with [] => False | [_] => True | c :: _ => val c <> 0 end;
}.

Definition low_value (b : Z) (val : Z -> Z) (l : list Z) : Z := foldr (fun c v => val c + b * v) 0 l.

Lemma rev_value b val l : numeral_value b val (reverse l) = low_value b val l.
Proof.
  unfold numeral_value, low_value. induction l as [|c l IH]; [done|].
  rewrite reverse_cons, foldl_app. cbn [foldl foldr]. rewrite IH. lia.
Qed.

Section Uart.
Context (uart_fr : nat -> Z) (patience : nat) (Hready : responsive uart_fr patience).

Lemma unwind_ok m buffer i :
  (i <= length buffer)%nat -> (forall c, c ∈ take i buffer -> 0 <= c <= 127) ->
  prints m (unwind uart_fr patience buffer i) () (reverse (take i buffer)).
Proof.
  induction i as [|i IH]; intros Hi Hc; [apply prints_ret|]. cbn [unwind].
  destruct (lookup_lt_is_Some_2 buffer i) as [c Hl]; [lia|].
  rewrite (take_S_r _ _ c Hl) in Hc |- *. rewrite reverse_app, reverse_singleton.
  assert (Hcc : 0 <= c <= 127) by (apply Hc, elem_of_app; right; by left).
  replace (nth i buffer 0) with c by (symmetry; by apply nth_lookup_Some).
  apply (prints_bind m _ _ c () [c] (reverse (take i buffer))).
  - pose proof (putchar_ok uart_fr patience Hready m c ltac:(lia)) as H. by rewrite u8_id in H by lia.
  - apply IH; [lia|]. intros x Hx. apply Hc, elem_of_app. by left.
Qed.

(** ** Decimal *)

Lemma digits_loop m size (more : Z -> bool) (Hmore : forall n, 0 <= n -> more n = (0 <? n)) :
  forall k fuel num buffer i ret, (k + i = size)%nat -> length buffer = size -> (k < fuel)%nat -> 0 <= num < 10 ^ Z.of_nat k ->
  exists buffer' ds, prints m (loop_io fuel (fun '(num, buffer, i, ret) =>
    if more num then
      buffer ← set_at buffer i (48 + Z.rem num 10);
      mret (inl (Z.quot num 10, buffer, Datatypes.S i, ret + 1))
    else mret (inr (buffer, i, ret))) (num, buffer, i, ret)) (buffer', (i + length ds)%nat, ret + len ds) [] /\
    take (i + length ds) buffer' = take i buffer ++ ds /\ (i + length ds <= length buffer')%nat /\
    low_value 10 dec_digit ds = num /\ (forall c, c ∈ ds -> 48 <= c <= 57) /\ (0 < num -> exists ds' c, ds = ds' ++ [c] /\ c <> 48) /\
    (num = 0 -> ds = []).
Proof.
  induction k as [|k IH]; intros [|fuel] num buffer i ret Hki Hlen Hf Hn; try lia.
  - assert (num = 0) as -> by lia. exists buffer, []. rewrite Nat.add_0_r, Z.add_0_r, app_nil_r.
    split_and!; try done; try lia; [|by intros c Hc%not_elem_of_nil].
    apply prints_loop_done. rewrite Hmore by lia. apply prints_ret.
  - destruct (decide (num = 0)) as [->|Hnz].
    { exists buffer, []. rewrite Nat.add_0_r, Z.add_0_r, app_nil_r.
      split_and!; try done; try lia; [|by intros c Hc%not_elem_of_nil].
      apply prints_loop_done. rewrite Hmore by lia. apply prints_ret. }
    rewrite Nat2Z.inj_succ, Z.pow_succ_r in Hn by lia.
    pose proof (Z.quot_div_nonneg num 10 ltac:(lia) ltac:(lia)) as Hq.
    pose proof (Z.rem_mod_nonneg num 10 ltac:(lia) ltac:(lia)) as Hr.
    pose proof (Z.mod_pos_bound num 10 ltac:(lia)). pose proof (Z.div_mod num 10 ltac:(lia)).
    assert (Hd : 0 <= num / 10 < 10 ^ Z.of_nat k) by (split; [apply Z.div_pos; lia|apply Z.div_lt_upper_bound; lia]).
    destruct (IH fuel (num / 10) (<[i := 48 + num mod 10]> buffer) (Datatypes.S i) (ret + 1))
      as (b' & ds & Hp & Ht & Hl & Hv & Hds & Hlast & Hz); [lia|by rewrite length_insert|lia|done|].
    exists b', ((48 + num mod 10) :: ds). split_and!.
    + replace (i + length ((48 + num mod 10)%Z :: ds))%nat with (Datatypes.S i + length ds)%nat by (simpl; lia).
      replace (ret + len ((48 + num mod 10) :: ds)) with (ret + 1 + len ds) by (simpl; lia).
      change (@nil Z) with (@nil Z ++ []). eapply prints_loop_next; [|exact Hp].
      rewrite Hmore by lia. destruct (0 <? num) eqn:E; [|lia]. rewrite Hq, Hr.
      eapply prints_bind_l; [apply prints_set; lia|apply prints_ret].
    + replace (i + length ((48 + num mod 10)%Z :: ds))%nat with (Datatypes.S i + length ds)%nat by (simpl; lia).
      rewrite Ht. rewrite (take_S_r _ _ (48 + num mod 10)) by (apply list_lookup_insert_eq; lia).
      rewrite take_insert_ge by lia. by rewrite <- (assoc_L (++)).
    + simpl. lia.
    + cbn [low_value foldr]. fold (low_value 10 dec_digit ds). rewrite Hv. unfold dec_digit. lia.
    + intros c [->|Hc]%elem_of_cons; [lia|by apply Hds].
    + intros _. destruct (decide (num / 10 = 0)) as [Hz0|Hz0].
      * rewrite (Hz Hz0). exists [], (48 + num mod 10). split; [done|lia].
      * destruct Hlast as (ds' & c & -> & Hc); [lia|]. by exists ((48 + num mod 10) :: ds'), c.
    + lia.
Qed.

Lemma elem_reverse (P : Z -> Prop) l : (forall c, c ∈ l -> P c) -> forall c, c ∈ reverse l -> P c.
Proof. intros H c Hc. apply H. exact (proj1 (elem_of_reverse c l) Hc). Qed.

Lemma digits_ok m size more num ret :
  (forall n, 0 <= n -> more n = (0 <? n)) -> 0 < num < 10 ^ Z.of_nat size ->
  exists l, numeral 10 dec_digit num l /\ prints m (digits uart_fr patience size more num ret) (ret + len l) l /\
    (forall c, c ∈ l -> is_digit c = true).
Proof.
  intros Hmore Hn.
  destruct (digits_loop m size more Hmore size (Datatypes.S size) num (repeat 0 size) 0 ret)
    as (b & ds & Hp & Ht & Hl & Hv & Hds & Hlast & _); [lia|by rewrite repeat_length|lia|lia|].
  cbn [Nat.add app] in *. rewrite take_0 in Ht. cbn [app] in Ht. exists (reverse ds). split; [|split].
  - split.
    + by rewrite rev_value.
    + apply elem_reverse. intros c Hc%Hds. unfold dec_digit. lia.
    + destruct Hlast as (ds' & c & -> & Hc); [lia|]. rewrite reverse_app, reverse_singleton. cbn [app].
      destruct (reverse ds'); [done|]. unfold dec_digit. lia.
  - rewrite length_reverse. eapply prints_bind_l; [exact Hp|]. cbn beta iota.
    eapply prints_bind_r; [|apply prints_ret]. pose proof (unwind_ok m b (length ds) Hl) as Hu. rewrite Ht in Hu.
    apply Hu. intros c Hc%Hds. lia.
  - apply elem_reverse. intros c Hc%Hds. unfold is_digit. lia.
Qed.

Lemma putchar_ascii m c : 0 <= c <= 127 -> prints m (putchar uart_fr patience c) c [c].
Proof. intros Hc. pose proof (putchar_ok uart_fr patience Hready m c ltac:(lia)) as H. by rewrite u8_id in H by lia. Qed.

(** The sign of a decimal. *)
Definition sign (num : Z) : list Z := if num <? 0 then [45] else [].

Lemma zero_numeral : numeral 10 dec_digit 0 [48].
Proof. split; [done| |done]. intros c ->%list_elem_of_singleton. unfold dec_digit. lia. Qed.

Lemma signed_ok m w size num :
  0 < w -> - 2 ^ (w - 1) < num < 2 ^ (w - 1) -> 2 ^ (w - 1) <= 10 ^ Z.of_nat size ->
  exists l, numeral 10 dec_digit (Z.abs num) l /\ (forall c, c ∈ l -> is_digit c = true) /\
    prints m (signed_decimal uart_fr patience w size num) (len (sign num ++ l)) (sign num ++ l).
Proof.
  intros Hw Hn Hsize. unfold signed_decimal, sign. destruct (num =? 0) eqn:E0.
  - assert (num = 0) as -> by lia. exists [48]. split; [apply zero_numeral|]. split.
    + by intros c ->%list_elem_of_singleton.
    + eapply prints_bind_r; [by apply putchar_ascii|apply prints_ret].
  - destruct (digits_ok m size (fun n => 0 <? n) (Z.abs num) (if num <? 0 then 1 else 0)) as (l & Hl & Hp & Hd);
      [done|lia|].
    exists l. split; [done|]. split; [done|]. destruct (num <? 0) eqn:E.
    + rewrite length_app, Nat2Z.inj_add. eapply prints_bind; [|].
      * eapply prints_bind_r; [by apply putchar_ascii|]. unfold negate.
        destruct (num =? - 2 ^ (w - 1)) eqn:E2; [lia|]. eapply prints_bind_l; apply prints_ret.
      * cbn beta iota. by rewrite Z.abs_neq in Hp by lia.
    + eapply prints_bind_l; [apply prints_ret|]. cbn beta iota. by rewrite Z.abs_eq in Hp by lia.
Qed.

(** ** Hexadecimal *)

Lemma hex_char_digit up d : 0 <= d < 16 ->
  48 <= hex_char up d <= 127 /\ hex_digit up (hex_char up d) = d.
Proof. intros Hd. unfold hex_char, hex_digit, u8. destruct up; repeat case_match; zdiv; lia. Qed.

Lemma hex_loop m size limit up : forall k fuel num buf i,
  (Datatypes.S k + i <= size)%nat -> (Datatypes.S k + i <= limit)%nat -> length buf = size -> (k < fuel)%nat ->
  0 <= num < 16 ^ Z.of_nat (Datatypes.S k) ->
  exists buf' ds, prints m (loop_io fuel (fun '(num, buf, i) =>
    let digit := Z.rem num 16 in
    buf ← set_at buf i (hex_char up digit);
    let i := Datatypes.S i in
    let num := Z.quot num 16 in
    mret (if (0 <? num) && (i <? limit)%nat then inl (num, buf, i) else inr (buf, i))) (num, buf, i))
      (buf', (i + length ds)%nat) [] /\
    take (i + length ds) buf' = take i buf ++ ds /\ (i + length ds <= i + Datatypes.S k)%nat /\ length buf' = size /\
    low_value 16 (hex_digit up) ds = num /\ (forall c, c ∈ ds -> 48 <= c <= 127 /\ 0 <= hex_digit up c < 16) /\
    exists ds' c, ds = ds' ++ [c] /\ (ds' <> [] -> hex_digit up c <> 0).
Proof.
  induction k as [|k IH]; intros [|fuel] num buf i Hs Hlim Hlen Hf Hn; try lia;
    rewrite Nat2Z.inj_succ, Z.pow_succ_r in Hn by lia;
    pose proof (Z.quot_div_nonneg num 16 ltac:(lia) ltac:(lia)) as Hq;
    pose proof (Z.rem_mod_nonneg num 16 ltac:(lia) ltac:(lia)) as Hr;
    pose proof (Z.mod_pos_bound num 16 ltac:(lia)) as Hm; pose proof (Z.div_mod num 16 ltac:(lia)) as Hdm;
    destruct (hex_char_digit up (num mod 16) Hm) as [Hc1 Hc2];
    set (c := hex_char up (num mod 16)) in *;
    assert (Htake : take (Datatypes.S i) (<[i := c]> buf) = take i buf ++ [c])
      by (rewrite (take_S_r _ _ c) by (apply list_lookup_insert_eq; lia); by rewrite take_insert_ge by lia).
  all: assert (Hstop : num / 16 = 0 -> exists buf' ds, prints m (loop_io (Datatypes.S fuel) (fun '(num, buf, i) =>
      let digit := Z.rem num 16 in
      buf ← set_at buf i (hex_char up digit);
      let i := Datatypes.S i in
      let num := Z.quot num 16 in
      mret (if (0 <? num) && (i <? limit)%nat then inl (num, buf, i) else inr (buf, i))) (num, buf, i))
        (buf', (i + length ds)%nat) [] /\
      take (i + length ds) buf' = take i buf ++ ds /\ length ds = 1%nat /\ length buf' = size /\
      low_value 16 (hex_digit up) ds = num /\ (forall c, c ∈ ds -> 48 <= c <= 127 /\ 0 <= hex_digit up c < 16) /\
      exists ds' c, ds = ds' ++ [c] /\ (ds' <> [] -> hex_digit up c <> 0)).
  1,3: intros Hz; exists (<[i := c]> buf), [c]; rewrite Nat.add_1_r; split_and!;
    [apply prints_loop_done; cbv zeta; rewrite Hq, Hr, Hz; eapply prints_bind_l; [apply prints_set; lia|apply prints_ret]
    |exact Htake|done|by rewrite length_insert|cbn [low_value foldr]; lia
    |intros x ->%list_elem_of_singleton; lia|by exists [], c].
  - destruct Hstop as (b & ds & ?H & ?H & ?H & ?H & ?H & ?H & ?H); [rewrite Z.pow_0_r in Hn; by apply Z.div_small; lia|].
    exists b, ds. split_and!; try done. lia.
  - destruct (decide (num / 16 = 0)) as [Hz|Hz].
    { destruct (Hstop Hz) as (b & ds & ?H & ?H & ?H & ?H & ?H & ?H & ?H). exists b, ds. split_and!; try done. lia. }
    clear Hstop. assert (Hd : 0 <= num / 16 < 16 ^ Z.of_nat (Datatypes.S k))
      by (split; [apply Z.div_pos; lia|apply Z.div_lt_upper_bound; lia]).
    destruct (IH fuel (num / 16) (<[i := c]> buf) (Datatypes.S i))
      as (b & ds & Hp & Ht & Hle & Hlb & Hv & Hds & ds' & x & Hx & Hx0); [lia|lia|by rewrite length_insert|lia|done|].
    exists b, (c :: ds). replace (i + length (c :: ds))%nat with (Datatypes.S i + length ds)%nat by (simpl; lia).
    split_and!; [|by rewrite Ht, Htake, <- (assoc_L (++))|lia|done|cbn [low_value foldr]; fold (low_value 16 (hex_digit up) ds); lia| |].
    + change (@nil Z) with (@nil Z ++ []). eapply prints_loop_next; [|exact Hp]. cbv zeta. rewrite Hq, Hr.
      eapply prints_bind_l; [apply prints_set; lia|]. fold c.
      assert (E : (0 <? num / 16) && (Datatypes.S i <? limit)%nat = true)
        by (apply andb_true_iff; split; [apply Z.ltb_lt; lia|apply Nat.ltb_lt; lia]). rewrite E. apply prints_ret.
    + intros y [->|Hy]%elem_of_cons; [lia|by apply Hds].
    + exists (c :: ds'), x. subst ds. split; [done|]. intros _. destruct ds' as [|y ds']; [|by apply Hx0].
      intros E. cbn [low_value foldr app] in Hv. lia.
Qed.

Lemma lookup_nth (b : list Z) i : (i < length b)%nat -> b !! i = Some (nth i b 0).
Proof. intros H. destruct (nth_lookup_or_length b i 0); [done|lia]. Qed.

(** The loop that exchanges the ends reverses the first [n] elements. *)
Lemma reverse_buf_lookup buf (n : nat) : (n <= length buf)%nat ->
  length (reverse_buf buf (Z.of_nat n)) = length buf /\
  forall x, reverse_buf buf (Z.of_nat n) !! x = if decide (x < n)%nat then buf !! (n - 1 - x)%nat else buf !! x.
Proof.
  intros Hn. unfold reverse_buf.
  pose (I := fun '(b, j, k) => j + k = Z.of_nat n - 1 /\ 0 <= j /\ length b = length buf /\ j <= k + 2 /\
    forall x : nat, b !! x = if decide ((Z.of_nat x < j \/ k < Z.of_nat x) /\ (x < n)%nat) then buf !! (n - 1 - x)%nat else buf !! x).
  pose proof (while_by_ind I (fun '(_, j, k) => k - j) (fun '(_, j, k) => j <? k) (fun '(buf, j, k) =>
    (<[Z.to_nat k := nth (Z.to_nat j) buf 0]> (<[Z.to_nat j := nth (Z.to_nat k) buf 0]> buf), j + 1, k - 1))
    (buf, 0, Z.of_nat n - 1)) as H.
  cbv zeta in H. destruct H as [HI Hc].
  - split_and!; try lia. intros x. rewrite decide_False by lia. done.
  - intros [[b j] k] (H1 & H2 & H3 & H4 & H5) Hjk. split; [|lia]. split_and!; [lia|lia|by rewrite !length_insert|lia|].
    intros x. destruct (decide (x = Z.to_nat k)) as [->|Hxk].
    + rewrite list_lookup_insert_eq by (rewrite length_insert; lia). rewrite decide_True by lia.
      rewrite <- lookup_nth, H5, decide_False by lia. f_equal. lia.
    + rewrite list_lookup_insert_ne by done. destruct (decide (x = Z.to_nat j)) as [->|Hxj].
      * rewrite list_lookup_insert_eq by lia. rewrite decide_True by lia.
        rewrite <- lookup_nth, H5, decide_False by lia. f_equal. lia.
      * rewrite list_lookup_insert_ne, H5 by done. by apply decide_ext; lia.
  - intros [[b j] k] _ Hjk. lia.
  - destruct (while_by _ _ _ _) as [[b j] k]. destruct HI as (H1 & H2 & H3 & H4 & H5). split; [done|].
    intros x. rewrite H5. destruct (decide (x < n)%nat) as [Hx|Hx]; [|by rewrite decide_False by lia].
    destruct (decide (Z.of_nat x < j \/ k < Z.of_nat x)) as [D|D]; [by rewrite decide_True by lia|].
    rewrite decide_False by lia. f_equal. lia.
Qed.

Lemma visible_ascii l : (forall c, c ∈ l -> 0 <= c <= 127) -> visible l = l.
Proof.
  induction l as [|c l IH]; intros H; [done|]. unfold visible. rewrite filter_cons_True by (apply H; by left).
  f_equal. apply IH. intros x Hx. apply H. by right.
Qed.

Lemma hex_ok m size limit up (d : nat) num :
  (0 < d)%nat -> (d < size)%nat -> (d <= limit)%nat -> 0 <= num < 16 ^ Z.of_nat d ->
  exists l, numeral 16 (hex_digit up) num l /\ prints m (hex uart_fr patience size limit num up) (len l - 1) l.
Proof.
  intros Hd Hs Hlim Hn. destruct d as [|k]; [lia|].
  destruct (hex_loop m size limit up k (Datatypes.S size) num (repeat 0 size) 0)
    as (b & ds & Hp & Ht & Hle & Hlb & Hv & Hds & ds' & x & Hx & Hx0); [lia|lia|by rewrite repeat_length|lia|done|].
  cbn [Nat.add] in *. rewrite take_0 in Ht. cbn [app] in Ht.
  assert (Hasc : forall c, c ∈ reverse ds -> 32 < c <= 127 /\ 0 <= hex_digit up c < 16).
  { apply elem_reverse. intros c Hc%Hds. lia. }
  exists (reverse ds). split.
  - split; [by rewrite rev_value|done|]. subst ds. rewrite reverse_app, reverse_singleton. cbn [app].
    destruct (reverse ds') as [|y l] eqn:E; [done|]. apply Hx0. intros ->. done.
  - unfold hex. eapply prints_bind_l; [exact Hp|]. cbn beta iota.
    eapply prints_bind_l; [apply prints_set; lia|]. cbv zeta.
    set (b2 := <[length ds := 0]> b). rewrite length_reverse.
    eapply prints_bind_r; [|apply prints_ret].
    destruct (reverse_buf_lookup b2 (length ds)) as [Hl2 Hrev]; [unfold b2; rewrite length_insert; lia|].
    set (b3 := reverse_buf b2 (Z.of_nat (length ds))) in *.
    rewrite <- (visible_ascii (reverse ds)) by (intros c Hc%Hasc; lia).
    apply (puts_ok uart_fr patience Hready m _ (fun a => nth (Z.to_nat a) b3 0) (reverse ds) (fun a => prints_ret m _) _ 0 0);
      [|rewrite length_reverse; lia].
    apply text_at_intro.
    + intros y c Hy. pose proof (lookup_lt_Some _ _ _ Hy) as Hlt. rewrite length_reverse in Hlt.
      assert (Hc : c ∈ reverse ds) by (by eapply list_elem_of_lookup_2). apply Hasc in Hc. split; [|lia].
      apply nth_lookup_Some. replace (Z.to_nat (0 + Z.of_nat y)) with y by lia.
      rewrite Hrev, decide_True by lia. unfold b2. rewrite list_lookup_insert_ne by lia.
      rewrite reverse_lookup in Hy by lia. rewrite <- (lookup_take_lt _ (length ds)), Ht by lia.
      rewrite <- Hy. f_equal. lia.
    + rewrite length_reverse. apply nth_lookup_Some. replace (Z.to_nat (0 + len ds)) with (length ds) by lia.
      rewrite Hrev, decide_False by lia. apply list_lookup_insert_eq. lia.
Qed.

(** ** The printers *)

Abbreviation printd := (printd uart_fr patience).
Abbreviation printld := (printld uart_fr patience).
Abbreviation printlu := (printlu uart_fr patience).
Abbreviation printx := (printx uart_fr patience).
Abbreviation printlx := (printlx uart_fr patience).

Lemma unsigned_ok m num : 0 <= num < 2 ^ 64 ->
  exists l, numeral 10 dec_digit num l /\ (forall c, c ∈ l -> is_digit c = true) /\ prints m (printlu num) (len l) l.
Proof.
  intros Hn. unfold Stdio.printlu. destruct (num =? 0) eqn:E0.
  - assert (num = 0) as -> by lia. exists [48]. split; [apply zero_numeral|].
    split; [by intros c ->%list_elem_of_singleton|]. eapply prints_bind_r; [by apply putchar_ascii|apply prints_ret].
  - destruct (digits_ok m 20 nonzero num 0) as (l & Hl & Hp & Hd); [intros n Hn'; unfold nonzero; lia|lia|].
    by exists l.
Qed.

Lemma least_undefined w size s : 0 < w -> signed_decimal uart_fr patience w size (- 2 ^ (w - 1)) s = inl Undefined.
Proof.
  intros Hw. destruct (putchar_ascii (memory s) 45 ltac:(lia) s eq_refl) as (s' & E & _).
  pose proof (Z.pow_pos_nonneg 2 (w - 1) ltac:(lia) ltac:(lia)). unfold signed_decimal.
  destruct (_ =? 0) eqn:E0; [lia|]. destruct (_ <? 0) eqn:E1; [|lia]. apply io_stuck. erewrite io_bind by exact E.
  unfold negate. by rewrite Z.eqb_refl.
Qed.

(** printd, printld and printlu return, within their buffers, having printed
    the shortest decimal numeral of their argument, after a minus sign when it
    is negative, and give the number of characters; only the least value of
    the signed types, whose negation overflows, is undefined. *)
Theorem print_decimal m num :
  (- 2 ^ 31 < num < 2 ^ 31 -> exists l, numeral 10 dec_digit (Z.abs num) l /\
     prints m (printd num) (len (sign num ++ l)) (sign num ++ l)) /\
  (- 2 ^ 63 < num < 2 ^ 63 -> exists l, numeral 10 dec_digit (Z.abs num) l /\
     prints m (printld num) (len (sign num ++ l)) (sign num ++ l)) /\
  (0 <= num < 2 ^ 64 -> exists l, numeral 10 dec_digit num l /\ prints m (printlu num) (len l) l) /\
  (forall s, printd (- 2 ^ 31) s = inl Undefined /\ printld (- 2 ^ 63) s = inl Undefined).
Proof.
  split_and!.
  - intros Hn. destruct (signed_ok m 32 12 num) as (l & Hl & _ & Hp); [lia|lia|lia|]. by exists l.
  - intros Hn. destruct (signed_ok m 64 20 num) as (l & Hl & _ & Hp); [lia|lia|lia|]. by exists l.
  - intros Hn. destruct (unsigned_ok m num Hn) as (l & Hl & _ & Hp). by exists l.
  - intros s. split; [apply (least_undefined 32 12)|apply (least_undefined 64 20)]; lia.
Qed.

(** printx and printlx print the shortest hexadecimal numeral of an argument
    that is not negative, within their buffers, and return one less than the
    number of characters. *)
Theorem print_hexadecimal m num up :
  (0 <= num < 2 ^ 31 -> exists l, numeral 16 (hex_digit up) num l /\ prints m (printx num up) (len l - 1) l) /\
  (0 <= num < 2 ^ 63 -> exists l, numeral 16 (hex_digit up) num l /\ prints m (printlx num up) (len l - 1) l).
Proof.
  split; intros Hn.
  - apply (hex_ok m 16 15 up 8); [lia|lia|lia|]. change (16 ^ Z.of_nat 8) with (2 ^ 32). lia.
  - apply (hex_ok m 20 31 up 16); [lia|lia|lia|]. change (16 ^ Z.of_nat 16) with (2 ^ 64). lia.
Qed.

(** Of a negative argument, as the addresses of the upper half of the address
    space are to printlx, printx and printlx print a single character, a digit
    only when the argument is a multiple of 16. *)
Theorem print_hex_negative m num up :
  num < 0 ->
  prints m (printlx num up) 0 [48 + Z.rem num 16] /\ prints m (printx num up) 0 [48 + Z.rem num 16] /\
  48 + Z.rem num 16 <= 48.
Proof.
  intros Hn. pose proof (Z.rem_bound_pos_neg num 16 ltac:(lia) ltac:(lia)) as Hr.
  assert (Hq : Z.quot num 16 <= 0) by (pose proof (Z.quot_rem' num 16); lia).
  assert (Hx : hex_char up (Z.rem num 16) = 48 + Z.rem num 16).
  { unfold hex_char. destruct (Z.rem num 16 <? 10) eqn:E; [|lia]. apply u8_id. lia. }
  assert (H : forall size limit, (1 < size)%nat -> prints m (hex uart_fr patience size limit num up) 0 [48 + Z.rem num 16]).
  { intros size limit Hs. unfold hex. destruct size as [|[|size]]; try lia.
    eapply prints_bind_l.
    - apply prints_loop_done. cbv zeta. eapply prints_bind_l; [apply prints_set; simpl; lia|].
      assert (E : (0 <? Z.quot num 16) = false) by lia. rewrite E. apply prints_ret.
    - cbn beta iota. eapply prints_bind_l; [apply prints_set; simpl; lia|]. rewrite Hx. cbv zeta.
      eapply prints_bind_r; [|apply prints_ret].
      rewrite <- (visible_ascii [48 + Z.rem num 16]) by (intros c ->%list_elem_of_singleton; lia).
      apply (puts_ok uart_fr patience Hready m _ (fun a => nth (Z.to_nat a) (reverse_buf
        (<[1%nat := 0]> (<[0%nat := 48 + Z.rem num 16]> (repeat 0 (Datatypes.S (Datatypes.S size))))) 1) 0)
        [48 + Z.rem num 16] (fun a => prints_ret m _) _ 0 0); [|simpl; lia].
      cbn [text_at]. split_and!; try done; lia. }
  split_and!; [apply H; lia|apply H; lia|lia].
Qed.
End Uart.
End StdioNumbers.
