(* ===== verification/StdioPrintf.v ===== *)
(** * [printf]

    A format is a sequence of items; each prints its own text. *)

From stdpp Require Import strings.
From S2P Require Import Prelude Memory CString Strings Stdio StdioSpec StdioNumbers.

Module StdioPrintf.
Import Strings Stdio StdioSpec StdioNumbers.

(** The characters of a literal. *)
Definition codes (s : string) : list Z := (fun c => Z.of_nat (Ascii.nat_of_ascii c)) <$> String.list_ascii_of_string s.

Definition newline : Z := 10.

(** A literal character, one of the conversions [printf] knows with its
    argument, or a percent sign that starts no conversion. *)
Inductive item :=
| Lit (c : Z)
| Dec (v : Z) | Str (a : Z) (l : list Z) | Hex (up : bool) (v : Z)
| LDec (v : Z) | LUns (v : Z) | LHex (up : bool) (v : Z)
| Percent.

Definition item_fmt (it : item) : list Z :=
  match it with
  | Lit c => [c]
  | Dec _ => [37; 100] | Str _ _ => [37; 115] | Hex up _ => [37; if up then 88 else 120]
  | LDec _ => [37; 108; 100] | LUns _ => [37; 108; 117] | LHex up _ => [37; 108; if up then 88 else 120]
  | Percent => [37]
  end.

Definition item_args (it : item) : list Z :=
  match it with
  | Lit _ | Percent => []
  | Dec v | Str v _ | Hex _ v | LDec v | LUns v | LHex _ v => [v]
  end.

(** The arguments for which C defines the conversion: strings are terminated,
    and the least number of either width has no negation. *)
Definition item_ok (m : mem) (fuel : nat) (it : item) : Prop :=
  match it with
  | Lit c => 0 < c < 256 /\ c <> 37
  | Dec v => i32 v <> - 2 ^ 31
  | Str a l => cstr m a l /\ (length l < fuel)%nat
  | LDec v => i64 v <> - 2 ^ 63
  | Hex _ _ | LUns _ | LHex _ _ | Percent => True
  end.

(** The items make up a format: what follows a bare percent sign, if anything,
    does not make it a conversion. *)
Fixpoint items_ok (m : mem) (fuel : nat) (items : list item) : Prop :=
  match items with
  | [] => True
  | it :: items =>
      item_ok m fuel it /\
      match it with
      | Percent => default 0 (head (concat (item_fmt <$> items))) ∉ [108; 100; 115; 120; 88]
      | _ => True
      end /\ items_ok m fuel items
  end.

(** Formats without bare percent signs. *)
Definition plain (items : list item) : bool := forallb (fun it => match it with Percent => false | _ => true end) items.

Lemma items_ok_plain m fuel items : Forall (item_ok m fuel) items -> plain items = true -> items_ok m fuel items.
Proof.
  unfold plain. induction 1 as [|it items Hit Hits IH]; [done|]. cbn [forallb]. rewrite andb_true_iff. intros [H1 H2].
  split; [done|]. split; [by destruct it|auto].
Qed.

(** What the hexadecimal conversions print and count: the numeral of a number
    that is not negative, of a negative one a single character. *)
Definition hex_text (up : bool) (v : Z) (l : list Z) (n : Z) : Prop :=
  if v <? 0 then l = [48 + Z.rem v 16] /\ n = 0
  else numeral 16 (hex_digit up) v l /\ n = len l - 1.

(** [l] is what the item prints and [n] what it adds to the result. *)
Definition item_text (it : item) (l : list Z) (n : Z) : Prop :=
  match it with
  | Lit c => l = visible [c] /\ n = 1
  | Dec v => exists ds, numeral 10 dec_digit (Z.abs (i32 v)) ds /\ l = sign (i32 v) ++ ds /\ n = len l
  | Str _ s => l = visible s /\ n = len s
  | Hex up v => hex_text up (i32 v) l n
  | LDec v => exists ds, numeral 10 dec_digit (Z.abs (i64 v)) ds /\ l = sign (i64 v) ++ ds /\ n = len l
  | LUns v => numeral 10 dec_digit (u64 v) l /\ n = len l
  | LHex up v => hex_text up (i64 v) l n
  | Percent => l = [] /\ n = 0
  end.

Section Uart.
Context (uart_fr : nat -> Z) (patience : nat) (Hready : responsive uart_fr patience).

Abbreviation printf_step := (printf_step uart_fr patience).

(** A round that reads no more than the character at [p]. *)
Lemma literal_step m F p c args ret :
  load8 m p = c -> 0 < c < 256 -> c <> 37 ->
  prints m (printf_step F (p, args, ret)) (inl (p + 1, args, ret + 1)) (visible [c]).
Proof.
  intros Hl Hc Hp. unfold Stdio.printf_step. eapply prints_bind_l; [apply prints_load|]. rewrite Hl.
  destruct (c =? 0) eqn:E0; [lia|]. destruct (c =? 37) eqn:E1; [lia|].
  destruct (putchar_byte uart_fr patience Hready m c ltac:(lia)) as [r Hr].
  eapply prints_bind_r; [exact Hr|apply prints_ret].
Qed.

Lemma i32_range v : - 2 ^ 31 <= i32 v < 2 ^ 31.
Proof. unfold i32. zdiv. Qed.
Lemma i64_range v : - 2 ^ 63 <= i64 v < 2 ^ 63.
Proof. unfold i64. zdiv. Qed.

(** A round at a conversion, whose characters are known, up to its printer. *)
Ltac at_conversion :=
  unfold Stdio.printf_step;
  repeat (eapply prints_bind_l; [apply prints_load|];
          match goal with H : load8 _ ?a = _ |- context [load8 _ ?a] => rewrite H end; cbn [Z.eqb Pos.eqb]);
  eapply prints_bind_l; [apply prints_ret|]; cbn beta iota.

Lemma decimal_step m F p v : cells m p [37; 100] -> i32 v <> - 2 ^ 31 ->
  exists l n, item_text (Dec v) l n /\ forall args ret,
    prints m (printf_step F (p, v :: args, ret)) (inl (p + 2, args, ret + n)) l.
Proof.
  intros (H1 & _ & H2 & _) Hv.
  destruct (signed_ok uart_fr patience Hready m 32 12 (i32 v)) as (ds & Hds & _ & Hp);
    [lia|pose proof (i32_range v); lia|lia|].
  eexists _, _. split; [by exists ds|]. intros args ret. at_conversion.
  eapply prints_bind_r; [exact Hp|apply prints_ret].
Qed.

Lemma string_step m F p v s : cells m p [37; 115] -> cstr m v s -> (length s < F)%nat ->
  exists l n, item_text (Str v s) l n /\ forall args ret,
    prints m (printf_step F (p, v :: args, ret)) (inl (p + 2, args, ret + n)) l.
Proof.
  intros (H1 & _ & H2 & _) Hs Hf. eexists _, _. split; [done|]. intros args ret. at_conversion.
  eapply prints_bind_r; [by apply puts_memory|apply prints_ret].
Qed.

(** Both hexadecimal printers, whatever the sign. *)
Lemma printx_ok m up v : exists l n, hex_text up (i32 v) l n /\ prints m (printx uart_fr patience (i32 v) up) n l.
Proof.
  pose proof (i32_range v). unfold hex_text. destruct (i32 v <? 0) eqn:E.
  - eexists _, _. split; [by split|]. apply (print_hex_negative uart_fr patience Hready). lia.
  - destruct (hex_ok uart_fr patience Hready m 16 15 up 8 (i32 v)) as (l & Hl & Hp);
      [lia|lia|lia|change (16 ^ Z.of_nat 8) with (2 ^ 32); lia|]. eexists _, _. by split; [split|].
Qed.

Lemma printlx_ok m up v : exists l n, hex_text up (i64 v) l n /\ prints m (printlx uart_fr patience (i64 v) up) n l.
Proof.
  pose proof (i64_range v). unfold hex_text. destruct (i64 v <? 0) eqn:E.
  - eexists _, _. split; [by split|]. apply (print_hex_negative uart_fr patience Hready). lia.
  - destruct (hex_ok uart_fr patience Hready m 20 31 up 16 (i64 v)) as (l & Hl & Hp);
      [lia|lia|lia|change (16 ^ Z.of_nat 16) with (2 ^ 64); lia|]. eexists _, _. by split; [split|].
Qed.

Lemma hex_step m F p (up : bool) v : cells m p [37; if up then 88 else 120] ->
  exists l n, item_text (Hex up v) l n /\ forall args ret,
    prints m (printf_step F (p, v :: args, ret)) (inl (p + 2, args, ret + n)) l.
Proof.
  intros (H1 & _ & H2 & _). destruct (printx_ok m up v) as (l & n & Hl & Hp).
  exists l, n. split; [exact Hl|]. intros args ret. destruct up; at_conversion;
    (eapply prints_bind_r; [exact Hp|apply prints_ret]).
Qed.

Lemma long_step m F p v : cells m p [37; 108; 100] -> i64 v <> - 2 ^ 63 ->
  exists l n, item_text (LDec v) l n /\ forall args ret,
    prints m (printf_step F (p, v :: args, ret)) (inl (p + 3, args, ret + n)) l.
Proof.
  intros (H1 & _ & H2 & _ & H3 & _) Hv. replace (p + 1 + 1) with (p + 2) in H3 by lia.
  destruct (signed_ok uart_fr patience Hready m 64 20 (i64 v)) as (ds & Hds & _ & Hp);
    [lia|pose proof (i64_range v); lia|lia|].
  eexists _, _. split; [by exists ds|]. intros args ret. at_conversion.
  eapply prints_bind_r; [exact Hp|apply prints_ret].
Qed.

Lemma unsigned_step m F p v : cells m p [37; 108; 117] ->
  exists l n, item_text (LUns v) l n /\ forall args ret,
    prints m (printf_step F (p, v :: args, ret)) (inl (p + 3, args, ret + n)) l.
Proof.
  intros (H1 & _ & H2 & _ & H3 & _). replace (p + 1 + 1) with (p + 2) in H3 by lia.
  destruct (unsigned_ok uart_fr patience Hready m (u64 v)) as (l & Hl & _ & Hp); [apply u64_range|].
  eexists _, _. split; [by split|]. intros args ret. at_conversion.
  eapply prints_bind_r; [exact Hp|apply prints_ret].
Qed.

Lemma long_hex_step m F p (up : bool) v : cells m p [37; 108; if up then 88 else 120] ->
  exists l n, item_text (LHex up v) l n /\ forall args ret,
    prints m (printf_step F (p, v :: args, ret)) (inl (p + 3, args, ret + n)) l.
Proof.
  intros (H1 & _ & H2 & _ & H3 & _). replace (p + 1 + 1) with (p + 2) in H3 by lia.
  destruct (printlx_ok m up v) as (l & n & Hl & Hp). exists l, n. split; [exact Hl|]. intros args ret. destruct up; at_conversion;
    (eapply prints_bind_r; [exact Hp|apply prints_ret]).
Qed.

(** A percent sign that starts no conversion is dropped. *)
Lemma percent_step m F p c args ret : load8 m p = 37 -> load8 m (p + 1) = c -> c ∉ [108; 100; 115; 120; 88] ->
  prints m (printf_step F (p, args, ret)) (inl (p + 1, args, ret)) [].
Proof.
  intros H1 H2 Hc. rewrite !not_elem_of_cons in Hc. unfold Stdio.printf_step.
  do 2 (eapply prints_bind_l; [apply prints_load|]; rewrite ?H1, ?H2; cbn [Z.eqb Pos.eqb]).
  assert (E1 : (c =? 108) = false) by lia. assert (E2 : (c =? 100) = false) by lia.
  assert (E3 : (c =? 115) = false) by lia. assert (E4 : (c =? 120) = false) by lia.
  assert (E5 : (c =? 88) = false) by lia. rewrite E1, E2, E3, E4, E5. apply prints_ret.
Qed.

(** The character a string starts with, its terminator when it is empty. *)
Lemma cstr_head m a l : cstr m a l -> load8 m a = default 0 (head l).
Proof. destruct l as [|c l]; [done|]. by intros (H & _). Qed.

(** One item takes one round. *)
Lemma item_step m F p it items :
  items_ok m F (it :: items) -> cstr m p (concat (item_fmt <$> it :: items)) ->
  exists l n, item_text it l n /\ forall args ret,
    prints m (printf_step F (p, item_args it ++ args, ret)) (inl (p + len (item_fmt it), args, ret + n)) l.
Proof.
  intros (Hok & Hnext & _) Hf. cbn [fmap list_fmap concat] in Hf. apply cstr_app in Hf as [Hf Hf2].
  destruct it as [c|v|a s|up v|v|v|up v|]; cbn [item_ok item_fmt item_args] in *.
  - exists (visible [c]), 1. split; [done|]. intros args ret. destruct Hf as (H & _).
    exact (literal_step m F p c args ret H (proj1 Hok) (proj2 Hok)).
  - by apply decimal_step.
  - destruct Hok. by apply string_step.
  - by apply hex_step.
  - by apply long_step.
  - by apply unsigned_step.
  - by apply long_hex_step.
  - exists [], 0. split; [done|]. intros args ret. rewrite Z.add_0_r. destruct Hf as (H & _).
    apply (percent_step m F p _ args ret H eq_refl). change (p + len [37]) with (p + 1) in Hf2.
    by rewrite (cstr_head _ _ _ Hf2).
Qed.

Lemma items_step m F items : forall p k args ret,
  cstr m p (concat (item_fmt <$> items)) -> items_ok m F items -> (0 < k)%nat ->
  exists texts, Forall2 (fun it o => item_text it o.1 o.2) items texts /\
    prints m (loop_io (length items + k) (printf_step F) (p, concat (item_args <$> items) ++ args, ret))
      (ret + foldr (fun o n => o.2 + n) 0 texts) (concat (fst <$> texts)).
Proof.
  induction items as [|it items IH]; intros p k args ret Hf Hok Hk.
  - exists []. split; [done|]. rewrite Z.add_0_r. destruct k as [|k]; [lia|]. cbn [Nat.add length].
    apply prints_loop_done. eapply prints_bind_l; [apply prints_load|]. cbn [fmap list_fmap concat cstr] in Hf.
    rewrite Hf. apply prints_ret.
  - destruct (item_step m F p it items Hok Hf) as (l & n & Ht & Hp). destruct Hok as (_ & _ & Hits).
    cbn [fmap list_fmap concat] in Hf. apply cstr_app in Hf as [_ Hf2].
    destruct (IH (p + len (item_fmt it)) k args (ret + n) Hf2 Hits Hk) as (texts & Hts & Hps).
    exists ((l, n) :: texts). split; [by constructor|].
    cbn [fmap list_fmap concat foldr fst snd length]. rewrite <- (assoc_L (++)), Z.add_assoc.
    cbn [Nat.add]. eapply prints_loop_next; [apply Hp|exact Hps].
Qed.

Lemma print_items m fuel fmt items args :
  cstr m fmt (concat (item_fmt <$> items)) -> items_ok m fuel items -> (length items < fuel)%nat ->
  exists texts, Forall2 (fun it o => item_text it o.1 o.2) items texts /\
    prints m (printf uart_fr patience fuel fmt (concat (item_args <$> items) ++ args))
      (foldr (fun o n => o.2 + n) 0 texts) (concat (fst <$> texts)).
Proof.
  intros Hf Hok Hk. destruct (items_step m fuel items fmt (fuel - length items) args 0 Hf Hok) as (texts & Ht & Hp); [lia|].
  exists texts. split; [done|]. unfold printf. by replace (length items + (fuel - length items))%nat with fuel in Hp by lia.
Qed.

(** C37 [printf] of a format made of literal characters, the conversions %d,
    %s, %x, %X, %ld, %lu, %lx, %lX and percent signs that start none of them,
    when the UART answers and no argument of %d or %ld is the least number of
    its width (its negation is undefined in C): it returns, having printed the
    texts of the items in order, each conversion with its own argument, and its
    result is the sum of what they count. Decimal numbers print their numeral
    with its sign; a hexadecimal conversion prints the numeral of an argument
    that is not negative as a signed number and counts one character too few,
    but of a negative one only the character [48 + v rem 16], and counts none;
    characters above 127 are dropped, in strings and in the format, and
    counted; a bare percent sign prints nothing. (%l before any other letter
    never returns: [printf_unknown_long].) *)
Theorem printf_prints m fuel fmt items args :
  cstr m fmt (concat (item_fmt <$> items)) -> items_ok m fuel items -> (length items < fuel)%nat ->
  exists texts, Forall2 (fun it o => item_text it o.1 o.2) items texts /\
    prints m (printf uart_fr patience fuel fmt (concat (item_args <$> items) ++ args))
      (foldr (fun o n => o.2 + n) 0 texts) (concat (fst <$> texts)).
Proof. apply print_items. Qed.

End Uart.

(** ** Formats [printf] does not return from *)

Section Stuck.
Context (uart_fr : nat -> Z) (patience : nat).

Abbreviation printf_step := (printf_step uart_fr patience).

(** Waiting for the UART and sending a character leave the memory alone. *)
Lemma wait_memory bit fuel : forall s,
  match loop_io fuel (fun _ : () => v ← read_fr uart_fr; mret (if nonzero (Z.land v (Z.shiftl 1 bit)) then inl () else inr ())) () s with
  | inl e => e = Spin
  | inr (_, s') => memory s' = memory s
  end.
Proof.
  induction fuel as [|fuel IH]; intros s; [done|]. cbn [loop_io].
  set (v := if decide (incoming s = []) then Z.lor (uart_fr (polls s)) (Z.shiftl 1 4) else uart_fr (polls s)).
  set (s1 := Con (memory s) (sent s) (incoming s) (Datatypes.S (polls s))).
  erewrite io_bind by (rewrite (io_bind _ _ s s1 v) by done; reflexivity).
  destruct (nonzero _); [exact (IH s1)|done].
Qed.

Lemma putchar_memory c s :
  match putchar uart_fr patience c s with inl e => e = Spin | inr (_, s') => memory s' = memory s end.
Proof.
  unfold Stdio.putchar. destruct (127 <? c); [done|]. unfold wait_clear. pose proof (wait_memory 5 patience s) as H.
  destruct (loop_io patience _ () s) as [e|[[] s1]] eqn:E; [by erewrite io_stuck by exact E|].
  erewrite io_bind by exact E. exact H.
Qed.

(** A round at [%l] before an unknown letter changes nothing at all. *)
Lemma unknown_step F p c args ret s : cells (memory s) p [37; 108] -> load8 (memory s) (p + 2) = c ->
  c ∉ [120; 88; 100; 117] -> printf_step F (p, args, ret) s = inr (inl (p, args, ret), s).
Proof.
  intros (H1 & _ & H2 & _) Hc Hn. rewrite !not_elem_of_cons in Hn. unfold Stdio.printf_step.
  do 3 (erewrite io_bind by reflexivity; rewrite ?H1, ?H2, ?Hc; cbn [Z.eqb Pos.eqb]).
  assert (E1 : (c =? 120) = false) by lia. assert (E2 : (c =? 88) = false) by lia.
  assert (E3 : (c =? 100) = false) by lia. assert (E4 : (c =? 117) = false) by lia.
  by rewrite E1, E2, E3, E4.
Qed.

(** [printf] does not return from a format with literal characters and then
    [%l] before a letter other than d, u, x or X, such as [%llx]: once there,
    its loop does not advance. *)
Lemma printf_stuck F fuel c args : c ∉ [120; 88; 100; 117] -> forall pre p ret s,
  cells (memory s) p (pre ++ [37; 108]) -> load8 (memory s) (p + len pre + 2) = c -> Forall (fun x => x <> 37) pre ->
  loop_io fuel (printf_step F) (p, args, ret) s = inl Spin.
Proof.
  intros Hc. induction fuel as [|fuel IH]; intros pre p ret s Hf Hl Hpre; [done|]. cbn [loop_io].
  destruct pre as [|x pre].
  - cbn [len length app] in *. rewrite Z.add_0_r in Hl. erewrite io_bind by (by eapply unknown_step).
    apply (IH []); [done|by rewrite Z.add_0_r|done].
  - cbn [app cells] in Hf. destruct Hf as (H1 & Hx & Hf). apply list.Forall_cons in Hpre as [Hx37 Hpre].
    pose proof (putchar_memory x s) as Hp.
    assert (E : printf_step F (p, args, ret) s =
      match putchar uart_fr patience x s with inl e => inl e | inr (_, s') => inr (inl (p + 1, args, ret + 1), s') end).
    { unfold Stdio.printf_step. erewrite io_bind by reflexivity. rewrite H1.
      destruct (x =? 0) eqn:E0; [lia|]. destruct (x =? 37) eqn:E1; [lia|]. reflexivity. }
    destruct (putchar uart_fr patience x s) as [e|[r s']].
    + erewrite io_stuck by exact E. by rewrite Hp.
    + erewrite io_bind by exact E. apply (IH pre); rewrite ?Hp; [done| |done].
      rewrite <- Hl. f_equal. cbn [length]. lia.
Qed.

Theorem printf_unknown_long m fuel fmt args c s :
  memory s = m -> cells m fmt [37; 108] -> load8 m (fmt + 2) = c -> c ∉ [120; 88; 100; 117] ->
  printf uart_fr patience fuel fmt args s = inl Spin.
Proof.
  intros <- Hf Hc Hn. apply (printf_stuck fuel fuel c args Hn []); [done|by rewrite Z.add_0_r|done].
Qed.
End Stuck.
End StdioPrintf.
