(* ===== verification/StdioRead.v ===== *)
(** * [gets], [scand] and [scanf] *)

From S2P Require Import Prelude Memory CString Strings Stdio StdioSpec StdioNumbers.

Module StdioRead.
Import Strings Stdio StdioSpec StdioNumbers.

Definition ends_line (c : Z) : Prop := c = 10 \/ c = 13.

(** The console after [gets] or [getchar] has read [line] and echoed it. *)
Record reads (s : console) (line : list Z) (rest : list Z) (s' : console) : Prop := {
  rd_sent : sent s' = sent s ++ visible line;
  rd_incoming : incoming s' = rest;
}.

Section Uart.
Context (uart_fr : nat -> Z) (patience : nat) (Hready : responsive uart_fr patience).

Abbreviation getchar := (getchar uart_fr patience).
Abbreviation gets := (gets uart_fr patience).
Abbreviation scand := (scand uart_fr patience).

Lemma getchar_ok s c rest : incoming s = c :: rest -> 0 <= c < 256 ->
  exists s', getchar s = inr (c, s') /\ memory s' = memory s /\ reads s [c] rest s'.
Proof.
  intros Hi Hc. unfold Stdio.getchar.
  destruct (wait_clear_ok uart_fr patience Hready 4 s) as (s1 & E1 & [S1 S2 S3]); [right; by rewrite Hi|].
  erewrite io_bind by exact E1. rewrite Hi in S3. set (s2 := Con (memory s1) (sent s1) rest (polls s1)).
  rewrite (io_bind _ _ s1 s2 c) by (unfold receive; by rewrite S3). cbv zeta.
  assert (E : Z.land c 0xFF = c) by (change 0xFF with (Z.ones 8); rewrite Z.land_ones, Z.mod_small by lia; done).
  rewrite E. destruct (putchar_byte uart_fr patience Hready (memory s2) c Hc) as [r Hr].
  destruct (Hr s2 eq_refl) as (s3 & E3 & [G1 G2 G3]). erewrite io_bind by exact E3.
  exists s3. split; [done|]. split; [by rewrite G1|]. split; [rewrite G2; cbn [sent s2]; by rewrite S2, app_nil_r|by rewrite G3].
Qed.

Lemma visible_app l1 l2 : visible (l1 ++ l2) = visible l1 ++ visible l2.
Proof. apply list.filter_app. Qed.

(** The bytes of [line] are at [a]. *)
Definition holds (m : mem) (a : Z) (line : list Z) : Prop :=
  forall (x : nat) c, line !! x = Some c -> load8 m (a + Z.of_nat x) = c.

Lemma gets_loop str e rest line : forall fuel i s,
  incoming s = line ++ e :: rest -> ends_line e -> (forall c, c ∈ line -> 0 <= c < 256 /\ ~ ends_line c) ->
  (length line < fuel)%nat -> 0 <= i -> i + len line < 2 ^ 32 ->
  exists s', loop_io fuel (fun i =>
      c ← getchar;
      let c := u8 c in
      if negb (c =? 10) && negb (c =? 13) then store (str + i) c;; mret (inl (u32 (i + 1))) else mret (inr i)) i s
      = inr (i + len line, s') /\
    reads s (line ++ [e]) rest s' /\ holds (memory s') (str + i) line /\
    agree (outside (str + i) (str + i + len line)) (memory s) (memory s') /\ (line = [] -> memory s' = memory s).
Proof.
  induction line as [|c line IH]; intros [|fuel] i s Hi He Hline Hf Hi0 Hlt; try (simpl in Hf; lia); cbn [loop_io app] in *.
  - destruct (getchar_ok s e rest Hi) as (s1 & E1 & M1 & R1); [destruct He; lia|].
    exists s1. split.
    + rewrite Z.add_0_r. rewrite (io_bind _ _ s s1 (inr i)); [done|]. erewrite io_bind by exact E1. cbv zeta.
      rewrite u8_id by (destruct He; lia). destruct He as [->| ->]; done.
    + split; [done|]. split; [by intros x d Hx|]. split; [|done]. intros a _. by rewrite M1.
  - destruct (Hline c ltac:(left)) as [Hc Hne].
    destruct (getchar_ok s c _ Hi Hc) as (s1 & E1 & M1 & [R1 R1']).
    set (s2 := Con (store8 (memory s1) (str + i) c) (sent s1) (incoming s1) (polls s1)).
    assert (E : negb (c =? 10) && negb (c =? 13) = true) by (unfold ends_line in Hne; lia).
    destruct (IH fuel (i + 1) s2) as (s3 & E3 & [R3 R3'] & H3 & A3 & _);
      [by rewrite <- R1'|done|intros d Hd; apply Hline; by right|simpl in Hf; lia|lia|simpl in Hlt; lia|].
    exists s3. split; [|split; [|split; [|split; [|done]]]].
    + rewrite (io_bind _ _ s s2 (inl (u32 (i + 1)))).
      2:{ erewrite io_bind by exact E1. cbv zeta. rewrite u8_id by lia. rewrite E. by rewrite (io_bind _ _ s1 s2 ()) by done. }
      rewrite u32_id by (simpl in Hlt; lia). rewrite E3. do 2 f_equal. simpl. lia.
    + split; [|done]. rewrite R3. cbn [sent s2]. rewrite R1. rewrite <- (assoc_L (++)), <- visible_app. done.
    + intros [|x] d Hx; simpl in Hx.
      * injection Hx as ->. rewrite A3 by (unfold outside; lia). cbn [memory s2]. rewrite Z.add_0_r, load8_store8_eq.
        apply Z.mod_small. lia.
      * rewrite <- (H3 x d Hx). f_equal. lia.
    + intros a Ha. unfold outside in Ha. simpl in Ha. rewrite A3 by (unfold outside; lia). cbn [memory s2].
      rewrite load8_store8_ne by lia. by rewrite M1.
Qed.

(** [gets] reads a line, echoes it and stores its characters and a
    terminator at [str], however long the line is and whatever lies behind
    [str]; of an empty line it stores nothing and returns NULL. *)
Lemma gets_ok fuel str line e rest s :
  incoming s = line ++ e :: rest -> ends_line e -> (forall c, c ∈ line -> 0 <= c < 256 /\ ~ ends_line c) ->
  (length line < fuel)%nat -> len line < 2 ^ 32 ->
  exists s', gets fuel str s = inr (if decide (line = []) then 0 else str, s') /\ reads s (line ++ [e]) rest s' /\
    (line = [] -> memory s' = memory s) /\
    (line <> [] -> holds (memory s') str (line ++ [0]) /\
       agree (outside str (str + len line + 1)) (memory s) (memory s')).
Proof.
  intros Hi He Hline Hf Hlt. unfold Stdio.gets.
  destruct (gets_loop str e rest line fuel 0 s) as (s1 & E1 & [R1 R1'] & H1 & A1 & M1); [done|done|done|done|lia|lia|].
  erewrite io_bind by exact E1. rewrite Z.add_0_l. rewrite Z.add_0_r in *.
  destruct line as [|c line].
  - exists s1. split; [done|]. split; [done|]. split; [done|done].
  - assert (E : (len (c :: line) =? 0) = false) by (simpl; lia). rewrite E.
    set (s2 := Con (store8 (memory s1) (str + len (c :: line)) 0) (sent s1) (incoming s1) (polls s1)).
    exists s2. split; [by rewrite (io_bind _ _ s1 s2 ()) by done|]. split; [done|]. split; [done|]. intros _. split.
    + intros x d. cbn [memory s2]. destruct (decide (x = length (c :: line))) as [->|Hx].
      * rewrite lookup_app_r, Nat.sub_diag by lia. intros [= <-]. by rewrite load8_store8_eq.
      * intros Hd. assert (Hlt' : (x < length (c :: line))%nat).
        { pose proof (lookup_lt_Some _ _ _ Hd) as Hb. rewrite length_app in Hb. simpl in *. lia. }
        rewrite lookup_app_l in Hd by done. rewrite load8_store8_ne by lia. by apply H1.
    + intros a Ha. unfold outside in Ha. cbn [memory s2]. rewrite load8_store8_ne by lia. apply A1. unfold outside. lia.
Qed.

Lemma holds_cstr m a line : holds m a (line ++ [0]) -> (forall c, c ∈ line -> c <> 0) -> cstr m a line.
Proof.
  revert a. induction line as [|c line IH]; intros a H Hnz; cbn [cstr].
  - rewrite <- (H O 0 eq_refl). f_equal. lia.
  - split; [|split; [apply Hnz; left|apply IH]].
    + rewrite <- (H O c eq_refl). f_equal. lia.
    + intros x d Hx. rewrite <- (H (Datatypes.S x) d Hx). f_equal. lia.
    + intros d Hd. apply Hnz. by right.
Qed.

(** C40 [scand] keeps its line in a local array of 64 characters, which nothing
    bounds: a line of 64 characters or more overwrites what lies behind the
    array. *)
Theorem gets_overflows fuel buf line e rest s :
  incoming s = line ++ e :: rest -> ends_line e -> (forall c, c ∈ line -> 0 <= c < 256 /\ ~ ends_line c) ->
  (length line < fuel)%nat -> len line < 2 ^ 32 -> 64 <= len line ->
  exists s', gets fuel buf s = inr (buf, s') /\
    forall x : nat, (64 <= x <= length line)%nat -> load8 (memory s') (buf + Z.of_nat x) = nth x line 0.
Proof.
  intros Hi He Hline Hf Hlt H64.
  destruct (gets_ok fuel buf line e rest s Hi He Hline Hf Hlt) as (s' & E & _ & _ & H).
  assert (Hne : line <> []) by (intros ->; simpl in H64; lia). rewrite decide_False in E by done.
  exists s'. split; [done|]. intros x Hx. destruct (H Hne) as [Hh _].
  destruct (decide (x = length line)) as [->|Hxl].
  - rewrite (Hh (length line) 0) by (by rewrite lookup_app_r, Nat.sub_diag by lia). symmetry. apply nth_overflow. lia.
  - apply Hh. rewrite lookup_app_l by lia. apply lookup_nth. lia.
Qed.

Lemma decimal_line num l : numeral 10 dec_digit (Z.abs num) l -> (forall c, c ∈ l -> is_digit c = true) ->
  (forall c, c ∈ sign num ++ l -> 32 < c <= 127) /\ digits_value 0 l = Z.abs num /\ l <> [].
Proof.
  intros [Hv _ Hs] Hd. split; [|split; [exact Hv|by intros ->]].
  intros c [Hc|Hc]%elem_of_app; [|specialize (Hd c Hc); unfold is_digit in Hd; lia].
  unfold sign in Hc. destruct (num <? 0); [apply list_elem_of_singleton in Hc; lia|by apply not_elem_of_nil in Hc].
Qed.

Lemma scand_ok fuel buf num l rest s :
  - 2 ^ 31 < num < 2 ^ 31 -> numeral 10 dec_digit (Z.abs num) l -> (forall c, c ∈ l -> is_digit c = true) ->
  incoming s = (sign num ++ l) ++ 10 :: rest -> buf <> 0 -> (length (sign num ++ l) < fuel)%nat -> len (sign num ++ l) < 2 ^ 32 ->
  exists s', scand fuel buf s = inr (num, s') /\ reads s ((sign num ++ l) ++ [10]) rest s' /\
    agree (outside buf (buf + len (sign num ++ l) + 1)) (memory s) (memory s').
Proof.
  intros Hn Hl Hd Hi Hb Hf Hlt. destruct (decimal_line num l Hl Hd) as (Hasc & Hv & Hne).
  destruct (gets_ok fuel buf (sign num ++ l) 10 rest s Hi) as (s1 & E1 & R1 & _ & H1);
    [by left|intros c Hc%Hasc; unfold ends_line; lia|done|done|].
  assert (Hne2 : sign num ++ l <> []) by (intros [_ E]%app_eq_nil; done). destruct (H1 Hne2) as [Hh Ha].
  exists s1. split; [|done]. unfold Stdio.scand. erewrite io_bind by exact E1. rewrite (io_bind _ _ s1 s1 (memory s1)) by done.
  assert (Hc : cstr (memory s1) buf (sign num ++ l)) by (apply holds_cstr; [done|intros c Hc%Hasc; lia]).
  rewrite (atoi_decimal fuel (memory s1) buf [] (num <? 0) l []); try done.
  - rewrite Hv. destruct (Z.abs num <? 2 ^ 31) eqn:E; [|lia].
    replace (if num <? 0 then - Z.abs num else Z.abs num) with num; [done|]. destruct (num <? 0) eqn:E2; lia.
  - rewrite app_nil_r. exact Hc.
  - intros c Hc'. by apply not_elem_of_nil in Hc'.
  - rewrite length_app in Hf. simpl. lia.
Qed.

(** C39 Round trip: the line that [printd] prints is read back by [scand] as the
    same number. *)
Theorem printd_scand m num :
  - 2 ^ 31 < num < 2 ^ 31 ->
  exists line, prints m (printd uart_fr patience num) (len line) line /\
    forall fuel buf rest s, incoming s = line ++ 10 :: rest -> buf <> 0 -> (length line < fuel)%nat -> len line < 2 ^ 32 ->
      exists s', scand fuel buf s = inr (num, s') /\ incoming s' = rest.
Proof.
  intros Hn. destruct (signed_ok uart_fr patience Hready m 32 12 num) as (l & Hl & Hd & Hp); [lia|lia|lia|].
  exists (sign num ++ l). split; [exact Hp|]. intros fuel buf rest s Hi Hb Hf Hlt.
  destruct (scand_ok fuel buf num l rest s Hn Hl Hd Hi Hb Hf Hlt) as (s' & E & [_ R] & _). by exists s'.
Qed.

(** [scanf] of a percent d, at a line that holds a decimal number, stores the
    number through its argument and returns 1. *)
Theorem scanf_decimal fuel buf fmt ptr num l rest s :
  - 2 ^ 31 < num < 2 ^ 31 -> numeral 10 dec_digit (Z.abs num) l -> (forall c, c ∈ l -> is_digit c = true) ->
  let line := sign num ++ l in
  incoming s = line ++ 10 :: rest -> buf <> 0 -> (length line + 1 < fuel)%nat -> len line < 2 ^ 32 ->
  cstr (memory s) fmt [37; 100] ->
  (fmt + 3 <= buf \/ buf + len line + 1 <= fmt) -> (fmt + 3 <= ptr \/ ptr + 4 <= fmt) ->
  exists s', scanf uart_fr patience fuel buf fmt [ptr] s = inr (1, s') /\ incoming s' = rest /\
    i32 (load32 (memory s') ptr) = num.
Proof.
  intros Hn Hl Hd line Hi Hb Hf Hlt (F1 & _ & F2 & _ & F3) Hd1 Hd2.
  replace (fmt + 1 + 1) with (fmt + 2) in F3 by lia.
  destruct (scand_ok fuel buf num l rest s Hn Hl Hd Hi Hb) as (s1 & E1 & [_ R1] & A1); [fold line; lia|done|]. fold line in A1. clearbody line.
  set (s2 := Con (store32 (memory s1) ptr (u32 num)) (sent s1) (incoming s1) (polls s1)).
  assert (Hend : load8 (memory s2) (fmt + 2) = 0).
  { cbn [memory s2]. rewrite load8_storen_ne by lia. rewrite A1 by (unfold outside; lia). done. }
  exists s2. split; [|split; [done|]].
  - unfold scanf. destruct fuel as [|[|fuel]]; [lia..|]. cbn [loop_io].
    rewrite (io_bind _ _ s s2 (inl (fmt + 2, [], 0 + 1))).
    + rewrite (io_bind _ _ s2 s2 (inr 1)); [done|]. rewrite (io_bind _ _ s2 s2 0) by (unfold load, peek; by rewrite Hend). done.
    + rewrite (io_bind _ _ s s 37) by (unfold load, peek; by rewrite F1). cbn [Z.eqb Pos.eqb].
      rewrite (io_bind _ _ s s 100) by (unfold load, peek; by rewrite F2). cbn [Z.eqb Pos.eqb].
      rewrite (io_bind _ _ s s (ptr, [])) by done. cbn beta iota. erewrite io_bind by exact E1. done.
  - cbn [memory s2]. rewrite loadn_storen_mod. unfold u32, i32. change (256 ^ Z.of_nat 4) with (2 ^ 32).
    rewrite Z.mod_mod by lia. zdiv.
Qed.
End Uart.
End StdioRead.
