(* ===== verification/StdioDemo.v ===== *)
(** * The console at concrete inputs

    A UART that is always ready, and a memory with a few strings. *)

From S2P Require Import Prelude Memory CString Strings Stdio StdioSpec StdioNumbers StdioPrintf StdioRead.

Module StdioDemo.
Import Strings Stdio StdioSpec StdioNumbers StdioPrintf StdioRead.

Definition ready : nat -> Z := fun _ => 0.

Lemma ready_responsive : responsive ready 1.
Proof. intros bit n _. exists O. split; [lia|]. apply Z.bits_0. Qed.

(** [bytes] at [a], over an empty memory. *)
Fixpoint bytes_at (m : mem) (a : Z) (bytes : list Z) : mem :=
  match bytes with [] => m | b :: bytes => bytes_at (store8 m a b) (a + 1) bytes end.

(** At 0x1000 the formats of "%d %s %x" and "%llx", at 0x1020 that of
    "%d %s %x%%%X"; at 0x2000 "ok"; at 0x3000 "%d". *)
Definition demo_mem : mem :=
  bytes_at (bytes_at (bytes_at (bytes_at ∅ 0x1020 [37; 100; 32; 37; 115; 32; 37; 120; 37; 37; 37; 88; 0]) 0x1000 [37; 100; 32; 37; 115; 32; 37; 120; 0; 37; 108; 108; 120; 0]) 0x2000 [111; 107; 0]) 0x3000 [37; 100; 0].

Definition demo (input : list Z) : console := Con demo_mem [] input 0.

Definition text (r : stuck + (Z * console)) : option (Z * list Z) :=
  match r with inl _ => None | inr (v, s) => Some (v, sent s) end.

Example printf_text :
  text (printf ready 1 20 0x1000 [u64 (-42); 0x2000; 255] (demo [])) = Some (8, [45; 52; 50; 32; 111; 107; 32; 102; 102]).
Proof. by vm_compute. Qed.

(** The percent signs print nothing, and -3 prints as one character. *)
Example printf_odd_text :
  text (printf ready 1 20 0x1020 [u64 (-42); 0x2000; 255; u64 (-3)] (demo []))
  = Some (8, [45; 52; 50; 32; 111; 107; 32; 102; 102; 45]).
Proof. by vm_compute. Qed.

Example scanf_text :
  text (scanf ready 1 20 0x4000 0x3000 [0x5000] (demo [45; 55; 13; 65])) = Some (1, [45; 55; 13]).
Proof. by vm_compute. Qed.

Lemma print_decimal_witness :
  exists l, numeral 10 dec_digit 42 l /\ prints demo_mem (printd ready 1 (-42)) (len (45 :: l)) (45 :: l).
Proof. exact (proj1 (print_decimal ready 1 ready_responsive demo_mem (-42)) ltac:(lia)). Defined.

Lemma print_hexadecimal_witness :
  exists l, numeral 16 (hex_digit true) 0xBEEF l /\ prints demo_mem (printx ready 1 0xBEEF true) (len l - 1) l.
Proof. exact (proj1 (print_hexadecimal ready 1 ready_responsive demo_mem 0xBEEF true) ltac:(lia)). Defined.

Lemma print_hex_negative_witness :
  prints demo_mem (printlx ready 1 (- 2 ^ 47 + 5) false) 0 [48 + Z.rem (- 2 ^ 47 + 5) 16].
Proof. exact (proj1 (print_hex_negative ready 1 ready_responsive demo_mem (- 2 ^ 47 + 5) false ltac:(lia))). Defined.

Definition demo_items : list item := [Dec (u64 (-42)); Lit 32; Str 0x2000 [111; 107]; Lit 32; Hex false 255; Percent; Percent; Hex true (u64 (-3))].

Lemma printf_prints_witness :
  exists texts, Forall2 (fun it o => item_text it o.1 o.2) demo_items texts /\
    prints demo_mem (printf ready 1 20 0x1020 (concat (item_args <$> demo_items) ++ []))
      (foldr (fun o n => o.2 + n) 0 texts) (concat (fst <$> texts)).
Proof.
  apply (printf_prints ready 1 ready_responsive demo_mem 20 0x1020 demo_items []).
  - vm_compute. repeat split; discriminate.
  - repeat split; try (apply (bool_decide_unpack _); by vm_compute); vm_compute; (discriminate || lia).
  - vm_compute. lia.
Defined.

Lemma printf_unknown_long_witness : printf ready 1 20 0x1009 [0] (demo []) = inl Spin.
Proof.
  apply (printf_unknown_long ready 1 demo_mem 20 0x1009 [0] 108 (demo [])).
  - reflexivity.
  - by vm_compute.
  - by vm_compute.
  - apply (bool_decide_unpack _). by vm_compute.
Defined.

Lemma gets_overflows_witness :
  exists s', gets ready 1 80 0x4000 (demo (repeat 65 70 ++ [10])) = inr (0x4000, s') /\
    forall x : nat, (64 <= x <= 70)%nat -> load8 (memory s') (0x4000 + Z.of_nat x) = nth x (repeat 65 70) 0.
Proof.
  apply (gets_overflows ready 1 ready_responsive 80 0x4000 (repeat 65 70) 10 [] (demo (repeat 65 70 ++ [10]))).
  - reflexivity.
  - by left.
  - intros c Hc. apply list_elem_of_In, repeat_spec in Hc. subst c. split; [lia|]. unfold ends_line. lia.
  - vm_compute. lia.
  - vm_compute. reflexivity.
  - vm_compute. discriminate.
Defined.

Lemma printd_scand_witness :
  exists line, prints demo_mem (printd ready 1 (-42)) (len line) line /\
    forall fuel buf rest s, incoming s = line ++ 10 :: rest -> buf <> 0 -> (length line < fuel)%nat -> len line < 2 ^ 32 ->
      exists s', scand ready 1 fuel buf s = inr (-42, s') /\ incoming s' = rest.
Proof. apply (printd_scand ready 1 ready_responsive demo_mem (-42)). lia. Defined.

Lemma scanf_decimal_witness :
  exists s', scanf ready 1 20 0x4000 0x3000 [0x5000] (demo [45; 55; 10; 65]) = inr (1, s') /\ incoming s' = [65] /\
    i32 (load32 (memory s') 0x5000) = -7.
Proof.
  apply (scanf_decimal ready 1 ready_responsive 20 0x4000 0x3000 0x5000 (-7) [55] [65] (demo [45; 55; 10; 65])).
  - lia.
  - split; [reflexivity| |done]. intros c ->%list_elem_of_singleton. unfold dec_digit. lia.
  - intros c ->%list_elem_of_singleton. reflexivity.
  - reflexivity.
  - lia.
  - vm_compute. lia.
  - vm_compute. reflexivity.
  - vm_compute. repeat split; discriminate.
  - vm_compute. left. discriminate.
  - lia.
Defined.
End StdioDemo.
