(* ===== verification/VmmMessage.v ===== *)
(** * The page-table code's messages about failed allocations

    [vmm_map_page] and [vmm_map_block] (src/src/vmm.c) report a failed
    allocation through [printf] with the conversion [%llx]. [printf] does not
    know it and does not return: this is what [Vmm.Stuck] stands for. *)

From stdpp Require Import strings.
From S2P Require Import Prelude Memory CString Strings Vmm Stdio StdioSpec StdioPrintf StdioDemo.

Module VmmMessage.
Import Strings Stdio StdioPrintf.

(** The format, for the table of [level] 2 or 3. *)
Definition oom_text (level : Z) : list Z :=
  codes "[ [CVMM [W] Failed to allocate L" ++ [48 + level] ++ codes " table for 0x%llx" ++ [newline].

(** What is printed before the conversion. *)
Definition oom_start (level : Z) : list Z :=
  codes "[ [CVMM [W] Failed to allocate L" ++ [48 + level] ++ codes " table for 0x".

(** [printf] of either message never returns, whatever the UART does and
    however long it runs: every run is cut off in a loop. *)
Theorem oom_message_hangs uart_fr patience fuel fmt level virt s :
  level = 2 \/ level = 3 -> cstr (memory s) fmt (oom_text level) ->
  printf uart_fr patience fuel fmt [virt] s = inl Spin.
Proof.
  intros Hl Hf. change (oom_text level) with ((oom_start level ++ [37; 108]) ++ [108; 120; 10]) in Hf.
  assert (Hlen : len (oom_start level) = 46) by done.
  apply cstr_app in Hf as [H1 (H2 & _)]. unfold printf.
  apply (printf_stuck uart_fr patience fuel fuel 108 [virt]) with (pre := oom_start level).
  - rewrite !not_elem_of_cons. repeat split; try discriminate. apply not_elem_of_nil.
  - exact H1.
  - rewrite <- H2. f_equal. rewrite length_app, Hlen. simpl. lia.
  - destruct Hl as [-> | ->]; vm_compute; repeat constructor; discriminate.
Qed.

Lemma oom_message_hangs_witness :
  exists s, cstr (memory s) 0x3000 (oom_text 3) /\ printf StdioDemo.ready 1 100 0x3000 [0x40000000] s = inl Spin.
Proof.
  set (m := StdioDemo.bytes_at ∅ 0x3000 (oom_text 3 ++ [0])). exists (Con m [] [] 0).
  assert (H : cstr m 0x3000 (oom_text 3)) by (vm_compute; repeat split; discriminate).
  split; [exact H|]. apply (oom_message_hangs _ _ _ _ 3); [by right|exact H].
Defined.
End VmmMessage.
