(* ===== verification/HeapDebug.v ===== *)
(** * The heap's status report (src/src/heap.c, [heap_debug])

    [heap_debug] prints a line for every cache that has slabs; those are the
    caches a block is allocated from. *)

From stdpp Require Import strings.
From S2P Require Import Prelude Memory CString Strings Dll Heap HeapPages HeapLists HeapInv HeapTrace.
From S2P Require Import Stdio StdioSpec StdioNumbers StdioPrintf StdioDemo.

Module HeapDebug.
Import Strings Heap HeapLists HeapInv HeapTrace Stdio StdioSpec StdioNumbers StdioPrintf.

Section Debug.
Context (caches : Z) (uart_fr : nat -> Z) (patience : nat).

(** The addresses of the four literals of the function. *)
Context (title line yes no : Z).

Definition debug_cache (fuel : nat) (i : Z) : IO () :=
  let c := caches + sizeof_cache * i in
  slabs_partial ← peek (fun s => load64 (Stdio.memory s) c);
  slabs_full ← peek (fun s => load64 (Stdio.memory s) (c + 8));
  if nonzero slabs_partial || nonzero slabs_full then
    size ← peek (fun s => obj_size (Stdio.memory s) c);
    printf uart_fr patience fuel line
      [size; if nonzero slabs_full then yes else no; if nonzero slabs_partial then yes else no];;
    mret ()
  else mret ().

Definition heap_debug (fuel : nat) : IO () :=
  printf uart_fr patience fuel title [];;
  foldr (fun i rest => debug_cache fuel i;; rest) (mret ()) (seqZ 0 NUM_CACHE_SIZES).

Context (Hready : responsive uart_fr patience).

(** The literals are in memory. *)
Record literals (m : mem) : Prop := {
  lt_title : cstr m title (codes "--- Slab Allocator Status ---" ++ [newline]);
  lt_line : cstr m line (codes "Cache %d: Full: %s, Partial: %s" ++ [newline]);
  lt_yes : cstr m yes (codes "Yes");
  lt_no : cstr m no (codes "No");
}.

Definition answer (v : Z) : list Z := if nonzero v then codes "Yes" else codes "No".

(** The line of a cache whose objects have [size] bytes. *)
Definition report (size partial full : Z) (l : list Z) : Prop :=
  exists ds, numeral 10 dec_digit size ds /\
    l = codes "Cache " ++ ds ++ codes ": Full: " ++ answer full ++ codes ", Partial: " ++ answer partial ++ [newline].

Lemma visible_codes s : forallb (fun c => c <=? 127) (codes s) = true -> visible (codes s) = codes s.
Proof.
  unfold visible. generalize (codes s) as l. intros l. induction l as [|c l IH]; [done|]. cbn [forallb]. intros (H1 & H2)%andb_true_iff.
  rewrite filter_cons_True by lia. by rewrite IH.
Qed.

Lemma visible_answer v : visible (answer v) = answer v.
Proof. unfold answer. by destruct (nonzero v); apply visible_codes. Qed.

Lemma i32_small v : 0 <= v < 2 ^ 31 -> i32 v = v.
Proof. intros H. unfold i32. rewrite Z.mod_small; lia. Qed.

(** A literal printed character by character. *)
Lemma lits_text l texts : Forall2 (fun it o => item_text it o.1 o.2) (Lit <$> l) texts -> concat (fst <$> texts) = visible l.
Proof.
  revert texts. induction l as [|c l IH]; intros texts H; [by apply Forall2_nil_inv_l in H as ->|].
  apply Forall2_cons_inv_l in H as ([o n] & texts' & [H1 _] & H2 & ->). cbn [fst] in H1. subst o.
  change (visible [c] ++ concat (fst <$> texts') = visible (c :: l)). rewrite (IH _ H2). change (c :: l) with ([c] ++ l).
  unfold visible. by rewrite list.filter_app.
Qed.

Definition line_items (size full partial : Z) : list item :=
  (Lit <$> codes "Cache ") ++ Dec size :: (Lit <$> codes ": Full: ") ++
  Str (if nonzero full then yes else no) (answer full) :: (Lit <$> codes ", Partial: ") ++
  Str (if nonzero partial then yes else no) (answer partial) :: [Lit newline].

Lemma lits_ok m fuel l : forallb (fun c => (0 <? c) && (c <? 256) && negb (c =? 37)) l = true -> Forall (item_ok m fuel) (Lit <$> l).
Proof.
  intros H. apply Forall_fmap, list.Forall_forall. intros c Hc. pose proof (forallb_elem _ _ _ H Hc) as Hx. cbn in Hx |- *. lia.
Qed.

Lemma answer_ok m fuel v : literals m -> (3 < fuel)%nat -> item_ok m fuel (Str (if nonzero v then yes else no) (answer v)).
Proof. intros Hm Hf. destruct Hm as [_ _ Hy Hn]. unfold answer. destruct (nonzero v); split; try done; cbn; lia. Qed.

Lemma line_ok m fuel size full partial : literals m -> 16 <= size <= 2048 -> (60 < fuel)%nat ->
  exists l n, report size partial full l /\
    prints m (printf uart_fr patience fuel line [size; if nonzero full then yes else no; if nonzero partial then yes else no]) n l.
Proof.
  intros Hm Hs Hf.
  assert (Hok : Forall (item_ok m fuel) (line_items size full partial)).
  { unfold line_items. apply Forall_app_2; [by apply lits_ok|]. constructor; [unfold item_ok; rewrite i32_small; lia|].
    apply Forall_app_2; [by apply lits_ok|]. constructor; [apply answer_ok; [done|lia]|].
    apply Forall_app_2; [by apply lits_ok|]. constructor; [apply answer_ok; [done|lia]|]. by apply (lits_ok m fuel [newline]). }
  destruct (print_items uart_fr patience Hready m fuel line (line_items size full partial) []) as (texts & Ht & Hp); [|by apply items_ok_plain|by cbn; lia|].
  { exact (lt_line _ Hm). }
  exists (concat (fst <$> texts)), (foldr (fun o n => o.2 + n) 0 texts). split; [|exact Hp].
  unfold line_items in Ht.
  apply Forall2_app_inv_l in Ht as (t1 & r1 & H1 & Ht & ->). apply Forall2_cons_inv_l in Ht as ([o2 n2] & r2 & H2 & Ht & ->).
  apply Forall2_app_inv_l in Ht as (t3 & r3 & H3 & Ht & ->). apply Forall2_cons_inv_l in Ht as ([o4 n4] & r4 & H4 & Ht & ->).
  apply Forall2_app_inv_l in Ht as (t5 & r5 & H5 & Ht & ->). apply Forall2_cons_inv_l in Ht as ([o6 n6] & r6 & H6 & Ht & ->).
  apply Forall2_cons_inv_l in Ht as ([o7 n7] & r7 & H7 & Ht & ->). apply Forall2_nil_inv_l in Ht as ->.
  cbn [item_text fst snd] in H2, H4, H6, H7. destruct H2 as (ds & Hd & -> & _), H4 as (-> & _), H6 as (-> & _), H7 as (-> & _).
  rewrite (i32_small size) in Hd by lia. exists ds. rewrite Z.abs_eq in Hd by lia. split; [exact Hd|]. rewrite (i32_small size) by lia.
  assert (Hsg : sign size = []) by (unfold sign; destruct (size <? 0) eqn:E; [lia|done]).
  rewrite fmap_app, concat_app, fmap_cons, fmap_app. cbn [concat fst]. rewrite concat_app, fmap_cons, fmap_app. cbn [concat fst].
  rewrite concat_app. cbn [concat fmap list_fmap fst].
  by rewrite (lits_text _ _ H1), (lits_text _ _ H3), (lits_text _ _ H5), !visible_codes, !visible_answer, Hsg.
Qed.

(** ** Which caches have slabs *)

Section Caches.
Context (h : heap_state) (m : mem) (SL : slabs) (Q : Z * bool -> list Z) (B : blocks).
Context (Hinv : heap_inv caches h m SL Q) (Hrep : represents h m SL B).

(** A block of [size] bytes is allocated. *)
Definition allocated (size : Z) : Prop := exists a l, B !! a = Some l /\ len l = size.

Lemma slab_room p c fl : SL !! p = Some (c, fl) -> exists k, 0 <= k < max_objs c /\ (obj p c k ∉ fl).
Proof.
  intros Hp. destruct (co_slab _ _ _ _ (hi_core _ _ _ _ _ Hinv) _ _ _ Hp) as [Hc Hs].
  destruct (decide (Exists (fun o => o ∉ fl) (all_objs p c))) as [He|Hn].
  - apply list.Exists_exists in He as (o & (k & Hk & ->)%elem_all_objs & Ho). by exists k.
  - exfalso. pose proof (hi_used _ _ _ _ _ Hinv _ _ _ Hp) as Hu.
    assert (Hsub : all_objs p c ⊆+ fl).
    { apply NoDup_submseteq.
      - unfold all_objs. apply NoDup_fmap_2_strong; [|apply NoDup_seqZ]. intros x y _ _. by apply obj_inj.
      - intros o Ho. destruct (decide (o ∈ fl)) as [|Hne]; [done|]. destruct Hn. apply list.Exists_exists. by exists o. }
    apply submseteq_length in Hsub. unfold all_objs in Hsub. rewrite length_fmap, length_seqZ in Hsub. lia.
Qed.

Lemma size_inj c c' : cls c -> cls c' -> size_of c = size_of c' -> c = c'.
Proof. intros H1 H2 E. unfold size_of in E. apply Z.pow_inj_r in E; unfold cls in *; lia. Qed.

Lemma allocated_slab c : cls c -> allocated (size_of c) <-> exists p fl, SL !! p = Some (c, fl).
Proof.
  intros Hc. split.
  - intros (a & l & Ha & Hl). destruct (proj2 Hrep a l Ha) as [(p & c' & fl & k & Hp & _ & _ & _ & Hz)|(i & _ & _ & Hn & _ & Hz)].
    + exists p, fl. rewrite Hp. destruct (co_slab _ _ _ _ (hi_core _ _ _ _ _ Hinv) _ _ _ Hp) as [Hc' _].
      by rewrite (size_inj c c') by (done || lia).
    + destruct (size_facts c Hc). lia.
  - intros (p & fl & Hp). destruct (slab_room p c fl Hp) as (k & Hk & Hn). destruct (size_facts c Hc) as [Hs _].
    exists (obj p c k), (HeapTrace.bytes m (obj p c k) (size_of c)). split; [|apply length_bytes; lia].
    apply Hrep. left. by exists p, c, fl, k.
Qed.

Lemma head_nonzero q : is_list q -> nonzero (load64 m (head_addr caches q)) = true <-> exists p, p ∈ Q q.
Proof.
  intros Hq. rewrite (lo_head _ _ _ _ (hi_lists _ _ _ _ _ Hinv) q Hq). unfold nonzero. rewrite negb_true_iff, Z.eqb_neq.
  destruct (Q q) as [|p l] eqn:E; cbn [first].
  - split; [done|intros (p & Hp)]. by apply elem_of_nil in Hp.
  - split; [intros _; exists p; by left|intros _ Hz]. subst p.
    assert (Hin : 0 ∈ Q q) by (rewrite E; by left). apply (lo_node _ _ _ _ (hi_lists _ _ _ _ _ Hinv) q 0 Hq) in Hin.
    destruct (co_dom _ _ _ _ (hi_core _ _ _ _ _ Hinv) 0 Hin) as (i & Hi & Hz). unfold HeapInv.pg in Hz.
    pose proof (ly_pos _ _ (hi_layout _ _ _ _ _ Hinv)). destruct (meta_bounds caches h (hi_layout _ _ _ _ _ Hinv)). lia.
Qed.

Lemma has_slabs c : cls c ->
  nonzero (load64 m (caches + 32 * c)) || nonzero (load64 m (caches + 32 * c + 8)) = true <-> allocated (size_of c).
Proof.
  intros Hc. rewrite (allocated_slab c Hc), orb_true_iff.
  pose proof (head_nonzero (c, false) Hc) as H1. pose proof (head_nonzero (c, true) Hc) as H2.
  unfold head_addr in H1, H2. cbn [fst snd] in H1, H2. rewrite Z.add_0_r in H1. rewrite H1, H2.
  pose proof (hi_listed _ _ _ _ _ Hinv) as Hl. split.
  - intros [(p & (fl & Hp & _)%(Hl (c, false) p Hc))|(p & (fl & Hp & _)%(Hl (c, true) p Hc))]; by exists p, fl.
  - intros (p & fl & Hp). destruct (is_nil fl) eqn:E.
    + right. exists p. apply (Hl (c, true) p Hc). by exists fl.
    + left. exists p. apply (Hl (c, false) p Hc). by exists fl.
Qed.
End Caches.
(** ** The report *)

Lemma prints_peek {X} m (g : mem -> X) : prints m (peek (fun s => g (Stdio.memory s))) (g m) [].
Proof. intros s <-. exists s. split; [done|apply sends_nil]. Qed.

(** What is printed of a cache: its line if a block of its size is allocated,
    else nothing. *)
Definition cache_line (m : mem) (B : gmap Z (list Z)) (c : Z) (l : list Z) : Prop :=
  allocated B (size_of c) /\ report (size_of c) (load64 m (caches + 32 * c)) (load64 m (caches + 32 * c + 8)) l \/
  ~ allocated B (size_of c) /\ l = [].

Lemma debug_cache_ok h m B fuel c : refines caches h m B -> literals m -> (60 < fuel)%nat -> cls c ->
  exists l, cache_line m B c l /\ prints m (debug_cache fuel c) () l.
Proof.
  intros (SL & Q & Hinv & Hrep) Hm Hf Hc. pose proof (has_slabs h m SL Q B Hinv Hrep c Hc) as Hs.
  assert (Hsz : obj_size m (caches + 32 * c) = size_of c) by exact (proj1 (co_size _ _ _ _ (hi_core _ _ _ _ _ Hinv) c Hc)).
  unfold cache_line, debug_cache, sizeof_cache. set (partial := load64 m (caches + 32 * c)) in *. set (full := load64 m (caches + 32 * c + 8)) in *.
  destruct (nonzero partial || nonzero full) eqn:E.
  - destruct (size_facts c Hc) as [Hr _]. destruct (line_ok m fuel (size_of c) full partial Hm Hr Hf) as (l & n & Hl & Hp).
    exists l. split; [left; by split; [apply Hs|]|].
    eapply prints_bind_l; [exact (prints_peek m (fun m => load64 m (caches + 32 * c)))|].
    eapply prints_bind_l; [exact (prints_peek m (fun m => load64 m (caches + 32 * c + 8)))|].
    change (load64 m (caches + 32 * c)) with partial. change (load64 m (caches + 32 * c + 8)) with full. rewrite E.
    eapply prints_bind_l; [exact (prints_peek m (fun m => obj_size m (caches + 32 * c)))|]. rewrite Hsz.
    eapply prints_bind_r; [exact Hp|apply prints_ret].
  - exists []. split; [right; split; [by rewrite <- Hs|done]|].
    eapply prints_bind_l; [exact (prints_peek m (fun m => load64 m (caches + 32 * c)))|].
    eapply prints_bind_l; [exact (prints_peek m (fun m => load64 m (caches + 32 * c + 8)))|].
    change (load64 m (caches + 32 * c)) with partial. change (load64 m (caches + 32 * c + 8)) with full. rewrite E. apply prints_ret.
Qed.

Lemma title_ok m fuel : literals m -> (60 < fuel)%nat ->
  exists n, prints m (printf uart_fr patience fuel title []) n (codes "--- Slab Allocator Status ---" ++ [newline]).
Proof.
  intros Hm Hf. set (l := codes "--- Slab Allocator Status ---" ++ [newline]).
  destruct (print_items uart_fr patience Hready m fuel title (Lit <$> l) []) as (texts & Ht & Hp); [exact (lt_title _ Hm)|by apply items_ok_plain; [apply lits_ok|]|by cbn; lia|].
  rewrite (lits_text l texts Ht) in Hp. exists (foldr (fun o n => o.2 + n) 0 texts). exact Hp.
Qed.

(** C38 [heap_debug] reports the heap: whatever blocks are allocated it returns
    having printed its title and then, in the order of the sizes, one line for
    each cache a block is allocated from, with the size in decimal and whether
    the cache has full and partial slabs, and nothing for the other caches. *)
Theorem heap_debug_reports h m B fuel : refines caches h m B -> literals m -> (60 < fuel)%nat ->
  exists lines, Forall2 (cache_line m B) (seqZ 0 8) lines /\
    prints m (heap_debug fuel) () (codes "--- Slab Allocator Status ---" ++ [newline] ++ concat lines).
Proof.
  intros Hr Hm Hf. destruct (title_ok m fuel Hm Hf) as (n & Ht).
  assert (Hl : forall cs, (forall c, c ∈ cs -> cls c) -> exists lines, Forall2 (cache_line m B) cs lines /\
    prints m (foldr (fun i rest => debug_cache fuel i;; rest) (mret ()) cs) () (concat lines)).
  { induction cs as [|c cs IH]; intros Hcs; [exists []; split; [done|apply prints_ret]|].
    destruct (debug_cache_ok h m B fuel c Hr Hm Hf) as (l & H1 & H2); [by apply Hcs; left|].
    destruct IH as (lines & H3 & H4); [by intros x Hx; apply Hcs; right|].
    exists (l :: lines). split; [by constructor|]. cbn [foldr concat]. by eapply prints_bind. }
  destruct (Hl (seqZ 0 8)) as (lines & H1 & H2); [intros c Hc%elem_of_seqZ; unfold cls; lia|].
  exists lines. split; [done|]. rewrite (assoc_L (++)). unfold heap_debug, NUM_CACHE_SIZES. by eapply prints_bind.
Qed.
End Debug.

(** ** A run: one block of 100 bytes in a heap of sixteen pages *)

Definition demo_literals : mem :=
  StdioDemo.bytes_at (StdioDemo.bytes_at (StdioDemo.bytes_at (StdioDemo.bytes_at ∅
    0x2000 (codes "--- Slab Allocator Status ---" ++ [newline; 0]))
    0x2100 (codes "Cache %d: Full: %s, Partial: %s" ++ [newline; 0]))
    0x2200 (codes "Yes" ++ [0])) 0x2300 (codes "No" ++ [0]).

Definition debug_start : mem := (heap_init demo_caches boot_state demo_literals 0x50000000 0x10000).2.
Definition debug_mem : mem := (malloc demo_caches demo_h debug_start 100).2.

Lemma debug_refines : exists B, refines demo_caches demo_h debug_mem B.
Proof.
  assert (H0 : refines demo_caches demo_h debug_start ∅).
  { pose proof (heap_init_refines demo_caches boot_state demo_literals 0x50000000 0x10000 ltac:(lia) ltac:(by vm_compute) ltac:(lia)
      ltac:(by vm_compute) ltac:(done) ltac:(by vm_compute) ltac:(left; by vm_compute)) as H.
    unfold debug_start. destruct (heap_init demo_caches boot_state demo_literals 0x50000000 0x10000) as [h' m']. destruct H as (-> & H & _). exact H. }
  pose proof (exec_ok demo_caches demo_h debug_start ∅ (Malloc 100) H0 ltac:(cbn; lia)) as H. cbn [exec] in H. unfold debug_mem.
  destruct (malloc demo_caches demo_h debug_start 100) as [r m']. destruct H as (B & _ & H). exists B. exact H.
Qed.

Lemma heap_debug_reports_witness : exists B lines, refines demo_caches demo_h debug_mem B /\
  Forall2 (cache_line demo_caches debug_mem B) (seqZ 0 8) lines /\
  prints debug_mem (heap_debug demo_caches StdioDemo.ready 1 0x2000 0x2100 0x2200 0x2300 61) ()
    (codes "--- Slab Allocator Status ---" ++ [newline] ++ concat lines).
Proof.
  destruct debug_refines as (B & HB).
  destruct (heap_debug_reports demo_caches StdioDemo.ready 1 0x2000 0x2100 0x2200 0x2300 StdioDemo.ready_responsive demo_h debug_mem B 61 HB)
    as (lines & H1 & H2); [by split; vm_compute|lia|].
  exists B, lines. split; [exact HB|]. split; [exact H1|exact H2].
Defined.

Example debug_text :
  match heap_debug demo_caches StdioDemo.ready 1 0x2000 0x2100 0x2200 0x2300 61 (Con debug_mem [] [] 0) with
  | inl _ => False
  | inr (_, s) => sent s = codes "--- Slab Allocator Status ---" ++ [newline] ++ codes "Cache 128: Full: No, Partial: Yes" ++ [newline]
  end.
Proof. by vm_compute. Qed.
End HeapDebug.
