(* ===== verification/Mmio.v ===== *)
(** * Device registers

    A volatile access is an event on the bus. What a read gives is a parameter,
    [device], of the accesses made before it. *)

From S2P Require Import Prelude.

Inductive access := Wr (a v : Z) | Rd (a : Z).

Definition bus := list access.

Definition write32 (b : bus) (a v : Z) : bus := b ++ [Wr a (u32 v)].

Section Device.
Context (device : bus -> Z -> Z).

Definition read32 (b : bus) (a : Z) : Z * bus := (u32 (device b a), b ++ [Rd a]).
Definition read8 (b : bus) (a : Z) : Z * bus := (u8 (device b a), b ++ [Rd a]).
End Device.

(** The writes of a run, in order. *)
Definition writes (b : bus) : list (Z * Z) :=
  omap (fun e => match e with Wr a v => Some (a, v) | Rd _ => None end) b.

Lemma writes_app b1 b2 : writes (b1 ++ b2) = writes b1 ++ writes b2.
Proof. apply omap_app. Qed.
