(* ===== verification/Bytes.v ===== *)
(** * Byte sequences in memory

    [holds m a l]: the bytes of [l] are at [a]. The tactic [bytes] proves such a
    goal about a memory written by a chain of stores and block operations. *)

From S2P Require Import Prelude Memory CString.
Import CString.

Definition holds (m : mem) (a : Z) (l : list Z) : Prop :=
  forall (x : nat) c, l !! x = Some c -> load8 m (a + Z.of_nat x) = c.

Lemma holds_at m a a' l : holds m a l -> a = a' -> holds m a' l.
Proof. by intros H ->. Qed.

Lemma holds_nil m a : holds m a [].
Proof. by intros x c H. Qed.

Lemma holds_app m a l1 l2 : holds m a (l1 ++ l2) <-> holds m a l1 /\ holds m (a + Z.of_nat (length l1)) l2.
Proof.
  split.
  - intros H. split; intros x c Hx.
    + apply H. by apply lookup_app_l_Some.
    + replace (a + Z.of_nat (length l1) + Z.of_nat x) with (a + Z.of_nat (length l1 + x)) by lia.
      apply H. rewrite lookup_app_r by lia. rewrite <- Hx. f_equal. lia.
  - intros [H1 H2] x c Hx. apply lookup_app_Some in Hx as [Hx|[Hl Hx]]; [by apply H1|].
    rewrite <- (H2 _ _ Hx). f_equal. lia.
Qed.

Lemma holds_cons m a c l : holds m a (c :: l) <-> load8 m a = c /\ holds m (a + 1) l.
Proof.
  split.
  - intros H. split; [rewrite <- (H O c eq_refl); f_equal; lia|].
    intros x d Hx. rewrite <- (H (S x) d Hx). f_equal. lia.
  - intros [H1 H2] [|x] d Hx; simpl in Hx; [injection Hx as <-; rewrite <- H1; f_equal; lia|].
    rewrite <- (H2 x d Hx). f_equal. lia.
Qed.

Lemma holds_agree (P : Z -> Prop) m m' a l :
  agree P m m' -> (forall b, a <= b < a + Z.of_nat (length l) -> P b) -> holds m a l -> holds m' a l.
Proof.
  intros Hag HP H x c Hx. pose proof (lookup_lt_Some _ _ _ Hx). rewrite Hag by (apply HP; lia). by apply H.
Qed.

Lemma holds_load_bytes m a n : holds m a (load_bytes m a n).
Proof.
  intros x c Hx. unfold load_bytes in Hx. rewrite list_lookup_fmap in Hx.
  apply fmap_Some in Hx as (i & Hi & ->). apply lookup_seqZ in Hi. f_equal. lia.
Qed.

Lemma length_load_bytes m a n : length (load_bytes m a n) = Z.to_nat n.
Proof. unfold load_bytes. by rewrite length_fmap, length_seqZ. Qed.

Lemma holds_load m a l : holds m a l -> load_bytes m a (Z.of_nat (length l)) = l.
Proof.
  intros H. apply list_eq. intros x. destruct (decide (x < length l)%nat) as [Hx|Hx].
  - destruct (lookup_lt_is_Some_2 l x Hx) as [c Hc]. rewrite Hc. unfold load_bytes.
    rewrite list_lookup_fmap, lookup_seqZ_lt by lia. simpl. f_equal. rewrite <- (H x c Hc). done.
  - rewrite (lookup_ge_None_2 l) by lia. apply lookup_ge_None_2. rewrite length_load_bytes. lia.
Qed.

Lemma holds_byte m a l (x : nat) c : holds m a l -> l !! x = Some c -> load8 m (a + Z.of_nat x) = c.
Proof. intros H Hx. by apply H. Qed.

(** Two blocks that hold the same bytes. *)
Lemma holds_same m m' a a' l : holds m a l -> holds m' a' l ->
  forall i, 0 <= i < Z.of_nat (length l) -> load8 m' (a' + i) = load8 m (a + i).
Proof.
  intros H H' i Hi. destruct (lookup_lt_is_Some_2 l (Z.to_nat i)) as [c Hc]; [lia|].
  pose proof (H _ _ Hc). pose proof (H' _ _ Hc). rewrite Z2Nat.id in * by lia. congruence.
Qed.

Lemma loadn_zero n m a : (forall b, a <= b < a + Z.of_nat n -> load8 m b = 0) -> loadn n m a = 0.
Proof.
  revert a. induction n as [|n IH]; intros a H; [done|].
  change (load8 m a + 256 * loadn n m (a + 1) = 0). rewrite IH, H by (intros; try apply H; lia). lia.
Qed.

(** ** Writers and what they leave *)

Lemma holds_store8_at m a c : 0 <= c < 256 -> holds (store8 m a c) a [c].
Proof. intros Hc. apply holds_cons. split; [|apply holds_nil]. rewrite load8_store8_eq. by apply Z.mod_small. Qed.

Lemma holds_store16_at m a v : 0 <= v < 2 ^ 16 -> holds (store16 m a v) a [v mod 256; v / 256].
Proof.
  intros Hv. change (store16 m a v) with (store8 (store8 m a v) (a + 1) (v / 256)). apply holds_cons. split.
  - rewrite load8_store8_ne, load8_store8_eq by lia. done.
  - apply holds_cons. split; [|apply holds_nil]. rewrite load8_store8_eq. apply Z.mod_small. zdiv.
Qed.

Lemma memcpy_outside m d s n : 0 <= n -> d <= s \/ s + n <= d -> agree (outside d (d + n)) m (memcpy m d s n).
Proof.
  intros Hn Hds b Hb. rewrite (memcpy_moved m d s n Hn Hds). unfold outside in Hb. by rewrite decide_False by lia.
Qed.

Lemma holds_memcpy_at m d s n l :
  Z.of_nat (length l) = n -> d <= s \/ s + n <= d -> holds m s l -> holds (memcpy m d s n) d l.
Proof.
  intros Hl Hds H x c Hx. pose proof (lookup_lt_Some _ _ _ Hx).
  rewrite (memcpy_moved m d s n) by lia. rewrite decide_True by lia. rewrite <- (H x c Hx). f_equal. lia.
Qed.

Lemma holds_memset_at m a n k : Z.of_nat k = n -> holds (memset m a 0 n) a (repeat 0 k).
Proof.
  intros Hk x c Hx. pose proof (lookup_lt_Some _ _ _ Hx) as Hlt. rewrite repeat_length in Hlt.
  rewrite memset_spec, decide_True by lia.
  apply list_elem_of_lookup_2, list_elem_of_In, repeat_spec in Hx. by subst c.
Qed.

Lemma store_bytes_outside m a l : agree (outside a (a + Z.of_nat (length l))) m (store_bytes m a l).
Proof.
  revert m a. induction l as [|c l IH]; intros m a b Hb; [done|]. cbn [store_bytes]. unfold outside in Hb. simpl in Hb.
  rewrite IH by (unfold outside; lia). apply load8_store8_ne. lia.
Qed.

Lemma holds_store_bytes_at m a l : (forall c, c ∈ l -> 0 <= c < 256) -> holds (store_bytes m a l) a l.
Proof.
  intros Hl x c Hx. pose proof (lookup_lt_Some _ _ _ Hx).
  rewrite load8_store_bytes by done. rewrite decide_True by lia.
  replace (Z.to_nat (a + Z.of_nat x - a)) with x by lia. by rewrite Hx.
Qed.

(** ** Bytes a writer leaves alone *)

Section Keep.
Context (m : mem) (a : Z) (l : list Z).
Abbreviation away lo n := (a + Z.of_nat (length l) <= lo \/ lo + n <= a).

Lemma holds_store8 p c : away p 1 -> holds m a l -> holds (store8 m p c) a l.
Proof. intros H. apply (holds_agree _ _ _ _ _ (agree_store8 m p c)). unfold outside. lia. Qed.

Lemma holds_storen n p v : away p (Z.of_nat n) -> holds m a l -> holds (storen n m p v) a l.
Proof. intros H. apply (holds_agree _ _ _ _ _ (agree_storen n m p v)). unfold outside. lia. Qed.

Lemma holds_memcpy d s n : 0 <= n -> d <= s \/ s + n <= d -> away d n -> holds m a l -> holds (memcpy m d s n) a l.
Proof. intros Hn Hds H. apply (holds_agree _ _ _ _ _ (memcpy_outside m d s n Hn Hds)). unfold outside. lia. Qed.

Lemma holds_memset d c n : 0 <= n -> away d n -> holds m a l -> holds (memset m d c n) a l.
Proof. intros Hn H. apply (holds_agree _ _ _ _ _ (memset_agree m d c n Hn)). unfold outside. lia. Qed.

Lemma holds_store_bytes p k : away p (Z.of_nat (length k)) -> holds m a l -> holds (store_bytes m p k) a l.
Proof. intros H. apply (holds_agree _ _ _ _ _ (store_bytes_outside m p k)). unfold outside. lia. Qed.
End Keep.

(** Peel the writers off one by one; [side] proves that ranges are apart. *)
Ltac bytes_keep side :=
  repeat first
  [ assumption
  | apply holds_store8; [side|]
  | apply holds_storen; [side|]
  | apply holds_memcpy; [lia|side|side|]
  | apply holds_memset; [lia|side|]
  | apply holds_store_bytes; [side|] ].
