(* ===== verification/HeapShare.v ===== *)
(** * A heap with two users

    The threads and the scheduler allocate from the same heap. The threads see
    the abstract heap [C] of their own blocks, with their contents; the
    scheduler sees the interface of HeapApi.v for the rest. Neither can tell
    that the other is there. *)

From S2P Require Import Prelude Memory CString Dll Heap HeapPages HeapLists HeapInv HeapSpec Malloc HeapTrace HeapApi Bytes.

Module HeapShare.
Import CString Heap HeapInv HeapTrace.

(** ** The abstract heap, seen by one of its users *)

Section Local.
Context (lo hi : Z).

(** [B'] are all the blocks, [C] are the user's. *)
Context (B : gmap Z (list Z)).
Context (Hpos : forall a l, B !! a = Some l -> 0 < a /\ 0 < Z.of_nat (length l)).

Lemma unused_new r l : fresh lo hi B r l -> B !! r = None.
Proof.
  intros [(_ & _ & _ & Hl) Hd]. destruct (B !! r) as [l'|] eqn:E; [|done]. destruct (Hpos r l' E). destruct (Hd r l' E); lia.
Qed.

Lemma fresh_subset C r l : C ⊆ B -> fresh lo hi B r l -> fresh lo hi C r l.
Proof. intros Hs [H1 H2]. split; [done|]. intros b l' Hb. apply H2. by eapply lookup_weaken. Qed.

Lemma insert_rest C r l : C ⊆ B -> B !! r = None -> <[r := l]> B ∖ <[r := l]> C = B ∖ C.
Proof.
  intros Hs Hr. assert (HC : C !! r = None) by (by eapply lookup_weaken_None).
  apply map_eq. intros a. rewrite !lookup_difference, !lookup_insert. case_decide; [subst; by rewrite HC, Hr|done].
Qed.

Lemma delete_rest C r : is_Some (C !! r) -> delete r B ∖ delete r C = B ∖ C.
Proof.
  intros [x Hr]. apply map_eq. intros a. rewrite !lookup_difference, !lookup_delete. case_decide; [subst; by rewrite Hr|done].
Qed.

(** A step of the whole heap that its user may ask for is a step of the user's
    part and leaves the rest as it is. *)
Lemma spec_step_local C o r B' : C ⊆ B -> op_ok C o -> spec_step lo hi B o r B' ->
  exists C', spec_step lo hi C o r C' /\ C' ⊆ B' /\ B' ∖ C' = B ∖ C.
Proof.
  intros Hs Hok Hst.
  assert (H0 : forall l, B !! 0 = Some l -> False) by (intros l Hl; destruct (Hpos 0 l Hl); lia).
  assert (Hmine : forall ptr l, is_Some (C !! ptr) -> B !! ptr = Some l -> C !! ptr = Some l).
  { intros ptr l [l' Hl'] Hl. pose proof (lookup_weaken _ _ _ _ Hl' Hs). congruence. }
  assert (Hmalloc : forall size r B', spec_step lo hi B (Malloc size) r B' ->
            exists C', spec_step lo hi C (Malloc size) r C' /\ C' ⊆ B' /\ B' ∖ C' = B ∖ C).
  { intros size r0 B0 Hm. inversion Hm; subst; [exists C; split; [constructor|done]|].
    exists (<[r0 := l]> C). split; [|split; [by apply insert_mono|apply insert_rest; [done|by eapply unused_new]]].
    constructor; [by apply fresh_subset|done]. }
  assert (Hfree : forall ptr B', ptr = 0 \/ is_Some (C !! ptr) -> spec_step lo hi B (Free ptr) 0 B' ->
            exists C', spec_step lo hi C (Free ptr) 0 C' /\ C' ⊆ B' /\ B' ∖ C' = B ∖ C).
  { intros ptr B0 Hp Hf. inversion Hf; subst; [exists C; split; [constructor|done]|].
    destruct Hp as [->|Hp]; [by apply H0 in H1|].
    exists (delete ptr C). split; [econstructor; by eapply Hmine|]. split; [by apply delete_mono|by apply delete_rest]. }
  destruct Hst; cbn [op_ok] in Hok.
  - exists C. split; [constructor|done].
  - apply Hmalloc. by constructor.
  - exists C. split; [constructor|done].
  - exists (<[r := l]> C). split; [|split; [by apply insert_mono|apply insert_rest; [done|by eapply unused_new]]].
    constructor; [by apply fresh_subset|done|done].
  - destruct (Hmalloc _ _ _ Hst) as (C' & H1 & H2). exists C'. split; [by constructor|done].
  - destruct (Hfree _ _ (proj1 Hok) Hst) as (C' & H1 & H2). exists C'. split; [by constructor|done].
  - destruct Hok as [[->|Hp] _]; [by apply H0 in H|]. exists C. split; [|done]. econstructor; [by eapply Hmine|done].
  - destruct Hok as [[->|Hp] _]; [by apply H0 in H|]. exists C. split; [|done]. econstructor; [by eapply Hmine|done].
  - destruct Hok as [[->|Hp] _]; [by apply H0 in H|]. exists (<[r := l']> (delete ptr C)). split; [|split].
    + econstructor; try done; [by eapply Hmine|by apply fresh_subset].
    + by apply insert_mono, delete_mono.
    + rewrite <- (delete_rest C ptr Hp). apply map_eq. intros a. rewrite !lookup_difference, !lookup_insert.
      case_decide; [subst|done]. rewrite !lookup_delete. pose proof (unused_new _ _ H2) as Hn. rewrite Hn.
      assert (C !! a = None) as -> by (by eapply lookup_weaken_None). by case_decide.
  - exists C. split; [constructor|done].
  - destruct (Hfree ptr (delete ptr B)) as (C' & H1 & H2); [done|by econstructor|]. by exists C'.
  - exists C. split; [|done]. destruct Hok as (l' & Hl' & _). econstructor; [eapply Hmine; [by eexists|done]|done|done].
  - destruct Hok as [(l' & Hl' & _) _]. exists (<[ptr := <[Z.to_nat i := v]> l]> C). split; [|split; [by apply insert_mono|]].
    + econstructor; [eapply Hmine; [by eexists|done]|done].
    + apply map_eq. intros a. rewrite !lookup_difference, !lookup_insert. case_decide; [subst; by rewrite Hl'|done].
Qed.
End Local.

Section Share.
Context (caches : Z) (h : heap_state).

Abbreviation lo := (pg h (meta_pages h)).
Abbreviation hi := (heap_end_addr h).
Abbreviation refines := (refines caches h).
Abbreviation heap_bytes := (heap_bytes caches h).
Abbreviation apart m m' := (agree (fun b => ~ heap_bytes b) m m').

Lemma refines_positive m B a l : refines m B -> B !! a = Some l -> 0 < a /\ 0 < Z.of_nat (length l).
Proof.
  intros Hr Hl. destruct (refines_block caches h m B a l Hr Hl) as [H1 _]. split; [lia|].
  destruct Hr as (SL & Q & [Hly Hco _ _ _] & [_ R2]). pose proof (live_bounds caches h m SL Hly Hco _ _ (R2 _ _ Hl)). lia.
Qed.

Lemma refines_window m B a l b : refines m B -> B !! a = Some l -> a <= b < a + Z.of_nat (length l) -> heap_bytes b.
Proof.
  intros Hr Hl Hb. left. pose proof (heap_api_bounds caches h m (sizes B) a (Z.of_nat (length l))) as H.
  unfold sizes in H. rewrite lookup_fmap, Hl in H. specialize (H (ex_intro _ B (conj Hr eq_refl)) eq_refl). lia.
Qed.

(** What happens outside the heap does not matter to it, ... *)
Lemma refines_apart m m' B : refines m B -> agree heap_bytes m m' -> refines m' B.
Proof.
  intros Hr Hag. pose proof Hr as (SL & Q & Hinv & [R1 R2]).
  destruct (Malloc.Malloc.inv_write caches h m m' SL Q Hinv) as (Hinv' & Hlive & _).
  { eapply agree_weaken; [exact Hag|]. intros b. by apply (owned_heap caches h m SL Q). }
  exists SL, Q. split; [done|]. split.
  - intros a z Ha%Hlive. pose proof (R1 a z Ha) as Hl. rewrite Hl. f_equal. symmetry. apply bytes_keep. intros b Hb. apply Hag. apply (refines_window m B a _ b Hr Hl).
    rewrite length_bytes; [done|]. pose proof (live_bounds caches h m SL (hi_layout _ _ _ _ _ Hinv) (hi_core _ _ _ _ _ Hinv) a z Ha). lia.
  - intros a l Hl. apply Hlive. by apply R2.
Qed.

(** ... and the heap's calls write nothing there. *)
Lemma malloc_outside m B n : refines m B -> 0 <= n < 2 ^ 64 -> apart m (malloc caches h m n).2.
Proof.
  intros (SL & Q & Hinv & _) Hn. pose proof (Malloc.Malloc.malloc_ok caches h m SL Q n Hinv Hn) as Hm.
  destruct (malloc caches h m n) as [r m']. destruct Hm as [(_ & -> & _)|(SL' & Q' & z & _ & _ & _ & _ & _ & Hm)]; [done|].
  eapply agree_weaken; [exact Hm|]. intros b Hb Ho. apply Hb. by apply (owned_heap caches h m SL Q).
Qed.

Lemma free_outside m B p : refines m B -> p = 0 \/ is_Some (B !! p) -> apart m (free h m p).
Proof.
  intros Hr [->|[l Hl]]; [done|]. pose proof Hr as (SL & Q & Hinv & Hrep).
  destruct (block_live h m SL B Hrep p l Hl) as [Hv _].
  destruct (Malloc.Malloc.free_block_ok caches h m SL Q p _ Hinv Hv) as (SL' & Q' & _ & _ & Hm).
  eapply agree_weaken; [exact Hm|]. intros b Hb. split.
  - intros Ho. apply Hb. by apply (owned_heap caches h m SL Q).
  - intros Hin. apply Hb. by apply (refines_window m B p l b Hr Hl).
Qed.

Lemma block_write m m' B p l : refines m B -> B !! p = Some l -> agree (fun b => ~ p <= b < p + Z.of_nat (length l)) m m' ->
  apart m m' /\ exists B', refines m' B' /\ dom B' = dom B.
Proof.
  intros Hr Hl Hag. split.
  - eapply agree_weaken; [exact Hag|]. intros b Hb Hin. apply Hb. by apply (refines_window m B p l b Hr Hl).
  - assert (Hz : sizes B !! p = Some (Z.of_nat (length l))) by (unfold sizes; by rewrite lookup_fmap, Hl).
    destruct (heap_write caches h m m' (sizes B) p _ (ex_intro _ B (conj Hr eq_refl)) Hz Hag) as (B' & Hr' & E).
    exists B'. split; [done|]. apply (f_equal dom) in E. unfold sizes in E. by rewrite !dom_fmap_L in E.
Qed.

Lemma calloc_outside m B num size : refines m B -> 0 <= num -> 0 <= size -> num * size < 2 ^ 64 -> apart m (calloc caches h m num size).2.
Proof.
  intros Hr Hn Hs Hlt. unfold calloc. rewrite u64_id by nia. pose proof (malloc_outside m B (num * size) Hr ltac:(nia)) as Ho.
  pose proof (exec_ok caches h m B (Malloc (num * size)) Hr ltac:(cbn; nia)) as H. cbn [exec] in H.
  destruct (malloc caches h m (num * size)) as [r m1]. cbn [snd] in Ho. destruct H as (B1 & Hst & Hr1).
  destruct (r =? 0) eqn:E; [done|]. inversion Hst; subst; [done|]. cbn [snd].
  etransitivity; [exact Ho|]. apply (block_write m1 _ _ r l Hr1); [by apply lookup_insert_eq|].
  intros b Hb. apply memset_agree; [nia|unfold outside; lia].
Qed.

Lemma realloc_outside m B ptr size : refines m B -> ptr = 0 \/ is_Some (B !! ptr) -> 0 <= size < 2 ^ 64 ->
  apart m (realloc caches h m ptr size).2.
Proof.
  intros Hr Hp Hs. unfold realloc. destruct (ptr =? 0) eqn:E0; [by apply (malloc_outside m B)|].
  assert (Hb : is_Some (B !! ptr)) by (destruct Hp; [lia|done]).
  destruct (size =? 0) eqn:Es; [apply (free_outside m B ptr Hr); by right|]. pose proof Hb as [l Hl].
  pose proof Hr as (SL & Q & Hinv & Hrep). destruct (block_live h m SL B Hrep ptr l Hl) as [Hv _].
  destruct (Malloc.Malloc.old_size_ok caches h m SL Q ptr _ Hinv Hv) as [_ Eold]. cbv zeta in *. rewrite Eold.
  destruct (size <=? Z.of_nat (length l)) eqn:Ef; [done|]. pose proof (malloc_outside m B size Hr Hs) as Ho.
  pose proof (exec_ok caches h m B (Malloc size) Hr Hs) as H. cbn [exec] in H.
  destruct (malloc caches h m size) as [r m1]. cbn [snd] in Ho. destruct H as (B1 & Hst & Hr1).
  destruct (r =? 0) eqn:E; [done|]. inversion Hst; subst; [done|]. cbn [snd]. etransitivity; [exact Ho|].
  destruct (block_write m1 (memcpy m1 r ptr (Z.of_nat (length l))) _ r l0 Hr1) as (Ho2 & B2 & Hr2 & Hd); [by apply lookup_insert_eq| |].
  { intros b Hb'. apply memcpy_outside; [lia| |unfold outside; lia].
    match goal with Hf : fresh _ _ B r l0 |- _ => destruct Hf as [_ Hd]; destruct (Hd ptr l Hl) end; lia. }
  etransitivity; [exact Ho2|]. apply (free_outside _ B2 ptr Hr2). right. apply elem_of_dom. rewrite Hd. apply elem_of_dom.
  rewrite lookup_insert. case_decide; [by eexists|done].
Qed.

Lemma exec_outside m B o : refines m B -> op_ok B o -> apart m (exec caches h m o).2.
Proof.
  intros Hr Hok. destruct o; cbn [exec op_ok snd] in *.
  - by apply (malloc_outside m B).
  - destruct Hok as (H1 & H2 & H3). by apply (calloc_outside m B).
  - destruct Hok as [H1 H2]. by apply (realloc_outside m B).
  - by apply (free_outside m B).
  - done.
  - destruct Hok as [(l & Hl & Hi) _]. apply (block_write m _ B ptr l Hr Hl). intros b Hb. rewrite load8_store8_ne by lia. done.
Qed.

(** ** The scheduler's part

    [C] are the blocks of the threads, with their contents; the rest is the
    scheduler's, which keeps the bytes outside the heap as in [m0]. *)

Context (C : gmap Z (list Z)) (m0 : mem).

Definition shared_inv (m : mem) (S : gmap Z Z) : Prop :=
  exists B, refines m B /\ C ⊆ B /\ S = sizes (B ∖ C) /\ apart m0 m.

Lemma rest_is_Some B p : is_Some (sizes (B ∖ C) !! p) <-> is_Some (B !! p) /\ C !! p = None.
Proof. unfold sizes. by rewrite lookup_fmap, fmap_is_Some, lookup_difference_is_Some. Qed.

Lemma shared_block m S p : shared_inv m S -> is_Some (S !! p) -> 0 < p < 2 ^ 48.
Proof.
  intros (B & Hr & _ & -> & _) [[l Hl] _]%rest_is_Some. destruct (refines_block caches h m B p l Hr Hl).
  pose proof (refines_positive m B p l Hr Hl). lia.
Qed.

Lemma shared_malloc m S n : shared_inv m S -> 0 <= n < 2 ^ 64 ->
  let '(r, m') := malloc caches h m n in
  (r = 0 /\ shared_inv m' S) \/ exists z, r <> 0 /\ S !! r = None /\ n <= z /\ shared_inv m' (<[r := z]> S).
Proof.
  intros (B & Hr & HC & -> & Hag) Hn. pose proof (malloc_outside m B n Hr Hn) as Ho.
  pose proof (exec_ok caches h m B (Malloc n) Hr Hn) as H. cbn [exec] in H.
  destruct (malloc caches h m n) as [r m']. cbn [snd] in Ho. destruct H as (B1 & Hst & Hr1).
  assert (Hag' : apart m0 m') by (by etransitivity).
  inversion Hst; subst; [left; split; [done|]; by exists B1|right].
  assert (Hnew : B !! r = None) by (eapply unused_new; [exact (fun a l => refines_positive m B a l Hr)|done]).
  assert (HCr : C !! r = None) by (by eapply lookup_weaken_None).
  pose proof (refines_positive m' _ r l Hr1 ltac:(apply lookup_insert_eq)) as Hp.
  exists (Z.of_nat (length l)). split; [lia|]. split.
  { unfold sizes. rewrite lookup_fmap. by rewrite (proj2 (lookup_difference_None B C r) (or_introl Hnew)). }
  split; [done|]. exists (<[r := l]> B). split; [done|]. split; [by apply insert_subseteq_r|]. split; [|done].
  unfold sizes.
  rewrite <- (fmap_insert (fun l : list Z => Z.of_nat (length l)) (B ∖ C) r l). f_equal. apply map_eq. intros a. rewrite lookup_insert, !lookup_difference, lookup_insert.
  case_decide; [subst; by rewrite HCr|done].
Qed.

Lemma shared_free m S p : shared_inv m S -> p = 0 \/ is_Some (S !! p) -> shared_inv (free h m p) (delete p S).
Proof.
  intros (B & Hr & HC & -> & Hag) Hp.
  assert (Hp' : p = 0 \/ is_Some (B !! p)) by (destruct Hp as [?|[? _]%rest_is_Some]; auto).
  assert (HCp : C !! p = None).
  { destruct Hp as [->|[_ ?]%rest_is_Some]; [|done]. destruct (C !! 0) as [l|] eqn:E; [|done].
    pose proof (refines_positive m B 0 l Hr ltac:(by eapply lookup_weaken)). lia. }
  pose proof (free_outside m B p Hr Hp') as Ho. pose proof (exec_ok caches h m B (Free p) Hr Hp') as (B1 & Hst & Hr1).
  assert (HB1 : B1 = delete p B).
  { inversion Hst; subst; [|done]. symmetry. apply delete_id. destruct (B1 !! 0) as [l|] eqn:E; [|done].
    pose proof (refines_positive m B1 0 l Hr E). lia. }
  subst B1. exists (delete p B). split; [done|]. split; [|split; [|by etransitivity]].
  - apply map_subseteq_spec. intros a l Ha. rewrite lookup_delete_ne; [by eapply lookup_weaken|]. intros ->. by rewrite HCp in Ha.
  - unfold sizes. rewrite <- fmap_delete. f_equal. apply map_eq. intros a. rewrite lookup_delete, !lookup_difference, lookup_delete.
    case_decide; [subst; by rewrite HCp|done].
Qed.

Lemma shared_room m S n size : shared_inv m S -> heap_room h m n -> 0 < size < 2 ^ 64 -> Malloc.Malloc.pages_needed size <= n ->
  let '(r, m') := malloc caches h m size in r <> 0 /\ heap_room h m' (n - Malloc.Malloc.pages_needed size).
Proof. intros (B & Hr & _). apply (heap_room_spec caches h m (sizes B)). by exists B. Qed.

Definition shared_heap : HeapApi mem := {|
  ha_malloc := malloc caches h;
  ha_free := free h;
  ha_inv := shared_inv;
  ha_block := shared_block;
  ha_malloc_spec := shared_malloc;
  ha_free_spec := shared_free;
  ha_room := heap_room h;
  ha_room_spec := shared_room;
|}.
End Share.

Section Steps.
Context (caches : Z) (h : heap_state).

Abbreviation shared_inv := (shared_inv caches h).

(** A thread's call is a step of the abstract heap of the threads, and does not
    touch the scheduler's blocks. *)
Lemma shared_step C m0 m S o : shared_inv C m0 m S -> op_ok C o ->
  let '(r, m') := exec caches h m o in
  exists C', spec_step (pg h (meta_pages h)) (heap_end_addr h) C o r C' /\ shared_inv C' m0 m' S.
Proof.
  intros (B & Hr & HC & -> & Hag) Hok.
  assert (Hok' : op_ok B o).
  { assert (Hw : forall p, is_Some (C !! p) -> is_Some (B !! p)) by (intros p [l Hl]; exists l; by eapply lookup_weaken).
    destruct o; cbn [op_ok] in *; try done.
    - destruct Hok as [[?|?] ?]; auto.
    - destruct Hok as [?|?]; auto.
    - destruct Hok as (l & Hl & Hi). exists l. split; [by eapply lookup_weaken|done].
    - destruct Hok as [(l & Hl & Hi) Hv]. split; [|done]. exists l. split; [by eapply lookup_weaken|done]. }
  pose proof (exec_outside caches h m B o Hr Hok') as Ho. pose proof (exec_ok caches h m B o Hr Hok') as H.
  destruct (exec caches h m o) as [r m']. destruct H as (B' & Hst & Hr').
  destruct (spec_step_local _ _ B (fun a l => refines_positive caches h m B a l Hr) C o r B' HC Hok Hst) as (C' & H1 & H2 & H3).
  exists C'. split; [done|]. exists B'. split; [done|]. split; [done|]. split; [by rewrite H3|by etransitivity].
Qed.

(** Only the bytes of the heap matter. *)
Lemma shared_apart C m0 m m' S : shared_inv C m0 m S -> agree (heap_bytes caches h) m m' -> shared_inv C m' m' S.
Proof. intros (B & Hr & HC & E & _) Hag. exists B. split; [by apply (refines_apart caches h m)|done]. Qed.
End Steps.
End HeapShare.
