(* ===== verification/Asm.v ===== *)
(** * A64 instructions

    The instructions the assembly files use, as steps on a register file and
    the memory, and a symbolic execution of straight-line code that saves
    registers in a frame and loads them again. *)

From stdpp Require Import functions.
From S2P Require Import Prelude Memory.

Module Asm.

(** ** Registers *)

Inductive sysreg :=
| SP_EL0 | ELR_EL1 | SPSR_EL1 | FPSR | FPCR | VBAR_EL1 | CPACR_EL1
| SCTLR_EL1 | TTBR0_EL1 | TTBR1_EL1 | MAIR_EL1 | TCR_EL1.

(** General registers, vector registers, the stack pointer of EL1, the program
    counter, the flags and mode, the system registers. *)
Inductive reg := X (n : Z) | Q (n : Z) | SP | PC | PSTATE | Sys (s : sysreg).

#[export] Instance sysreg_eq_dec : EqDecision sysreg.
Proof. solve_decision. Defined.
#[export] Instance reg_eq_dec : EqDecision reg.
Proof. solve_decision. Defined.

Abbreviation cpu := (reg -> Z).

(** The bytes of a register; the two floating-point registers have only their
    low 32 bits. *)
Definition width (r : reg) : nat :=
  match r with Q _ => 16 | Sys (FPSR | FPCR) => 4 | _ => 8 end.

Definition fits (c : cpu) (r : reg) : Prop := 0 <= c r < 256 ^ Z.of_nat (width r).

Lemma fits_small c r : 0 <= c r < 2 ^ 32 -> fits c r.
Proof.
  intros [H1 H2]. split; [done|]. eapply Z.lt_le_trans; [exact H2|]. change (2 ^ 32) with (256 ^ 4).
  apply Z.pow_le_mono_r; [lia|]. destruct r as [| | | | |[]]; cbn [width]; lia.
Qed.

(** ** Instructions *)

Inductive insn :=
| Mov (d s : reg)                        (* mov, mrs, msr *)
| Imm (d : reg) (v : Z)                  (* mov #, ldr =, adr *)
| Add (d s : reg) (v : Z) | Sub (d s : reg) (v : Z) | SubR (d s r : reg)
| Orr (d s : reg) (v : Z) | Bic (d s : reg) (v : Z)
| Str (n : nat) (r base : reg) (off : Z)
| Ldr (n : nat) (r base : reg) (off : Z).

Definition state : Type := cpu * mem.

Definition exec (i : insn) : state -> state := fun '(c, m) =>
  match i with
  | Mov d s => (<[d := c s]> c, m)
  | Imm d v => (<[d := v]> c, m)
  | Add d s v => (<[d := u64 (c s + v)]> c, m)
  | Sub d s v => (<[d := u64 (c s - v)]> c, m)
  | SubR d s r => (<[d := u64 (c s - c r)]> c, m)
  | Orr d s v => (<[d := Z.lor (c s) v]> c, m)
  | Bic d s v => (<[d := Z.land (c s) (Z.lnot v)]> c, m)
  | Str n r base off => (c, storen n m (c base + off) (c r))
  | Ldr n r base off => (<[r := loadn n m (c base + off)]> c, m)
  end.

Definition run (l : list insn) (s : state) : state := foldl (fun s i => exec i s) s l.

(** The pairs take two neighbouring words. *)
Definition stp (r1 r2 base : reg) (off : Z) : list insn :=
  [Str (width r1) r1 base off; Str (width r2) r2 base (off + Z.of_nat (width r1))].
Definition ldp (r1 r2 base : reg) (off : Z) : list insn :=
  [Ldr (width r1) r1 base off; Ldr (width r2) r2 base (off + Z.of_nat (width r1))].

Lemma run_app l1 l2 s : run (l1 ++ l2) s = run l2 (run l1 s).
Proof. apply foldl_app. Qed.

Lemma run_cons i l s : run (i :: l) s = run l (exec i s).
Proof. done. Qed.
Lemma run_nil s : run [] s = s.
Proof. done. Qed.
Lemma exec_mov d r c m : exec (Mov d r) (c, m) = (<[d := c r]> c, m).
Proof. done. Qed.
Lemma exec_imm d v c m : exec (Imm d v) (c, m) = (<[d := v]> c, m).
Proof. done. Qed.
Lemma exec_subr d r r' c m : exec (SubR d r r') (c, m) = (<[d := u64 (c r - c r')]> c, m).
Proof. done. Qed.
Lemma exec_add d r v c m : exec (Add d r v) (c, m) = (<[d := u64 (c r + v)]> c, m).
Proof. done. Qed.
Lemma exec_sub d r v c m : exec (Sub d r v) (c, m) = (<[d := u64 (c r - v)]> c, m).
Proof. done. Qed.
Lemma exec_orr d r v c m : exec (Orr d r v) (c, m) = (<[d := Z.lor (c r) v]> c, m).
Proof. done. Qed.
Lemma exec_bic d r v c m : exec (Bic d r v) (c, m) = (<[d := Z.land (c r) (Z.lnot v)]> c, m).
Proof. done. Qed.
Lemma exec_str n r b off c m : exec (Str n r b off) (c, m) = (c, storen n m (c b + off) (c r)).
Proof. done. Qed.
Lemma exec_ldr n r b off c m : exec (Ldr n r b off) (c, m) = (<[r := loadn n m (c b + off)]> c, m).
Proof. done. Qed.

(** A sequence, instruction by instruction, with the registers it reads looked
    up. *)
Ltac look := repeat first [rewrite fn_lookup_insert | rewrite fn_lookup_insert_ne by discriminate].

Ltac steps :=
  repeat (rewrite run_cons;
    first [rewrite exec_mov | rewrite exec_imm | rewrite exec_subr | rewrite exec_add | rewrite exec_sub | rewrite exec_orr
          | rewrite exec_bic | rewrite exec_str | rewrite exec_ldr]; look);
  rewrite run_nil; cbn [fst snd]; look.

(** ** Symbolic execution

    A symbolic state says which registers hold the original value of which
    register, and which slots of the frame do. *)

Record sym := Sym {
  holding : reg -> option reg;
  slots : list (Z * nat * reg);
}.

Definition apart_from (off : Z) (n : nat) (x : Z * nat * reg) : bool :=
  let '(o, k, _) := x in (o + Z.of_nat k <=? off) || (off + Z.of_nat n <=? o).

Definition find_slot (off : Z) (n : nat) (l : list (Z * nat * reg)) : option reg :=
  x ← list_find (fun x => x.1 = (off, n)) l; Some x.2.2.

(** Only moves between registers and accesses to the frame whose base is in
    [fr], which is not changed; a value is kept only in a slot that holds all
    of it. *)
Definition sym_exec (fr : reg) (size : Z) (i : insn) (s : sym) : option sym :=
  match i with
  | Mov d r => if decide (d = fr) then None else Some (Sym (<[d := holding s r]> (holding s)) (slots s))
  | Str n r base off =>
      if decide (base = fr /\ 0 <= off /\ off + Z.of_nat n <= size) then
        let kept := filter (fun x => apart_from off n x = true) (slots s) in
        Some (Sym (holding s)
          match holding s r with
          | Some o => if decide ((width o <= n)%nat) then (off, n, o) :: kept else kept
          | None => kept
          end)
      else None
  | Ldr n r base off =>
      if decide (base = fr /\ r <> fr) then
        Some (Sym (<[r := find_slot off n (slots s)]> (holding s)) (slots s))
      else None
  | _ => None
  end.

Fixpoint sym_run (fr : reg) (size : Z) (l : list insn) (s : sym) : option sym :=
  match l with
  | [] => Some s
  | i :: l => s ← sym_exec fr size i s; sym_run fr size l s
  end.

(** [l] leaves every register of [frame] in its slot, and those of [regs] as
    they were. *)
Definition saves (fr : reg) (size : Z) (l : list insn) (frame : list (Z * nat * reg)) (regs : list reg) : bool :=
  match sym_run fr size l (Sym Some []) with
  | Some s => forallb (fun x => bool_decide (x ∈ slots s)) frame && forallb (fun r => bool_decide (holding s r = Some r)) regs
  | None => false
  end.

(** From a frame with those slots [l] gives each first register of [regs] the
    value of the second one. *)
Definition restores (fr : reg) (size : Z) (l : list insn) (frame : list (Z * nat * reg)) (regs : list (reg * reg)) : bool :=
  forallb (fun '(off, n, _) => (0 <=? off) && (off + Z.of_nat n <=? size)) frame &&
  match sym_run fr size l (Sym (fun _ => None) frame) with
  | Some s => forallb (fun '(r, o) => bool_decide (holding s r = Some o)) regs
  | None => false
  end.

(** ** Soundness *)

Section Sound.
Context (c0 : cpu) (fr : reg) (base size : Z) (Hfits : forall r, fits c0 r).

(** The frame holds the values [c0]. *)
Definition framed_by (frame : list (Z * nat * reg)) (m : mem) : Prop :=
  forall off n o, (off, n, o) ∈ frame -> loadn n m (base + off) = c0 o.

(** What a symbolic state says of a machine state. *)
Record means (s : sym) (c : cpu) (m : mem) : Prop := {
  mn_base : c fr = base;
  mn_regs : forall r o, holding s r = Some o -> c r = c0 o;
  mn_inside : forall off n o, (off, n, o) ∈ slots s -> 0 <= off /\ off + Z.of_nat n <= size;
  mn_slots : framed_by (slots s) m;
}.

Abbreviation keeps := (agree (outside base (base + size))).

Lemma means_set s c m d o v : means s c m -> d <> fr -> (forall r, o = Some r -> v = c0 r) ->
  means (Sym (<[d := o]> (holding s)) (slots s)) (<[d := v]> c) m.
Proof.
  intros [Hb Hr Hi Hs] Hd Hv. split; [by rewrite fn_lookup_insert_ne| |done|done].
  intros r' o'. cbn [holding]. destruct (decide (r' = d)) as [->|Hne].
  - rewrite !fn_lookup_insert. apply Hv.
  - rewrite !fn_lookup_insert_ne by done. apply Hr.
Qed.

Lemma means_store s c m n r off : means s c m -> 0 <= off -> off + Z.of_nat n <= size ->
  let kept := filter (fun x => apart_from off n x = true) (slots s) in
  means (Sym (holding s) match holding s r with
    | Some o => if decide ((width o <= n)%nat) then (off, n, o) :: kept else kept
    | None => kept end) c (storen n m (base + off) (c r)).
Proof.
  intros [Hb Hr Hi Hs] H0 H1 kept.
  assert (Hkept : forall off' n' o, (off', n', o) ∈ kept -> (off', n', o) ∈ slots s /\
    loadn n' (storen n m (base + off) (c r)) (base + off') = c0 o).
  { intros off' n' o (Ha & Hin)%list_elem_of_filter. split; [done|]. rewrite loadn_storen_ne; [by apply Hs|].
    unfold apart_from in Ha. apply orb_true_iff in Ha as [Ha|Ha]; lia. }
  assert (Hk : means (Sym (holding s) kept) c (storen n m (base + off) (c r))).
  { split; [done|done| |]; intros off' n' o (K1 & K2)%Hkept; [by apply (Hi _ _ _ K1)|done]. }
  destruct (holding s r) as [o|] eqn:Eo; [|done]. destruct (decide (width o <= n)%nat) as [Hw|]; [|done].
  destruct Hk as [_ _ Ki Ks]. split; [done|done| |]; intros off' n' o'; cbn [slots]; rewrite elem_of_cons; intros [[= -> -> ->]|Hin];
    [done|by eapply Ki| |by apply Ks].
  rewrite (Hr _ _ Eo). apply loadn_storen_eq. destruct (Hfits o) as [F1 F2]. split; [done|].
  eapply Z.lt_le_trans; [exact F2|]. apply Z.pow_le_mono_r; lia.
Qed.

Lemma sym_exec_sound i s s' c m : sym_exec fr size i s = Some s' -> means s c m ->
  means s' (exec i (c, m)).1 (exec i (c, m)).2 /\ keeps m (exec i (c, m)).2.
Proof.
  intros E Hm. pose proof Hm as [Hb Hr Hi Hs].
  destruct i as [d r|d v|d r v|d r v|d r r'|d r v|d r v|n r b off|n r b off]; cbn [sym_exec] in E; try done; cbn [exec fst snd].
  - destruct (decide (d = fr)) as [|Hd]; [done|]. injection E as <-. split; [|done]. apply means_set; [done|done|]. apply Hr.
  - destruct (decide _) as [(-> & H0 & H1)|]; [|done]. injection E as <-. rewrite Hb. split; [by apply means_store|].
    intros a Ha. apply load8_storen_ne. unfold outside in Ha. lia.
  - destruct (decide _) as [(-> & Hn)|]; [|done]. injection E as <-. split; [|done]. apply means_set; [done|done|].
    intros o. unfold find_slot. destruct (list_find _ (slots s)) as [[i [[off' n'] o']]|] eqn:Ef; [|done].
    intros [= <-]. apply list_find_Some in Ef as (Hx & [= -> ->] & _). rewrite Hb.
    apply list_elem_of_lookup_2, Hs in Hx. apply Hx.
Qed.

Lemma sym_run_sound l s s' c m : sym_run fr size l s = Some s' -> means s c m ->
  means s' (run l (c, m)).1 (run l (c, m)).2 /\ keeps m (run l (c, m)).2.
Proof.
  revert s c m. induction l as [|i l IH]; intros s c m E Hm; cbn [sym_run] in E; [by injection E as <-|].
  apply bind_Some in E as (s1 & E1 & E2). destruct (sym_exec_sound i s s1 c m E1 Hm) as [H1 A1].
  change (run (i :: l) (c, m)) with (run l (exec i (c, m))). destruct (exec i (c, m)) as [c1 m1].
  destruct (IH s1 c1 m1 E2 H1) as [H2 A2]. split; [done|]. cbn [fst snd] in A1. by etrans.
Qed.
End Sound.

(** ** The two halves *)

Lemma saves_ok fr size l frame regs c m : saves fr size l frame regs = true -> (forall r, fits c r) ->
  let s := run l (c, m) in
  s.1 fr = c fr /\ framed_by c (c fr) frame s.2 /\ (forall r, r ∈ regs -> s.1 r = c r) /\
  agree (outside (c fr) (c fr + size)) m s.2.
Proof.
  unfold saves. intros H Hfits. destruct (sym_run _ _ _ _) as [s|] eqn:E; [|done]. apply andb_true_iff in H as [H1 H2].
  destruct (sym_run_sound c fr (c fr) size Hfits l _ s c m E) as [[Hb Hr _ Hs] A].
  { split; [done| |by intros ? ? ? ?%elem_of_nil|by intros ? ? ? ?%elem_of_nil]. by intros r o [= <-]. }
  split; [done|]. split; [|split; [|done]].
  - intros off n o Hin. apply Hs, (bool_decide_eq_true_1 _ (forallb_elem _ _ _ H1 Hin)).
  - intros r Hin. apply Hr, (bool_decide_eq_true_1 _ (forallb_elem _ _ _ H2 Hin)).
Qed.

Lemma restores_ok fr size l frame regs c0 c m : restores fr size l frame regs = true -> (forall r, fits c0 r) ->
  framed_by c0 (c fr) frame m ->
  (run l (c, m)).1 fr = c fr /\ forall r o, (r, o) ∈ regs -> (run l (c, m)).1 r = c0 o.
Proof.
  unfold restores. intros (Hin & H)%andb_true_iff Hfits Hm. destruct (sym_run _ _ _ _) as [s|] eqn:E; [|done].
  destruct (sym_run_sound c0 fr (c fr) size Hfits l _ s c m E) as [[Hb Hr _ _] A].
  { split; [done|done| |done]. intros off n o Ho. pose proof (forallb_elem _ _ _ Hin Ho) as Hx. cbn in Hx. lia. }
  split; [done|]. intros r o Ho. apply Hr, (bool_decide_eq_true_1 _ (forallb_elem _ _ _ H Ho)).
Qed.

(** Code without stores does not change memory. *)
Definition no_store (i : insn) : bool := match i with Str _ _ _ _ => false | _ => true end.

Lemma run_no_store l c m : forallb no_store l = true -> (run l (c, m)).2 = m.
Proof.
  revert c. induction l as [|i l IH]; intros c H; [done|]. apply andb_true_iff in H as [Hi Hl].
  change (run (i :: l) (c, m)) with (run l (exec i (c, m))). destruct i; try done; by apply IH.
Qed.
End Asm.
