(* ===== verification/SwitchAsm.v ===== *)
(** * The context switch (src/src/switch.S)

    The instructions of [cpu_switch_to] on the bytes of the two contexts, and
    that they are what the scheduler takes the switch to be. *)

From stdpp Require Import functions.
From S2P Require Import Prelude Memory Sched SchedQueues Asm.

Module SwitchAsm.
Import Asm.

(** x0 is [prev] and x1 is [next]. *)
Definition switch_out : list insn :=
  stp (X 19) (X 20) (X 0) 0 ++
  stp (X 21) (X 22) (X 0) 16 ++
  stp (X 23) (X 24) (X 0) 32 ++
  stp (X 25) (X 26) (X 0) 48 ++
  stp (X 27) (X 28) (X 0) 64 ++
  stp (X 29) (X 30) (X 0) 80 ++
  [Mov (X 9) SP; Str 8 (X 9) (X 0) 96] ++
  stp (Q 8) (Q 9) (X 0) 112 ++
  stp (Q 10) (Q 11) (X 0) 144 ++
  stp (Q 12) (Q 13) (X 0) 176 ++
  stp (Q 14) (Q 15) (X 0) 208.

Definition switch_in : list insn :=
  ldp (X 19) (X 20) (X 1) 0 ++
  ldp (X 21) (X 22) (X 1) 16 ++
  ldp (X 23) (X 24) (X 1) 32 ++
  ldp (X 25) (X 26) (X 1) 48 ++
  ldp (X 27) (X 28) (X 1) 64 ++
  ldp (X 29) (X 30) (X 1) 80 ++
  [Ldr 8 (X 9) (X 1) 96; Mov SP (X 9)] ++
  ldp (Q 8) (Q 9) (X 1) 112 ++
  ldp (Q 10) (Q 11) (X 1) 144 ++
  ldp (Q 12) (Q 13) (X 1) 176 ++
  ldp (Q 14) (Q 15) (X 1) 208 ++
  [Mov PC (X 30)].

Definition switch_code : list insn := switch_out ++ switch_in.

(** ** The context in memory *)

(** The fields of [cpu_context_t], at the start of the task. *)
Definition context_slots : list (Z * nat * reg) :=
  [(0, 8%nat, X 19); (8, 8%nat, X 20); (16, 8%nat, X 21); (24, 8%nat, X 22); (32, 8%nat, X 23); (40, 8%nat, X 24);
   (48, 8%nat, X 25); (56, 8%nat, X 26); (64, 8%nat, X 27); (72, 8%nat, X 28); (80, 8%nat, X 29); (88, 8%nat, X 30); (96, 8%nat, SP);
   (112, 16%nat, Q 8); (128, 16%nat, Q 9); (144, 16%nat, Q 10); (160, 16%nat, Q 11); (176, 16%nat, Q 12); (192, 16%nat, Q 13);
   (208, 16%nat, Q 14); (224, 16%nat, Q 15)].

Definition context_size : Z := 240.

Definition registers (c : cpu) : Sched.cpu_context :=
  Sched.CpuContext (c (X 19)) (c (X 20)) (c (X 21)) (c (X 22)) (c (X 23)) (c (X 24)) (c (X 25)) (c (X 26)) (c (X 27)) (c (X 28))
    (c (X 29)) (c (X 30)) (c SP) (c (Q 8)) (c (Q 9)) (c (Q 10)) (c (Q 11)) (c (Q 12)) (c (Q 13)) (c (Q 14)) (c (Q 15)).

(** The registers a context holds. *)
Definition saved (m : mem) (p : Z) : cpu := fun r =>
  match list_find (fun x => x.2 = r) context_slots with
  | Some (_, (off, n, _)) => loadn n m (p + off)
  | None => 0
  end.

Definition context_at (m : mem) (p : Z) : Sched.cpu_context := registers (saved m p).

(** Case analysis on a slot of the context. *)
Ltac each_slot H := unfold context_slots in H; repeat (apply elem_of_cons in H as [[= -> -> ->]|H]); [..|by apply elem_of_nil in H].

Lemma saved_fits m p r : fits (saved m p) r.
Proof.
  unfold fits, saved. destruct (list_find _ _) as [[i [[off n] o]]|] eqn:E; [|split; [done|apply Z.pow_pos_nonneg; lia]].
  apply list_find_Some in E as (Hx & Ho & _). cbn in Ho. subst o. apply list_elem_of_lookup_2 in Hx.
  each_slot Hx; apply loadn_range.
Qed.

Lemma saved_framed m p : framed_by (saved m p) p context_slots m.
Proof. intros off n o Hx. each_slot Hx; reflexivity. Qed.

Lemma framed_context c m p : framed_by c p context_slots m -> context_at m p = registers c.
Proof.
  intros H. assert (Hs : forall off n o, (off, n, o) ∈ context_slots -> saved m p o = c o).
  { intros off n o Hx. rewrite <- (H _ _ _ Hx). each_slot Hx; reflexivity. }
  unfold context_at, registers. f_equal; eapply Hs; repeat (apply elem_of_cons; first [left; reflexivity|right]).
Qed.

(** ** The switch *)

Definition context_regs : list (reg * reg) := (fun x => (x.2, x.2)) <$> context_slots.

Lemma out_saves : saves (X 0) context_size switch_out context_slots [X 1] = true.
Proof. by vm_compute. Qed.
Lemma in_restores : restores (X 1) context_size switch_in context_slots ((PC, X 30) :: context_regs) = true.
Proof. by vm_compute. Qed.

Lemma registers_ext c c' : (forall r, r ∈ context_slots.*2 -> c r = c' r) -> registers c = registers c'.
Proof. intros H. unfold registers. f_equal; apply H; repeat (apply elem_of_cons; first [left; reflexivity|right]). Qed.

(** The registers go to the context of [prev], those of [next] are loaded, and
    control goes to where [next] called from. *)
Lemma switch_code_ok c m : (forall r, fits c r) ->
  let '(c', m') := run switch_code (c, m) in
  context_at m' (c (X 0)) = registers c /\ registers c' = context_at m' (c (X 1)) /\ c' PC = Sched.lr (registers c') /\
  agree (outside (c (X 0)) (c (X 0) + context_size)) m m'.
Proof.
  intros Hf. unfold switch_code. rewrite run_app.
  destruct (saves_ok (X 0) context_size switch_out context_slots [X 1] c m out_saves Hf) as (_ & Hs & H1 & Ha).
  destruct (run switch_out (c, m)) as [c1 m1]. cbn [fst snd] in Hs, H1, Ha. specialize (H1 (X 1) ltac:(by left)).
  destruct (restores_ok (X 1) context_size switch_in context_slots _ (saved m1 (c1 (X 1))) c1 m1 in_restores
    (saved_fits m1 _) (saved_framed m1 _)) as (_ & Hr).
  pose proof (run_no_store switch_in c1 m1 ltac:(by vm_compute)) as Em. destruct (run switch_in (c1, m1)) as [c2 m2].
  cbn [fst snd] in Hr, Em. subst m2. split; [by apply framed_context|]. rewrite <- H1. split; [|split; [|done]].
  - apply registers_ext. intros r (x & -> & Hx)%list_elem_of_fmap. apply Hr. right. apply list_elem_of_fmap. by exists x.
  - cbn [Sched.lr registers]. rewrite (Hr PC (X 30)) by left. symmetry. apply Hr. right. apply list_elem_of_fmap.
    eexists (88, 8%nat, X 30). split; [done|]. unfold context_slots. repeat (apply elem_of_cons; first [left; reflexivity|right]).
Qed.
(** A context whose bytes are kept is kept. *)
Lemma context_kept m m' p : agree (fun b => p <= b < p + context_size) m m' -> context_at m' p = context_at m p.
Proof.
  intros H. apply registers_ext. intros r (x & -> & Hx)%list_elem_of_fmap. destruct x as [[off n] o]. cbn [snd].
  rewrite <- !(saved_framed _ _ _ _ _ Hx). apply (agree_loadn _ _ _ _ _ H). each_slot Hx; intros b Hb; unfold context_size; lia.
Qed.

(** ** The scheduler's switch *)

Section Refines.
Context {A : Type}.
Abbreviation sched := (@Sched.sched A).

(** The tasks of [T] have contexts of their own, and they are those of [m]. *)
Definition apart_tasks (T : gset Z) : Prop :=
  forall p q, p ∈ T -> q ∈ T -> p <> q -> p + context_size <= q \/ q + context_size <= p.

Definition contexts_in (T : gset Z) (s : sched) (m : mem) : Prop :=
  forall t, t ∈ T -> Sched.context (Sched.tasks s t) = context_at m t.

(** C21 The instructions of [cpu_switch_to] do what the scheduler takes the
    switch to do: the callee-saved registers, the stack pointer and the return
    address of the caller are then the context of [prev], those of [next] are
    in the machine's registers, control goes to where [next] called from, no
    other task's context changes and no byte outside the one of [prev]. *)
Theorem switch_refines T prev next c m (s : sched) :
  (forall r, fits c r) -> c (X 0) = prev -> c (X 1) = next -> prev ∈ T -> next ∈ T -> T ⊆ Sched.alive s -> apart_tasks T ->
  contexts_in T s m ->
  let '(c', m') := run switch_code (c, m) in
  exists s', Sched.cpu_switch_to prev next (registers c) s = inr (registers c', s') /\ contexts_in T s' m' /\
    c' PC = Sched.lr (registers c') /\ agree (outside prev (prev + context_size)) m m'.
Proof.
  intros Hf <- <- Hp Hn Hal Hap Hc. pose proof (switch_code_ok c m Hf) as H. destruct (run switch_code (c, m)) as [c' m'].
  destruct H as (H1 & H2 & H3 & H4). unfold Sched.cpu_switch_to.
  erewrite SchedQueues.bind_ok by (apply SchedQueues.upd_ok; set_solver).
  erewrite SchedQueues.bind_ok by (apply SchedQueues.get_ok; cbn; set_solver).
  assert (Hk : contexts_in T (Sched.with_tasks (<[c (X 0) := Sched.with_context (registers c) (Sched.tasks s (c (X 0)))]> (Sched.tasks s)) s) m').
  { intros t Ht. cbn [Sched.tasks Sched.with_tasks]. destruct (decide (t = c (X 0))) as [->|Hne].
    - by rewrite fn_lookup_insert, H1.
    - rewrite fn_lookup_insert_ne, Hc by done. symmetry. apply context_kept, (agree_weaken _ _ _ _ H4). intros b Hb. unfold outside.
      destruct (Hap t (c (X 0)) Ht Hp Hne); lia. }
  eexists. split; [|done]. unfold mret, Sched.M_ret. f_equal. f_equal. by rewrite H2, <- Hk.
Qed.
End Refines.

(** A task that has been switched out goes on where it called, with its
    registers and its stack, whatever happens in between, as long as its
    context is left alone. *)
Theorem switch_back c m c2 m2 : (forall r, fits c r) -> (forall r, fits c2 r) -> c2 (X 1) = c (X 0) ->
  c2 (X 0) + context_size <= c (X 0) \/ c (X 0) + context_size <= c2 (X 0) ->
  agree (fun b => c (X 0) <= b < c (X 0) + context_size) (run switch_code (c, m)).2 m2 ->
  registers (run switch_code (c2, m2)).1 = registers c /\ (run switch_code (c2, m2)).1 PC = c (X 30).
Proof.
  intros Hf Hf2 H1 Ha Hk. pose proof (switch_code_ok c m Hf) as H. pose proof (switch_code_ok c2 m2 Hf2) as H'.
  destruct (run switch_code (c, m)) as [c1 m1], (run switch_code (c2, m2)) as [c3 m3]. cbn [fst snd] in *.
  destruct H as (K1 & _), H' as (_ & L2 & L3 & L4).
  assert (E : registers c3 = registers c); [|by rewrite L3, E].
  rewrite L2, H1, <- K1, <- (context_kept _ _ _ Hk). apply context_kept, (agree_weaken _ _ _ _ L4). intros b Hb. unfold outside. lia.
Qed.

(** [ret_from_fork] after its call of [sched_unlock_release]: the thread's
    function is called with its argument, and returns to [next]. *)
Definition fork_code (next : Z) : list insn := [Mov (X 0) (X 20); Imm (X 30) next; Mov PC (X 19)].

(** A thread that runs for the first time: the switch goes to [lr] of the
    context [pthread_create] has made, and from there, the call before having
    kept the callee-saved registers, control goes to [x19], the function, with
    [x20], the argument, in x0, on the thread's own stack. *)
Theorem thread_starts c m c1 m1 next : (forall r, fits c r) ->
  let '(c', m') := run switch_code (c, m) in let t := context_at m' (c (X 1)) in
  registers c1 = registers c' ->
  c' PC = Sched.lr t /\ (run (fork_code next) (c1, m1)).1 PC = Sched.x19 t /\ (run (fork_code next) (c1, m1)).1 (X 0) = Sched.x20 t /\
  (run (fork_code next) (c1, m1)).1 SP = Sched.sp t.
Proof.
  intros Hf. pose proof (switch_code_ok c m Hf) as H. destruct (run switch_code (c, m)) as [c' m']. destruct H as (_ & H2 & H3 & _).
  cbv zeta. intros Hr. rewrite <- H2, <- Hr in *. unfold fork_code. steps. split; [by rewrite H3, Hr|]. by split.
Qed.

(** Two tasks in fresh memory; the first one runs with 7 in x19. *)
Definition two_tasks : gset Z := {[4096; 8192]}.
Definition running_cpu : cpu := fun r =>
  if decide (r = X 0) then 4096 else if decide (r = X 1) then 8192 else if decide (r = X 19) then 7 else 0.
Definition two_sched : @Sched.sched mem :=
  Sched.SchedState (fun _ => Sched.zero_task) two_tasks ∅ (fun _ => 0) (fun _ => 0) 0 [] 0.

Lemma switch_refines_witness : exists s',
  Sched.cpu_switch_to 4096 8192 (registers running_cpu) two_sched =
    inr (registers (run switch_code (running_cpu, ∅)).1, s') /\
  (run switch_code (running_cpu, ∅)).1 (X 19) = 0 /\ load64 (run switch_code (running_cpu, ∅)).2 4096 = 7.
Proof.
  pose proof (switch_refines two_tasks 4096 8192 running_cpu ∅ two_sched) as H.
  destruct (run switch_code (running_cpu, ∅)) as [c' m'] eqn:E. destruct H as (s' & H1 & _).
  - intros r. apply fits_small. unfold running_cpu. repeat case_decide; lia.
  - reflexivity.
  - reflexivity.
  - unfold two_tasks. set_solver.
  - unfold two_tasks. set_solver.
  - done.
  - intros p q Hp Hq. unfold two_tasks in *. rewrite elem_of_union, !elem_of_singleton in Hp, Hq. unfold context_size. lia.
  - intros t Ht. unfold two_tasks in Ht. rewrite elem_of_union, !elem_of_singleton in Ht. destruct Ht as [-> | ->]; by vm_compute.
  - exists s'. split; [exact H1|]. replace c' with (run switch_code (running_cpu, ∅)).1 by (by rewrite E).
    replace m' with (run switch_code (running_cpu, ∅)).2 by (by rewrite E). split; by vm_compute.
Defined.
End SwitchAsm.
