(* ===== verification/Entry.v ===== *)
(** * Reset and exceptions (src/src/boot.S)

    The code before [main], the entry of the second core, and the frame an
    exception saves and restores around its handler. *)

From stdpp Require Import functions.
From S2P Require Import Prelude Memory Asm.

Module Entry.
Import Asm.

(** ** Exceptions *)

(** The processor takes an exception in the kernel: the interrupted place and
    its flags are kept in two registers, and exceptions are masked. *)
Definition take_exception (offset : Z) (c : cpu) : cpu :=
  <[PC := u64 (c (Sys VBAR_EL1) + offset)]> (<[PSTATE := Z.lor (c PSTATE) 0x3C0]>
    (<[Sys SPSR_EL1 := c PSTATE]> (<[Sys ELR_EL1 := c PC]> c))).

Definition save_frame : list insn :=
  stp (X 0) (X 1) SP (16 * 0) ++
  stp (X 2) (X 3) SP (16 * 1) ++
  stp (X 4) (X 5) SP (16 * 2) ++
  stp (X 6) (X 7) SP (16 * 3) ++
  stp (X 8) (X 9) SP (16 * 4) ++
  stp (X 10) (X 11) SP (16 * 5) ++
  stp (X 12) (X 13) SP (16 * 6) ++
  stp (X 14) (X 15) SP (16 * 7) ++
  stp (X 16) (X 17) SP (16 * 8) ++
  stp (X 18) (X 19) SP (16 * 9) ++
  stp (X 20) (X 21) SP (16 * 10) ++
  stp (X 22) (X 23) SP (16 * 11) ++
  stp (X 24) (X 25) SP (16 * 12) ++
  stp (X 26) (X 27) SP (16 * 13) ++
  stp (X 28) (X 29) SP (16 * 14) ++
  [Str 8 (X 30) SP (16 * 15)] ++
  [Mov (X 0) (Sys SP_EL0); Str 8 (X 0) SP 256] ++
  [Mov (X 0) (Sys ELR_EL1); Mov (X 1) (Sys SPSR_EL1)] ++
  stp (X 0) (X 1) SP 264 ++
  stp (Q 0) (Q 1) SP 288 ++
  stp (Q 2) (Q 3) SP 320 ++
  stp (Q 4) (Q 5) SP 352 ++
  stp (Q 6) (Q 7) SP 384 ++
  stp (Q 8) (Q 9) SP 416 ++
  stp (Q 10) (Q 11) SP 448 ++
  stp (Q 12) (Q 13) SP 480 ++
  stp (Q 14) (Q 15) SP 512 ++
  stp (Q 16) (Q 17) SP 544 ++
  stp (Q 18) (Q 19) SP 576 ++
  stp (Q 20) (Q 21) SP 608 ++
  stp (Q 22) (Q 23) SP 640 ++
  stp (Q 24) (Q 25) SP 672 ++
  stp (Q 26) (Q 27) SP 704 ++
  stp (Q 28) (Q 29) SP 736 ++
  stp (Q 30) (Q 31) SP 768 ++
  [Mov (X 21) (Sys FPSR); Mov (X 22) (Sys FPCR)] ++
  [Str 4 (X 21) SP 800; Str 4 (X 22) SP 804].

Definition SAVE_CONTEXT : list insn := Sub SP SP 816 :: save_frame.

Definition load_frame : list insn :=
  [Ldr 4 (X 21) SP 800; Ldr 4 (X 22) SP 804] ++
  [Mov (Sys FPSR) (X 21); Mov (Sys FPCR) (X 22)] ++
  ldp (Q 0) (Q 1) SP 288 ++
  ldp (Q 2) (Q 3) SP 320 ++
  ldp (Q 4) (Q 5) SP 352 ++
  ldp (Q 6) (Q 7) SP 384 ++
  ldp (Q 8) (Q 9) SP 416 ++
  ldp (Q 10) (Q 11) SP 448 ++
  ldp (Q 12) (Q 13) SP 480 ++
  ldp (Q 14) (Q 15) SP 512 ++
  ldp (Q 16) (Q 17) SP 544 ++
  ldp (Q 18) (Q 19) SP 576 ++
  ldp (Q 20) (Q 21) SP 608 ++
  ldp (Q 22) (Q 23) SP 640 ++
  ldp (Q 24) (Q 25) SP 672 ++
  ldp (Q 26) (Q 27) SP 704 ++
  ldp (Q 28) (Q 29) SP 736 ++
  ldp (Q 30) (Q 31) SP 768 ++
  ldp (X 0) (X 1) SP 264 ++
  [Mov (Sys ELR_EL1) (X 0); Mov (Sys SPSR_EL1) (X 1)] ++
  [Ldr 8 (X 0) SP 256; Mov (Sys SP_EL0) (X 0)] ++
  ldp (X 0) (X 1) SP (16 * 0) ++
  ldp (X 2) (X 3) SP (16 * 1) ++
  ldp (X 4) (X 5) SP (16 * 2) ++
  ldp (X 6) (X 7) SP (16 * 3) ++
  ldp (X 8) (X 9) SP (16 * 4) ++
  ldp (X 10) (X 11) SP (16 * 5) ++
  ldp (X 12) (X 13) SP (16 * 6) ++
  ldp (X 14) (X 15) SP (16 * 7) ++
  ldp (X 16) (X 17) SP (16 * 8) ++
  ldp (X 18) (X 19) SP (16 * 9) ++
  ldp (X 20) (X 21) SP (16 * 10) ++
  ldp (X 22) (X 23) SP (16 * 11) ++
  ldp (X 24) (X 25) SP (16 * 12) ++
  ldp (X 26) (X 27) SP (16 * 13) ++
  ldp (X 28) (X 29) SP (16 * 14) ++
  [Ldr 8 (X 30) SP (16 * 15)].

(** The return from the exception. *)
Definition eret : list insn := [Mov PC (Sys ELR_EL1); Mov PSTATE (Sys SPSR_EL1)].

Definition RESTORE_CONTEXT : list insn := load_frame ++ [Add SP SP 816] ++ eret.

(** [irq_entry] and [sync_entry]: the handler is called with the frame's
    address as its argument. *)
Definition exception_entry (handler : state -> state) (s : state) : state :=
  run RESTORE_CONTEXT (handler (run (SAVE_CONTEXT ++ [Mov (X 0) SP]) s)).

(** The registers of the interrupted code. *)
Definition frame_slots : list (Z * nat * reg) :=
  ((fun i => (8 * i, 8%nat, X i)) <$> seqZ 0 31) ++ ((fun i => (288 + 16 * i, 16%nat, Q i)) <$> seqZ 0 32) ++
  [(256, 8%nat, Sys SP_EL0); (264, 8%nat, Sys ELR_EL1); (272, 8%nat, Sys SPSR_EL1); (800, 4%nat, Sys FPSR); (804, 4%nat, Sys FPCR)].

Definition frame_regs : list reg := (X <$> seqZ 0 31) ++ (Q <$> seqZ 0 32) ++ [Sys SP_EL0; Sys FPSR; Sys FPCR].
Definition code_regs : list reg := frame_regs ++ [SP; PC; PSTATE].

Definition loaded : list (reg * reg) :=
  ((fun r => (r, r)) <$> frame_regs) ++ [(Sys ELR_EL1, Sys ELR_EL1); (Sys SPSR_EL1, Sys SPSR_EL1)].

Lemma frame_saves : saves SP 816 save_frame frame_slots [] = true.
Proof. by vm_compute. Qed.
Lemma frame_inside : forallb (fun '(off, n, _) => (0 <=? off) && (off + Z.of_nat n <=? 816)) frame_slots = true.
Proof. by vm_compute. Qed.
Lemma frame_restores : restores SP 816 load_frame frame_slots loaded = true.
Proof. by vm_compute. Qed.

Lemma fits_set c d v r : fits c r -> 0 <= v < 256 ^ Z.of_nat (width d) -> fits (<[d := v]> c) r.
Proof. intros H1 H2. unfold fits. destruct (decide (r = d)) as [->|]; by rewrite ?fn_lookup_insert, ?fn_lookup_insert_ne. Qed.

Lemma u64_fits v : 0 <= u64 v < 256 ^ Z.of_nat 8.
Proof. exact (u64_range v). Qed.

Lemma not_in_regs (r : reg) (l : list reg) : bool_decide (r ∈ l) = false -> forall r', r' ∈ l -> r' <> r.
Proof. intros H r' Hr ->. by rewrite bool_decide_eq_false in H. Qed.

Lemma taken_fits offset c : (forall r, fits c r) -> forall r, fits (take_exception offset c) r.
Proof.
  intros Hf r. unfold take_exception. apply fits_set; [|apply u64_fits].
  apply fits_set; [|apply (lor_range _ _ 64); [done|exact (Hf PSTATE)|done]].
  apply fits_set; [|exact (Hf PSTATE)]. apply fits_set; [apply Hf|exact (Hf PC)].
Qed.

Lemma taken_other offset c r : r ∈ frame_regs \/ r = SP -> take_exception offset c r = c r.
Proof.
  intros H. assert (Hn : forall r', bool_decide (r' ∈ frame_regs) = false -> r' <> SP -> r' <> r).
  { intros r' H1 H2 ->. destruct H as [H| ->]; [|done]. by apply (not_in_regs r frame_regs H1 r H). }
  unfold take_exception. by rewrite !fn_lookup_insert_ne by (apply Hn; [by vm_compute|done]).
Qed.

(** The stack is given back, and [eret] goes to the interrupted place. *)
Lemma return_ok c s : (forall r, fits c r) -> s.1 SP = c SP - 816 -> s.1 (Sys ELR_EL1) = c PC -> s.1 (Sys SPSR_EL1) = c PSTATE ->
  (forall r, r ∈ frame_regs -> s.1 r = c r) -> forall r, r ∈ code_regs -> (run eret (run [Add SP SP 816] s)).1 r = c r.
Proof.
  intros Hf H1 H2 H3 Hr r Hin. destruct s as [c1 m1]. cbn [fst] in *.
  cbn [run foldl exec eret app fst]. rewrite !(fn_lookup_insert_ne _ PC), !(fn_lookup_insert_ne _ SP) by done. rewrite H1, H2, H3.
  unfold code_regs in Hin. apply elem_of_app in Hin as [Hin|Hin].
  - pose proof (not_in_regs SP frame_regs eq_refl r Hin). pose proof (not_in_regs PC frame_regs eq_refl r Hin).
    pose proof (not_in_regs PSTATE frame_regs eq_refl r Hin). rewrite !fn_lookup_insert_ne by done. by apply Hr.
  - repeat (apply elem_of_cons in Hin as [->|Hin]); [..|by apply elem_of_nil in Hin].
    + rewrite !fn_lookup_insert_ne, fn_lookup_insert by done. replace (c SP - 816 + 816) with (c SP) by lia.
      apply u64_id. exact (Hf SP).
    + by rewrite fn_lookup_insert_ne, fn_lookup_insert.
    + by rewrite fn_lookup_insert.
Qed.

(** C35 An exception is transparent: whatever registers its handler uses, as
    long as it gives the stack back as it was and leaves the frame alone, the
    interrupted code goes on where it was, with its flags, its stack pointer and
    every general, vector and floating-point register; the handler gets the
    address of the frame, and below the interrupted stack pointer nothing but
    the 816 bytes of the frame are written before it runs. *)
Theorem exception_transparent offset handler c m : (forall r, fits c r) -> 816 <= c SP ->
  let s := run (SAVE_CONTEXT ++ [Mov (X 0) SP]) (take_exception offset c, m) in
  (handler s).1 SP = s.1 SP -> agree (fun b => c SP - 816 <= b < c SP) s.2 (handler s).2 ->
  s.1 (X 0) = c SP - 816 /\ agree (outside (c SP - 816) (c SP)) m s.2 /\
  forall r, r ∈ code_regs -> (exception_entry handler (take_exception offset c, m)).1 r = c r.
Proof.
  intros Hf Hsp s. unfold exception_entry. fold s. unfold s, SAVE_CONTEXT, RESTORE_CONTEXT. rewrite !run_app.
  change (run (Sub SP SP 816 :: save_frame) (take_exception offset c, m))
    with (run save_frame (exec (Sub SP SP 816) (take_exception offset c, m))). cbn [exec].
  set (c1 := take_exception offset c). set (c2 := <[SP := u64 (c1 SP - 816)]> c1).
  assert (Hs2 : c2 SP = c SP - 816).
  { unfold c2, c1. rewrite fn_lookup_insert, taken_other by auto. pose proof (Hf SP) as [_ Hb]. change (c SP < 2 ^ 64) in Hb. apply u64_id. lia. }
  assert (Hf2 : forall r, fits c2 r) by (intros r; apply fits_set; [by apply taken_fits|apply u64_fits]).
  destruct (saves_ok SP 816 save_frame frame_slots [] c2 m frame_saves Hf2) as (H1 & H2 & _ & H3).
  destruct (run save_frame (c2, m)) as [c3 m3]. cbn [fst snd] in H1, H2, H3. rewrite Hs2 in H1, H2, H3.
  cbn [run foldl exec fst snd]. rewrite fn_lookup_insert_ne, fn_lookup_insert, H1 by done.
  destruct (handler (<[X 0 := c SP - 816]> c3, m3)) as [c4 m4]. cbn [fst snd]. intros E4 A4.
  split; [done|]. split; [by replace (c SP) with (c SP - 816 + 816) at 2 by lia|].
  destruct (restores_ok SP 816 load_frame frame_slots loaded c2 c4 m4 frame_restores Hf2) as (K1 & K2).
  { intros off n o Ho. rewrite E4, <- (H2 _ _ _ Ho). pose proof (forallb_elem _ _ _ frame_inside Ho) as Hi. cbn in Hi.
    apply (agree_loadn _ _ _ _ _ A4). lia. }
  pose proof (not_in_regs SP frame_regs eq_refl) as Hn.
  destruct (run load_frame (c4, m4)) as [c5 m5]. cbn [fst] in K1, K2.
  apply (return_ok c (c5, m5)); cbn [fst]; [exact Hf|by rewrite K1|..].
  - rewrite (K2 _ (Sys ELR_EL1)) by by apply (bool_decide_eq_true_1 _). done.
  - rewrite (K2 _ (Sys SPSR_EL1)) by by apply (bool_decide_eq_true_1 _). done.
  - intros r Hr. rewrite (K2 r r) by (apply elem_of_app; left; apply list_elem_of_fmap; by exists r).
    unfold c2. rewrite fn_lookup_insert_ne by (intros <-; by apply (Hn SP Hr)). apply taken_other. by left.
Qed.

Lemma lor_land a b : Z.land (Z.lor a b) b = b.
Proof. apply Z.bits_inj. intros n. rewrite Z.land_spec, Z.lor_spec. by destruct (Z.testbit b n); rewrite ?andb_false_r, ?orb_true_r. Qed.

(** ** The second core *)

(** x0 is the address of the record [main] has filled. *)
Definition secondary_entry : list insn :=
  [Ldr 8 (X 1) (X 0) 0; Mov SP (X 1);
   Mov (X 1) (Sys CPACR_EL1); Orr (X 1) (X 1) (Z.shiftl 3 20); Mov (Sys CPACR_EL1) (X 1);
   Ldr 8 (X 1) (X 0) 8; Mov (Sys TTBR0_EL1) (X 1); Mov (Sys TTBR1_EL1) (X 1);
   Ldr 8 (X 1) (X 0) 24; Mov (Sys MAIR_EL1) (X 1);
   Ldr 8 (X 1) (X 0) 16; Mov (Sys TCR_EL1) (X 1);
   Mov (X 1) (Sys SCTLR_EL1); Orr (X 1) (X 1) 1; Orr (X 1) (X 1) (Z.shiftl 1 2); Orr (X 1) (X 1) (Z.shiftl 1 12);
   Mov (Sys SCTLR_EL1) (X 1);
   Ldr 8 (X 1) (X 0) 32; Mov PC (X 1)].

(** The second core has the stack, the tables and the translation settings of
    the record, floating point and the MMU are on, and it goes to the entry
    point; its vector base is the one it had. *)
Lemma secondary_entry_ok c m : let p := c (X 0) in let '(c', m') := run secondary_entry (c, m) in
  m' = m /\ c' SP = load64 m p /\ c' (Sys TTBR0_EL1) = load64 m (p + 8) /\ c' (Sys TTBR1_EL1) = load64 m (p + 8) /\
  c' (Sys TCR_EL1) = load64 m (p + 16) /\ c' (Sys MAIR_EL1) = load64 m (p + 24) /\ c' PC = load64 m (p + 32) /\
  c' (Sys VBAR_EL1) = c (Sys VBAR_EL1) /\ Z.testbit (c' (Sys SCTLR_EL1)) 0 = true /\
  Z.land (c' (Sys CPACR_EL1)) (Z.shiftl 3 20) = Z.shiftl 3 20.
Proof.
  cbv zeta. unfold secondary_entry. steps. rewrite Z.add_0_r.
  do 8 (split; [reflexivity|]). split.
  - by rewrite !Z.lor_spec, !orb_true_r.
  - apply lor_land.
Qed.

(** ** Reset *)

Section Reset.
Context (dtb_phys_addr _stack_top el1_vector_table __bss_start __bss_end : Z).

Definition reset_code : list insn :=
  [Imm (X 1) dtb_phys_addr; Str 8 (X 0) (X 1) 0;
   Imm (X 0) _stack_top; Mov SP (X 0);
   Imm (X 0) el1_vector_table; Mov (Sys VBAR_EL1) (X 0);
   Mov (X 0) (Sys CPACR_EL1); Orr (X 0) (X 0) (Z.shiftl 3 20); Mov (Sys CPACR_EL1) (X 0);
   Mov (X 0) (Sys SCTLR_EL1); Bic (X 0) (X 0) (Z.shiftl 1 0); Mov (Sys SCTLR_EL1) (X 0);
   Bic PSTATE PSTATE (Z.shiftl 1 7);
   Imm (X 1) __bss_start; Imm (X 2) __bss_end; SubR (X 2) (X 2) (X 1)].

(** One round of the loop that clears the bss. *)
Definition clear_step (s : state) : state + state :=
  let s := run [Str 8 (X 3) (X 1) 0; Add (X 1) (X 1) 8; Sub (X 2) (X 2) 8] s in
  if s.1 (X 2) =? 0 then inr s else inl s.

(** [entry_point], up to the call of [main]; [None] is a loop still running. *)
Definition entry_point (fuel : nat) (s : state) : option state :=
  let s := run reset_code s in
  if s.1 (X 2) =? 0 then Some s else loop fuel clear_step (run [Imm (X 3) 0] s).

Lemma load8_storen_zero n m a b : a <= b < a + Z.of_nat n -> load8 (storen n m a 0) b = 0.
Proof.
  revert m a. induction n as [|n IH]; intros m a H; [lia|].
  change (load8 (storen n (store8 m a 0) (a + 1) 0) b = 0). destruct (decide (b = a)) as [->|].
  - by rewrite load8_storen_ne, load8_store8_eq by lia.
  - apply IH. lia.
Qed.

(** After some rounds: x1 and x2 move towards each other, x3 is zero and the
    bytes that x1 has passed are. *)
Record clearing (c0 : cpu) (m0 : mem) (s : state) : Prop := {
  cl_zero : s.1 (X 3) = 0;
  cl_left : s.1 (X 1) + s.1 (X 2) = __bss_end;
  cl_range : __bss_start <= s.1 (X 1) /\ 0 <= s.1 (X 2) /\ (8 | s.1 (X 2));
  cl_done : forall a, __bss_start <= a < s.1 (X 1) -> load8 s.2 a = 0;
  cl_rest : agree (outside __bss_start __bss_end) m0 s.2;
  cl_regs : forall r, r ∉ [X 1; X 2; X 3] -> s.1 r = c0 r;
}.

Context (Hend : 0 <= __bss_start <= __bss_end /\ __bss_end < 2 ^ 64) (Hround : (8 | __bss_end - __bss_start)).

Lemma clear_step_ok c0 m0 s : clearing c0 m0 s -> s.1 (X 2) <> 0 ->
  match clear_step s with
  | inl s' => clearing c0 m0 s' /\ s'.1 (X 2) <> 0 /\ s'.1 (X 2) = s.1 (X 2) - 8
  | inr s' => clearing c0 m0 s' /\ s'.1 (X 2) = 0
  end.
Proof.
  destruct s as [c m]. intros [H3 Hl (Hlo & Hp & Hd) Hz Hr Hk] Hne. cbn [fst snd] in *. unfold clear_step. cbv zeta. steps.
  destruct Hd as [d Hd]. rewrite H3, Z.add_0_r, !u64_id by lia.
  assert (H : clearing c0 m0 (<[X 2 := c (X 2) - 8]> (<[X 1 := c (X 1) + 8]> c), storen 8 m (c (X 1)) 0)).
  { split; cbn [fst snd]; look; [done|lia|split; [lia|split; [lia|exists (d - 1); lia]]|..].
    - intros a Ha. destruct (decide (a < c (X 1))); [rewrite load8_storen_ne by lia; apply Hz; lia|].
      apply load8_storen_zero. lia.
    - intros a Ha. rewrite load8_storen_ne; [by apply Hr|unfold outside in Ha; lia].
    - intros r Hn. rewrite <- (Hk r Hn). rewrite !not_elem_of_cons in Hn. destruct Hn as (N1 & N2 & _).
      by rewrite !fn_lookup_insert_ne. }
  destruct (c (X 2) - 8 =? 0) eqn:E; cbn [fst]; split; try done; look; [lia|]. split; [lia|done].
Qed.

(** The straight code: the stack of the image, the exception vectors in place,
    floating point on, the MMU off and interrupts let through. *)
Record set_up (c : cpu) : Prop := {
  su_stack : c SP = _stack_top;
  su_vectors : c (Sys VBAR_EL1) = el1_vector_table;
  su_float : Z.land (c (Sys CPACR_EL1)) (Z.shiftl 3 20) = Z.shiftl 3 20;
  su_mmu : Z.testbit (c (Sys SCTLR_EL1)) 0 = false;
  su_irq : Z.testbit (c PSTATE) 7 = false;
}.

Lemma reset_code_ok c m : let s := run reset_code (c, m) in
  set_up s.1 /\ s.1 (X 1) = __bss_start /\ s.1 (X 2) = __bss_end - __bss_start /\ s.2 = store64 m dtb_phys_addr (c (X 0)).
Proof.
  cbv zeta. unfold reset_code. steps. rewrite Z.add_0_r, (u64_id (__bss_end - __bss_start)) by lia.
  split; [|by split]. split; look; [reflexivity|reflexivity|apply lor_land|..]; by rewrite Z.land_spec, Z.lnot_spec, andb_false_r by lia.
Qed.

(** From reset [main] is entered with the machine set up; the loop over the bss
    ends, and memory is as it was except that the bss is zero and the address
    of the device tree is kept. *)
Theorem entry_point_ok fuel c m : fits c (X 0) -> __bss_end - __bss_start < Z.of_nat fuel ->
  dtb_phys_addr + 8 <= __bss_start \/ __bss_end <= dtb_phys_addr ->
  exists c' m', entry_point fuel (c, m) = Some (c', m') /\ set_up c' /\
    load64 m' dtb_phys_addr = c (X 0) /\ (forall a, __bss_start <= a < __bss_end -> load8 m' a = 0) /\
    agree (fun a => outside dtb_phys_addr (dtb_phys_addr + 8) a /\ outside __bss_start __bss_end a) m m'.
Proof.
  intros Hf Hfuel Hdtb. unfold entry_point. cbv zeta. destruct (reset_code_ok c m) as (Hsu & H1 & H2 & Hm).
  destruct (run reset_code (c, m)) as [c1 m1]. cbn [fst snd] in *. subst m1. set (m1 := store64 m dtb_phys_addr (c (X 0))) in *.
  assert (Hdone : forall s, clearing c1 m1 s -> s.1 (X 2) = 0 -> set_up s.1 /\ load64 s.2 dtb_phys_addr = c (X 0) /\
    (forall a, __bss_start <= a < __bss_end -> load8 s.2 a = 0) /\
    agree (fun a => outside dtb_phys_addr (dtb_phys_addr + 8) a /\ outside __bss_start __bss_end a) m s.2).
  { intros [c2 m2] [_ Hl _ Hz Hr Hk] E. cbn [fst snd] in *. rewrite E, Z.add_0_r in Hl. rewrite Hl in Hz. split; [|split; [|split; [done|]]].
    - destruct Hsu. by split; rewrite Hk by (by apply (bool_decide_eq_true_1 _)).
    - rewrite (agree_loadn _ _ _ _ _ Hr) by (intros b Hb; unfold outside; lia). by apply loadn_storen_eq.
    - eapply agree_weaken; [exact (agree_trans _ _ _ _ _ (agree_storen 8 m dtb_phys_addr (c (X 0))) Hr)|done]. }
  assert (Hstart : clearing c1 m1 (<[X 3 := 0]> c1, m1)).
  { split; cbn [fst snd]; look; [done|lia|rewrite H1, H2; split; [lia|split; [lia|done]]|lia|done|].
    intros r Hn. rewrite !not_elem_of_cons in Hn. by rewrite fn_lookup_insert_ne by (symmetry; apply Hn). }
  destruct (c1 (X 2) =? 0) eqn:E.
  - exists c1, m1. split; [done|]. split; [exact Hsu|]. apply (Hdone _ Hstart). cbn [fst]. look. lia.
  - steps. destruct (loop_ind (fun s => clearing c1 m1 s /\ s.1 (X 2) <> 0) (fun s => clearing c1 m1 s /\ s.1 (X 2) = 0)
      (fun s => s.1 (X 2)) fuel clear_step (<[X 3 := 0]> c1, m1)) as ([c2 m2] & E2 & Hc & Hz).
    + split; [exact Hstart|]. cbn [fst]. look. lia.
    + cbn [fst]. look. lia.
    + intros s [Hs Hne]. pose proof (clear_step_ok c1 m1 s Hs Hne) as H. destruct (clear_step s) as [s'|s']; [|exact H].
      destruct H as (K1 & K2 & K3). split; [done|]. pose proof (cl_range _ _ _ K1). lia.
    + exists c2, m2. split; [exact E2|]. exact (Hdone (c2, m2) Hc Hz).
Qed.
End Reset.

(** ** A run *)

(** Code interrupted with a number in every register; the handler overwrites
    all of them but the stack pointer. *)
Definition busy_cpu : cpu := fun r =>
  match r with X n => Z.abs n mod 64 | Q n => Z.abs n mod 64 | SP => 65536 | PC => 4096 | _ => 5 end.

Definition wipe : state -> state := fun '(c, m) => (fun r => if decide (r = SP) then c SP else 0, m).

Lemma exception_transparent_witness :
  (forall r, r ∈ code_regs -> (exception_entry wipe (take_exception 0x280 busy_cpu, ∅)).1 r = busy_cpu r) /\
  busy_cpu (X 19) = 19 /\ (wipe (busy_cpu, ∅)).1 (X 19) = 0.
Proof.
  split; [|by split].
  apply (exception_transparent 0x280 wipe busy_cpu ∅).
  - intros r. apply fits_small. destruct r; cbn; try lia; pose proof (Z.mod_pos_bound (Z.abs n) 64); lia.
  - cbn. lia.
  - reflexivity.
  - reflexivity.
Defined.
End Entry.
