(* ===== verification/Net.v ===== *)
(** * The network stack (src/src/net.c, src/include/net.h)

    The virtio driver and the ARP and ICMP replies, over the machine memory, the
    frame allocator of [Pmm] and the device's registers. The device shares the
    memory: what it writes to the used rings and the receive buffers between two
    steps is a change of [memory]. [None] is a step C leaves undefined: a
    division by a queue size of zero, an access through a null queue, or a loop
    that has run out of fuel. *)

From S2P Require Import Prelude Memory CString Pmm Mmio.

Module Net.
Import CString Pmm.

(** ** Registers and constants *)

Definition VIRTIO_NET_BASE : Z := 0x0a003e00.

Definition VIRTIO_REG_DEV_FEAT : Z := 0x010.
Definition VIRTIO_REG_DEV_FEAT_SEL : Z := 0x014.
Definition VIRTIO_REG_DRV_FEAT : Z := 0x020.
Definition VIRTIO_REG_DRV_FEAT_SEL : Z := 0x024.
Definition VIRTIO_REG_QUEUE_SEL : Z := 0x030.
Definition VIRTIO_REG_QUEUE_MAX : Z := 0x034.
Definition VIRTIO_REG_QUEUE_NUM : Z := 0x038.
Definition VIRTIO_REG_QUEUE_RDY : Z := 0x044.
Definition VIRTIO_REG_QUEUE_NOTIFY : Z := 0x050.
Definition VIRTIO_REG_INTERRUPT_STATUS : Z := 0x060.
Definition VIRTIO_REG_INTERRUPT_ACK : Z := 0x064.
Definition VIRTIO_REG_STATUS : Z := 0x070.
Definition VIRTIO_REG_Q_DESC_LOW : Z := 0x080.
Definition VIRTIO_REG_Q_DESC_HIGH : Z := 0x084.
Definition VIRTIO_REG_Q_AVAIL_LOW : Z := 0x090.
Definition VIRTIO_REG_Q_AVAIL_HIGH : Z := 0x094.
Definition VIRTIO_REG_Q_USED_LOW : Z := 0x0A0.
Definition VIRTIO_REG_Q_USED_HIGH : Z := 0x0A4.
Definition VIRTIO_REG_CONFIG : Z := 0x100.

Definition STATUS_ACKNOWLEDGE : Z := 1.
Definition STATUS_DRIVER : Z := 2.
Definition STATUS_FEATURES_OK : Z := 8.
Definition STATUS_DRIVER_OK : Z := 4.
Definition STATUS_FAILED : Z := 128.
Definition VIRTQ_DESC_F_WRITE : Z := 2.

(** The packed structures have no padding. *)
Definition sizeof_virtio_net_hdr : Z := 10.
Definition sizeof_ethernet_frame : Z := 14.
Definition sizeof_arp_packet : Z := 28.
Definition sizeof_ipv4_packet : Z := 20.

(** ** State *)

Record virtq := Virtq {
  desc : Z;
  avail : Z;
  used : Z;
  qsize : Z;
  last_used_idx : Z;
}.

Record net_state := NetState {
  memory : mem;
  pmm : pmm_state;
  rxq : virtq;
  txq : virtq;
  tx_desc_idx : Z;
  regs : bus;
}.

Definition with_memory v s := NetState v (pmm s) (rxq s) (txq s) (tx_desc_idx s) (regs s).
Definition with_pmm v s := NetState (memory s) v (rxq s) (txq s) (tx_desc_idx s) (regs s).
Definition with_rxq v s := NetState (memory s) (pmm s) v (txq s) (tx_desc_idx s) (regs s).
Definition with_txq v s := NetState (memory s) (pmm s) (rxq s) v (tx_desc_idx s) (regs s).
Definition with_tx_desc_idx v s := NetState (memory s) (pmm s) (rxq s) (txq s) v (regs s).
Definition with_regs v s := NetState (memory s) (pmm s) (rxq s) (txq s) (tx_desc_idx s) v.
Definition with_last_used v q := Virtq (desc q) (avail q) (used q) (qsize q) v.

Definition N (X : Type) : Type := net_state -> option (X * net_state).

#[export] Instance N_ret : MRet N := fun X x s => Some (x, s).
#[export] Instance N_bind : MBind N := fun X Y f m s =>
  match m s with None => None | Some (x, s) => f x s end.

Definition undefined {X} : N X := fun _ => None.
Definition gets {X} (f : net_state -> X) : N X := fun s => Some (f s, s).
Definition modify (f : net_state -> net_state) : N () := fun s => Some ((), f s).
Definition change (f : mem -> mem) : N () := modify (fun s => with_memory (f (memory s)) s).

Definition reg_write (offset v : Z) : N () :=
  modify (fun s => with_regs (write32 (regs s) (VIRTIO_NET_BASE + offset) v) s).

Definition alloc_frame : N Z := fun s =>
  let '(f, p, m) := pmm_alloc_frame (pmm s) (memory s) in Some (f, with_memory m (with_pmm p s)).
Definition free_frame (phys : Z) : N () :=
  modify (fun s => let '(p, m) := pmm_free_frame (pmm s) (memory s) phys in with_memory m (with_pmm p s)).

(** [q->desc], [q->avail] and [q->used], about to be dereferenced; [x % qsize]. *)
Definition deref (p : Z) : N Z := if p =? 0 then undefined else mret p.
Definition rem_size (x size : Z) : N Z := if size =? 0 then undefined else mret (x mod size).

Fixpoint loop_n {S R} (fuel : nat) (body : S -> N (S + R)) (s : S) : N R :=
  match fuel with
  | O => undefined
  | Datatypes.S fuel => r ← body s; match r with inl s => loop_n fuel body s | inr r => mret r end
  end.

(** ** Byte order and checksum *)

Definition ntohs (netshort : Z) : Z := u16 (Z.lor (Z.shiftr netshort 8) (Z.shiftl netshort 8)).

Definition calculate_checksum (m : mem) (data length : Z) : Z :=
  let acc := for_ 0 (length / 2) (fun i acc =>
    u32 (acc + Z.lor (Z.shiftl (load8 m (data + i * 2)) 8) (load8 m (data + (i * 2 + 1))))) 0 in
  let acc := if nonzero (length mod 2) then u32 (acc + Z.shiftl (load8 m (data + (length - 1))) 8) else acc in
  let acc := while_by (fun acc => acc) (fun acc => nonzero (Z.shiftr acc 16))
    (fun acc => u32 (Z.land acc 0xffff + Z.shiftr acc 16)) acc in
  u16 (Z.lnot acc).

(** ** Transmission *)

(** Descriptor [i] of a table is filled in. *)
Definition set_desc (m : mem) (table i addr len flags : Z) : mem :=
  let m := store64 m (table + 16 * i) addr in
  let m := store32 m (table + 16 * i + 8) len in
  let m := store16 m (table + 16 * i + 12) flags in
  store16 m (table + 16 * i + 14) 0.

Definition net_send (mac_frame len : Z) : N () :=
  phys ← alloc_frame;
  if phys =? 0 then mret ()
  else
    change (fun m => memset m phys 0 sizeof_virtio_net_hdr);;
    change (fun m => memcpy m (phys + sizeof_virtio_net_hdr) mac_frame len);;
    q ← gets txq;
    idx ← gets tx_desc_idx;
    head ← rem_size idx (qsize q);
    table ← deref (desc q);
    change (fun m => set_desc m table head phys (u32 (sizeof_virtio_net_hdr + len)) 0);;
    ring ← deref (avail q);
    avail ← gets (fun s => load16 (memory s) (ring + 2));
    slot ← rem_size avail (qsize q);
    change (fun m => store16 m (ring + 4 + 2 * slot) head);;
    change (fun m => store16 m (ring + 2) (u16 (avail + 1)));;
    reg_write VIRTIO_REG_QUEUE_NOTIFY 1;;
    modify (fun s => with_tx_desc_idx (u16 (tx_desc_idx s + 1)) s).

Definition cleanup_step : N (() + ()) :=
  q ← gets txq;
  ring ← deref (used q);
  idx ← gets (fun s => load16 (memory s) (ring + 2));
  if last_used_idx q =? idx then mret (inr ())
  else
    slot ← rem_size (last_used_idx q) (qsize q);
    desc_id ← gets (fun s => load32 (memory s) (ring + 4 + 8 * slot));
    table ← deref (desc q);
    phys ← gets (fun s => load64 (memory s) (table + 16 * desc_id));
    free_frame phys;;
    modify (fun s => with_txq (with_last_used (u16 (last_used_idx q + 1)) (txq s)) s);;
    mret (inl ()).

Definition net_cleanup_tx (fuel : nat) : N () := loop_n fuel (fun _ => cleanup_step) ().

(** ** Protocols

    [net_mac] and [my_ip] are the addresses of the static arrays, [sp] that of
    the local buffers: the frame under construction at [sp] and the small
    arrays below it. *)

Section Protocols.
Context (net_mac my_ip sp : Z).

Abbreviation reply_buffer := sp.
Abbreviation req_buffer := sp.
Abbreviation temp_ip := (sp - 4).
Abbreviation gateway_ip := (sp - 4).
Abbreviation broadcast_mac := (sp - 10).

(** The fixed fields of an ARP packet. *)
Definition arp_fixed (m : mem) (arp opcode : Z) : mem :=
  let m := store16 m arp (ntohs 1) in
  let m := store16 m (arp + 2) (ntohs 0x0800) in
  let m := store8 m (arp + 4) 6 in
  let m := store8 m (arp + 5) 4 in
  store16 m (arp + 6) (ntohs opcode).

Definition arp_reply (payload src_mac : Z) (m : mem) : mem :=
  let m := memcpy m reply_buffer src_mac 6 in
  let m := memcpy m (reply_buffer + 6) net_mac 6 in
  let m := store16 m (reply_buffer + 12) (ntohs 0x0806) in
  let arp := reply_buffer + 14 in
  let m := arp_fixed m arp 2 in
  let m := memcpy m (arp + 8) net_mac 6 in
  let m := memcpy m (arp + 14) my_ip 4 in
  let m := memcpy m (arp + 18) (payload + 8) 6 in
  memcpy m (arp + 24) (payload + 14) 4.

Definition arp_handle (payload len src_mac : Z) : N () :=
  if len <? sizeof_arp_packet then mret ()
  else
    m ← gets memory;
    let opcode := ntohs (load16 m (payload + 6)) in
    if (opcode =? 1) && (memcmp m (payload + 24) my_ip 4 =? 0) then
      change (arp_reply payload src_mac);;
      net_send reply_buffer (sizeof_ethernet_frame + sizeof_arp_packet)
    else mret ().

(** [ntohs(ip->length)] *)
Definition ip_length (m : mem) (ip : Z) : Z := ntohs (load16 m (ip + 2)).

Definition echo_reply (ip src_mac : Z) (m : mem) : mem :=
  let icmp := ip + 20 in
  let m := store8 m icmp 0 in
  let m := store16 m (icmp + 2) 0 in
  let icmp_len := u32 (ip_length m ip - Z.land (load8 m ip) 0x0F * 4) in
  let m := store16 m (icmp + 2) (ntohs (calculate_checksum m icmp icmp_len)) in
  let m := memcpy m temp_ip (ip + 12) 4 in
  let m := memcpy m (ip + 12) my_ip 4 in
  let m := memcpy m (ip + 16) temp_ip 4 in
  let m := memcpy m reply_buffer src_mac 6 in
  let m := memcpy m (reply_buffer + 6) net_mac 6 in
  let m := store16 m (reply_buffer + 12) (ntohs 0x0800) in
  memcpy m (reply_buffer + 14) ip (ip_length m ip).

Definition ipv4_handle (payload len src_mac : Z) : N () :=
  if len <? sizeof_ipv4_packet then mret ()
  else
    m ← gets memory;
    if negb (memcmp m (payload + 16) my_ip 4 =? 0) then mret ()
    else if (load8 m (payload + 9) =? 1) && (load8 m (payload + 20) =? 8) then
      change (echo_reply payload src_mac);;
      n ← gets (fun s => ip_length (memory s) payload);
      net_send reply_buffer (sizeof_ethernet_frame + n)
    else mret ().

Definition ethernet_handle_packet (packet len : Z) : N () :=
  if len <? sizeof_ethernet_frame then mret ()
  else
    m ← gets memory;
    let type := ntohs (load16 m (packet + 12)) in
    if type =? 0x0806 then arp_handle (packet + 14) (u32 (len - sizeof_ethernet_frame)) (packet + 6)
    else if type =? 0x0800 then ipv4_handle (packet + 14) (u32 (len - sizeof_ethernet_frame)) (packet + 6)
    else mret ().

Definition arp_request (m : mem) : mem :=
  let m := store_bytes m gateway_ip [10; 0; 2; 2] in
  let m := store_bytes m broadcast_mac [255; 255; 255; 255; 255; 255] in
  let m := memcpy m req_buffer broadcast_mac 6 in
  let m := memcpy m (req_buffer + 6) net_mac 6 in
  let m := store16 m (req_buffer + 12) (ntohs 0x0806) in
  let arp := req_buffer + 14 in
  let m := arp_fixed m arp 1 in
  let m := memcpy m (arp + 8) net_mac 6 in
  let m := memcpy m (arp + 14) my_ip 4 in
  let m := memset m (arp + 18) 0 6 in
  memcpy m (arp + 24) gateway_ip 4.

Definition arp_request_gateway : N () :=
  change arp_request;;
  net_send req_buffer (sizeof_ethernet_frame + sizeof_arp_packet).

(** ** Reception *)

(** One round of the loop of [net_poll_rx]. *)
Definition rx_step (received : bool) : N (bool + bool) :=
  q ← gets rxq;
  ring ← deref (used q);
  idx ← gets (fun s => load16 (memory s) (ring + 2));
  if last_used_idx q =? idx then mret (inr received)
  else
    slot ← rem_size (last_used_idx q) (qsize q);
    desc_id ← gets (fun s => load32 (memory s) (ring + 4 + 8 * slot));
    total_len ← gets (fun s => load32 (memory s) (ring + 4 + 8 * slot + 4));
    table ← deref (desc q);
    hdr ← gets (fun s => load64 (memory s) (table + 16 * desc_id));
    let packet := hdr + sizeof_virtio_net_hdr in
    let packet_len := u32 (total_len - sizeof_virtio_net_hdr) in
    (if 0 <? packet_len then ethernet_handle_packet packet packet_len else mret ());;
    change (fun m => memset m hdr 0 sizeof_virtio_net_hdr);;
    ring ← deref (avail q);
    avail_idx ← gets (fun s => load16 (memory s) (ring + 2));
    slot ← rem_size avail_idx (qsize q);
    change (fun m => store16 m (ring + 4 + 2 * slot) (u16 desc_id));;
    change (fun m => store16 m (ring + 2) (u16 (avail_idx + 1)));;
    modify (fun s => with_rxq (with_last_used (u16 (last_used_idx (rxq s) + 1)) (rxq s)) s);;
    mret (inl true).

Definition net_poll_rx (fuel : nat) : N () :=
  received ← loop_n fuel rx_step false;
  if received : bool then reg_write VIRTIO_REG_QUEUE_NOTIFY 0 else mret ().

Section Device.
Context (device : bus -> Z -> Z).

Definition reg_read (offset : Z) : N Z := fun s =>
  let '(v, b) := read32 device (regs s) (VIRTIO_NET_BASE + offset) in Some (v, with_regs b s).

Definition virtio_net_handle_irq (fuel : nat) : N () :=
  status ← reg_read VIRTIO_REG_INTERRUPT_STATUS;
  reg_write VIRTIO_REG_INTERRUPT_ACK status;;
  if nonzero (Z.land status 1) then net_poll_rx fuel;; net_cleanup_tx fuel else mret ().

(** ** Set-up *)

(** [set_queue] assigns through the pointer [queue]. *)
Definition virtio_init_queue (queue_index : Z) (set_queue : virtq -> net_state -> net_state) : N () :=
  reg_write VIRTIO_REG_QUEUE_SEL queue_index;;
  qsize ← reg_read VIRTIO_REG_QUEUE_MAX;
  if qsize =? 0 then mret ()
  else
    alloc_frame;; alloc_frame;; alloc_frame;;
    desc_phys ← alloc_frame;
    avail_phys ← alloc_frame;
    alloc_frame;; alloc_frame;;
    used_phys ← alloc_frame;
    change (fun m => memset m desc_phys 0 (4 * 4096));;
    change (fun m => memset m avail_phys 0 (1 * 4096));;
    change (fun m => memset m used_phys 0 (3 * 4096));;
    modify (set_queue (Virtq desc_phys avail_phys used_phys qsize 0));;
    reg_write VIRTIO_REG_Q_DESC_LOW (u32 desc_phys);;
    reg_write VIRTIO_REG_Q_DESC_HIGH (u32 (Z.shiftr desc_phys 32));;
    reg_write VIRTIO_REG_Q_AVAIL_LOW (u32 avail_phys);;
    reg_write VIRTIO_REG_Q_AVAIL_HIGH (u32 (Z.shiftr avail_phys 32));;
    reg_write VIRTIO_REG_Q_USED_LOW (u32 used_phys);;
    reg_write VIRTIO_REG_Q_USED_HIGH (u32 (Z.shiftr used_phys 32));;
    reg_write VIRTIO_REG_QUEUE_NUM qsize;;
    reg_write VIRTIO_REG_QUEUE_RDY 1.

(** The loop of [net_rx_fill]. *)
Fixpoint fill_from (k : nat) (i : Z) : N () :=
  match k with
  | O => mret ()
  | S k =>
      phys ← alloc_frame;
      if phys =? 0 then mret ()
      else
        q ← gets rxq;
        table ← deref (desc q);
        change (fun m => set_desc m table i phys 4096 VIRTQ_DESC_F_WRITE);;
        ring ← deref (avail q);
        slot ← rem_size i (qsize q);
        change (fun m => store16 m (ring + 4 + 2 * slot) (u16 i));;
        fill_from k (i + 1)
  end.

Definition net_rx_fill : N () :=
  q ← gets rxq;
  fill_from (Z.to_nat (qsize q)) 0;;
  ring ← deref (avail q);
  change (fun m => store16 m (ring + 2) (u16 (qsize q)));;
  reg_write VIRTIO_REG_QUEUE_NOTIFY 0.

(** The loop that reads the MAC address from the configuration space. *)
Fixpoint read_mac (k : nat) (i : Z) : N () :=
  match k with
  | O => mret ()
  | S k =>
      (fun s => let '(v, b) := read8 device (regs s) (VIRTIO_NET_BASE + VIRTIO_REG_CONFIG + i) in
                Some ((), with_memory (store8 (memory s) (net_mac + i) v) (with_regs b s)));;
      read_mac k (i + 1)
  end.

Definition net_init : N () :=
  reg_write VIRTIO_REG_STATUS 0;;
  reg_write VIRTIO_REG_STATUS STATUS_ACKNOWLEDGE;;
  reg_write VIRTIO_REG_STATUS (Z.lor STATUS_ACKNOWLEDGE STATUS_DRIVER);;
  reg_write VIRTIO_REG_DEV_FEAT_SEL 0;;
  features_low ← reg_read VIRTIO_REG_DEV_FEAT;
  reg_write VIRTIO_REG_DRV_FEAT_SEL 0;;
  reg_write VIRTIO_REG_DRV_FEAT (Z.land features_low 0);;
  reg_write VIRTIO_REG_DEV_FEAT_SEL 1;;
  features_high ← reg_read VIRTIO_REG_DEV_FEAT;
  reg_write VIRTIO_REG_DRV_FEAT_SEL 1;;
  reg_write VIRTIO_REG_DRV_FEAT (Z.land features_high 1);;
  reg_write VIRTIO_REG_STATUS (Z.lor (Z.lor STATUS_ACKNOWLEDGE STATUS_DRIVER) STATUS_FEATURES_OK);;
  status ← reg_read VIRTIO_REG_STATUS;
  if negb (nonzero (Z.land status STATUS_FEATURES_OK)) then reg_write VIRTIO_REG_STATUS STATUS_FAILED
  else
    virtio_init_queue 0 with_rxq;;
    virtio_init_queue 1 with_txq;;
    net_rx_fill;;
    read_mac 6 0;;
    reg_write VIRTIO_REG_STATUS (Z.lor (Z.lor (Z.lor STATUS_ACKNOWLEDGE STATUS_DRIVER) STATUS_FEATURES_OK) STATUS_DRIVER_OK).
End Device.
End Protocols.
End Net.
