(* ===== verification/NetChecksum.v ===== *)
(** * The Internet checksum and byte order

    [calculate_checksum] against the sum of the big-endian 16-bit words. *)

From S2P Require Import Prelude Memory CString Net.

Module NetChecksum.
Import Net.

(** The sum of the 16-bit words of a block, a last odd byte being the high half
    of a word. *)
Fixpoint be_sum (m : mem) (a : Z) (n : nat) : Z :=
  match n with
  | O => 0
  | S k => be_sum m a k + (if Nat.even k then 256 else 1) * load8 m (a + Z.of_nat k)
  end.

Lemma be_sum_bound m a n : 0 <= be_sum m a n <= 65535 * ((Z.of_nat n + 1) / 2).
Proof.
  assert (H : forall k, 0 <= be_sum m a (2 * k) <= 65535 * Z.of_nat k /\
                        0 <= be_sum m a (2 * k + 1) <= 65535 * Z.of_nat k + 65280).
  { induction k as [|k [_ IH]].
    - pose proof (load8_range m (a + 0)). cbn [be_sum Nat.mul Nat.add Nat.even Z.of_nat]. change (Z.of_nat 0) with 0. lia.
    - replace (2 * S k)%nat with (S (2 * k + 1)) by lia. replace (S (2 * k + 1) + 1)%nat with (S (S (2 * k + 1))) by lia.
      cbn [be_sum]. rewrite Nat.even_succ, <- Nat.negb_even.
      replace (Nat.even (2 * k + 1)) with false by (rewrite Nat.add_1_r, Nat.even_succ, <- Nat.negb_even, Nat.even_mul; done).
      pose proof (load8_range m (a + Z.of_nat (2 * k + 1))). pose proof (load8_range m (a + Z.of_nat (S (2 * k + 1)))).
      cbn [negb]. lia. }
  destruct (Nat.Even_or_Odd n) as [[k ->]|[k ->]]; [destruct (H k) as [H1 _]|destruct (H k) as [_ H1]]; zdiv.
Qed.

Lemma be_sum_ext m m' a a' n :
  (forall i, 0 <= i < Z.of_nat n -> load8 m' (a' + i) = load8 m (a + i)) -> be_sum m' a' n = be_sum m a n.
Proof.
  induction n as [|n IH]; intros H; [done|]. cbn [be_sum]. rewrite IH by (intros; apply H; lia).
  by rewrite H by lia.
Qed.

Lemma be_sum_app m a p q : Nat.even p = true -> be_sum m a (p + q) = be_sum m a p + be_sum m (a + Z.of_nat p) q.
Proof.
  intros Hp. induction q as [|q IH]; [rewrite Nat.add_0_r; simpl; lia|].
  rewrite Nat.add_succ_r. cbn [be_sum]. rewrite IH, Nat.even_add, Hp.
  replace (a + Z.of_nat p + Z.of_nat q) with (a + Z.of_nat (p + q)) by lia.
  destruct (Nat.even q); cbn [Bool.eqb]; lia.
Qed.

(** The word at an even offset. *)
Definition be16 (m : mem) (a : Z) : Z := 256 * load8 m a + load8 m (a + 1).

Lemma be_sum_2 m a : be_sum m a 2 = be16 m a.
Proof. unfold be16. cbn [be_sum Nat.even]. rewrite Z.add_0_r. change (Z.of_nat 1) with 1. lia. Qed.

(** Changing one word changes the sum by the difference. *)
Lemma be_sum_word m m' a (n k : nat) :
  Nat.even k = true -> (k + 2 <= n)%nat ->
  (forall b, a <= b < a + Z.of_nat n -> outside (a + Z.of_nat k) (a + Z.of_nat k + 2) b -> load8 m' b = load8 m b) ->
  be_sum m' a n = be_sum m a n - be16 m (a + Z.of_nat k) + be16 m' (a + Z.of_nat k).
Proof.
  intros Hk Hn H. unfold outside in H.
  assert (E : forall x, be_sum x a n = be_sum x a k + be16 x (a + Z.of_nat k) + be_sum x (a + Z.of_nat k + 2) (n - k - 2)).
  { intros x. replace n with (k + (2 + (n - k - 2)))%nat at 1 by lia. rewrite be_sum_app by done.
    rewrite (be_sum_app x (a + Z.of_nat k) 2) by done. rewrite be_sum_2. change (Z.of_nat 2) with 2. lia. }
  rewrite !E. rewrite (be_sum_ext m m' a a k) by (intros; apply H; lia).
  rewrite (be_sum_ext m m' _ (a + Z.of_nat k + 2)) by (intros; apply H; lia). lia.
Qed.

(** ** Byte order *)

Lemma lor_shiftl8 h l : 0 <= l < 256 -> Z.lor (Z.shiftl h 8) l = 256 * h + l.
Proof.
  intros Hl. rewrite <- Z.add_nocarry_lor; [rewrite Z.shiftl_mul_pow2 by lia; lia|].
  apply (land_aligned _ _ 8); [lia| |lia]. rewrite Z.shiftl_mul_pow2 by lia. apply Z.mod_mul. lia.
Qed.

Lemma ntohs_spec x : 0 <= x < 2 ^ 16 -> ntohs x = 256 * (x mod 256) + x / 256.
Proof.
  intros Hx. unfold ntohs. rewrite Z.lor_comm, Z.shiftr_div_pow2, lor_shiftl8 by zdiv.
  change (2 ^ 8) with 256. wrap.
Qed.

Lemma ntohs_range x : 0 <= ntohs x < 2 ^ 16.
Proof. unfold ntohs, u16. apply Z.mod_pos_bound. lia. Qed.

(** The two conversions are inverse. *)
Lemma ntohs_ntohs x : 0 <= x < 2 ^ 16 -> ntohs (ntohs x) = x.
Proof. intros Hx. rewrite (ntohs_spec (ntohs x)) by apply ntohs_range. rewrite ntohs_spec by done. zdiv. Qed.

Lemma load16_bytes m a : load16 m a = load8 m a + 256 * load8 m (a + 1).
Proof. unfold loadn. lia. Qed.

(** A field read through [ntohs] is big-endian. *)
Lemma ntohs_load m a : ntohs (load16 m a) = be16 m a.
Proof.
  pose proof (load16_range m a). rewrite ntohs_spec by done. rewrite load16_bytes. unfold be16.
  pose proof (load8_range m a). pose proof (load8_range m (a + 1)). zdiv.
Qed.

Lemma store16_ntohs m a v : 0 <= v < 2 ^ 16 -> be16 (store16 m a (ntohs v)) a = v.
Proof.
  intros Hv. rewrite <- ntohs_load. rewrite loadn_storen_eq by apply ntohs_range. by apply ntohs_ntohs.
Qed.

(** Overwriting a word. *)
Lemma be_sum_store m a n k v : 0 <= k <= n - 2 -> k mod 2 = 0 -> 0 <= v < 2 ^ 16 ->
  be_sum (store16 m (a + k) (ntohs v)) a (Z.to_nat n) = be_sum m a (Z.to_nat n) - be16 m (a + k) + v.
Proof.
  intros Hk Hk2 Hv. rewrite (be_sum_word m _ a (Z.to_nat n) (Z.to_nat k)).
  - rewrite !Z2Nat.id by lia. by rewrite store16_ntohs.
  - replace k with (2 * (k / 2)) by zdiv. rewrite Z2Nat.inj_mul by zdiv. by rewrite Nat.even_mul.
  - lia.
  - intros b Hb Ho. unfold outside in Ho. apply load8_storen_ne. lia.
Qed.

(** ** The checksum *)

(** Folding the carries back keeps the value modulo 65535, and only zero folds
    to zero. *)
Lemma fold_carries acc : 0 <= acc < 2 ^ 32 ->
  let r := while_by (fun acc => acc) (fun acc => nonzero (Z.shiftr acc 16))
    (fun acc => u32 (Z.land acc 0xffff + Z.shiftr acc 16)) acc in
  0 <= r < 2 ^ 16 /\ r mod 65535 = acc mod 65535 /\ (r = 0 <-> acc = 0).
Proof.
  intros Ha r.
  assert (Hsh : forall x, Z.shiftr x 16 = x / 65536) by (intros; by rewrite Z.shiftr_div_pow2).
  assert (Hla : forall x, Z.land x 0xffff = x mod 65536) by (intros; change 0xffff with (Z.ones 16); by rewrite Z.land_ones).
  pose proof (while_by_ind (fun x => 0 <= x < 2 ^ 32 /\ x mod 65535 = acc mod 65535 /\ (x = 0 <-> acc = 0))
    (fun acc => acc) (fun acc => nonzero (Z.shiftr acc 16)) (fun acc => u32 (Z.land acc 0xffff + Z.shiftr acc 16)) acc) as H.
  fold r in H. destruct H as [(H1 & H2 & H3) Hc]; [done|..].
  - intros x (H1 & H2 & H3) Hc. cbv beta in *. unfold nonzero in Hc. rewrite Hsh in *. rewrite Hla.
    assert (0 < x / 65536) by zdiv. rewrite u32_id by zdiv.
    split; [|zdiv]. split; [zdiv|]. split; [|zdiv].
    rewrite <- H2. replace x with (x mod 65536 + x / 65536 + x / 65536 * 65535) at 3 by zdiv.
    by rewrite Z.mod_add by lia.
  - intros x (H1 & _) Hc. cbv beta in *. unfold nonzero in Hc. rewrite Hsh in Hc. zdiv.
  - cbv beta in *. unfold nonzero in Hc. rewrite Hsh in Hc. split; [zdiv|done].
Qed.

(** The accumulation, before the carries are folded. *)
Lemma accumulate m a n : 0 <= n <= 131072 ->
  (let acc := for_ 0 (n / 2) (fun i acc =>
    u32 (acc + Z.lor (Z.shiftl (load8 m (a + i * 2)) 8) (load8 m (a + (i * 2 + 1))))) 0 in
   if nonzero (n mod 2) then u32 (acc + Z.shiftl (load8 m (a + (n - 1))) 8) else acc) = be_sum m a (Z.to_nat n).
Proof.
  intros Hn. cbv zeta.
  pose proof (for_ind (fun i acc => acc = be_sum m a (Z.to_nat (2 * i))) 0 (n / 2) (fun i acc =>
    u32 (acc + Z.lor (Z.shiftl (load8 m (a + i * 2)) 8) (load8 m (a + (i * 2 + 1))))) 0) as H.
  cbv beta in H. rewrite H; [|zdiv|done|].
  - assert (E : n mod 2 = 0 \/ n mod 2 = 1) by zdiv. destruct E as [E|E]; rewrite E; unfold nonzero; cbn [Z.eqb Pos.eqb negb].
    + do 2 f_equal. zdiv.
    + replace (Z.to_nat n) with (S (Z.to_nat (2 * (n / 2)))) by zdiv. cbn [be_sum].
      rewrite Z.shiftl_mul_pow2 by lia.
      replace (Nat.even (Z.to_nat (2 * (n / 2)))) with true
        by (rewrite Z2Nat.inj_mul by zdiv; symmetry; rewrite Nat.even_mul; done).
      replace (a + Z.of_nat (Z.to_nat (2 * (n / 2)))) with (a + (n - 1)) by zdiv.
      pose proof (be_sum_bound m a (Z.to_nat (2 * (n / 2)))). pose proof (load8_range m (a + (n - 1))).
      rewrite u32_id by zdiv. lia.
  - intros i acc Hi ->. pose proof (be_sum_bound m a (Z.to_nat (2 * i))).
    pose proof (load8_range m (a + i * 2)). pose proof (load8_range m (a + (i * 2 + 1))).
    rewrite lor_shiftl8, u32_id by (lia || zdiv).
    replace (Z.to_nat (2 * (i + 1))) with (Z.to_nat (2 * i) + 2)%nat by lia.
    rewrite be_sum_app, be_sum_2 by (rewrite Z2Nat.inj_mul by lia; rewrite Nat.even_mul; done).
    unfold be16. replace (a + Z.of_nat (Z.to_nat (2 * i))) with (a + i * 2) by lia.
    replace (a + i * 2 + 1) with (a + (i * 2 + 1)) by lia. lia.
Qed.

(** The checksum as a function of the sum. *)
Definition complement (sum : Z) : Z :=
  65535 - while_by (fun acc => acc) (fun acc => nonzero (Z.shiftr acc 16))
    (fun acc => u32 (Z.land acc 0xffff + Z.shiftr acc 16)) sum.

Lemma checksum_sum m a n : 0 <= n <= 131072 -> calculate_checksum m a n = complement (be_sum m a (Z.to_nat n)).
Proof.
  intros Hn. unfold calculate_checksum, complement. pose proof (accumulate m a n Hn) as Ha. cbv zeta in Ha. rewrite Ha.
  pose proof (be_sum_bound m a (Z.to_nat n)) as Hb. destruct (fold_carries (be_sum m a (Z.to_nat n))) as (H1 & _); [zdiv|].
  set (r := while_by _ _ _ _) in *. clearbody r. unfold u16, Z.lnot. zdiv.
Qed.

Lemma checksum_ext m m' a a' n : 0 <= n <= 131072 ->
  (forall i, 0 <= i < n -> load8 m' (a' + i) = load8 m (a + i)) -> calculate_checksum m' a' n = calculate_checksum m a n.
Proof. intros Hn H. rewrite !checksum_sum by done. f_equal. apply be_sum_ext. intros. apply H. lia. Qed.

(** It is the complement of the ones' complement sum. *)
Lemma checksum_spec m a n : 0 <= n <= 131072 ->
  let c := calculate_checksum m a n in
  let sum := be_sum m a (Z.to_nat n) in
  0 <= c < 2 ^ 16 /\ (c + sum) mod 65535 = 0 /\ (c = 65535 <-> sum = 0).
Proof.
  intros Hn c sum. pose proof (be_sum_bound m a (Z.to_nat n)) as Hb. fold sum in Hb.
  destruct (fold_carries sum) as (H1 & H2 & H3); [zdiv|].
  assert (E : c = complement sum) by by apply checksum_sum. unfold complement in E. rewrite E. clear E.
  set (r := while_by _ _ _ _) in *. clearbody r. split; [lia|]. split; [|lia].
  replace (65535 - r + sum) with (sum - r + 1 * 65535) by lia. rewrite Z.mod_add by lia.
  rewrite Zminus_mod, H2, Z.sub_diag. done.
Qed.

(** A block whose sum is a positive multiple of 65535 has the checksum zero. *)
Lemma checksum_zero m a n : 0 <= n <= 131072 ->
  calculate_checksum m a n = 0 <-> be_sum m a (Z.to_nat n) mod 65535 = 0 /\ be_sum m a (Z.to_nat n) <> 0.
Proof.
  intros Hn. destruct (checksum_spec m a n Hn) as (H1 & H2 & H3).
  set (c := calculate_checksum m a n) in *. set (s := be_sum m a (Z.to_nat n)) in *. clearbody c s.
  split; [intros ->; split; [done|lia]|]. intros [H4 H5].
  rewrite Zplus_mod, H4, Z.add_0_r, Z.mod_mod in H2 by lia. zdiv.
Qed.

Lemma checksum_stored m a n k :
  0 <= n <= 131072 -> 0 <= k <= n - 2 -> k mod 2 = 0 -> load16 m (a + k) = 0 ->
  calculate_checksum (store16 m (a + k) (ntohs (calculate_checksum m a n))) a n = 0.
Proof.
  intros Hn Hk Hk2 H0. destruct (checksum_spec m a n Hn) as (H1 & H2 & H3).
  set (c := calculate_checksum m a n) in *. set (m' := store16 m (a + k) (ntohs c)).
  apply checksum_zero; [done|].
  assert (E : be_sum m' a (Z.to_nat n) = be_sum m a (Z.to_nat n) + c).
  { unfold m'. rewrite be_sum_store by done. rewrite <- (ntohs_load m), H0. change (ntohs 0) with 0. lia. }
  pose proof (be_sum_bound m a (Z.to_nat n)). rewrite E, Z.add_comm. split; [done|lia].
Qed.

(** The sum is zero only of zero bytes. *)
Lemma be_sum_nonzero m a (n : nat) : be_sum m a n <> 0 <-> exists i, 0 <= i < Z.of_nat n /\ load8 m (a + i) <> 0.
Proof.
  induction n as [|n IH]; [split; [done|intros (i & Hi & _); lia]|].
  cbn [be_sum]. pose proof (load8_range m (a + Z.of_nat n)). pose proof (be_sum_bound m a n). split.
  - intros Hs. destruct (decide (load8 m (a + Z.of_nat n) = 0)) as [E|E]; [|exists (Z.of_nat n); split; [lia|done]].
    destruct (proj1 IH) as (i & Hi & Hl); [rewrite E in Hs; destruct (Nat.even n); lia|]. exists i. split; [lia|done].
  - intros (i & Hi & Hl). destruct (decide (i = Z.of_nat n)) as [->|D]; [destruct (Nat.even n); lia|].
    assert (be_sum m a n <> 0) by (apply IH; exists i; split; [lia|done]). destruct (Nat.even n); lia.
Qed.

(** C31 Round trip: once the checksum of a block is stored, in network order, in
    the block's own zeroed field, the block verifies: its checksum is zero. When
    one word of it changes from [w] to another value [v] the check fails, with
    one exception, the two zeros of ones' complement: it still verifies exactly
    when 0 has become 65535, or 65535 has become 0 and the block does not
    consist of zeros only. *)
Theorem checksum_verifies m a n k :
  0 <= n <= 131072 -> 0 <= k <= n - 2 -> k mod 2 = 0 -> load16 m (a + k) = 0 ->
  let m' := store16 m (a + k) (ntohs (calculate_checksum m a n)) in
  calculate_checksum m' a n = 0 /\
  forall j v, 0 <= j <= n - 2 -> j mod 2 = 0 -> 0 <= v < 2 ^ 16 ->
    let w := be16 m' (a + j) in
    let changed := store16 m' (a + j) (ntohs v) in
    v <> w ->
    calculate_checksum changed a n = 0 <->
      w = 0 /\ v = 65535 \/ w = 65535 /\ v = 0 /\ exists i, 0 <= i < n /\ load8 changed (a + i) <> 0.
Proof.
  intros Hn Hk Hk2 H0 m'. assert (H : calculate_checksum m' a n = 0) by by apply checksum_stored.
  split; [done|]. intros j v Hj Hj2 Hv w changed Hne. rewrite checksum_zero in * by done.
  pose proof (be_sum_nonzero changed a (Z.to_nat n)) as Hnz. rewrite Z2Nat.id in Hnz by lia. rewrite <- Hnz.
  assert (Hw : 0 <= w < 2 ^ 16).
  { unfold w, be16. pose proof (load8_range m' (a + j)). pose proof (load8_range m' (a + j + 1)). lia. }
  assert (E : be_sum changed a (Z.to_nat n) = be_sum m' a (Z.to_nat n) - w + v) by (by apply be_sum_store).
  destruct H as [H H']. pose proof (be_sum_bound m' a (Z.to_nat n)). rewrite E.
  set (S := be_sum m' a (Z.to_nat n)) in *. clearbody S w. split.
  - intros [G1 G2]. assert (Hwv : v mod 65535 = w mod 65535) by zdiv. zdiv.
  - intros [[-> ->]|(-> & -> & H2)]; (split; [zdiv|lia]).
Qed.
End NetChecksum.
