(* ===== verification/NetFrames.v ===== *)
(** * The frames the network stack builds

    ARP, IPv4 and ICMP messages as byte sequences, and the code that writes
    replies into the local buffer. *)

From S2P Require Import Prelude Memory CString Bytes Net NetChecksum.

Module NetFrames.
Import CString Net NetChecksum.

Definition be16_bytes (v : Z) : list Z := [v / 256; v mod 256].

Definition eth_bytes (dst src : list Z) (ethertype : Z) (payload : list Z) : list Z :=
  dst ++ src ++ be16_bytes ethertype ++ payload.

Definition arp_bytes (opcode : Z) (sender_mac sender_ip target_mac target_ip : list Z) : list Z :=
  be16_bytes 1 ++ be16_bytes 0x0800 ++ [6] ++ [4] ++ be16_bytes opcode ++ sender_mac ++ sender_ip ++ target_mac ++ target_ip.

(** [k] bytes at [a] do not meet the [n] bytes at [p]. *)
Definition apart (p n a k : Z) : Prop := a + k <= p \/ p + n <= a.

Lemma holds_ntohs m a v : 0 <= v < 2 ^ 16 -> holds (store16 m a (ntohs v)) a (be16_bytes v).
Proof.
  intros Hv. pose proof (holds_store16_at m a (ntohs v) (ntohs_range v)) as H.
  rewrite ntohs_spec in H at 2 3 by done. unfold be16_bytes.
  replace (v / 256) with ((256 * (v mod 256) + v / 256) mod 256) by zdiv.
  by replace (v mod 256) with ((256 * (v mod 256) + v / 256) / 256) at 2 by zdiv.
Qed.

(** Prove [holds] of a memory written by a chain of writes: the last write at
    the address put the bytes there, the others are apart from them. *)
Ltac side := cbn [length be16_bytes repeat]; lia.
Ltac field :=
  lazymatch goal with
  | |- holds (storen _ _ ?a _) ?a _ => apply holds_ntohs; lia
  | |- holds (store8 _ ?a _) ?a [_] => apply holds_store8_at; lia
  | |- holds (memcpy _ ?a _ _) ?a _ => apply holds_memcpy_at; [side|side|field]
  | |- holds (memset _ ?a _ _) ?a _ => apply holds_memset_at; side
  | |- holds (store_bytes _ ?a _) ?a _ => apply holds_store_bytes_at
  | |- holds (store8 _ _ _) _ _ => apply holds_store8; [side|field]
  | |- holds (storen _ _ _ _) _ _ => apply holds_storen; [side|field]
  | |- holds (memcpy _ _ _ _) _ _ => apply holds_memcpy; [lia|side|side|field]
  | |- holds (memset _ _ _ _) _ _ => apply holds_memset; [lia|side|field]
  | |- holds (store_bytes _ _ _) _ _ => apply holds_store_bytes; [side|field]
  | |- _ => assumption
  end.
(** Offsets as single literals. *)
Ltac literal :=
  rewrite <- ?Z.add_assoc;
  repeat match goal with |- context [Z.of_nat (S ?n)] =>
    let c := eval vm_compute in (Z.of_nat (S n)) in change (Z.of_nat (S n)) with c end;
  repeat match goal with |- context [Zpos ?x + Zpos ?y] =>
    let c := eval vm_compute in (Zpos x + Zpos y) in change (Zpos x + Zpos y) with c end.

(** Bytes outside the footprint of such a chain. *)
Ltac untouched :=
  intros ? Hb; unfold outside in Hb;
  repeat first
  [ rewrite load8_store8_ne by lia
  | rewrite load8_storen_ne by lia
  | rewrite memcpy_outside by (first [unfold outside; lia | lia])
  | rewrite memset_agree by (first [unfold outside; lia | lia])
  | rewrite store_bytes_outside by (unfold outside; cbn [length]; lia) ];
  try reflexivity.

Section Frames.
Context (net_mac my_ip sp : Z) (m : mem) (mac ip : list Z).
Context (Hmac : holds m net_mac mac) (Lmac : length mac = 6%nat).
Context (Hip : holds m my_ip ip) (Lip : length ip = 4%nat).

(** The ARP reply in the local buffer. *)
Lemma arp_reply_holds payload src_mac dst smac sip :
  holds m src_mac dst -> length dst = 6%nat ->
  holds m (payload + 8) smac -> length smac = 6%nat -> holds m (payload + 14) sip -> length sip = 4%nat ->
  apart sp 42 net_mac 6 -> apart sp 42 my_ip 4 -> apart sp 42 src_mac 6 -> apart sp 42 payload 28 ->
  holds (arp_reply net_mac my_ip sp payload src_mac m) sp (eth_bytes dst mac 0x0806 (arp_bytes 2 mac ip smac sip)).
Proof.
  intros Hd Ld Hs Ls Hp Lp A1 A2 A3 A4. unfold arp_reply, arp_fixed, eth_bytes, arp_bytes. cbv zeta.
  rewrite !holds_app, Ld, Lmac, Lip, Ls. cbn [length be16_bytes]. split_and!.
  all: unfold apart in *; literal.
  all: field.
Qed.

Lemma arp_reply_agree payload src_mac :
  apart sp 42 net_mac 6 -> apart sp 42 my_ip 4 -> apart sp 42 src_mac 6 -> apart sp 42 payload 28 ->
  agree (outside sp (sp + 42)) m (arp_reply net_mac my_ip sp payload src_mac m).
Proof. unfold apart, arp_reply, arp_fixed. intros A1 A2 A3 A4. untouched. Qed.

(** The ARP request for the gateway's address. *)
Lemma arp_request_holds :
  apart (sp - 10) 52 net_mac 6 -> apart (sp - 10) 52 my_ip 4 ->
  holds (arp_request net_mac my_ip sp m) sp
    (eth_bytes (repeat 255 6) mac 0x0806 (arp_bytes 1 mac ip (repeat 0 6) [10; 0; 2; 2])).
Proof.
  intros A1 A2. unfold arp_request, arp_fixed, eth_bytes, arp_bytes. cbv zeta.
  rewrite !holds_app, Lmac, Lip. cbn [repeat length be16_bytes]. split_and!.
  all: unfold apart in *; literal.
  all: change [255; 255; 255; 255; 255; 255] with (repeat 255 6); change [0; 0; 0; 0; 0; 0] with (repeat 0 6).
  all: field.
  all: set_unfold; lia.
Qed.

Lemma arp_request_agree :
  apart (sp - 10) 52 net_mac 6 -> apart (sp - 10) 52 my_ip 4 ->
  agree (outside (sp - 10) (sp + 42)) m (arp_request net_mac my_ip sp m).
Proof. unfold apart, arp_request, arp_fixed. intros A1 A2. untouched. Qed.
End Frames.

(** ** The echo reply *)

Section Echo.
Context (net_mac my_ip sp ip src_mac : Z) (m : mem) (mac addr dst : list Z).
Context (Hmac : holds m net_mac mac) (Lmac : length mac = 6%nat).
Context (Haddr : holds m my_ip addr) (Laddr : length addr = 4%nat).
Context (Hdst : holds m src_mac dst) (Ldst : length dst = 6%nat).

(** An echo request of [n] bytes for this host at [ip], with a header of five
    words: [hdr] is what precedes the addresses, [ck] the ICMP checksum. *)
Context (hdr from ck rest : list Z) (code : Z).
Context (Lhdr : length hdr = 12%nat) (Lfrom : length from = 4%nat) (Lck : length ck = 2%nat).
Context (Hip : holds m ip (hdr ++ from ++ addr ++ [8; code] ++ ck ++ rest)).
Abbreviation n := (24 + Z.of_nat (length rest)).
Context (Hn : be16 m (ip + 2) = n) (Hihl : Z.land (load8 m ip) 0x0F = 5).

Context (A1 : apart (sp - 4) (18 + n) net_mac 6) (A2 : apart (sp - 4) (18 + n) my_ip 4).
Context (A3 : apart (sp - 4) (18 + n) src_mac 6) (A4 : apart (sp - 4) (18 + n) ip n).
Context (B1 : apart ip n net_mac 6) (B2 : apart ip n my_ip 4) (B3 : apart ip n src_mac 6).

Definition cleared : mem := store16 (store8 m (ip + 20) 0) (ip + 20 + 2) 0.
Definition new_sum : Z := calculate_checksum cleared (ip + 20) (n - 20).
Definition summed : mem := store16 cleared (ip + 20 + 2) (ntohs new_sum).
Definition swapped : mem :=
  memcpy (memcpy (memcpy summed (sp - 4) (ip + 12) 4) (ip + 12) my_ip 4) (ip + 16) (sp - 4) 4.

Lemma length_bound : n < 2 ^ 16.
Proof. rewrite <- Hn, <- ntohs_load. apply ntohs_range. Qed.

Lemma new_sum_range : 0 <= new_sum < 2 ^ 16.
Proof. pose proof length_bound. apply checksum_spec. lia. Qed.

Lemma request_fields :
  holds m ip hdr /\ holds m (ip + 12) from /\ holds m (ip + 16) addr /\ holds m (ip + 20) [8] /\ holds m (ip + 21) [code] /\
  holds m (ip + 24) rest.
Proof.
  pose proof Hip as H. change [8; code] with ([8] ++ [code]) in H. rewrite <- (assoc_L (++)), !holds_app in H.
  rewrite Lhdr, Lfrom, Laddr, Lck in H. cbn [length] in H. destruct H as (H1 & H2 & H3 & H4 & H5 & _ & H6).
  replace (ip + 16) with (ip + Z.of_nat 12 + Z.of_nat 4) by lia. replace (ip + 20) with (ip + Z.of_nat 12 + Z.of_nat 4 + Z.of_nat 4) by lia.
  replace (ip + 21) with (ip + Z.of_nat 12 + Z.of_nat 4 + Z.of_nat 4 + Z.of_nat 1) by lia.
  replace (ip + 24) with (ip + Z.of_nat 12 + Z.of_nat 4 + Z.of_nat 4 + Z.of_nat 1 + Z.of_nat 1 + Z.of_nat 2) by lia.
  done.
Qed.

Lemma header_kept m' : holds m' ip hdr -> load8 m' ip = load8 m ip /\ be16 m' (ip + 2) = be16 m (ip + 2).
Proof.
  intros H. destruct request_fields as (H1 & _). pose proof (holds_same m m' ip ip hdr H1 H) as E. rewrite Lhdr in E. unfold be16.
  pose proof (E 0 ltac:(lia)) as E0. rewrite Z.add_0_r in E0.
  replace (ip + 2 + 1) with (ip + 3) by lia. rewrite (E 2), (E 3) by lia. done.
Qed.

Lemma echo_reply_stages :
  echo_reply net_mac my_ip sp ip src_mac m =
    memcpy (store16 (memcpy (memcpy swapped sp src_mac 6) (sp + 6) net_mac 6) (sp + 12) (ntohs 0x0800)) (sp + 14) ip n.
Proof.
  destruct request_fields as (H1 & H2 & H3 & H4 & H5 & H6). pose proof length_bound. unfold apart in *.
  unfold echo_reply, swapped, summed, new_sum. cbv zeta. fold cleared.
  assert (E1 : ip_length cleared ip = n).
  { unfold ip_length. rewrite ntohs_load, <- Hn. apply header_kept. unfold cleared. literal. field. }
  assert (E2 : Z.land (load8 cleared ip) 15 = 5).
  { rewrite <- Hihl. f_equal. apply header_kept. unfold cleared. literal. field. }
  assert (E3 : u32 (ip_length cleared ip - Z.land (load8 cleared ip) 15 * 4) = n - 20) by (rewrite E1, E2, u32_id by lia; lia).
  rewrite E3. set (m4 := store16 (memcpy _ _ _ _) (sp + 12) (ntohs 2048)).
  assert (E4 : ip_length m4 ip = n).
  { unfold ip_length. rewrite ntohs_load, <- Hn. apply header_kept. unfold m4, cleared. literal. field. }
  by rewrite E4.
Qed.

(** The length field survives. *)
Lemma echo_reply_length : ip_length (echo_reply net_mac my_ip sp ip src_mac m) ip = n.
Proof.
  destruct request_fields as (H1 & _). pose proof length_bound. rewrite echo_reply_stages. unfold ip_length.
  rewrite ntohs_load. etransitivity; [|exact Hn]. apply header_kept. unfold swapped, summed, cleared, apart in *. literal. field.
Qed.

Lemma cleared_holds : holds cleared (ip + 20) ([0; code; 0; 0] ++ rest).
Proof.
  destruct request_fields as (_ & _ & _ & H4 & H5 & H6).
  change ([0; code; 0; 0] ++ rest) with ([0] ++ [code] ++ be16_bytes 0 ++ rest). rewrite !holds_app. cbn [length be16_bytes].
  unfold cleared. change (store16 (store8 m (ip + 20) 0) (ip + 20 + 2) 0) with (store16 (store8 m (ip + 20) 0) (ip + 20 + 2) (ntohs 0)).
  split_and!; literal; field.
Qed.

Definition reply : list Z := hdr ++ addr ++ from ++ [0; code] ++ be16_bytes new_sum ++ rest.

Lemma length_reply : Z.of_nat (length reply) = n.
Proof. unfold reply. rewrite !length_app, Lhdr, Laddr, Lfrom. cbn [length be16_bytes]. lia. Qed.

(** The packet in the receive buffer has become the reply. *)
Lemma swapped_holds : holds swapped ip reply.
Proof.
  destruct request_fields as (H1 & H2 & H3 & H4 & H5 & H6). pose proof new_sum_range. pose proof length_bound.
  unfold reply. change [0; code] with ([0] ++ [code]). rewrite <- (assoc_L (++)), !holds_app.
  rewrite Lhdr, Laddr, Lfrom. cbn [length be16_bytes].
  unfold swapped, summed, cleared, apart in *. split_and!; literal; field.
Qed.

Lemma echo_reply_holds : holds (echo_reply net_mac my_ip sp ip src_mac m) sp (eth_bytes dst mac 0x0800 reply).
Proof.
  pose proof length_reply as Hl. pose proof length_bound. pose proof swapped_holds as Hs. rewrite echo_reply_stages.
  unfold apart in *. set (r := reply) in *. clearbody r.
  assert (D1 : holds swapped src_mac dst) by (unfold swapped, summed, cleared; literal; field).
  assert (D2 : holds swapped net_mac mac) by (unfold swapped, summed, cleared; literal; field).
  clear Hmac Haddr Hdst Hip Hn Hihl. generalize dependent swapped. intros m1 Hs D1 D2.
  unfold eth_bytes. rewrite !holds_app, Ldst, Lmac. cbn [length be16_bytes]. split_and!; literal; field.
Qed.

Lemma reply_verifies : calculate_checksum (echo_reply net_mac my_ip sp ip src_mac m) (sp + 34) (n - 20) = 0.
Proof.
  pose proof length_bound. pose proof echo_reply_holds as H1. unfold eth_bytes, reply in H1.
  rewrite !holds_app, Ldst, Lmac, Lhdr, Laddr, Lfrom in H1. destruct H1 as (_ & _ & _ & _ & _ & _ & H1).
  rewrite <- !holds_app in H1. cbn [length be16_bytes] in H1.
  set (icmp := [0; code] ++ _ ++ rest) in H1.
  assert (Hc : calculate_checksum summed (ip + 20) (n - 20) = 0).
  { apply checksum_stored; [lia|lia|done|]. apply loadn_storen_eq. lia. }
  assert (H2 : holds summed (ip + 20) icmp).
  { destruct request_fields as (_ & _ & _ & H4 & H5 & H6). pose proof new_sum_range.
    unfold icmp. change [0; code] with ([0] ++ [code]). rewrite <- (assoc_L (++)), !holds_app. cbn [length be16_bytes].
    unfold summed, cleared. split_and!; literal; field. }
  rewrite <- Hc. apply checksum_ext; [lia|]. intros i Hi.
  replace (sp + 34) with (sp + Z.of_nat 6 + Z.of_nat 6 + Z.of_nat 2 + Z.of_nat 12 + Z.of_nat 4 + Z.of_nat 4) by lia.
  refine (holds_same _ _ _ _ icmp H2 _ i _); [exact H1|]. unfold icmp. rewrite !length_app. cbn [length be16_bytes]. lia.
Qed.

(** Exchanging the addresses leaves the header's sum as it was, so the header
    checksum of the request is right for the reply too. *)
Lemma header_sum_kept : be_sum (echo_reply net_mac my_ip sp ip src_mac m) (sp + 14) 20 = be_sum m ip 20.
Proof.
  pose proof echo_reply_holds as H1. unfold eth_bytes, reply in H1.
  rewrite !holds_app, Ldst, Lmac, Lhdr, Laddr, Lfrom in H1. cbn [length be16_bytes] in H1.
  destruct H1 as (_ & _ & _ & G1 & G2 & G3 & _). destruct request_fields as (H1 & H2 & H3 & _).
  set (m' := echo_reply _ _ _ _ _ _) in *. clearbody m'.
  assert (E : forall x a, be_sum x a 20 = be_sum x a 12 + (be_sum x (a + 12) 4 + be_sum x (a + 16) 4)).
  { intros x a. change 20%nat with (12 + (4 + 4))%nat. rewrite be_sum_app, be_sum_app by done.
    by replace (a + Z.of_nat 12 + Z.of_nat 4) with (a + 16) by lia. }
  rewrite !E.
  rewrite (be_sum_ext m m' ip (sp + 14) 12).
  2:{ intros i Hi. replace (sp + 14) with (sp + Z.of_nat 6 + Z.of_nat 6 + Z.of_nat 2) by lia.
      apply (holds_same _ _ _ _ hdr H1 G1). rewrite Lhdr. lia. }
  rewrite (be_sum_ext m m' (ip + 16) (sp + 14 + 12) 4).
  2:{ intros i Hi. replace (sp + 14 + 12) with (sp + Z.of_nat 6 + Z.of_nat 6 + Z.of_nat 2 + Z.of_nat 12) by lia.
      apply (holds_same _ _ _ _ addr H3 G2). rewrite Laddr. lia. }
  rewrite (be_sum_ext m m' (ip + 12) (sp + 14 + 16) 4); [lia|].
  intros i Hi. replace (sp + 14 + 16) with (sp + Z.of_nat 6 + Z.of_nat 6 + Z.of_nat 2 + Z.of_nat 12 + Z.of_nat 4) by lia.
  apply (holds_same _ _ _ _ from H2 G3). rewrite Lfrom. lia.
Qed.

Lemma echo_reply_agree :
  agree (fun b => outside (sp - 4) (sp + 14 + n) b /\ outside ip (ip + n) b) m (echo_reply net_mac my_ip sp ip src_mac m).
Proof.
  rewrite echo_reply_stages. unfold swapped, summed, cleared, apart in *. intros b [Hb Hc]. unfold outside in *.
  clear Hmac Haddr Hdst Hip Hn Hihl.
  repeat first
  [ rewrite load8_store8_ne by lia
  | rewrite load8_storen_ne by lia
  | rewrite memcpy_outside by (first [unfold outside; lia | lia]) ]. done.
Qed.

(** In one. *)
Lemma echo_reply_ok :
  let m' := echo_reply net_mac my_ip sp ip src_mac m in
  holds m' sp (eth_bytes dst mac 0x0800 reply) /\ ip_length m' ip = n /\ holds cleared (ip + 20) ([0; code; 0; 0] ++ rest) /\
  agree (fun b => outside (sp - 4) (sp + 14 + n) b /\ outside ip (ip + n) b) m m'.
Proof. split_and!; [apply echo_reply_holds|apply echo_reply_length|apply cleared_holds|apply echo_reply_agree]. Qed.
End Echo.
End NetFrames.
