(* ===== verification/NetSend.v ===== *)
(** * The transmit queue

    [tx_inv]: the packets in flight, oldest first, with their descriptors and
    frames. [net_send] appends one, [net_cleanup_tx] drops those the device has
    completed and frees their frames. *)

From S2P Require Import Prelude Memory CString Pmm Bytes Mmio Net.

Module NetSend.
Import CString Pmm Net.

(** ** Stepping *)

Lemma n_bind {X Y} (m : N X) (f : X -> N Y) s s' x : m s = Some (x, s') -> (m ≫= f) s = f x s'.
Proof. intros H. unfold mbind, N_bind. by rewrite H. Qed.

Lemma n_rem x size s : size <> 0 -> rem_size x size s = Some (x mod size, s).
Proof. intros H. unfold rem_size. destruct (size =? 0) eqn:E; [lia|done]. Qed.

Lemma n_deref p s : p <> 0 -> deref p s = Some (p, s).
Proof. intros H. unfold deref. destruct (p =? 0) eqn:E; [lia|done]. Qed.

(** ** A queue in memory *)

Record ring_ok (q : virtq) : Prop := {
  ro_size : 0 < qsize q <= 2 ^ 15;
  ro_div : (qsize q | 2 ^ 16);
  ro_nonnull : 0 < desc q /\ 0 < avail q /\ 0 < used q;
  ro_desc : desc q + 16 * qsize q <= avail q \/ avail q + 4 + 2 * qsize q <= desc q;
  ro_used1 : desc q + 16 * qsize q <= used q \/ used q + 4 + 8 * qsize q <= desc q;
  ro_used2 : avail q + 4 + 2 * qsize q <= used q \/ used q + 4 + 8 * qsize q <= avail q;
}.

(** The bytes the driver writes, and those the device writes. *)
Definition driver_bytes (q : virtq) (b : Z) : Prop :=
  desc q <= b < desc q + 16 * qsize q \/ avail q <= b < avail q + 4 + 2 * qsize q.
Definition device_bytes (q : virtq) (b : Z) : Prop := used q <= b < used q + 4 + 8 * qsize q.
Definition queue_bytes (q : virtq) (b : Z) : Prop := driver_bytes q b \/ device_bytes q b.

Definition in_frame (i b : Z) : Prop := frame_addr i <= b < frame_addr i + 4096.

(** Bytes the frame allocator neither uses nor gives out. *)
Definition reserved (s : net_state) (K : Z -> Prop) : Prop :=
  forall b, K b -> ~ owns (pmm s) b /\ forall i, i ∈ free (abs (pmm s) (memory s)) -> ~ in_frame i b.

Lemma mod_u16 q x : ring_ok q -> u16 x mod qsize q = x mod qsize q.
Proof. intros [Hs Hd _ _ _ _]. unfold u16. by apply Z.mod_mod_divide. Qed.

(** Two positions less than a round apart have different slots. *)
Lemma slot_ne q x y : ring_ok q -> x < y < x + qsize q -> x mod qsize q <> y mod qsize q.
Proof.
  intros [Hs _ _ _ _ _] H E. pose proof (Z.div_mod x (qsize q) ltac:(lia)). pose proof (Z.div_mod y (qsize q) ltac:(lia)).
  rewrite E in *. assert (E2 : y - x = qsize q * (y / qsize q - x / qsize q)) by lia.
  assert (0 < y / qsize q - x / qsize q < 1) by nia. lia.
Qed.

Lemma slot_range q x : ring_ok q -> 0 <= x mod qsize q < qsize q.
Proof. intros [Hs _ _ _ _ _]. apply Z.mod_pos_bound. lia. Qed.

(** ** The frame allocator under writes elsewhere *)

Lemma abs_kept p m m' : Pmm.inv p m -> agree (owns p) m m' -> abs p m' = abs p m.
Proof.
  intros [Hl Ht Hu Hwf] Hag. unfold abs. pose proof (layout_bounds p Hl) as (Hb & _). pose proof (lay_refs p Hl).
  rewrite (arr_agree (owns p) 4 m m'), (arr_agree (owns p) 1 m m'); [done|..];
    try done; intros b Hb'; unfold owns, reserved_end; lia.
Qed.

Lemma inv_kept p m m' : Pmm.inv p m -> agree (owns p) m m' -> Pmm.inv p m'.
Proof. intros Hi Hag. pose proof (abs_kept p m m' Hi Hag) as E. destruct Hi as [Hl Ht Hu Hwf]. split; try done. by rewrite E. Qed.

(** ** Packets in flight *)

(** A frame the driver has allocated, and no one else refers to. *)
Record held (s : net_state) (i : Z) : Prop := {
  hd_range : 0 <= i < total_frames (pmm s);
  hd_above : reserved_end (pmm s) <= frame_addr i;
  hd_taken : i ∉ free (abs (pmm s) (memory s));
  hd_count : counts (abs (pmm s) (memory s)) !! Z.to_nat i = Some 1;
  hd_apart : forall b, queue_bytes (txq s) b -> ~ in_frame i b;
}.

(** The packet [p] (frame number and data) in slot [h]. *)
Record posted (s : net_state) (h : Z) (p : Z * list Z) : Prop := {
  po_ring : load16 (memory s) (avail (txq s) + 4 + 2 * h) = h;
  po_addr : load64 (memory s) (desc (txq s) + 16 * h) = frame_addr p.1;
  po_len : load32 (memory s) (desc (txq s) + 16 * h + 8) = 10 + Z.of_nat (length p.2);
  po_flags : load16 (memory s) (desc (txq s) + 16 * h + 12) = 0;
  po_next : load16 (memory s) (desc (txq s) + 16 * h + 14) = 0;
  po_held : held s p.1;
  po_size : 10 + Z.of_nat (length p.2) <= 4096;
  po_data : holds (memory s) (frame_addr p.1) (repeat 0 10 ++ p.2);
}.

(** [L] counts the packets sent and cleaned up before those in [l]. *)
Record tx_inv (s : net_state) (L : Z) (l : list (Z * list Z)) : Prop := {
  tx_pmm : Pmm.inv (pmm s) (memory s);
  tx_ring : ring_ok (txq s);
  tx_reserved : reserved s (queue_bytes (txq s));
  tx_room : Z.of_nat (length l) <= qsize (txq s);
  tx_start : last_used_idx (txq s) = u16 L;
  tx_next : tx_desc_idx s = u16 (L + Z.of_nat (length l));
  tx_avail : load16 (memory s) (avail (txq s) + 2) = u16 (L + Z.of_nat (length l));
  tx_posted : forall (k : nat) p, l !! k = Some p -> posted s ((L + Z.of_nat k) mod qsize (txq s)) p;
  tx_distinct : NoDup (fst <$> l);
}.

(** A step that leaves the queue's bytes, the packets in flight and the
    allocator's view of them alone keeps what is posted. *)
Lemma posted_kept s s' h p :
  posted s h p -> 0 <= h < qsize (txq s) -> desc (txq s') = desc (txq s) -> avail (txq s') = avail (txq s) ->
  (forall b, desc (txq s) + 16 * h <= b < desc (txq s) + 16 * h + 16 \/
             avail (txq s) + 4 + 2 * h <= b < avail (txq s) + 4 + 2 * h + 2 \/ in_frame p.1 b ->
     load8 (memory s') b = load8 (memory s) b) ->
  held s' p.1 -> posted s' h p.
Proof.
  intros [P1 P2 P3 P4 P5 P6 P7 P8] Hh Ed Ea Hag Hh'.
  assert (Hload : forall n a, desc (txq s) + 16 * h <= a /\ a + Z.of_nat n <= desc (txq s) + 16 * h + 16 \/
                  avail (txq s) + 4 + 2 * h <= a /\ a + Z.of_nat n <= avail (txq s) + 4 + 2 * h + 2 ->
                  loadn n (memory s') a = loadn n (memory s) a).
  { intros n a Ha. apply loadn_ext. intros b Hb. apply Hag. lia. }
  split; rewrite ?Ed, ?Ea; rewrite ?Hload by lia; try done.
  intros x c Hx. pose proof (lookup_lt_Some _ _ _ Hx) as Hlt. rewrite length_app, repeat_length in Hlt.
  rewrite Hag by (unfold in_frame; lia). by apply P8.
Qed.

(** A change of memory away from the queue, the allocator and the packets in
    flight. *)
Lemma memory_inv s L l m (K : Z -> Prop) :
  tx_inv s L l -> agree (fun b => ~ K b) (memory s) m ->
  (forall b, K b -> ~ owns (pmm s) b /\ ~ driver_bytes (txq s) b /\ forall i, i ∈ l.*1 -> ~ in_frame i b) ->
  tx_inv (with_memory m s) L l /\ free (abs (pmm s) m) = free (abs (pmm s) (memory s)).
Proof.
  intros Hinv Hag HK. pose proof (tx_ring _ _ _ Hinv) as Hr.
  assert (Hown : agree (owns (pmm s)) (memory s) m) by (intros b Hb; apply Hag; intros Hk; by destruct (HK b Hk) as [H1 _]).
  pose proof (abs_kept _ _ _ (tx_pmm _ _ _ Hinv) Hown) as Habs. split; [|by rewrite Habs].
  assert (Hdrv : forall b, driver_bytes (txq s) b -> load8 m b = load8 (memory s) b).
  { intros b Hb. apply Hag. intros Hk. by destruct (HK b Hk) as (_ & H1 & _). }
  destruct Hinv as [I1 I2 I3 I4 I5 I6 I7 I8 I9]. split; try done.
  - by apply (inv_kept _ (memory s)).
  - intros b Hb. destruct (I3 b Hb) as [H1 H2]. split; [done|]. intros j Hj. apply H2. by rewrite <- Habs.
  - rewrite <- I7. cbn. apply loadn_ext. intros b Hb. apply Hdrv. right. pose proof (ro_size _ I2). lia.
  - intros k p Hk. pose proof (I8 k p Hk) as Hp. pose proof (slot_range _ (L + Z.of_nat k) Hr) as Hsl.
    refine (posted_kept s (with_memory m s) _ p Hp Hsl eq_refl eq_refl _ _).
    + intros b [Hb|[Hb|Hb]]; cbn; [apply Hdrv; left; lia|apply Hdrv; right; lia|].
      apply Hag. intros Hkb. destruct (HK b Hkb) as (_ & _ & H3). apply (H3 p.1); [|done]. by apply list_elem_of_fmap_2, (list_elem_of_lookup_2 _ k).
    + destruct (po_held _ _ _ Hp) as [J1 J2 J3 J4 J5]. split; cbn [memory pmm with_memory]; rewrite ?Habs; done.
Qed.

Lemma flight_held s L l i : tx_inv s L l -> i ∈ l.*1 -> held s i.
Proof.
  intros Hinv Hi. apply list_elem_of_fmap in Hi as (p & -> & Hp). apply list_elem_of_lookup in Hp as [k Hk].
  exact (po_held _ _ _ (tx_posted _ _ _ Hinv k p Hk)).
Qed.

Definition frames_free (s : net_state) : list Z := free (abs (pmm s) (memory s)).

(** ** net_send *)

Section Send.
Context (s : net_state) (L : Z) (l : list (Z * list Z)) (src : Z) (data : list Z).
Context (Hinv : tx_inv s L l) (Hfit : 10 + Z.of_nat (length data) <= 4096) (Hpos : data <> []).
Context (Hsrc : holds (memory s) src data) (Hres : reserved s (fun b => src <= b < src + Z.of_nat (length data))).

Abbreviation q := (txq s).
Abbreviation n := (Z.of_nat (length data)).
Abbreviation h := ((L + Z.of_nat (length l)) mod qsize (txq s)).

Definition framed (m : mem) (f : Z) : mem := memcpy (memset m f 0 10) (f + 10) src n.
Definition queued (m : mem) (f : Z) : mem :=
  store16 (store16 (set_desc m (desc q) h f (10 + n) 0) (avail q + 4 + 2 * h) h) (avail q + 2)
    (u16 (L + Z.of_nat (length l) + 1)).

Lemma driver_load w m m' a :
  agree (fun b => ~ owns (pmm s) b /\ forall i, i ∈ free (abs (pmm s) (memory s)) -> ~ in_frame i b) m m' ->
  (forall b, a <= b < a + Z.of_nat w -> queue_bytes q b) -> loadn w m' a = loadn w m a.
Proof. intros Hag Hb. apply loadn_ext. intros b Hb'. apply Hag. apply (tx_reserved _ _ _ Hinv). by apply Hb. Qed.

Lemma avail_bytes b : avail q + 2 <= b < avail q + 2 + 2 -> queue_bytes q b.
Proof. pose proof (ro_size _ (tx_ring _ _ _ Hinv)). unfold queue_bytes, driver_bytes. lia. Qed.

Lemma queued_avail m f : load16 (set_desc m (desc q) h f (10 + n) 0) (avail q + 2) = load16 m (avail q + 2).
Proof.
  pose proof (slot_range q (L + Z.of_nat (length l)) (tx_ring _ _ _ Hinv)). destruct (tx_ring _ _ _ Hinv).
  unfold set_desc. by rewrite !loadn_storen_ne by lia.
Qed.

(** What a call does, as one change of the state; it writes [w] bytes from the
    frame on at most. *)
Lemma net_send_run w f p m :
  10 + n <= w < 2 ^ 32 ->
  pmm_alloc_frame (pmm s) (memory s) = (f, p, m) -> f <> 0 -> agree (fun b => ~ owns (pmm s) b) (memory s) m ->
  (forall b, queue_bytes q b -> ~ f <= b < f + w) -> src + n <= f \/ f + w <= src ->
  net_send src n s =
    Some ((), NetState (queued (framed m f) f) p (rxq s) q (u16 (L + Z.of_nat (length l) + 1))
                (regs s ++ [Wr (VIRTIO_NET_BASE + VIRTIO_REG_QUEUE_NOTIFY) 1])).
Proof using Hinv.
  clear Hfit. intros Hw Ha Hf Hag Hq Hd. pose proof (ro_size _ (tx_ring _ _ _ Hinv)). destruct (ro_nonnull _ (tx_ring _ _ _ Hinv)) as (Hn1 & Hn2 & _).
  unfold net_send. set (s1 := with_memory m (with_pmm p s)).
  rewrite (n_bind _ _ s s1 f) by (unfold alloc_frame; by rewrite Ha). destruct (f =? 0) eqn:E; [lia|].
  set (s2 := with_memory (framed m f) s1).
  rewrite (n_bind _ _ s1 (with_memory (memset m f 0 10) s1) ()) by done. rewrite (n_bind _ _ _ s2 ()) by done.
  rewrite (n_bind _ _ s2 s2 q) by done. rewrite (n_bind _ _ s2 s2 (tx_desc_idx s)) by done.
  rewrite (n_bind _ _ s2 s2 h) by (rewrite n_rem by lia; by rewrite (tx_next _ _ _ Hinv), mod_u16 by apply Hinv).
  rewrite (n_bind _ _ s2 s2 (desc q)) by (apply n_deref; lia).
  set (m4 := set_desc (framed m f) (desc q) h f (10 + n) 0). set (s4 := with_memory m4 s2).
  rewrite (n_bind _ _ s2 s4 ()).
  2:{ unfold s4, m4, change, modify. unfold sizeof_virtio_net_hdr. by rewrite u32_id by lia. }
  rewrite (n_bind _ _ s4 s4 (avail q)) by (apply n_deref; lia).
  rewrite (n_bind _ _ s4 s4 (u16 (L + Z.of_nat (length l)))).
  2:{ unfold gets. do 2 f_equal. cbn [memory s4 with_memory]. unfold m4. rewrite queued_avail. rewrite <- (tx_avail _ _ _ Hinv).
      apply loadn_ext. intros b Hb. pose proof (Hq b (avail_bytes b Hb)).
      destruct (tx_reserved _ _ _ Hinv b (avail_bytes b Hb)) as [Ho _].
      unfold framed. rewrite memcpy_outside by (first [unfold outside; lia|lia]).
      rewrite memset_agree by (first [unfold outside; lia|lia]). by apply Hag. }
  rewrite (n_bind _ _ s4 s4 h) by (rewrite n_rem by lia; by rewrite mod_u16 by apply Hinv).
  rewrite (n_bind _ _ s4 (with_memory (store16 m4 (avail q + 4 + 2 * h) h) s4) ()) by done.
  rewrite (n_bind _ _ _ (with_memory (queued (framed m f) f) s4) ()).
  2:{ unfold change, modify. do 2 f_equal. unfold with_memory. cbn. f_equal. unfold queued. fold m4. f_equal.
      unfold u16. rewrite Z.add_mod_idemp_l by lia. done. }
  rewrite (n_bind _ _ _ (with_regs (write32 (regs s) (VIRTIO_NET_BASE + VIRTIO_REG_QUEUE_NOTIFY) 1) (with_memory (queued (framed m f) f) s4)) ()) by done.
  unfold modify. do 2 f_equal. unfold with_tx_desc_idx, with_regs, with_memory. cbn. f_equal.
  rewrite (tx_next _ _ _ Hinv). unfold u16. by rewrite Z.add_mod_idemp_l by lia.
Qed.

(** The frame just allocated is disjoint from everything reserved. *)
Lemma taken_apart (i : Z) b K : i ∈ free (abs (pmm s) (memory s)) -> reserved s K -> K b -> ~ in_frame i b.
Proof. intros Hi HK Hb. by apply (HK b Hb). Qed.

Lemma framed_holds m f : src + n <= f \/ f + 4096 <= src -> holds m src data -> holds (framed m f) f (repeat 0 10 ++ data).
Proof.
  intros Hd H. apply holds_app. rewrite repeat_length. unfold framed. split.
  - apply holds_memcpy; [lia|lia|rewrite repeat_length; lia|]. by apply holds_memset_at.
  - apply holds_memcpy_at; [lia|lia|]. apply holds_memset; [lia|lia|done].
Qed.

Lemma framed_agree m f : src + n <= f \/ f + 4096 <= src -> agree (outside f (f + 4096)) m (framed m f).
Proof.
  intros Hd b Hb. unfold outside in Hb. unfold framed. rewrite memcpy_outside by (first [unfold outside; lia|lia]).
  apply memset_agree; [lia|unfold outside; lia].
Qed.

Lemma queued_agree m f : agree (fun b => ~ driver_bytes q b) m (queued m f).
Proof.
  pose proof (slot_range q (L + Z.of_nat (length l)) (tx_ring _ _ _ Hinv)). destruct (tx_ring _ _ _ Hinv).
  intros b Hb. unfold driver_bytes in Hb. unfold queued, set_desc. by rewrite !load8_storen_ne by lia.
Qed.

(** The entries of other slots. *)
Lemma queued_other m f h' b : 0 <= h' < qsize q -> h' <> h ->
  desc q + 16 * h' <= b < desc q + 16 * h' + 16 \/ avail q + 4 + 2 * h' <= b < avail q + 4 + 2 * h' + 2 ->
  load8 (queued m f) b = load8 m b.
Proof.
  intros Hh Hne Hb. pose proof (slot_range q (L + Z.of_nat (length l)) (tx_ring _ _ _ Hinv)). destruct (tx_ring _ _ _ Hinv).
  unfold queued, set_desc. by rewrite !load8_storen_ne by lia.
Qed.

(** The new entry. *)
Lemma queued_entry m f : 0 <= f < 2 ^ 64 ->
  load16 (queued m f) (avail q + 4 + 2 * h) = h /\ load64 (queued m f) (desc q + 16 * h) = f /\
  load32 (queued m f) (desc q + 16 * h + 8) = 10 + n /\ load16 (queued m f) (desc q + 16 * h + 12) = 0 /\
  load16 (queued m f) (desc q + 16 * h + 14) = 0 /\
  load16 (queued m f) (avail q + 2) = u16 (L + Z.of_nat (length l) + 1).
Proof.
  intros Hf. pose proof (slot_range q (L + Z.of_nat (length l)) (tx_ring _ _ _ Hinv)).
  destruct (tx_ring _ _ _ Hinv).
  pose proof (Z.mod_pos_bound (L + Z.of_nat (length l) + 1) (2 ^ 16) ltac:(lia)).
  unfold queued, set_desc. split_and!; msimpl; try done. by apply loadn_storen_eq.
Qed.

(** The frame [i] has been taken off the free list. *)
Record taken (i : Z) (rest : list Z) (p : pmm_state) (m : mem) : Prop := {
  tk_free : free (abs (pmm s) (memory s)) = i :: rest;
  tk_range : 0 <= i < total_frames (pmm s);
  tk_above : reserved_end (pmm s) <= frame_addr i;
  tk_addr : 0 < frame_addr i < 2 ^ 44;
  tk_abs : abs p m = Frames rest (<[Z.to_nat i := 1]> (counts (abs (pmm s) (memory s))));
  tk_inv : Pmm.inv p m;
  tk_agree : agree (fun b => ~ owns (pmm s) b) (memory s) m;
  tk_total : total_frames p = total_frames (pmm s);
  tk_owns : forall b, owns p b <-> owns (pmm s) b;
  tk_end : reserved_end p = reserved_end (pmm s);
}.

Definition sent (i : Z) (p : pmm_state) (m : mem) : net_state :=
  NetState (queued (framed m (frame_addr i)) (frame_addr i)) p (rxq s) q (u16 (L + Z.of_nat (length l) + 1))
    (regs s ++ [Wr (VIRTIO_NET_BASE + VIRTIO_REG_QUEUE_NOTIFY) 1]).

Lemma alloc_takes :
  match free (abs (pmm s) (memory s)) with
  | [] => alloc_frame s = Some (0, s)
  | i :: rest => exists p m, pmm_alloc_frame (pmm s) (memory s) = (frame_addr i, p, m) /\ taken i rest p m
  end.
Proof using Hinv.
  clear Hfit Hpos Hsrc Hres. pose proof (alloc_ok _ _ (tx_pmm _ _ _ Hinv)) as H. destruct (pmm_alloc_frame (pmm s) (memory s)) as [[f p] m] eqn:Ea.
  unfold spec_alloc in H. destruct (free (abs (pmm s) (memory s))) as [|i rest] eqn:Ef.
  - destruct H as (-> & _). pose proof (inv_top _ _ (tx_pmm _ _ _ Hinv)).
    assert (E0 : stack_top (pmm s) = 0).
    { pose proof (length_free (pmm s) (memory s) ltac:(lia)) as Hl. rewrite Ef in Hl. simpl in Hl. lia. }
    unfold alloc_frame, pmm_alloc_frame. rewrite E0. by destruct s.
  - destruct H as (-> & Habs & Hpi & Hag & Hs). pose proof (layout_same _ _ _ _ Hs) as (Htot & Ho & Hre). exists p, m.
    destruct (wf_free _ _ _ (inv_wf _ _ (tx_pmm _ _ _ Hinv)) i) as (Hir & Hia & _); [rewrite Ef; left|].
    pose proof (layout_bounds _ (inv_layout _ _ (tx_pmm _ _ _ Hinv))). split; [done|split; try done; unfold frame_addr; lia].
Qed.

Section Taken.
Context (i : Z) (rest : list Z) (p : pmm_state) (m : mem) (Ht : taken i rest p m).

Lemma taken_free : i ∈ free (abs (pmm s) (memory s)).
Proof. rewrite (tk_free _ _ _ _ Ht). left. Qed.

Lemma taken_queue b : queue_bytes q b -> ~ in_frame i b.
Proof. intros Hb. exact (taken_apart i b _ taken_free (tx_reserved _ _ _ Hinv) Hb). Qed.

Lemma taken_src : src + n <= frame_addr i \/ frame_addr i + 4096 <= src.
Proof.
  assert (0 < n) by (destruct data; [done|simpl; lia]).
  destruct (decide (src + n <= frame_addr i)) as [|D1]; [by left|]. right.
  destruct (decide (frame_addr i + 4096 <= src)) as [|D2]; [done|exfalso].
  apply (taken_apart i (Z.max src (frame_addr i)) _ taken_free Hres); [lia|unfold in_frame; lia].
Qed.

Lemma taken_framed : agree (fun b => ~ owns (pmm s) b /\ ~ in_frame i b) (memory s) (framed m (frame_addr i)).
Proof.
  intros b [H1 H2]. rewrite (framed_agree _ _ taken_src); [by apply (tk_agree _ _ _ _ Ht)|]. unfold outside, in_frame in *. lia.
Qed.

Lemma sent_agree : agree (fun b => ~ owns (pmm s) b /\ ~ in_frame i b /\ ~ driver_bytes q b) (memory s) (memory (sent i p m)).
Proof. intros b (H1 & H2 & H3). cbn [memory sent]. rewrite queued_agree by done. by apply taken_framed. Qed.

Lemma sent_owned : agree (owns p) m (memory (sent i p m)).
Proof.
  pose proof (tk_above _ _ _ _ Ht). intros b Hb. apply (tk_owns _ _ _ _ Ht) in Hb. cbn [memory sent]. rewrite queued_agree.
  - apply (framed_agree _ _ taken_src). unfold outside, owns in *. lia.
  - intros Hdb. by apply (tx_reserved _ _ _ Hinv b (or_introl Hdb)).
Qed.

Lemma sent_abs : abs p (memory (sent i p m)) = Frames rest (<[Z.to_nat i := 1]> (counts (abs (pmm s) (memory s)))).
Proof. rewrite <- (tk_abs _ _ _ _ Ht). apply abs_kept; [by apply (tk_inv _ _ _ _ Ht)|apply sent_owned]. Qed.

Lemma sent_held j : held s j -> held (sent i p m) j.
Proof.
  intros [J1 J2 J3 J4 J5]. pose proof (tk_range _ _ _ _ Ht).
  split; cbn [pmm txq sent]; rewrite ?(tk_total _ _ _ _ Ht), ?(tk_end _ _ _ _ Ht); try done; fold (sent i p m);
    rewrite sent_abs; cbn [free counts].
  - intros Hj. apply J3. rewrite (tk_free _ _ _ _ Ht). by right.
  - rewrite list_lookup_insert_ne; [done|]. intros E. apply J3. replace j with i by lia. apply taken_free.
Qed.

Lemma sent_old k pk : (k < length l)%nat -> Z.of_nat (length l) < qsize q ->
  posted s ((L + Z.of_nat k) mod qsize q) pk -> posted (sent i p m) ((L + Z.of_nat k) mod qsize q) pk.
Proof.
  intros Hlt Hroom Hp. pose proof (tx_ring _ _ _ Hinv) as Hr. pose proof (slot_range q (L + Z.of_nat k) Hr) as Hsl.
  assert (Hne : (L + Z.of_nat k) mod qsize q <> h) by (apply slot_ne; [done|lia]).
  refine (posted_kept s (sent i p m) _ pk Hp Hsl eq_refl eq_refl _ (sent_held _ (po_held _ _ _ Hp))).
  assert (Hq : forall b, queue_bytes q b -> load8 (framed m (frame_addr i)) b = load8 (memory s) b).
  { intros b Hb. apply taken_framed. split; [by apply (tx_reserved _ _ _ Hinv b Hb)|by apply taken_queue]. }
  intros b [Hb|[Hb|Hb]]; cbn [memory sent].
  - rewrite (queued_other _ _ _ b Hsl Hne) by (by left). apply Hq. left. left. lia.
  - rewrite (queued_other _ _ _ b Hsl Hne) by (by right). apply Hq. left. right. lia.
  - destruct (po_held _ _ _ Hp) as [J1 J2 J3 J4 J5].
    assert (Hji : pk.1 <> i) by (intros E; apply J3; rewrite E; apply taken_free).
    rewrite queued_agree by (intros Hdb; by apply (J5 b (or_introl Hdb))).
    apply taken_framed. unfold in_frame, owns, frame_addr in *. split; lia.
Qed.

Lemma sent_new : posted (sent i p m) h (i, data).
Proof.
  pose proof (tk_addr _ _ _ _ Ht). destruct (queued_entry (framed m (frame_addr i)) (frame_addr i) ltac:(lia)) as (E1 & E2 & E3 & E4 & E5 & _).
  split; cbn [memory txq fst snd sent]; try done.
  - split; cbn [pmm txq sent]; rewrite ?(tk_total _ _ _ _ Ht), ?(tk_end _ _ _ _ Ht); try apply Ht; fold (sent i p m).
    + rewrite sent_abs. cbn [free]. pose proof (wf_nodup _ _ _ (inv_wf _ _ (tx_pmm _ _ _ Hinv))) as Hnd.
      rewrite (tk_free _ _ _ _ Ht) in Hnd. by apply list.NoDup_cons in Hnd as [? _].
    + rewrite sent_abs. cbn [counts]. apply list_lookup_insert_eq.
      rewrite (wf_counts _ _ _ (inv_wf _ _ (tx_pmm _ _ _ Hinv))). pose proof (tk_range _ _ _ _ Ht). lia.
    + intros b Hb. by apply taken_queue.
  - intros x c Hx. pose proof (lookup_lt_Some _ _ _ Hx) as Hlt. rewrite length_app, repeat_length in Hlt. rewrite queued_agree.
    + apply framed_holds; [apply taken_src| |done]. eapply holds_agree; [apply (tk_agree _ _ _ _ Ht)| |exact Hsrc]. intros b Hb. by apply (Hres b).
    + intros Hdb. apply (taken_queue _ (or_introl Hdb)). unfold in_frame. lia.
Qed.

Lemma sent_inv : Z.of_nat (length l) < qsize q -> tx_inv (sent i p m) L (l ++ [(i, data)]).
Proof.
  intros Hroom. split; try apply Hinv.
  - apply (inv_kept p m); [by apply (tk_inv _ _ _ _ Ht)|apply sent_owned].
  - intros b Hb. destruct (tx_reserved _ _ _ Hinv b Hb) as [H1 H2]. split; [cbn; by rewrite (tk_owns _ _ _ _ Ht)|].
    intros j Hj. change (pmm (sent i p m)) with p in Hj. rewrite sent_abs in Hj. apply H2. rewrite (tk_free _ _ _ _ Ht). by right.
  - rewrite length_app. simpl. lia.
  - cbn [tx_desc_idx sent]. f_equal. rewrite length_app. simpl. lia.
  - pose proof (tk_addr _ _ _ _ Ht). cbn [memory txq sent].
    destruct (queued_entry (framed m (frame_addr i)) (frame_addr i) ltac:(lia)) as (_ & _ & _ & _ & _ & E).
    rewrite E. f_equal. rewrite length_app. simpl. lia.
  - intros k pk Hk. apply lookup_app_Some in Hk as [Hk|[Hkl Hk]].
    + exact (sent_old k pk (lookup_lt_Some _ _ _ Hk) Hroom (tx_posted _ _ _ Hinv k pk Hk)).
    + apply list_lookup_singleton_Some in Hk as [Hk <-]. replace (L + Z.of_nat k) with (L + Z.of_nat (length l)) by lia. apply sent_new.
  - rewrite fmap_app. apply list.NoDup_app. split; [apply Hinv|]. split; [|apply NoDup_singleton].
    intros j Hj ->%list_elem_of_singleton. apply list_elem_of_fmap in Hj as (pk & E & Hpk).
    apply list_elem_of_lookup in Hpk as [k Hk]. apply (hd_taken _ _ (po_held _ _ _ (tx_posted _ _ _ Hinv k pk Hk))).
    rewrite <- E. apply taken_free.
Qed.
End Taken.

(** A call takes a frame, or there is none and it does nothing. *)
Lemma net_send_takes :
  match free (abs (pmm s) (memory s)) with
  | [] => net_send src n s = Some ((), s)
  | i :: rest => exists p m, taken i rest p m /\ net_send src n s = Some ((), sent i p m)
  end.
Proof.
  pose proof alloc_takes as H. destruct (free (abs (pmm s) (memory s))) as [|i rest].
  - unfold net_send. by rewrite (n_bind _ _ s s 0 H).
  - destruct H as (p & m & Ea & Ht). exists p, m. split; [done|]. pose proof (tk_addr _ _ _ _ Ht).
    apply (net_send_run 4096 (frame_addr i) p m ltac:(lia) Ea); [lia|apply (tk_agree _ _ _ _ Ht)| |by apply (taken_src i rest p m)].
    intros b Hb. by apply (taken_queue i rest p m Ht).
Qed.

(** A call with room in the queue appends the packet, or finds no frame and
    changes nothing. *)
Lemma net_send_ok :
  Z.of_nat (length l) < qsize q ->
  match free (abs (pmm s) (memory s)) with
  | [] => net_send src n s = Some ((), s)
  | i :: rest =>
      exists s', net_send src n s = Some ((), s') /\ tx_inv s' L (l ++ [(i, data)]) /\
        free (abs (pmm s') (memory s')) = rest /\ rxq s' = rxq s /\ txq s' = q /\
        regs s' = regs s ++ [Wr (VIRTIO_NET_BASE + VIRTIO_REG_QUEUE_NOTIFY) 1] /\
        (forall b, owns (pmm s') b <-> owns (pmm s) b) /\
        agree (fun b => ~ owns (pmm s) b /\ ~ in_frame i b /\ ~ driver_bytes q b) (memory s) (memory s')
  end.
Proof.
  intros Hroom. pose proof net_send_takes as H. destruct (free (abs (pmm s) (memory s))) as [|i rest]; [done|].
  destruct H as (p & m & Ht & E). exists (sent i p m). split; [done|]. split; [by apply (sent_inv i rest p m)|].
  split; [change (pmm (sent i p m)) with p; by rewrite (sent_abs i rest p m Ht)|]. split_and!; try done; [apply Ht|by apply (sent_agree i rest p m)].
Qed.
End Send.

(** Nothing keeps the copy inside the frame: of a message of more than 4086
    bytes the rest is written behind the frame, which is the next frame. *)
Theorem net_send_overflows s L l src data i rest :
  tx_inv s L l -> frames_free s = i :: rest -> 4096 < 10 + Z.of_nat (length data) < 2 ^ 32 ->
  holds (memory s) src data -> (forall b, src <= b < src + Z.of_nat (length data) -> ~ owns (pmm s) b) ->
  src + Z.of_nat (length data) <= frame_addr i \/ frame_addr i + 10 + Z.of_nat (length data) <= src ->
  (forall b, queue_bytes (txq s) b -> ~ frame_addr i <= b < frame_addr i + 10 + Z.of_nat (length data)) ->
  exists s', net_send src (Z.of_nat (length data)) s = Some ((), s') /\
    drop 4086 data <> [] /\ holds (memory s') (frame_addr i + 4096) (drop 4086 data).
Proof.
  intros Hinv Hfree Hlen Hsrc Hown Hd Hq. pose proof (alloc_takes s L l Hinv) as H. unfold frames_free in Hfree.
  rewrite Hfree in H. destruct H as (p & m & Ea & Ht). pose proof (tk_addr _ _ _ _ _ Ht).
  rewrite <- Z.add_assoc in Hd. eexists. split.
  { apply (net_send_run s L l src data Hinv (10 + Z.of_nat (length data)) (frame_addr i) p m); try done; [lia|lia|apply Ht|].
    intros b Hb. specialize (Hq b Hb). lia. }
  split; [intros E; apply (f_equal length) in E; rewrite length_drop in E; simpl in E; lia|]. cbn [memory].
  assert (Hm : holds (memset m (frame_addr i) 0 10) src data).
  { apply holds_memset; [lia|lia|]. eapply holds_agree; [apply (tk_agree _ _ _ _ _ Ht)| |exact Hsrc]. exact Hown. }
  pose proof (holds_memcpy_at _ (frame_addr i + 10) src _ data eq_refl ltac:(lia) Hm) as Hc.
  intros k c Hk. rewrite lookup_drop in Hk. rewrite <- (Hc _ _ Hk).
  pose proof (lookup_lt_Some _ _ _ Hk). rewrite (queued_agree s L l data Hinv).
  - unfold framed. f_equal. lia.
  - intros Hb. apply (Hq (frame_addr i + 4096 + Z.of_nat k)); [by left|lia].
Qed.

(** ** net_cleanup_tx *)

(** The device reports the first [k] packets in flight as done, in order. *)
Definition completed (s : net_state) (L k : Z) : Prop :=
  load16 (memory s) (used (txq s) + 2) = u16 (L + k) /\
  forall j, 0 <= j < k ->
    load32 (memory s) (used (txq s) + 4 + 8 * ((L + j) mod qsize (txq s))) = (L + j) mod qsize (txq s).

(** Freeing a held frame. *)
Lemma free_held s i : Pmm.inv (pmm s) (memory s) -> held s i ->
  exists p m, pmm_free_frame (pmm s) (memory s) (frame_addr i) = (p, m) /\
    abs p m = Frames (i :: free (abs (pmm s) (memory s))) (<[Z.to_nat i := 0]> (counts (abs (pmm s) (memory s)))) /\
    Pmm.inv p m /\ agree (fun b => ~ owns (pmm s) b) (memory s) m /\
    total_frames p = total_frames (pmm s) /\ (forall b, owns p b <-> owns (pmm s) b) /\ reserved_end p = reserved_end (pmm s).
Proof.
  intros Hi [J1 J2 J3 J4 _]. pose proof (free_ok _ _ i 0 Hi J1 ltac:(lia) J2 J3) as H. rewrite Z.add_0_r in H.
  destruct (pmm_free_frame _ _ _) as [p m]. destruct H as (H1 & H2 & H3 & H4). exists p, m.
  pose proof (layout_same _ _ _ _ H4) as (E1 & E2 & E3). unfold spec_release in H1. rewrite J4 in H1. done.
Qed.

Lemma cleanup_step_ok s L i data l :
  tx_inv s L ((i, data) :: l) -> load16 (memory s) (used (txq s) + 2) <> u16 L ->
  load32 (memory s) (used (txq s) + 4 + 8 * (L mod qsize (txq s))) = L mod qsize (txq s) ->
  exists p m, let s' := NetState m p (rxq s) (with_last_used (u16 (L + 1)) (txq s)) (tx_desc_idx s) (regs s) in
    cleanup_step s = Some (inl (), s') /\ tx_inv s' (L + 1) l /\
    free (abs p m) = i :: free (abs (pmm s) (memory s)) /\ (forall b, owns p b <-> owns (pmm s) b) /\
    agree (fun b => ~ owns (pmm s) b) (memory s) m.
Proof.
  intros Hinv Hidx Hid. pose proof (tx_posted _ _ _ Hinv O _ eq_refl) as Hp. rewrite Z.add_0_r in Hp.
  destruct (free_held s i (tx_pmm _ _ _ Hinv) (po_held _ _ _ Hp)) as (p & m & Ef & Habs & Hpi & Hag & Htot & Ho & Hre).
  pose proof (tx_ring _ _ _ Hinv) as Hr. destruct (ro_nonnull _ Hr) as (Hn1 & _ & Hn3). pose proof (ro_size _ Hr).
  pose proof (slot_range (txq s) L Hr) as Hsl. exists p, m. intros s'. split; [|split; [|split; [by rewrite Habs|done]]].
  - unfold cleanup_step. rewrite (n_bind _ _ s s (txq s)) by done. rewrite (n_bind _ _ s s (used (txq s))) by (apply n_deref; lia).
    rewrite (n_bind _ _ s s (load16 (memory s) (used (txq s) + 2))) by done. rewrite (tx_start _ _ _ Hinv).
    destruct (u16 L =? _) eqn:E; [lia|].
    rewrite (n_bind _ _ s s (L mod qsize (txq s))) by (rewrite n_rem by lia; by rewrite mod_u16).
    rewrite (n_bind _ _ s s (L mod qsize (txq s))) by (unfold gets; by rewrite Hid).
    rewrite (n_bind _ _ s s (desc (txq s))) by (apply n_deref; lia).
    rewrite (n_bind _ _ s s (frame_addr i)) by (unfold gets; by rewrite (po_addr _ _ _ Hp)).
    rewrite (n_bind _ _ s (with_memory m (with_pmm p s)) ()) by (unfold free_frame, modify; by rewrite Ef).
    rewrite (n_bind _ _ _ s' ()); [done|]. unfold modify, s', with_txq, with_memory, with_pmm. cbn. do 4 f_equal.
    unfold u16. by rewrite Z.add_mod_idemp_l by lia.
  - assert (Hheld : forall (k : nat) pk, l !! k = Some pk -> held s' pk.1).
    { intros k pk Hk. pose proof (hd_range _ _ (po_held _ _ _ Hp)) as Hir. cbn [fst] in Hir.
      pose proof (tx_posted _ _ _ Hinv (S k) pk Hk) as [_ _ _ _ _ [J1 J2 J3 J4 J5] _ _].
      assert (Hne : pk.1 <> i).
      { intros E. pose proof (tx_distinct _ _ _ Hinv) as Hnd. cbn in Hnd. apply list.NoDup_cons in Hnd as [Hnd _].
        apply Hnd. rewrite <- E. by apply list_elem_of_fmap_2, (list_elem_of_lookup_2 _ k). }
      split; cbn [pmm txq memory s']; rewrite ?Htot, ?Hre, ?Habs; try done; cbn [free counts].
      - by intros [?|?]%elem_of_cons.
      - by rewrite list_lookup_insert_ne by lia. }
    destruct Hinv as [I1 I2 I3 I4 I5 I6 I7 I8 I9]. split; cbn [pmm memory txq tx_desc_idx s'].
    + done.
    + by destruct I2.
    + intros b Hb. destruct (I3 b Hb) as [H1 H2]. cbn [pmm memory s']. split; [by rewrite Ho|]. rewrite Habs. cbn [free].
      intros j [->|Hj]%elem_of_cons; [by apply (hd_apart _ _ (po_held _ _ _ Hp))|by apply H2].
    + cbn [qsize with_last_used]. simpl in I4. lia.
    + done.
    + rewrite I6. f_equal. simpl. lia.
    + cbn [avail with_last_used]. rewrite (agree_loadn _ 2 _ _ _ Hag); [|intros b Hb; apply (I3 b); left; right; lia].
      rewrite I7. f_equal. simpl. lia.
    + intros k pk Hk. pose proof (I8 (S k) pk Hk) as Hpk. replace (L + 1 + Z.of_nat k) with (L + Z.of_nat (S k)) by lia.
      cbn [qsize with_last_used]. refine (posted_kept s s' _ pk Hpk (slot_range _ _ I2) eq_refl eq_refl _ (Hheld k pk Hk)).
      intros b Hb. pose proof (slot_range _ (L + Z.of_nat (S k)) I2). apply Hag. destruct Hb as [Hb|[Hb|Hb]].
      * apply (I3 b). left. left. lia.
      * apply (I3 b). left. right. lia.
      * destruct (po_held _ _ _ Hpk) as [J1 J2 J3 J4 J5]. unfold in_frame, owns in *. lia.
    + by apply list.NoDup_cons in I9 as [_ ?].
Qed.

Lemma u16_ne L k : 0 < k < 2 ^ 16 -> u16 (L + k) <> u16 L.
Proof. unfold u16. intros Hk. zdiv. Qed.

(** It frees the frames of exactly the packets that are done, and stops. *)
Lemma net_cleanup_ok : forall k s L l fuel, tx_inv s L l -> completed s L (Z.of_nat k) ->
  (k <= length l)%nat -> (k < fuel)%nat -> Z.of_nat k < 2 ^ 16 ->
  exists s', net_cleanup_tx fuel s = Some ((), s') /\ tx_inv s' (L + Z.of_nat k) (drop k l) /\
    free (abs (pmm s') (memory s')) = reverse (take k (fst <$> l)) ++ free (abs (pmm s) (memory s)) /\
    rxq s' = rxq s /\ txq s' = with_last_used (u16 (L + Z.of_nat k)) (txq s) /\ regs s' = regs s /\
    (forall b, owns (pmm s') b <-> owns (pmm s) b) /\ agree (fun b => ~ owns (pmm s) b) (memory s) (memory s').
Proof.
  induction k as [|k IH]; intros s L l [|fuel] Hinv [Hidx Hids] Hk Hf Hlt; try lia.
  all: pose proof (tx_ring _ _ _ Hinv) as Hr; destruct (ro_nonnull _ Hr) as (_ & _ & Hn3).
  - exists s. unfold net_cleanup_tx. cbn [loop_n]. rewrite Z.add_0_r in *. split; [|split_and!; try done].
    + rewrite (n_bind _ _ s s (inr ())); [done|]. unfold cleanup_step. rewrite (n_bind _ _ s s (txq s)) by done.
      rewrite (n_bind _ _ s s (used (txq s))) by (apply n_deref; lia).
      rewrite (n_bind _ _ s s (u16 L)) by (unfold gets; by rewrite Hidx). rewrite (tx_start _ _ _ Hinv), Z.eqb_refl. done.
    + rewrite <- (tx_start _ _ _ Hinv). by destruct (txq s).
  - destruct l as [|[i data] l]; [simpl in Hk; lia|].
    destruct (cleanup_step_ok s L i data l Hinv) as (p & m & E & Hinv' & Hfree & Ho & Hag).
    { rewrite Hidx. apply u16_ne. lia. }
    { specialize (Hids 0 ltac:(lia)). by rewrite Z.add_0_r in Hids. }
    set (s1 := NetState _ _ _ _ _ _) in E, Hinv'.
    destruct (IH s1 (L + 1) l fuel Hinv') as (s' & E' & I' & F' & G1 & G2 & G3 & O' & A'); [| |lia|lia|].
    { pose proof (tx_reserved _ _ _ Hinv) as Hres.
      assert (Hl : forall w a, used (txq s) <= a /\ a + Z.of_nat w <= used (txq s) + 4 + 8 * qsize (txq s) ->
                   loadn w (memory s1) a = loadn w (memory s) a).
      { intros w a Ha. apply (agree_loadn _ w _ _ a Hag). intros b Hb. apply (Hres b). right. unfold device_bytes. lia. }
      pose proof (ro_size _ Hr). cbn [txq s1 with_last_used used qsize]. split.
      - cbn. rewrite Hl by lia. rewrite Hidx. f_equal. lia.
      - intros j Hj. cbn. pose proof (slot_range (txq s) (L + 1 + j) Hr). rewrite Hl by lia.
        replace (L + 1 + j) with (L + (1 + j)) by lia. apply Hids. lia. }
    { simpl in Hk. lia. }
    replace (L + Z.of_nat (S k)) with (L + 1 + Z.of_nat k) by lia. exists s'. split; [|split; [done|split_and!; try done]].
    + unfold net_cleanup_tx in *. cbn [loop_n]. by rewrite (n_bind _ _ s s1 (inl ())).
    + rewrite F'. cbn [take fmap list_fmap fst pmm memory s1]. rewrite Hfree, reverse_cons, <- (assoc_L (++)). done.
    + intros b. rewrite O'. apply Ho.
    + intros b Hb. rewrite A'; [by apply Hag|]. intros Hb'. by apply Hb, Ho.
Qed.
End NetSend.
