(* ===== verification/NetTrace.v ===== *)
(** * Every run of the transmit queue

    Any sequence of sends, completions by the device and clean-ups, as the
    abstract queue of the packets in flight. *)

From S2P Require Import Prelude Memory CString Pmm Bytes Mmio Net NetSend.

Module NetTrace.
Import CString Pmm Net NetSend.

(** [Device m k]: the device writes its part of the queue, after which the
    memory is [m] and [k] of the packets in flight are done. *)
Inductive tx_call :=
| Send (src : Z) (data : list Z)
| Device (m : mem) (k : nat)
| Cleanup (fuel : nat).

Definition exec (c : tx_call) (s : net_state) : option net_state :=
  match c with
  | Send src data => snd <$> net_send src (Z.of_nat (length data)) s
  | Device m _ => Some (with_memory m s)
  | Cleanup fuel => snd <$> net_cleanup_tx fuel s
  end.

(** The abstract queue: the number of packets cleaned up so far, those in
    flight with their frames, and how many of these are done. *)
Record queue := Queue { base : Z; flight : list (Z * list Z); ndone : nat }.

Definition spec (c : tx_call) (free_frames : list Z) (g : queue) : queue :=
  match c with
  | Send _ data =>
      match free_frames with
      | [] => g
      | i :: _ => Queue (base g) (flight g ++ [(i, data)]) (ndone g)
      end
  | Device _ k => Queue (base g) (flight g) k
  | Cleanup _ => Queue (base g + Z.of_nat (ndone g)) (drop (ndone g) (flight g)) 0
  end.

(** What the driver's callers and the device promise. *)
Definition allowed (c : tx_call) (s : net_state) (g : queue) : Prop :=
  match c with
  | Send src data =>
      Z.of_nat (length (flight g)) < qsize (txq s) /\ data <> [] /\ 10 + Z.of_nat (length data) <= 4096 /\
      holds (memory s) src data /\ reserved s (fun b => src <= b < src + Z.of_nat (length data))
  | Device m k =>
      agree (fun b => ~ device_bytes (txq s) b) (memory s) m /\ (ndone g <= k <= length (flight g))%nat /\
      completed (with_memory m s) (base g) (Z.of_nat k)
  | Cleanup fuel => (ndone g < fuel)%nat
  end.

Fixpoint run (cs : list tx_call) (s : net_state) (g : queue) : option (net_state * queue) :=
  match cs with
  | [] => Some (s, g)
  | c :: cs => s' ← exec c s; run cs s' (spec c (frames_free s) g)
  end.

Fixpoint all_allowed (cs : list tx_call) (s : net_state) (g : queue) : Prop :=
  match cs with
  | [] => True
  | c :: cs => allowed c s g /\ forall s', exec c s = Some s' -> all_allowed cs s' (spec c (frames_free s) g)
  end.

(** The state represents the abstract queue. *)
Record represents (s : net_state) (g : queue) : Prop := {
  rp_inv : tx_inv s (base g) (flight g);
  rp_done : completed s (base g) (Z.of_nat (ndone g));
  rp_le : (ndone g <= length (flight g))%nat;
}.

Lemma completed_kept s s' L k : ring_ok (txq s) -> used (txq s') = used (txq s) -> qsize (txq s') = qsize (txq s) ->
  agree (device_bytes (txq s)) (memory s) (memory s') -> completed s L k -> completed s' L k.
Proof.
  intros Hr Eu Eq Hag [H1 H2]. pose proof (ro_size _ Hr).
  assert (Hl : forall w a, used (txq s) <= a /\ a + Z.of_nat w <= used (txq s) + 4 + 8 * qsize (txq s) ->
               loadn w (memory s') a = loadn w (memory s) a).
  { intros w a Ha. apply (agree_loadn _ w _ _ a Hag). intros b Hb. unfold device_bytes. lia. }
  split; rewrite Eu; [by rewrite Hl by lia|]. intros j Hj. rewrite Eq. pose proof (slot_range _ (L + j) Hr).
  rewrite Hl by lia. by apply H2.
Qed.

(** A change of the device's bytes. *)
Lemma device_inv s L l m : tx_inv s L l -> agree (fun b => ~ device_bytes (txq s) b) (memory s) m -> tx_inv (with_memory m s) L l.
Proof.
  intros Hinv Hag. eapply (memory_inv s L l m); [done|exact Hag|]. intros b Hb.
  pose proof (tx_ring _ _ _ Hinv) as Hr. destruct (tx_reserved _ _ _ Hinv b (or_intror Hb)) as [H1 _]. split; [done|]. split.
  - unfold driver_bytes, device_bytes in *. destruct Hr. lia.
  - intros i Hi. exact (hd_apart _ _ (flight_held _ _ _ _ Hinv Hi) b (or_intror Hb)).
Qed.

(** One call behaves as the abstract queue, and the frames that are free or in
    flight remain the same ones. *)
Lemma tx_call_ok c s g : represents s g -> allowed c s g ->
  exists s', exec c s = Some s' /\ represents s' (spec c (frames_free s) g) /\
    frames_free s' ++ (flight (spec c (frames_free s) g)).*1 ≡ₚ frames_free s ++ (flight g).*1.
Proof.
  intros [Hinv Hd Hle] Ha. pose proof (tx_ring _ _ _ Hinv) as Hr. pose proof (tx_reserved _ _ _ Hinv) as Hres.
  destruct c as [src data|m k|fuel]; cbn [exec spec allowed] in *.
  - destruct Ha as (Hroom & Hpos & Hfit & Hsrc & Hrs).
    pose proof (net_send_ok s (base g) (flight g) src data Hinv Hfit Hpos Hsrc Hrs Hroom) as H. unfold frames_free.
    destruct (free (abs (pmm s) (memory s))) as [|i rest] eqn:Ef.
    + exists s. rewrite H, Ef. done.
    + destruct H as (s' & E & Hinv' & Hf & _ & Hq & _ & Ho & Hag). exists s'. rewrite E, Hf. split; [done|]. split.
      * split; cbn [base flight ndone]; [done| |rewrite length_app; lia].
        eapply completed_kept; [exact Hr|by rewrite Hq|by rewrite Hq| |exact Hd].
        intros b Hb. destruct (Hres b (or_intror Hb)) as [H1 H2]. apply Hag. split; [done|]. split; [apply H2; rewrite Ef; left|].
        unfold driver_bytes, device_bytes in *. destruct Hr. lia.
      * cbn [flight]. rewrite fmap_app. cbn [fmap list_fmap fst]. solve_Permutation.
  - destruct Ha as (Hag & Hk & Hc). exists (with_memory m s). split; [done|]. split.
    + split; cbn [base flight ndone]; [by apply device_inv|done|lia].
    + unfold frames_free. cbn [pmm memory with_memory flight]. rewrite (abs_kept _ (memory s)); [done|apply Hinv|].
      intros b Hb. apply Hag. intros Hdb. by apply (Hres b (or_intror Hdb)).
  - destruct (net_cleanup_ok (ndone g) s (base g) (flight g) fuel Hinv Hd Hle Ha) as (s' & E & Hinv' & Hf & _ & Hq & _ & Ho & Hag).
    { pose proof (tx_room _ _ _ Hinv). pose proof (ro_size _ Hr). lia. }
    exists s'. rewrite E. split; [done|]. split.
    + split; cbn [base flight ndone]; [done| |lia]. split; [|lia]. rewrite Hq. cbn [used with_last_used qsize]. rewrite Z.add_0_r.
      pose proof (ro_size _ Hr).
      rewrite (agree_loadn _ 2 _ _ _ Hag); [by apply Hd|]. intros b Hb. apply (Hres b). right. unfold device_bytes. lia.
    + unfold frames_free. rewrite Hf. cbn [flight]. rewrite fmap_drop, <- (assoc_L (++)).
      rewrite reverse_Permutation, (Permutation_app_comm (free _)), (assoc_L (++)), take_drop. by rewrite Permutation_app_comm.
Qed.

(** C30 Every sequence of sends, completions and clean-ups that keeps to the
    protocol runs without undefined behaviour as the abstract first-in
    first-out queue of the packets in flight, each with its descriptor, its
    header and its data in a frame of its own, and no frame is lost or freed
    twice: the free frames and those in flight are always the same ones. *)
Theorem tx_trace_refines cs s g :
  represents s g -> all_allowed cs s g ->
  exists s' g', run cs s g = Some (s', g') /\ represents s' g' /\
    frames_free s' ++ (flight g').*1 ≡ₚ frames_free s ++ (flight g).*1.
Proof.
  revert s g. induction cs as [|c cs IH]; intros s g Hrep Hall; [by exists s, g|]. destruct Hall as [Ha Hall].
  destruct (tx_call_ok c s g Hrep Ha) as (s1 & E & Hrep1 & Hp1).
  destruct (IH s1 _ Hrep1 (Hall s1 E)) as (s' & g' & E' & Hrep' & Hp'). exists s', g'.
  split; [cbn [run]; by rewrite E|]. split; [done|by rewrite Hp'].
Qed.

(** C32 The driver never asks whether the ring has room: with every slot in
    flight the next packet takes over the descriptor of the oldest one, whose
    frame no descriptor refers to any more although it stays allocated. *)
Theorem net_send_overruns s L i data l src new :
  tx_inv s L ((i, data) :: l) -> Z.of_nat (length ((i, data) :: l)) = qsize (txq s) ->
  frames_free s <> [] -> new <> [] -> 10 + Z.of_nat (length new) <= 4096 ->
  holds (memory s) src new -> reserved s (fun b => src <= b < src + Z.of_nat (length new)) ->
  let slot := desc (txq s) + 16 * (L mod qsize (txq s)) in
  load64 (memory s) slot = frame_addr i /\
  exists j s', net_send src (Z.of_nat (length new)) s = Some ((), s') /\ j <> i /\
    load64 (memory s') slot = frame_addr j.
Proof.
  intros Hinv Hfull Hfree Hpos Hfit Hsrc Hres slot. set (l0 := (i, data) :: l) in *. pose proof (tx_ring _ _ _ Hinv) as Hr.
  pose proof (tx_posted _ _ _ Hinv O (i, data) eq_refl) as Hp. rewrite Z.add_0_r in Hp. split; [exact (po_addr _ _ _ Hp)|].
  pose proof (net_send_takes s L l0 src new Hinv Hfit Hpos Hsrc Hres) as H. unfold frames_free in Hfree.
  destruct (free (abs (pmm s) (memory s))) as [|j rest] eqn:Ef; [done|]. destruct H as (p & m & Ht & E).
  exists j, (sent s L l0 src new j p m). split; [exact E|]. split.
  - intros ->. apply (hd_taken _ _ (po_held _ _ _ Hp)). rewrite Ef. left.
  - pose proof (tk_addr _ _ _ _ _ Ht).
    destruct (queued_entry s L l0 new Hinv Hfit (framed src new m (frame_addr j)) (frame_addr j) ltac:(lia)) as (_ & E2 & _).
    etransitivity; [|exact E2]. unfold slot. cbn [memory sent]. do 3 f_equal. rewrite Hfull.
    pose proof (ro_size _ Hr). rewrite <- (Z.mod_add L 1) by lia. by rewrite Z.mul_1_l.
Qed.
End NetTrace.
