(* ===== verification/NetAnswer.v ===== *)
(** * What the host answers

    The reply to a received frame as a function of its bytes, and what makes
    the reply a valid one. *)

From S2P Require Import Prelude Memory CString Bytes Net NetChecksum NetFrames.

Module NetAnswer.
Import CString Net NetChecksum NetFrames.

(** ** Sums of byte lists *)

Fixpoint lsum (l : list Z) : Z :=
  match l with
  | [] => 0
  | [b] => 256 * b
  | b :: c :: l => 256 * b + c + lsum l
  end.

Lemma list_pair_ind (P : list Z -> Prop) :
  P [] -> (forall b, P [b]) -> (forall b c l, P l -> P (b :: c :: l)) -> forall l, P l.
Proof.
  intros H0 H1 H2 l. assert (H : P l /\ forall b, P (b :: l)); [|by destruct H].
  induction l as [|b l [IH1 IH2]]; [by split|]. split; [apply IH2|]. intros c. by apply H2.
Qed.

Lemma lsum_app l1 l2 : Nat.even (length l1) = true -> lsum (l1 ++ l2) = lsum l1 + lsum l2.
Proof.
  revert l1. apply (list_pair_ind (fun l1 => Nat.even (length l1) = true -> lsum (l1 ++ l2) = lsum l1 + lsum l2)).
  - done.
  - done.
  - intros b c l1 IH H. cbn [app lsum]. rewrite IH by exact H. lia.
Qed.

Lemma be_sum_holds m l : forall a, holds m a l -> be_sum m a (length l) = lsum l.
Proof.
  revert l. apply (list_pair_ind (fun l => forall a, holds m a l -> be_sum m a (length l) = lsum l)).
  - done.
  - intros b a [<- _]%holds_cons. cbn [length be_sum Nat.even lsum]. change (Z.of_nat 0) with 0. rewrite Z.add_0_r. lia.
  - intros b c l IH a H. apply holds_cons in H as [Hb [Hc Hl]%holds_cons].
    cbn [length lsum]. change (S (S (length l))) with (2 + length l)%nat. rewrite be_sum_app, be_sum_2 by done.
    change (Z.of_nat 2) with 2. replace (a + 2) with (a + 1 + 1) by lia. rewrite (IH _ Hl). unfold be16. lia.
Qed.

(** The checksum of a byte list. *)
Definition list_checksum (l : list Z) : Z := complement (lsum l).

Lemma checksum_holds m a l : holds m a l -> Z.of_nat (length l) <= 131072 ->
  calculate_checksum m a (Z.of_nat (length l)) = list_checksum l.
Proof. intros H Hl. rewrite checksum_sum by lia. rewrite Nat2Z.id. unfold list_checksum. f_equal. by apply be_sum_holds. Qed.

(** ** Parts of a message *)

Definition sub (k n : nat) (l : list Z) : list Z := take n (drop k l).
Definition byte_at (k : nat) (l : list Z) : Z := nth k l 0.
Definition be_at (k : nat) (l : list Z) : Z := 256 * byte_at k l + byte_at (S k) l.

Lemma length_sub k n l : (k + n <= length l)%nat -> length (sub k n l) = n.
Proof. intros H. unfold sub. rewrite length_take, length_drop. lia. Qed.

Lemma holds_sub m a l k n : holds m a l -> holds m (a + Z.of_nat k) (sub k n l).
Proof.
  intros H x c Hx. unfold sub in Hx. apply lookup_take_Some in Hx as [Hx _]. rewrite lookup_drop in Hx.
  rewrite <- (H _ _ Hx). f_equal. lia.
Qed.

Lemma load_byte m a l k : holds m a l -> (k < length l)%nat -> load8 m (a + Z.of_nat k) = byte_at k l.
Proof.
  intros H Hk. destruct (lookup_lt_is_Some_2 l k Hk) as [c Hc]. rewrite (H _ _ Hc). unfold byte_at.
  by rewrite (nth_lookup_Some _ _ _ _ Hc).
Qed.

Lemma load_be m a l k : holds m a l -> (S k < length l)%nat -> be16 m (a + Z.of_nat k) = be_at k l.
Proof.
  intros H Hk. unfold be16, be_at. replace (a + Z.of_nat k + 1) with (a + Z.of_nat (S k)) by lia.
  by rewrite !(load_byte m a l) by (done || lia).
Qed.

Lemma memcmp_holds m a b l1 l2 : holds m a l1 -> holds m b l2 -> length l1 = 4%nat -> length l2 = 4%nat ->
  (memcmp m a b 4 =? 0) = bool_decide (l1 = l2).
Proof.
  intros H1 H2 L1 L2. destruct (memcmp_spec m a b 4) as [[E H]|(i & Hi & _ & E & Hne)]; [lia| |].
  - rewrite E. rewrite bool_decide_true; [done|]. rewrite <- (holds_load m a l1 H1), <- (holds_load m b l2 H2), L1, L2.
    unfold load_bytes. apply list_fmap_ext. intros k x Hx. apply lookup_seqZ in Hx. apply H. lia.
  - rewrite bool_decide_false; [lia|]. intros ->. pose proof (holds_same m m a b l2 H1 H2 i). lia.
Qed.

(** ** The answers *)

Section Host.
Context (mac ip : list Z).

(** The reply to an echo request [d] is the request with its addresses
    exchanged, the type zero and a new checksum. *)
Definition echo (d : list Z) : list Z :=
  let body := sub 24 (Z.to_nat (be_at 2 d) - 24) d in
  let code := byte_at 21 d in
  take 12 d ++ ip ++ sub 12 4 d ++ [0; code] ++ be16_bytes (list_checksum ([0; code; 0; 0] ++ body)) ++ body.

(** An ICMP packet of [n] bytes for this host, and an echo request. *)
Definition is_icmp (n : Z) (d : list Z) : bool :=
  (20 <=? n) && bool_decide (sub 16 4 d = ip) && (byte_at 9 d =? 1).
Definition is_echo_request (n : Z) (d : list Z) : bool := is_icmp n d && (byte_at 20 d =? 8).

Definition is_arp_request (n : Z) (d : list Z) : bool :=
  (28 <=? n) && (be_at 6 d =? 1) && bool_decide (sub 24 4 d = ip).

(** The answer to a frame of [n] bytes in a buffer that holds [p]: what follows
    the frame in the buffer is left from earlier ones. *)
Definition answer (n : Z) (p : list Z) : option (list Z) :=
  let d := drop 14 p in
  if n <? 14 then None
  else if be_at 12 p =? 0x0806 then
    if is_arp_request (n - 14) d then Some (eth_bytes (sub 6 6 p) mac 0x0806 (arp_bytes 2 mac ip (sub 8 6 d) (sub 14 4 d))) else None
  else if be_at 12 p =? 0x0800 then
    if is_echo_request (n - 14) d then Some (eth_bytes (sub 6 6 p) mac 0x0800 (echo d)) else None
  else None.

(** What the code takes on trust. The byte behind the header of an ICMP packet,
    and what the length field of an echo request covers, must lie in the buffer,
    though not in what was received; and that length must leave room for the
    ICMP header and fit the frame of the reply, with a header of five words. *)
Definition trusted (n : Z) (p : list Z) : Prop :=
  let d := drop 14 p in
  be_at 12 p = 0x0800 -> is_icmp (n - 14) d = true ->
  (20 < length d)%nat /\
  (byte_at 20 d = 8 -> 24 <= be_at 2 d <= Z.of_nat (length d) /\ be_at 2 d <= 4072 /\ Z.land (byte_at 0 d) 15 = 5).

(** ** Validity of the echo reply *)

(** A list whose checksum field holds the checksum of the list with the field
    zeroed has the checksum zero. *)
Lemma list_checksum_stored a b l : Z.of_nat (length l) <= 65536 -> (forall c, c ∈ a :: b :: l -> 0 <= c < 256) ->
  list_checksum ([a; b] ++ be16_bytes (list_checksum ([a; b; 0; 0] ++ l)) ++ l) = 0.
Proof.
  intros Hl Hr. set (m := store_bytes ∅ 0 ([a; b; 0; 0] ++ l)).
  assert (Hm : holds m 0 ([a; b; 0; 0] ++ l)).
  { apply holds_store_bytes_at. intros c Hc. cbn [app] in Hc. rewrite !elem_of_cons in Hc.
    destruct Hc as [Hc|[Hc|[Hc|[Hc|Hc]]]]; try lia; apply Hr; rewrite !elem_of_cons; tauto. }
  set (n := Z.of_nat (length ([a; b; 0; 0] ++ l))). assert (En : n = 4 + Z.of_nat (length l)) by (unfold n; rewrite length_app; simpl; lia).
  pose proof (checksum_holds m 0 _ Hm ltac:(fold n; lia)) as Ec. fold n in Ec.
  pose proof (checksum_spec m 0 n ltac:(lia)) as (Hc & _). rewrite Ec in Hc.
  assert (H0 : load16 m (0 + 2) = 0).
  { rewrite load16_bytes. rewrite (Hm 2%nat 0 eq_refl : load8 m (0 + 2) = 0), (Hm 3%nat 0 eq_refl : load8 m (0 + 2 + 1) = 0). done. }
  pose proof (checksum_stored m 0 n 2 ltac:(lia) ltac:(lia) eq_refl H0) as H. rewrite Ec in H.
  set (cs := list_checksum ([a; b; 0; 0] ++ l)) in *. set (m' := store16 m (0 + 2) (ntohs cs)) in H.
  assert (Hm' : holds m' 0 ([a; b] ++ be16_bytes cs ++ l)).
  { change ([a; b; 0; 0] ++ l) with ([a; b] ++ [0; 0] ++ l) in Hm. rewrite !holds_app in *. destruct Hm as (H1 & _ & H2).
    unfold m'. split_and!; [|apply holds_ntohs; lia|]; apply holds_storen; simpl length; try done; lia. }
  rewrite <- (checksum_holds m' 0 _ Hm'); rewrite !length_app; cbn [length be16_bytes]; [|lia].
  replace (Z.of_nat (2 + (2 + length l))) with n by lia. exact H.
Qed.

(** The parts of the echo reply to [d]. *)
Section Echo.
Context (d : list Z) (Hip : length ip = 4%nat) (Hn : 24 <= be_at 2 d <= Z.of_nat (length d)).

Lemma echo_head : length (take 12 d ++ ip ++ sub 12 4 d) = 20%nat.
Proof using Hip Hn. rewrite !length_app, length_take, length_sub, Hip by lia. lia. Qed.

Lemma echo_split : echo d = (take 12 d ++ ip ++ sub 12 4 d) ++ drop 20 (echo d) /\
  take 20 (echo d) = take 12 d ++ ip ++ sub 12 4 d /\
  drop 20 (echo d) = [0; byte_at 21 d] ++
    be16_bytes (list_checksum ([0; byte_at 21 d; 0; 0] ++ sub 24 (Z.to_nat (be_at 2 d) - 24) d)) ++ sub 24 (Z.to_nat (be_at 2 d) - 24) d.
Proof using Hip Hn.
  set (h := take 12 d ++ ip ++ sub 12 4 d). set (t := [0; byte_at 21 d] ++ _).
  assert (E : echo d = h ++ t) by (unfold h, t, echo; by rewrite <- !(assoc_L (++))).
  assert (Hd : drop 20 (echo d) = t) by (rewrite E; by apply drop_app_length'; rewrite <- echo_head).
  split; [by rewrite Hd|]. split; [|done]. rewrite E. apply take_app_length'. symmetry. exact echo_head.
Qed.

(** The checksum is right and the header's is still the request's. *)
Lemma echo_verifies : (forall c, c ∈ d -> 0 <= c < 256) -> be_at 2 d <= 65536 -> list_checksum (drop 20 (echo d)) = 0.
Proof using Hip Hn.
  intros Hr Hmax. destruct echo_split as (_ & _ & ->). apply list_checksum_stored; [rewrite length_sub by lia; lia|].
  intros c Hc. rewrite !elem_of_cons in Hc. destruct Hc as [->|[->|Hc]]; [lia| |].
  - apply Hr. unfold byte_at. apply list_elem_of_In, nth_In. lia.
  - apply Hr. unfold sub in Hc. apply list_elem_of_lookup_1 in Hc as [k Hk]. apply lookup_take_Some in Hk as [Hk _].
    rewrite lookup_drop in Hk. by apply list_elem_of_lookup_2 in Hk.
Qed.

Lemma echo_header : sub 16 4 d = ip -> lsum (take 20 (echo d)) = lsum (take 20 d).
Proof using Hip Hn.
  intros Hdst. destruct echo_split as (_ & -> & _).
  assert (E : take 20 d = take 12 d ++ sub 12 4 d ++ ip).
  { rewrite <- Hdst. unfold sub. change 20%nat with (12 + 8)%nat. rewrite <- take_take_drop. f_equal.
    change 8%nat with (4 + 4)%nat. rewrite <- take_take_drop, drop_drop. done. }
  rewrite E, !lsum_app by (rewrite ?length_take, ?length_sub, ?Hip, ?Nat.min_l by lia; done). lia.
Qed.

Lemma echo_payload : drop 24 (echo d) = sub 24 (Z.to_nat (be_at 2 d) - 24) d.
Proof using Hip Hn.
  change 24%nat with (20 + 4)%nat at 1. rewrite <- drop_drop. destruct echo_split as (_ & _ & ->). by cbn [be16_bytes app drop].
Qed.
End Echo.
End Host.
End NetAnswer.
