(* ===== verification/NetHandle.v ===== *)
(** * The handlers answer as they should

    [ethernet_handle_packet] implements [answer]: the reply is appended to the
    transmit queue, or nothing happens. *)

From S2P Require Import Prelude Memory CString Pmm Bytes Mmio Net NetChecksum NetFrames NetSend NetAnswer.

Module NetHandle.
Import CString Pmm Net NetChecksum NetFrames NetSend NetAnswer.

Section Host.
Context (net_mac my_ip sp : Z) (mac ip : list Z).

Definition static_bytes (b : Z) : Prop := net_mac <= b < net_mac + 6 \/ my_ip <= b < my_ip + 4.
Definition stack_bytes (b : Z) : Prop := sp - 10 <= b < sp + 4096.
Definition packet_bytes (a : Z) (p : list Z) (b : Z) : Prop := a <= b < a + Z.of_nat (length p).

(** Bytes apart from the allocator, the transmit queue and its packets. *)
Definition private (s : net_state) (l : list (Z * list Z)) (K : Z -> Prop) : Prop :=
  forall b, K b -> ~ owns (pmm s) b /\ ~ queue_bytes (txq s) b /\ forall i, i ∈ frames_free s ++ l.*1 -> ~ in_frame i b.

Record host_inv (s : net_state) (L : Z) (l : list (Z * list Z)) : Prop := {
  ho_tx : tx_inv s L l;
  ho_mac : holds (memory s) net_mac mac;
  ho_ip : holds (memory s) my_ip ip;
  ho_lmac : length mac = 6%nat;
  ho_lip : length ip = 4%nat;
  ho_static : private s l static_bytes;
  ho_stack : private s l stack_bytes;
  ho_apart : apart (sp - 10) 4106 net_mac 6 /\ apart (sp - 10) 4106 my_ip 4;
}.

(** The bytes from [a] on: a received frame and what follows it in its buffer. *)
Record packet_at (s : net_state) (l : list (Z * list Z)) (a : Z) (p : list Z) : Prop := {
  pk_holds : holds (memory s) a p;
  pk_private : private s l (packet_bytes a p);
  pk_static : apart a (Z.of_nat (length p)) net_mac 6 /\ apart a (Z.of_nat (length p)) my_ip 4;
  pk_stack : apart (sp - 10) 4106 a (Z.of_nat (length p));
}.

(** What is appended to the transmit queue. *)
Definition appended (r : option (list Z)) (s : net_state) : list (Z * list Z) :=
  match r, frames_free s with
  | Some data, i :: _ => [(i, data)]
  | _, _ => []
  end.

(** The outcome of handling a frame whose answer is [r]; it may write the bytes
    of [K]. *)
Record handled (K : Z -> Prop) (s : net_state) (L : Z) (l : list (Z * list Z)) (r : option (list Z)) (s' : net_state) : Prop := {
  ha_tx : tx_inv s' L (l ++ appended r s);
  ha_free : frames_free s' = drop (length (appended r s)) (frames_free s);
  ha_rxq : rxq s' = rxq s;
  ha_txq : txq s' = txq s;
  ha_owns : forall b, owns (pmm s') b <-> owns (pmm s) b;
  ha_agree : agree (fun b => ~ owns (pmm s) b /\ (forall i, i ∈ (appended r s).*1 -> ~ in_frame i b) /\
                              ~ driver_bytes (txq s) b /\ ~ K b) (memory s) (memory s');
}.

Lemma handled_silent K s L l : tx_inv s L l -> handled K s L l None s.
Proof. intros H. split; try done. cbn. by rewrite app_nil_r. Qed.

Lemma private_or s l K K' : private s l K -> private s l K' -> private s l (fun b => K b \/ K' b).
Proof. intros H H' b [Hb|Hb]; [by apply H|by apply H']. Qed.

(** Writing into private bytes and sending what is in the local buffer. *)
Lemma send_handled K s L l m data :
  tx_inv s L l -> private s l K -> agree (fun b => ~ K b) (memory s) m ->
  holds m sp data -> data <> [] -> Z.of_nat (length data) <= 4086 ->
  (forall b, sp <= b < sp + Z.of_nat (length data) -> K b) -> Z.of_nat (length l) < qsize (txq s) ->
  exists s', net_send sp (Z.of_nat (length data)) (with_memory m s) = Some ((), s') /\ handled K s L l (Some data) s'.
Proof.
  intros Hinv HK Hag Hd Hpos Hlen Hbuf Hroom. set (s1 := with_memory m s).
  destruct (memory_inv s L l m K Hinv Hag) as [Hinv1 Hfree].
  { intros b Hb. destruct (HK b Hb) as (H1 & H2 & H3). split; [done|]. split; [intros ?; apply H2; by left|].
    intros i Hi. apply H3. apply elem_of_app. by right. }
  assert (Hres : reserved s1 (fun b => sp <= b < sp + Z.of_nat (length data))).
  { intros b Hb. destruct (HK b (Hbuf b Hb)) as (H1 & H2 & H3). split; [done|]. intros i Hi. apply H3.
    apply elem_of_app. left. unfold frames_free. by rewrite <- Hfree. }
  pose proof (net_send_ok s1 L l sp data Hinv1 ltac:(lia) Hpos Hd Hres Hroom) as H.
  change (free (abs (pmm s1) (memory s1))) with (free (abs (pmm s) m)) in H. rewrite Hfree in H.
  change (free (abs (pmm s) (memory s))) with (frames_free s) in H.
  destruct (frames_free s) as [|i rest] eqn:Ef.
  - exists s1. split; [exact H|]. split; unfold appended; rewrite ?Ef; try done.
    + cbn. by rewrite app_nil_r.
    + unfold frames_free in *. cbn [pmm memory s1 with_memory]. by rewrite Hfree, Ef.
    + intros b (_ & _ & _ & Hb). by apply Hag.
  - destruct H as (s' & E & Hinv' & Hf' & Hrx & Htx & _ & Ho & Hag'). exists s'. split; [exact E|].
    split; unfold appended; rewrite ?Ef; try done.
    intros b (H1 & H2 & H3 & H4). rewrite Hag'; [by apply Hag|]. split; [done|]. split; [|done].
    apply H2. cbn. by left.
Qed.

(** ** ARP *)

Context (s : net_state) (L : Z) (l : list (Z * list Z)) (a : Z) (p : list Z).
Context (Hhost : host_inv s L l) (Hpk : packet_at s l a p) (Hroom : Z.of_nat (length l) < qsize (txq s)).

(** The length of the frame. *)
Context (n : Z) (Hn0 : 0 <= n <= Z.of_nat (length p)).

Abbreviation scratch := (fun b => stack_bytes b \/ packet_bytes a p b).
Abbreviation d := (drop 14 p).

(** The parts of the frame in memory. *)
Lemma packet_part (k w : nat) : holds (memory s) (a + Z.of_nat k) (sub k w p).
Proof. apply holds_sub, Hpk. Qed.

Lemma payload_holds : holds (memory s) (a + 14) d.
Proof.
  pose proof (holds_sub (memory s) a p 14 (length p) (pk_holds _ _ _ _ Hpk)) as H. unfold sub in H.
  rewrite take_ge in H by (rewrite length_drop; lia). exact H.
Qed.

Lemma scratch_private : private s l scratch.
Proof. apply private_or; [apply Hhost|apply Hpk]. Qed.

Lemma arp_ok : 14 <= n -> be_at 12 p = 0x0806 ->
  exists s', arp_handle net_mac my_ip sp (a + 14) (n - 14) (a + 6) s = Some ((), s') /\
    handled scratch s L l (answer mac ip n p) s'.
Proof.
  intros H14 Hty. pose proof payload_holds as Hd. unfold answer. destruct (_ <? 14) eqn:E; [lia|]. clear E. rewrite Hty. cbn [Z.eqb Pos.eqb].
  unfold arp_handle, is_arp_request, sizeof_arp_packet.
  assert (Hld : Z.of_nat (length d) = Z.of_nat (length p) - 14) by (rewrite length_drop; lia).
  destruct (n - 14 <? 28) eqn:E28.
  { destruct (28 <=? _) eqn:E; [lia|]. cbn [andb]. exists s. split; [done|]. apply handled_silent, Hhost. }
  destruct (28 <=? _) eqn:E; [|lia]. clear E. cbn [andb]. rewrite (n_bind _ _ s s (memory s)) by done.
  rewrite ntohs_load. rewrite (load_be _ (a + 14) d 6 Hd ltac:(lia) : be16 (memory s) (a + 14 + 6) = be_at 6 d).
  pose proof (holds_sub _ _ _ 24 4 Hd : holds (memory s) (a + 14 + 24) (sub 24 4 d)) as Ht.
  rewrite (memcmp_holds _ _ _ _ _ Ht (ho_ip _ _ _ Hhost)) by (try apply Hhost; apply length_sub; lia).
  destruct (_ && _); [|exists s; split; [done|]; apply handled_silent, Hhost].
  apply Z.ltb_ge in E28. set (r := eth_bytes _ _ _ _).
  destruct (ho_apart _ _ _ Hhost) as [A1 A2]. pose proof (pk_stack _ _ _ _ Hpk) as A3. unfold apart in A1, A2, A3.
  assert (L1 : length (sub 6 6 p) = 6%nat) by (apply length_sub; lia).
  assert (L2 : length (sub 8 6 d) = 6%nat) by (apply length_sub; rewrite length_drop; lia).
  assert (L3 : length (sub 14 4 d) = 4%nat) by (apply length_sub; rewrite length_drop; lia).
  assert (Hlen : Z.of_nat (length r) = 42).
  { unfold r, eth_bytes, arp_bytes. rewrite !length_app, L1, L2, L3, (ho_lmac _ _ _ Hhost), (ho_lip _ _ _ Hhost). done. }
  assert (Hr : holds (arp_reply net_mac my_ip sp (a + 14) (a + 6) (memory s)) sp r).
  { apply arp_reply_holds; try apply Hhost; try done; unfold apart; try lia.
    - exact (packet_part 6 6).
    - exact (holds_sub _ _ _ 8 6 Hd).
    - exact (holds_sub _ _ _ 14 4 Hd). }
  destruct (send_handled scratch s L l (arp_reply net_mac my_ip sp (a + 14) (a + 6) (memory s)) r) as (s' & E & H);
    [apply Hhost|apply scratch_private| |exact Hr|intros Hn; by rewrite Hn in Hlen|lia| |done|].
  - intros b Hb. refine ((_ : agree (outside sp (sp + 42)) _ _) b _); [|unfold stack_bytes, outside in *; lia].
    eapply arp_reply_agree; try apply Hhost; unfold apart; lia.
  - intros b Hb. left. unfold stack_bytes. lia.
  - exists s'. rewrite Hlen in E. split; [exact E|exact H].
Qed.

(** ** ICMP *)

(** The parts of an echo request. *)
Lemma echo_parts : 24 <= be_at 2 d <= Z.of_nat (length d) -> byte_at 20 d = 8 -> sub 16 4 d = ip ->
  holds (memory s) (a + 14) (take 12 d ++ sub 12 4 d ++ ip ++ [8; byte_at 21 d] ++ sub 22 2 d ++ sub 24 (Z.to_nat (be_at 2 d) - 24) d).
Proof.
  intros Hn H20 Hdst. pose proof payload_holds as Hd. rewrite <- Hdst. change [8; byte_at 21 d] with ([8] ++ [byte_at 21 d]).
  rewrite <- (assoc_L (++)), !holds_app. rewrite length_take, !length_sub by lia. rewrite Nat.min_l by lia. cbn [length].
  pose proof (fun k w => holds_sub _ _ _ k w Hd) as H.
  assert (Hb : forall k c, (k < length d)%nat -> byte_at k d = c -> holds (memory s) (a + 14 + Z.of_nat k) [c]).
  { intros k c Hk <-. apply holds_cons. split; [by apply load_byte|apply holds_nil]. }
  split_and!.
  - eapply holds_at; [exact (H 0%nat 12%nat)|lia].
  - eapply holds_at; [exact (H 12%nat 4%nat)|lia].
  - eapply holds_at; [exact (H 16%nat 4%nat)|lia].
  - eapply holds_at; [apply (Hb 20%nat); [lia|done]|lia].
  - eapply holds_at; [apply (Hb 21%nat); [lia|done]|lia].
  - eapply holds_at; [exact (H 22%nat 2%nat)|lia].
  - eapply holds_at; [exact (H 24%nat _)|lia].
Qed.

Lemma icmp_test : 20 <= Z.of_nat (length d) ->
  (memcmp (memory s) (a + 14 + 16) my_ip 4 =? 0) = bool_decide (sub 16 4 d = ip).
Proof.
  intros H. apply memcmp_holds; [exact (holds_sub _ _ _ 16 4 payload_holds)|apply Hhost|apply length_sub; lia|apply Hhost].
Qed.

(** The code's tests are those of [is_icmp] and [is_echo_request]. *)
Lemma ipv4_silent : 14 <= n -> trusted ip n p -> be_at 12 p = 0x0800 -> is_echo_request ip (n - 14) d = false ->
  ipv4_handle net_mac my_ip sp (a + 14) (n - 14) (a + 6) s = Some ((), s).
Proof.
  intros H14 Htr Hty Hno. unfold ipv4_handle, sizeof_ipv4_packet. destruct (_ <? 20) eqn:E20; [done|]. apply Z.ltb_ge in E20.
  assert (Hld : Z.of_nat (length d) = Z.of_nat (length p) - 14) by (rewrite length_drop; lia).
  rewrite (n_bind _ _ s s (memory s)) by done. rewrite icmp_test by lia. unfold is_echo_request, is_icmp in *.
  specialize (Htr Hty). unfold is_icmp in Htr. rewrite (proj2 (Z.leb_le 20 _) E20) in *. cbn [andb] in *.
  destruct (bool_decide _); [|done]. cbn [negb andb] in *.
  rewrite (load_byte _ (a + 14) d 9 payload_holds ltac:(lia) : load8 (memory s) (a + 14 + 9) = byte_at 9 d).
  destruct (byte_at 9 d =? 1); [|done]. cbn [andb] in *. destruct (Htr eq_refl) as [Hl _].
  rewrite (load_byte _ (a + 14) d 20 payload_holds ltac:(lia) : load8 (memory s) (a + 14 + 20) = byte_at 20 d). by rewrite Hno.
Qed.

Lemma ipv4_echo : 14 <= n -> trusted ip n p -> be_at 12 p = 0x0800 -> is_echo_request ip (n - 14) d = true ->
  exists s', ipv4_handle net_mac my_ip sp (a + 14) (n - 14) (a + 6) s = Some ((), s') /\
    handled scratch s L l (Some (eth_bytes (sub 6 6 p) mac 0x0800 (echo ip d))) s'.
Proof.
  intros H14 Htr Hty Hecho. unfold is_echo_request in Hecho. apply andb_prop in Hecho as [Hic H20]. apply Z.eqb_eq in H20.
  destruct (Htr Hty Hic) as [_ Hn]. specialize (Hn H20) as (Hn & Hmax & Hihl). clear Htr.
  unfold is_icmp in Hic. apply andb_prop in Hic as [[Hl Hdst]%andb_prop H9]. apply bool_decide_eq_true in Hdst.
  pose proof payload_holds as Hd. pose proof (echo_parts Hn H20 Hdst) as Hip. rewrite length_drop in Hn.
  set (rest := sub 24 _ d) in Hip. set (k := be_at 2 d) in *.
  assert (Lr : 24 + Z.of_nat (length rest) = k) by (unfold rest; rewrite length_sub by (rewrite length_drop; lia); lia).
  destruct (ho_apart _ _ _ Hhost) as [A1 A2]. pose proof (pk_stack _ _ _ _ Hpk) as A3. destruct (pk_static _ _ _ _ Hpk) as [A4 A5].
  unfold apart in A1, A2, A3, A4, A5.
  assert (Ln : be16 (memory s) (a + 14 + 2) = 24 + Z.of_nat (length rest)).
  { rewrite Lr. apply (load_be _ _ _ 2 Hd). rewrite length_drop. lia. }
  assert (Li : Z.land (load8 (memory s) (a + 14)) 15 = 5).
  { rewrite <- Hihl. f_equal. pose proof (load_byte _ _ _ 0 Hd) as H. rewrite Z.add_0_r in H. apply H. rewrite length_drop. lia. }
  assert (Lm : length (sub 6 6 p) = 6%nat) by (apply length_sub; lia).
  destruct (echo_reply_ok net_mac my_ip sp (a + 14) (a + 6) (memory s) mac ip (sub 6 6 p) (ho_mac _ _ _ Hhost) (ho_lmac _ _ _ Hhost)
    (ho_ip _ _ _ Hhost) (ho_lip _ _ _ Hhost) (packet_part 6 6) Lm (take 12 d) (sub 12 4 d) (sub 22 2 d) rest (byte_at 21 d))
    as (Hr & Hlen & Hclear & Hag); try done; try (unfold apart; lia);
    try (rewrite ?length_take, ?length_sub, ?length_drop by (rewrite ?length_drop; lia); lia).
  rewrite Lr in Hlen, Hag. set (m1 := echo_reply _ _ _ _ _ _) in *.
  assert (Er : reply (a + 14) (memory s) ip (take 12 d) (sub 12 4 d) rest (byte_at 21 d) = echo ip d).
  { unfold reply, echo. fold k rest. do 4 f_equal. do 2 f_equal. unfold new_sum. rewrite <- (checksum_holds _ _ _ Hclear).
    - f_equal. rewrite length_app. cbn [length]. lia.
    - rewrite length_app. cbn [length]. lia. }
  rewrite Er in Hr. set (r := eth_bytes _ _ _ _) in *.
  assert (Lec : Z.of_nat (length r) = 14 + k).
  { unfold r, eth_bytes. rewrite <- Er. unfold reply. rewrite !length_app, Lm, (ho_lmac _ _ _ Hhost), (ho_lip _ _ _ Hhost), length_take, length_sub, length_drop by (rewrite ?length_drop; lia).
    cbn [length be16_bytes]. lia. }
  destruct (send_handled scratch s L l m1 r) as (s' & E & H);
    [apply Hhost|apply scratch_private| |exact Hr|intros Hr0; rewrite Hr0 in Lec; simpl in Lec; lia|lia| |done|].
  - intros b Hb. apply Hag. unfold stack_bytes, packet_bytes, outside in *. lia.
  - intros b Hb. left. unfold stack_bytes. lia.
  - exists s'. split; [|exact H]. rewrite Lec in E. unfold ipv4_handle, sizeof_ipv4_packet.
    destruct (_ <? 20) eqn:E20; [lia|].
    rewrite (n_bind _ _ s s (memory s)) by done. rewrite icmp_test by (rewrite length_drop; lia). rewrite bool_decide_true by done. cbn [negb].
    rewrite (load_byte _ (a + 14) d 9 Hd ltac:(rewrite length_drop; lia) : load8 (memory s) (a + 14 + 9) = byte_at 9 d), H9.
    rewrite (load_byte _ (a + 14) d 20 Hd ltac:(rewrite length_drop; lia) : load8 (memory s) (a + 14 + 20) = byte_at 20 d), H20. cbn [andb Z.eqb Pos.eqb].
    rewrite (n_bind _ _ s (with_memory m1 s) ()) by done.
    rewrite (n_bind _ _ _ (with_memory m1 s) k) by (unfold gets; cbn [memory with_memory]; by rewrite Hlen). exact E.
Qed.

(** A received frame is handled as [answer] says. *)
Lemma ethernet_ok : trusted ip n p -> n < 2 ^ 32 ->
  exists s', ethernet_handle_packet net_mac my_ip sp a n s = Some ((), s') /\
    handled scratch s L l (answer mac ip n p) s'.
Proof.
  intros Htr Hlen. unfold ethernet_handle_packet, sizeof_ethernet_frame. destruct (n <? 14) eqn:E14.
  { exists s. split; [done|]. unfold answer. rewrite E14. apply handled_silent, Hhost. }
  rewrite (n_bind _ _ s s (memory s)) by done. apply Z.ltb_ge in E14.
  rewrite ntohs_load, (load_be _ a p 12 (pk_holds _ _ _ _ Hpk) ltac:(lia) : be16 (memory s) (a + 12) = be_at 12 p).
  rewrite (u32_id (n - 14)) by lia.
  destruct (be_at 12 p =? 0x0806) eqn:Ea; [apply arp_ok; lia|].
  unfold answer. destruct (n <? 14) eqn:E; [lia|]. rewrite Ea. destruct (be_at 12 p =? 0x0800) eqn:Ei.
  - destruct (is_echo_request ip (n - 14) d) eqn:Ee; [apply ipv4_echo; (lia || done)|].
    exists s. split; [|apply handled_silent, Hhost]. apply ipv4_silent; (lia || done).
  - exists s. split; [done|apply handled_silent, Hhost].
Qed.

(** What an answer is: it goes from this host to the sender with the sender's
    ethertype; an ICMP reply returns the payload it was sent, under a checksum
    that verifies, in a packet whose header sums to what the request's did. *)
Definition proper (r : list Z) : Prop :=
  take 6 r = sub 6 6 p /\ sub 6 6 r = mac /\ be_at 12 r = be_at 12 p /\
  (be_at 12 p = 0x0806 -> drop 14 r = arp_bytes 2 mac ip (sub 8 6 d) (sub 14 4 d)) /\
  (be_at 12 p = 0x0800 -> list_checksum (drop 34 r) = 0 /\ lsum (take 20 (drop 14 r)) = lsum (take 20 d) /\
     drop 38 r = sub 24 (Z.to_nat (be_at 2 d) - 24) d).

Lemma packet_byte c : c ∈ d -> 0 <= c < 256.
Proof.
  intros Hc. apply list_elem_of_lookup_1 in Hc as [k Hk]. rewrite <- (payload_holds k c Hk). apply load8_range.
Qed.

(** The fields of a frame. *)
Lemma frame_fields dst src type (body : list Z) : length dst = 6%nat -> length src = 6%nat -> 0 <= type < 2 ^ 16 ->
  let r := eth_bytes dst src type body in
  take 6 r = dst /\ sub 6 6 r = src /\ be_at 12 r = type /\ drop 14 r = body.
Proof.
  intros Hd Hs Ht r. destruct dst as [|d0 [|d1 [|d2 [|d3 [|d4 [|d5 [|]]]]]]]; try done.
  destruct src as [|s0 [|s1 [|s2 [|s3 [|s4 [|s5 [|]]]]]]]; try done.
  split_and!; try done. unfold r, eth_bytes, be_at, byte_at, be16_bytes. cbn. zdiv.
Qed.

Lemma answer_proper r : trusted ip n p -> answer mac ip n p = Some r -> proper r.
Proof.
  intros Htr Ha. unfold answer in Ha. destruct (_ <? 14) eqn:E14; [done|]. apply Z.ltb_ge in E14.
  assert (L6 : length (sub 6 6 p) = 6%nat) by (apply length_sub; lia).
  pose proof (fun t (body : list Z) Ht => frame_fields (sub 6 6 p) mac t body L6 (ho_lmac _ _ _ Hhost) Ht) as Hf. unfold proper.
  destruct (be_at 12 p =? 0x0806) eqn:Ea; [apply Z.eqb_eq in Ea|destruct (be_at 12 p =? 0x0800) eqn:Ei; [apply Z.eqb_eq in Ei|done]].
  - destruct (is_arp_request ip _ d); [|done]. injection Ha as <-. destruct (Hf 0x0806 (arp_bytes 2 mac ip (sub 8 6 d) (sub 14 4 d)) ltac:(lia)) as (H1 & H2 & H3 & H4).
    rewrite Ea. split_and!; try done.
  - destruct (is_echo_request ip _ d) eqn:Ee; [|done]. injection Ha as <-. unfold is_echo_request in Ee. apply andb_prop in Ee as [Hic H20].
    apply Z.eqb_eq in H20. destruct (Htr Ei Hic) as [_ Hn]. specialize (Hn H20) as (Hn & Hmax & _).
    unfold is_icmp in Hic. apply andb_prop in Hic as [[_ Hdst]%andb_prop _]. apply bool_decide_eq_true in Hdst.
    destruct (Hf 0x0800 (echo ip d) ltac:(lia)) as (H1 & H2 & H3 & H4). rewrite Ei. pose proof (ho_lip _ _ _ Hhost) as Hlip.
    split_and!; try done; intros _. rewrite <- (drop_drop _ 20 14), <- (drop_drop _ 24 14), H4.
    split; [apply echo_verifies; try done; [exact packet_byte|lia]|]. split; [by apply echo_header|by apply echo_payload].
Qed.

(** C28 A received frame of [n] bytes, in a buffer that holds [p] from there on,
    with room for one packet in the transmit ring: it is handled without
    undefined behaviour; an ARP request for this host and an echo request to it
    are answered by one new packet in flight, as long as a frame is free, and
    for anything else nothing is sent; the answer is addressed to the sender, an
    echo reply verifies and returns the bytes the request's length field covers,
    received or not. The one condition on the frame is [trusted]: an echo
    request to this host has a header of five words and a length field between
    24 and 4072 that stays inside the buffer. The code checks neither; a longer
    reply overruns its frame ([NetSend.net_send_overflows]). *)
Theorem ethernet_answers : trusted ip n p -> n < 2 ^ 32 ->
  exists s', ethernet_handle_packet net_mac my_ip sp a n s = Some ((), s') /\
    handled scratch s L l (answer mac ip n p) s' /\
    forall r, answer mac ip n p = Some r -> proper r.
Proof.
  intros Htr Hlen. destruct (ethernet_ok Htr Hlen) as (s' & E & H). exists s'. split; [done|]. split; [done|].
  intros r. by apply answer_proper.
Qed.
End Host.
End NetHandle.
