(* ===== verification/NetPoll.v ===== *)
(** * Reception

    The receive queue: the packets the device has reported, each in a buffer of
    its own. [net_poll_rx] answers them in order and hands every buffer back. *)

From S2P Require Import Prelude Memory CString Pmm Bytes Mmio Net NetChecksum NetFrames NetSend NetAnswer NetHandle.

Module NetPoll.
Import CString Pmm Net NetChecksum NetFrames NetSend NetAnswer NetHandle.

(** A packet: the number of its buffer, the buffer's address, the length of what
    was received, and what the buffer holds from there on, which may go on with
    the end of an earlier packet. *)
Record rx_packet := RxPacket { rx_id : Z; rx_buf : Z; rx_len : Z; rx_data : list Z }.

Definition buffer_bytes (pk : rx_packet) (b : Z) : Prop := rx_buf pk <= b < rx_buf pk + 4096.

(** The answer that is due. *)
Definition due (mac ip : list Z) (pk : rx_packet) : option (list Z) := answer mac ip (rx_len pk) (rx_data pk).

(** What is posted for transmission when these answers are due and these frames
    are free. *)
Fixpoint answers (rs : list (option (list Z))) (frames : list Z) : list (Z * list Z) :=
  match rs with
  | [] => []
  | r :: rs =>
      match r, frames with
      | Some data, i :: frames => (i, data) :: answers rs frames
      | _, _ => answers rs frames
      end
  end.

Section Host.
Context (net_mac my_ip sp : Z) (mac ip : list Z).

Abbreviation host_inv := (host_inv net_mac my_ip sp mac ip).
Abbreviation stack_bytes := (stack_bytes sp).

(** The device has reported the packet in slot [h] of the used ring. *)
Record received (s : net_state) (l : list (Z * list Z)) (h : Z) (pk : rx_packet) : Prop := {
  rc_id : 0 <= rx_id pk < qsize (rxq s);
  rc_used : load32 (memory s) (used (rxq s) + 4 + 8 * h) = rx_id pk;
  rc_len : load32 (memory s) (used (rxq s) + 4 + 8 * h + 4) = 10 + rx_len pk;
  rc_addr : load64 (memory s) (desc (rxq s) + 16 * rx_id pk) = rx_buf pk;
  rc_data : holds (memory s) (rx_buf pk + 10) (rx_data pk);
  rc_size : 0 <= rx_len pk <= Z.of_nat (length (rx_data pk));
  rc_fit : 10 + Z.of_nat (length (rx_data pk)) <= 4096;
  rc_private : private s l (buffer_bytes pk);
  rc_static : apart (rx_buf pk) 4096 net_mac 6 /\ apart (rx_buf pk) 4096 my_ip 4;
  rc_stack : apart (sp - 10) 4106 (rx_buf pk) 4096;
  rc_queue : forall b, queue_bytes (rxq s) b -> ~ buffer_bytes pk b;
  rc_trusted : trusted ip (rx_len pk) (rx_data pk);
}.

(** [R] counts the packets handled, [A] the buffers handed to the device. *)
Record rx_inv (s : net_state) (l : list (Z * list Z)) (R A : Z) (pend : list rx_packet) : Prop := {
  rx_ring : ring_ok (rxq s);
  rx_private : private s l (queue_bytes (rxq s));
  rx_static : forall b, queue_bytes (rxq s) b -> ~ static_bytes net_mac my_ip b /\ ~ stack_bytes b;
  rx_last : last_used_idx (rxq s) = u16 R;
  rx_avail : load16 (memory s) (avail (rxq s) + 2) = u16 A;
  rx_used_idx : load16 (memory s) (used (rxq s) + 2) = u16 (R + Z.of_nat (length pend));
  rx_bound : Z.of_nat (length pend) <= qsize (rxq s);
  rx_pending : forall (k : nat) pk, pend !! k = Some pk -> received s l ((R + Z.of_nat k) mod qsize (rxq s)) pk;
  rx_distinct : forall (j k : nat) pj pk, pend !! j = Some pj -> pend !! k = Some pk -> j <> k ->
                  forall b, buffer_bytes pj b -> ~ buffer_bytes pk b;
}.

(** What every step leaves as it is: the receive descriptors, and what is
    private. *)
Record stays (s : net_state) (l : list (Z * list Z)) (s' : net_state) (l' : list (Z * list Z)) : Prop := {
  sy_table : agree (fun b => desc (rxq s) <= b < desc (rxq s) + 16 * qsize (rxq s)) (memory s) (memory s');
  sy_private : forall K, private s l K -> private s' l' K;
  sy_queue : exists v, rxq s' = with_last_used v (rxq s);
}.

Lemma stays_refl s l : stays s l s l.
Proof. split; [done|done|]. exists (last_used_idx (rxq s)). by destruct (rxq s). Qed.

Lemma stays_regs v s l : stays s l (with_regs v s) l.
Proof. split; [done|done|]. exact (sy_queue _ _ _ _ (stays_refl s l)). Qed.

Lemma stays_trans s1 l1 s2 l2 s3 l3 : stays s1 l1 s2 l2 -> stays s2 l2 s3 l3 -> stays s1 l1 s3 l3.
Proof.
  intros [H1 H2 [v Hv]] [G1 G2 [w Hw]]. rewrite Hv in G1, Hw. cbn [desc qsize with_last_used] in G1. split.
  - by etransitivity.
  - intros K HK. by apply G2, H2.
  - exists w. by rewrite Hw.
Qed.

(** ** What a handler leaves alone *)

Lemma appended_frames r s i : i ∈ (appended r s).*1 -> i ∈ frames_free s.
Proof. unfold appended. destruct r as [data|], (frames_free s) as [|j rest]; cbn; intros H; try by apply elem_of_nil in H. apply list_elem_of_singleton in H as ->. left. Qed.

Lemma handled_kept K K' s L l r s' : private s l K -> (forall b, K b -> ~ K' b) -> handled K' s L l r s' ->
  agree K (memory s) (memory s').
Proof.
  intros HK Hd H b Hb. destruct (HK b Hb) as (H1 & H2 & H3). apply (ha_agree _ _ _ _ _ _ H). split; [done|]. split.
  - intros i Hi. apply H3. apply elem_of_app. left. by apply appended_frames in Hi.
  - split; [intros ?; apply H2; by left|by apply Hd].
Qed.

Lemma handled_private K K' s L l r s' : private s l K -> handled K' s L l r s' -> private s' (l ++ appended r s) K.
Proof.
  intros HK H b Hb. destruct (HK b Hb) as (H1 & H2 & H3). rewrite (ha_owns _ _ _ _ _ _ H), (ha_txq _ _ _ _ _ _ H).
  split; [done|]. split; [done|]. intros i Hi. apply H3. rewrite (ha_free _ _ _ _ _ _ H), fmap_app, !elem_of_app in Hi.
  rewrite elem_of_app. destruct Hi as [Hi|[Hi|Hi]].
  - left. rewrite <- (take_drop (length (appended r s)) (frames_free s)). apply elem_of_app. by right.
  - by right.
  - left. by apply appended_frames in Hi.
Qed.

Lemma received_kept s s' l l' h pk :
  received s l h pk -> 0 <= h < qsize (rxq s) ->
  desc (rxq s') = desc (rxq s) -> used (rxq s') = used (rxq s) -> qsize (rxq s') = qsize (rxq s) -> avail (rxq s') = avail (rxq s) ->
  agree (fun b => desc (rxq s) <= b < desc (rxq s) + 16 * qsize (rxq s) \/ device_bytes (rxq s) b \/ buffer_bytes pk b) (memory s) (memory s') ->
  private s' l' (buffer_bytes pk) -> received s' l' h pk.
Proof.
  intros [C1 C2 C3 C4 C5 C6 C6' C7 C8 C9 C10 C11] Hh Ed Eu Eq Ea Hag Hp.
  assert (Hl : forall w a, (desc (rxq s) <= a /\ a + Z.of_nat w <= desc (rxq s) + 16 * qsize (rxq s)) \/
     (used (rxq s) <= a /\ a + Z.of_nat w <= used (rxq s) + 4 + 8 * qsize (rxq s)) -> loadn w (memory s') a = loadn w (memory s) a).
  { intros w a Ha. apply (agree_loadn _ w _ _ a Hag). intros b Hb. unfold device_bytes. lia. }
  split; rewrite ?Ed, ?Eu, ?Eq; rewrite ?Hl by lia; try done.
  - eapply holds_agree; [exact Hag| |done]. intros b Hb. unfold buffer_bytes. lia.
  - intros b Hb. apply C10. unfold queue_bytes, driver_bytes, device_bytes in *. by rewrite Ed, Eu, Eq, Ea in Hb.
Qed.

Lemma tx_inv_rxq s L l v : tx_inv s L l -> tx_inv (with_rxq v s) L l.
Proof.
  intros [I1 I2 I3 I4 I5 I6 I7 I8 I9]. split; try done. intros k p Hk. destruct (I8 k p Hk) as [P1 P2 P3 P4 P5 [J1 J2 J3 J4 J5] P7 P8].
  by split.
Qed.

(** ** One round *)

(** The driver's part of the receive queue after buffer [id] has been handed
    back. *)
Definition recycled (m : mem) (q : virtq) (A id : Z) : mem :=
  store16 (store16 m (avail q + 4 + 2 * (A mod qsize q)) id) (avail q + 2) (u16 (A + 1)).

Lemma rx_step_run s l R A pk pend b s1 :
  rx_inv s l R A (pk :: pend) ->
  (if 0 <? rx_len pk then ethernet_handle_packet net_mac my_ip sp (rx_buf pk + 10) (rx_len pk) else mret ()) s = Some ((), s1) ->
  rxq s1 = rxq s -> load16 (memory s1) (avail (rxq s) + 2) = u16 A ->
  rx_step net_mac my_ip sp b s =
    Some (inl true, with_rxq (with_last_used (u16 (R + 1)) (rxq s))
      (with_memory (recycled (memset (memory s1) (rx_buf pk) 0 10) (rxq s) A (rx_id pk)) s1)).
Proof.
  intros Hrx Hh Hq Hav. pose proof (rx_ring _ _ _ _ _ Hrx) as Hr. destruct (ro_nonnull _ Hr) as (N1 & N2 & N3). pose proof (ro_size _ Hr).
  pose proof (rx_pending _ _ _ _ _ Hrx O pk eq_refl) as Hp. rewrite Z.add_0_r in Hp.
  unfold rx_step. rewrite (n_bind _ _ s s (rxq s)) by done. rewrite (n_bind _ _ s s (used (rxq s))) by (apply n_deref; lia).
  rewrite (n_bind _ _ s s (u16 (R + Z.of_nat (length (pk :: pend))))) by (unfold gets; by rewrite (rx_used_idx _ _ _ _ _ Hrx)).
  rewrite (rx_last _ _ _ _ _ Hrx). pose proof (rx_bound _ _ _ _ _ Hrx).
  assert (E : (u16 R =? u16 (R + Z.of_nat (length (pk :: pend)))) = false).
  { pose proof (u16_ne R (Z.of_nat (length (pk :: pend)))). cbn [length] in *. lia. }
  rewrite E. rewrite (n_bind _ _ s s (R mod qsize (rxq s))) by (rewrite n_rem by lia; by rewrite mod_u16).
  rewrite (n_bind _ _ s s (rx_id pk)) by (unfold gets; by rewrite (rc_used _ _ _ _ Hp)).
  rewrite (n_bind _ _ s s (10 + rx_len pk)) by (unfold gets; by rewrite (rc_len _ _ _ _ Hp)).
  rewrite (n_bind _ _ s s (desc (rxq s))) by (apply n_deref; lia).
  rewrite (n_bind _ _ s s (rx_buf pk)) by (unfold gets; by rewrite (rc_addr _ _ _ _ Hp)). cbv zeta. unfold sizeof_virtio_net_hdr.
  pose proof (rc_fit _ _ _ _ Hp). pose proof (rc_size _ _ _ _ Hp). replace (10 + rx_len pk - 10) with (rx_len pk) by lia.
  rewrite u32_id by lia. rewrite (n_bind _ _ s s1 () Hh).
  set (m2 := memset (memory s1) (rx_buf pk) 0 10). rewrite (n_bind _ _ s1 (with_memory m2 s1) ()) by done.
  rewrite (n_bind _ _ _ (with_memory m2 s1) (avail (rxq s))) by (apply n_deref; lia).
  assert (Hav2 : load16 m2 (avail (rxq s) + 2) = u16 A).
  { rewrite <- Hav. apply loadn_ext. intros x Hx. unfold m2. apply memset_agree; [lia|].
    assert (Hq2 : queue_bytes (rxq s) x) by (left; right; lia).
    pose proof (rc_queue _ _ _ _ Hp x Hq2) as Hb. unfold buffer_bytes, outside in *. lia. }
  rewrite (n_bind _ _ _ (with_memory m2 s1) (u16 A)) by (unfold gets; cbn [memory with_memory]; by rewrite Hav2).
  rewrite (n_bind _ _ _ (with_memory m2 s1) (A mod qsize (rxq s))) by (rewrite n_rem by lia; by rewrite mod_u16).
  pose proof (rc_id _ _ _ _ Hp). rewrite (u16_id (rx_id pk)) by lia.
  rewrite (n_bind _ _ _ (with_memory (store16 m2 (avail (rxq s) + 4 + 2 * (A mod qsize (rxq s))) (rx_id pk)) (with_memory m2 s1)) ()) by done.
  set (s3 := with_memory (recycled m2 (rxq s) A (rx_id pk)) s1).
  rewrite (n_bind _ _ _ s3 ()).
  2:{ unfold change, modify, s3, recycled, with_memory. cbn. do 4 f_equal. unfold u16. by rewrite Z.add_mod_idemp_l by lia. }
  rewrite (n_bind _ _ s3 (with_rxq (with_last_used (u16 (R + 1)) (rxq s)) s3) ()); [done|].
  unfold modify. do 2 f_equal. f_equal. unfold s3. cbn [rxq with_memory]. rewrite Hq, (rx_last _ _ _ _ _ Hrx). f_equal.
  unfold u16. by rewrite Z.add_mod_idemp_l by lia.
Qed.

Section Step.
Context (s : net_state) (L : Z) (l : list (Z * list Z)) (R A : Z) (pk : rx_packet) (pend : list rx_packet).
Context (Hhost : host_inv s L l) (Hrx : rx_inv s l R A (pk :: pend)) (Hroom : Z.of_nat (length l) < qsize (txq s)).

Abbreviation q := (rxq s).
Abbreviation r := (due mac ip pk).
Abbreviation l1 := (l ++ appended (due mac ip pk) s).
Abbreviation scratch := (fun b => stack_bytes b \/ packet_bytes (rx_buf pk + 10) (rx_data pk) b).

Lemma first_received : received s l (R mod qsize q) pk.
Proof. pose proof (rx_pending _ _ _ _ _ Hrx O pk eq_refl) as H. by rewrite Z.add_0_r in H. Qed.

(** The packet is answered. *)
Lemma packet_handled : exists s1,
  (if 0 <? rx_len pk then ethernet_handle_packet net_mac my_ip sp (rx_buf pk + 10) (rx_len pk) else mret ()) s = Some ((), s1) /\
  handled scratch s L l r s1.
Proof.
  destruct first_received as [C1 C2 C3 C4 C5 C6 C6' C7 [C8 C8'] C9 C10 C11]. unfold apart in *. destruct (0 <? _) eqn:E.
  - apply ethernet_ok; [done| |done|done|done|lia]. split; [done| |unfold apart; lia|unfold apart; lia].
    intros b Hb. apply C7. unfold packet_bytes, buffer_bytes in *. lia.
  - exists s. split; [done|]. unfold due, answer. destruct (rx_len pk <? 14) eqn:E'; [|lia]. apply handled_silent, Hhost.
Qed.

(** The bytes a round may write, apart from the transmit side. *)
Definition written (b : Z) : Prop :=
  stack_bytes b \/ buffer_bytes pk b \/ avail q + 2 <= b < avail q + 4 \/
  avail q + 4 + 2 * (A mod qsize q) <= b < avail q + 4 + 2 * (A mod qsize q) + 2.

Definition after (s1 : net_state) : net_state :=
  with_rxq (with_last_used (u16 (R + 1)) q)
    (with_memory (recycled (memset (memory s1) (rx_buf pk) 0 10) q A (rx_id pk)) s1).

Section After.
Context (s1 : net_state) (Hh : handled scratch s L l r s1).

Definition tail_written (b : Z) : Prop :=
  rx_buf pk <= b < rx_buf pk + 10 \/ avail q + 2 <= b < avail q + 4 \/
  avail q + 4 + 2 * (A mod qsize q) <= b < avail q + 4 + 2 * (A mod qsize q) + 2.

Lemma slot_A : 0 <= A mod qsize q < qsize q.
Proof. apply slot_range, Hrx. Qed.

Lemma tail_agree : agree (fun b => ~ tail_written b) (memory s1) (memory (after s1)).
Proof.
  intros b Hb. unfold tail_written in Hb. cbn [memory after with_rxq with_memory]. unfold recycled.
  rewrite !load8_storen_ne by lia. apply memset_agree; [lia|unfold outside; lia].
Qed.

Lemma after_kept K : private s l K -> (forall b, K b -> ~ written b) -> agree K (memory s) (memory (after s1)).
Proof.
  intros HK Hw b Hb. specialize (Hw b Hb) as Hn. unfold written, buffer_bytes in Hn. rewrite tail_agree.
  - apply (handled_kept K scratch s L l r s1 HK); [|done|done]. intros x Hx [Hs|Hp].
    + apply (Hw x Hx). by left.
    + apply (Hw x Hx). right. left. pose proof (rc_fit _ _ _ _ first_received). unfold packet_bytes, buffer_bytes in *. lia.
  - unfold tail_written. lia.
Qed.

Lemma queue_private : private s l (queue_bytes q).
Proof. apply Hrx. Qed.

Lemma tail_private : private s1 l1 tail_written.
Proof.
  pose proof (ro_size _ (rx_ring _ _ _ _ _ Hrx)). pose proof slot_A.
  intros b Hb. assert (H' : buffer_bytes pk b \/ queue_bytes q b).
  { unfold tail_written in Hb. unfold buffer_bytes, queue_bytes, driver_bytes. lia. }
  destruct H' as [H'|H']; [exact (handled_private _ _ _ _ _ _ _ (rc_private _ _ _ _ first_received) Hh b H')|].
  exact (handled_private _ _ _ _ _ _ _ queue_private Hh b H').
Qed.

Lemma after_tx : tx_inv (after s1) L l1 /\ frames_free (after s1) = frames_free s1.
Proof.
  destruct (memory_inv s1 L l1 (memory (after s1)) tail_written (ha_tx _ _ _ _ _ _ Hh) tail_agree) as [H1 H2].
  { intros b Hb. destruct (tail_private b Hb) as (H1 & H2 & H3). split; [done|]. split; [intros ?; apply H2; by left|].
    intros i Hi. apply H3. apply elem_of_app. by right. }
  split; [|exact H2]. apply (tx_inv_rxq _ L l1 (with_last_used (u16 (R + 1)) q)) in H1. exact H1.
Qed.

Lemma after_private K : private s l K -> private (after s1) l1 K.
Proof.
  intros HK b Hb. pose proof (handled_private _ _ _ _ _ _ _ HK Hh b Hb) as H. by rewrite (proj2 after_tx).
Qed.

Lemma after_host : host_inv (after s1) L l1.
Proof.
  destruct Hhost as [H1 H2 H3 H4 H5 H6 H7 H8]. pose proof (rx_static _ _ _ _ _ Hrx) as Hst.
  destruct (rc_static _ _ _ _ first_received) as [S1 S2].
  assert (Hag : agree (static_bytes net_mac my_ip) (memory s) (memory (after s1))).
  { apply after_kept; [exact H6|]. pose proof slot_A. pose proof (ro_size _ (rx_ring _ _ _ _ _ Hrx)). intros b Hb Hw.
    assert (~ queue_bytes q b) by (intros Hqb; by destruct (Hst b Hqb)).
    destruct H8 as [A1 A2]. unfold written, static_bytes, NetHandle.stack_bytes, buffer_bytes, apart, queue_bytes, driver_bytes in *. lia. }
  split; try done.
  - apply after_tx.
  - eapply holds_agree; [exact Hag| |done]. unfold static_bytes. lia.
  - eapply holds_agree; [exact Hag| |done]. unfold static_bytes. lia.
  - by apply after_private.
  - by apply after_private.
Qed.

(** The bytes the device writes and the descriptors stay as they are. *)
Lemma after_queue : agree (fun b => desc q <= b < desc q + 16 * qsize q \/ device_bytes q b \/
    avail q + 4 <= b < avail q + 4 + 2 * qsize q /\ ~ avail q + 4 + 2 * (A mod qsize q) <= b < avail q + 4 + 2 * (A mod qsize q) + 2)
  (memory s) (memory (after s1)).
Proof.
  pose proof slot_A. pose proof (rx_static _ _ _ _ _ Hrx) as Hst. pose proof (rc_queue _ _ _ _ first_received) as Hbuf.
  apply after_kept.
  - intros b Hb. apply queue_private. destruct Hb as [?|[?|?]]; [left; left; lia|by right|left; right; lia].
  - intros b Hb Hw. assert (Hqb : queue_bytes q b) by (destruct Hb as [?|[?|?]]; [left; left; lia|by right|left; right; lia]).
    destruct (Hst b Hqb) as [_ H2]. pose proof (Hbuf b Hqb). destruct (rx_ring _ _ _ _ _ Hrx).
    destruct Hw as [Hw|[Hw|Hw]]; [done|done|]. unfold device_bytes in *. lia.
Qed.

Lemma after_rx : rx_inv (after s1) l1 (R + 1) (A + 1) pend.
Proof.
  pose proof slot_A. pose proof (rx_ring _ _ _ _ _ Hrx) as Hr. pose proof (ro_size _ Hr).
  assert (Hl : forall w a, (desc q <= a /\ a + Z.of_nat w <= desc q + 16 * qsize q) \/ (used q <= a /\ a + Z.of_nat w <= used q + 4 + 8 * qsize q) ->
    loadn w (memory (after s1)) a = loadn w (memory s) a).
  { intros w a Ha. apply (agree_loadn _ w _ _ a after_queue). intros b Hb. unfold device_bytes. lia. }
  split.
  - by destruct Hr.
  - exact (after_private _ queue_private).
  - exact (rx_static _ _ _ _ _ Hrx).
  - done.
  - cbn [rxq memory after with_rxq with_memory avail with_last_used]. unfold recycled. apply loadn_storen_eq. unfold u16.
    apply Z.mod_pos_bound. lia.
  - cbn [rxq after with_rxq used with_last_used]. rewrite Hl by lia. rewrite (rx_used_idx _ _ _ _ _ Hrx). f_equal. cbn [length]. lia.
  - pose proof (rx_bound _ _ _ _ _ Hrx) as Hb. cbn [length rxq after with_rxq qsize with_last_used] in *. lia.
  - intros k p Hk. pose proof (rx_pending _ _ _ _ _ Hrx (S k) p Hk) as Hp.
    replace (R + 1 + Z.of_nat k) with (R + Z.of_nat (S k)) by lia. cbn [qsize rxq after with_rxq with_last_used].
    apply (received_kept s (after s1) l); try done.
    + by apply slot_range.
    + intros b [Hb|[Hb|Hb]]; [apply after_queue; by left|apply after_queue; right; by left|].
      assert (HK : private s l (buffer_bytes p)) by apply Hp. apply (after_kept _ HK); [|done].
      intros x Hx Hw. pose proof (rc_stack _ _ _ _ Hp). pose proof (rc_queue _ _ _ _ Hp x).
      pose proof (rx_distinct _ _ _ _ _ Hrx O (S k) pk p eq_refl Hk ltac:(lia) x).
      unfold written, NetHandle.stack_bytes, apart, queue_bytes, driver_bytes in *.
      destruct Hw as [?|[?|[?|?]]]; [unfold buffer_bytes in *; lia|tauto| |];
        (assert (~ buffer_bytes p x) by (apply H2; left; right; lia)); done.
    + apply after_private, Hp.
  - intros j k pj pk' Hj Hk Hne. apply (rx_distinct _ _ _ _ _ Hrx (S j) (S k)); [done|done|lia].
Qed.

Lemma after_slot : load16 (memory (after s1)) (avail q + 4 + 2 * (A mod qsize q)) = rx_id pk.
Proof.
  pose proof slot_A. pose proof (rx_ring _ _ _ _ _ Hrx) as Hr. pose proof (ro_size _ Hr). pose proof (rc_id _ _ _ _ first_received).
  cbn [memory after with_rxq with_memory]. unfold recycled. rewrite loadn_storen_ne by lia. apply loadn_storen_eq. lia.
Qed.

Lemma after_avail : load16 (memory s1) (avail q + 2) = u16 A.
Proof.
  rewrite <- (rx_avail _ _ _ _ _ Hrx). pose proof (ro_size _ (rx_ring _ _ _ _ _ Hrx)).
  apply (agree_loadn (queue_bytes q)); [|intros b Hb; left; right; lia].
  refine (handled_kept _ _ _ _ _ _ _ queue_private _ Hh). intros b Hb [Hs|Hp].
  - by apply (rx_static _ _ _ _ _ Hrx b Hb).
  - apply (rc_queue _ _ _ _ first_received b Hb). pose proof (rc_fit _ _ _ _ first_received). unfold packet_bytes, buffer_bytes in *. lia.
Qed.

Lemma after_stays : stays s l (after s1) l1.
Proof.
  split; [|exact after_private|by exists (u16 (R + 1))]. intros b Hb. apply after_queue. by left.
Qed.

(** What the device has reported of the transmit queue. *)
Lemma after_device : agree (device_bytes (txq s)) (memory s) (memory (after s1)).
Proof.
  pose proof (ho_tx _ _ _ _ _ _ _ _ Hhost) as Htx. destruct (tx_ring _ _ _ Htx).
  assert (Hpriv : forall K, private s l K -> forall b, K b -> ~ device_bytes (txq s) b).
  { intros K HK b Hb Hd. destruct (HK b Hb) as (_ & H & _). apply H. by right. }
  intros b Hb. destruct (tx_reserved _ _ _ Htx b (or_intror Hb)) as [H1 H2]. rewrite tail_agree.
  - apply (ha_agree _ _ _ _ _ _ Hh). split; [done|]. split; [intros i Hi; apply H2; by apply appended_frames in Hi|].
    split; [unfold driver_bytes, device_bytes in *; lia|].
    intros Hs. refine (Hpriv scratch _ b Hs Hb). apply private_or; [apply Hhost|].
    intros x Hx. apply (rc_private _ _ _ _ first_received). pose proof (rc_fit _ _ _ _ first_received).
    unfold packet_bytes, buffer_bytes in *. lia.
  - intros Ht. apply (tail_private b) in Ht as (_ & H & _). apply H. rewrite (ha_txq _ _ _ _ _ _ Hh). by right.
Qed.
End After.

(** One round answers the oldest packet and hands its buffer back. *)
Lemma rx_step_ok b : exists s',
  rx_step net_mac my_ip sp b s = Some (inl true, s') /\ host_inv s' L l1 /\ rx_inv s' l1 (R + 1) (A + 1) pend /\
  frames_free s' = drop (length (appended r s)) (frames_free s) /\ txq s' = txq s /\
  rxq s' = with_last_used (u16 (R + 1)) q /\
  agree (device_bytes (txq s)) (memory s) (memory s') /\ stays s l s' l1 /\
  load16 (memory s') (avail q + 4 + 2 * (A mod qsize q)) = rx_id pk /\
  forall h, 0 <= h < qsize q -> h <> A mod qsize q -> load16 (memory s') (avail q + 4 + 2 * h) = load16 (memory s) (avail q + 4 + 2 * h).
Proof.
  destruct packet_handled as (s1 & E & Hh). exists (after s1). split.
  { apply (rx_step_run s l R A pk pend b s1 Hrx E (ha_rxq _ _ _ _ _ _ Hh)). by apply after_avail. }
  split; [by apply after_host|]. split; [by apply after_rx|]. split; [rewrite (proj2 (after_tx s1 Hh)); apply Hh|].
  split; [apply Hh|]. split; [done|]. split; [by apply after_device|]. split; [by apply after_stays|]. split; [by apply after_slot|].
  intros h Hh0 Hne. apply (agree_loadn _ 2 _ _ _ (after_queue s1 Hh)). intros x Hx. right. right.
  pose proof slot_A. lia.
Qed.
End Step.

(** A register access touches nothing else. *)
Lemma host_inv_regs s L l v : host_inv s L l -> host_inv (with_regs v s) L l.
Proof.
  intros [[I1 I2 I3 I4 I5 I6 I7 I8 I9] H2 H3 H4 H5 H6 H7 H8]. split; try done. split; try done. intros k p Hk.
  destruct (I8 k p Hk) as [P1 P2 P3 P4 P5 [J1 J2 J3 J4 J5] P7 P8]. by split.
Qed.

Lemma rx_inv_regs s l R A pend v : rx_inv s l R A pend -> rx_inv (with_regs v s) l R A pend.
Proof.
  intros [H1 H2 H3 H4 H5 H6 H7 H8 H9]. split; try done. intros k pk Hk.
  destruct (H8 k pk Hk) as [C1 C2 C3 C4 C5 C6 C7 C8 C9 C10 C11]. by split.
Qed.

(** A round with nothing reported ends the loop. *)
Lemma rx_step_idle s l R A b : rx_inv s l R A [] -> rx_step net_mac my_ip sp b s = Some (inr b, s).
Proof.
  intros Hrx. destruct (ro_nonnull _ (rx_ring _ _ _ _ _ Hrx)) as (_ & _ & N3). unfold rx_step.
  rewrite (n_bind _ _ s s (rxq s)) by done. rewrite (n_bind _ _ s s (used (rxq s))) by (apply n_deref; lia).
  rewrite (n_bind _ _ s s (u16 R)) by (unfold gets; rewrite (rx_used_idx _ _ _ _ _ Hrx); by rewrite Z.add_0_r).
  by rewrite (rx_last _ _ _ _ _ Hrx), Z.eqb_refl.
Qed.

(** The buffers of [pend] are in the slots from [A] on of the available ring. *)
Definition handed_back (s : net_state) (A : Z) (pend : list rx_packet) : Prop :=
  forall (j : nat) pk, pend !! j = Some pk ->
    load16 (memory s) (avail (rxq s) + 4 + 2 * ((A + Z.of_nat j) mod qsize (rxq s))) = rx_id pk.

Lemma answers_app r rs s : answers (r :: rs) (frames_free s) = appended r s ++ answers rs (drop (length (appended r s)) (frames_free s)).
Proof. unfold appended. by destruct r as [data|], (frames_free s) as [|i rest]. Qed.

Lemma appended_perm s (l : list (Z * list Z)) r :
  drop (length (appended r s)) (frames_free s) ++ l.*1 ++ (appended r s).*1 ≡ₚ frames_free s ++ l.*1.
Proof. unfold appended. destruct r as [data|], (frames_free s) as [|i rest]; cbn; rewrite ?app_nil_r; try done. solve_Permutation. Qed.

Lemma poll_loop : forall pend s L l R A fuel b,
  host_inv s L l -> rx_inv s l R A pend -> Z.of_nat (length l) + Z.of_nat (length pend) <= qsize (txq s) ->
  (length pend < fuel)%nat ->
  exists s', loop_n fuel (rx_step net_mac my_ip sp) b s = Some (b || negb (bool_decide (pend = [])), s') /\
    let l' := l ++ answers (due mac ip <$> pend) (frames_free s) in
    host_inv s' L l' /\ rx_inv s' l' (R + Z.of_nat (length pend)) (A + Z.of_nat (length pend)) [] /\
    txq s' = txq s /\ rxq s' = with_last_used (u16 (R + Z.of_nat (length pend))) (rxq s) /\ agree (device_bytes (txq s)) (memory s) (memory s') /\
    frames_free s' ++ l'.*1 ≡ₚ frames_free s ++ l.*1 /\ stays s l s' l' /\ handed_back s' A pend /\
    forall h, 0 <= h < qsize (rxq s) -> (forall j, 0 <= j < Z.of_nat (length pend) -> h <> (A + j) mod qsize (rxq s)) ->
      load16 (memory s') (avail (rxq s) + 4 + 2 * h) = load16 (memory s) (avail (rxq s) + 4 + 2 * h).
Proof.
  induction pend as [|pk pend IH]; intros s L l R A [|fuel] b Hhost Hrx Hroom Hf; try (simpl in Hf; lia); cbn [loop_n].
  - exists s. rewrite (n_bind _ _ s s (inr b)) by (by apply (rx_step_idle s l R A)).
    cbn [length fmap list_fmap answers Z.of_nat]. rewrite bool_decide_true, orb_false_r, !Z.add_0_r, app_nil_r by done.
    split; [done|]. split_and!; try done; [|apply stays_refl]. rewrite <- (rx_last _ _ _ _ _ Hrx). by destruct (rxq s).
  - destruct (rx_step_ok s L l R A pk pend Hhost Hrx ltac:(cbn [length] in Hroom; lia) b) as (s1 & E & H1 & X1 & F1 & T1 & Q1 & D1 & Y1 & S1 & O1).
    destruct (IH s1 L _ (R + 1) (A + 1) fuel true H1 X1) as (s' & E' & H2 & X2 & T2 & Q2 & D2 & P2 & Y2 & B2 & O2).
    { rewrite T1, length_app. cbn [length] in Hroom.
      assert (length (appended (due mac ip pk) s) <= 1)%nat by (unfold appended; destruct (due _ _ _), (frames_free s); simpl; lia). lia. }
    { simpl in Hf. lia. }
    rewrite F1 in H2, X2, Y2. rewrite <- (assoc_L (++)) in H2, X2, Y2.
    pose proof (rx_ring _ _ _ _ _ Hrx) as Hr. rewrite Q1 in Q2, O2. cbn [avail qsize with_last_used] in O2.
    exists s'. rewrite (n_bind _ _ s s1 (inl true)) by done. rewrite E'.
    replace (R + Z.of_nat (length (pk :: pend))) with (R + 1 + Z.of_nat (length pend)) by (cbn [length]; lia).
    replace (A + Z.of_nat (length (pk :: pend))) with (A + 1 + Z.of_nat (length pend)) by (cbn [length]; lia).
    cbn [fmap list_fmap]. rewrite answers_app. split; [by rewrite orb_true_r|].
    split; [done|]. split; [done|]. split; [by rewrite T2, T1|]. split; [by rewrite Q2|].
    split; [rewrite T1 in D2; by etransitivity|].
    split; [rewrite F1, <- (assoc_L (++)) in P2; rewrite P2, fmap_app; by apply appended_perm|].
    split; [by eapply stays_trans|].
    pose proof (rx_bound _ _ _ _ _ Hrx) as Hb. cbn [length] in Hb. split.
    + intros [|j] pj Hj; rewrite Q2; cbn [avail qsize with_last_used].
      * injection Hj as <-. rewrite Z.add_0_r, O2; [done|by apply slot_range|].
        intros j Hj. apply slot_ne; [done|lia].
      * specialize (B2 j pj Hj). rewrite Q2 in B2. cbn [avail qsize with_last_used] in B2.
        by replace (A + Z.of_nat (S j)) with (A + 1 + Z.of_nat j) by lia.
    + intros h Hh Hne. rewrite O2, O1; [done|done| |done|].
      * specialize (Hne 0 ltac:(cbn [length]; lia)). by rewrite Z.add_0_r in Hne.
      * intros j Hj. replace (A + 1 + j) with (A + (1 + j)) by lia. apply Hne. cbn [length]. lia.
Qed.


Lemma net_poll_ok pend s L l R A fuel :
  host_inv s L l -> rx_inv s l R A pend -> Z.of_nat (length l) + Z.of_nat (length pend) <= qsize (txq s) ->
  (length pend < fuel)%nat ->
  exists s', net_poll_rx net_mac my_ip sp fuel s = Some ((), s') /\
    let l' := l ++ answers (due mac ip <$> pend) (frames_free s) in
    host_inv s' L l' /\ rx_inv s' l' (R + Z.of_nat (length pend)) (A + Z.of_nat (length pend)) [] /\
    handed_back s' A pend /\ (pend <> [] -> exists before, regs s' = before ++ [Wr (VIRTIO_NET_BASE + VIRTIO_REG_QUEUE_NOTIFY) 0]) /\
    txq s' = txq s /\ agree (device_bytes (txq s)) (memory s) (memory s') /\ stays s l s' l' /\
    frames_free s' ++ l'.*1 ≡ₚ frames_free s ++ l.*1.
Proof.
  intros Hhost Hrx Hroom Hf.
  destruct (poll_loop pend s L l R A fuel false Hhost Hrx Hroom Hf) as (s1 & E & H1 & X1 & T1 & _ & D1 & P1 & Y1 & B1 & _).
  unfold net_poll_rx. rewrite (n_bind _ _ s s1 _ E). cbn [orb]. destruct (bool_decide (pend = [])) eqn:D; cbn [negb].
  - exists s1. split; [done|]. cbn zeta. split_and!; try done. by apply bool_decide_eq_true in D.
  - exists (with_regs (write32 (regs s1) (VIRTIO_NET_BASE + VIRTIO_REG_QUEUE_NOTIFY) 0) s1). split; [done|]. cbn zeta.
    split; [by apply host_inv_regs|]. split; [by apply rx_inv_regs|]. split; [done|]. split; [intros _; by exists (regs s1)|].
    split; [done|]. split; [done|]. split; [by destruct Y1|done].
Qed.

(** C33 Reception: [net_poll_rx] terminates, answers every packet the device has
    reported, in the order of arrival, with the answer that is [due], as long as
    frames last, hands exactly the buffers of those packets back to the device,
    keeps the invariants of both queues, and notifies the device when there was
    anything. It relies on a transmit ring with room for an answer to each of
    them, which the code does not check ([NetTrace.net_send_overruns]), and the
    packets are [trusted]: an echo request to this host has a header of five
    words and a length field between 24 and 4072 that stays inside the buffer. *)
Theorem net_poll_rx_answers pend s L l R A fuel :
  host_inv s L l -> rx_inv s l R A pend -> Z.of_nat (length l) + Z.of_nat (length pend) <= qsize (txq s) ->
  (length pend < fuel)%nat ->
  exists s', net_poll_rx net_mac my_ip sp fuel s = Some ((), s') /\
    let l' := l ++ answers (due mac ip <$> pend) (frames_free s) in
    host_inv s' L l' /\ rx_inv s' l' (R + Z.of_nat (length pend)) (A + Z.of_nat (length pend)) [] /\
    handed_back s' A pend /\ (pend <> [] -> exists before, regs s' = before ++ [Wr (VIRTIO_NET_BASE + VIRTIO_REG_QUEUE_NOTIFY) 0]).
Proof.
  intros Hhost Hrx Hroom Hf. destruct (net_poll_ok pend s L l R A fuel Hhost Hrx Hroom Hf) as (s1 & E & H1 & X1 & B1 & N1 & _).
  by exists s1.
Qed.
End Host.
End NetPoll.
