(* ===== verification/NetIrq.v ===== *)
(** * The interrupt handler

    One interrupt: the packets received are answered and the packets sent are
    cleaned up, in one run over both queues. *)

From S2P Require Import Prelude Memory CString Pmm Bytes Mmio Net NetChecksum NetFrames NetSend NetTrace NetAnswer NetHandle NetPoll.

Module NetIrq.
Import Pmm Net NetFrames NetSend NetAnswer NetHandle NetPoll.

Section Host.
Context (net_mac my_ip sp : Z) (mac ip : list Z) (device : bus -> Z -> Z).

Abbreviation host_inv := (host_inv net_mac my_ip sp mac ip).
Abbreviation rx_inv := (rx_inv net_mac my_ip sp ip).

(** ** The clean-up, seen from the receive side *)

Section Cleanup.
Context (s s' : net_state) (L : Z) (l : list (Z * list Z)) (k : nat).
Context (Hhost : host_inv s L l) (Hk : (k <= length l)%nat).
Context (Htx : tx_inv s' (L + Z.of_nat k) (drop k l)).
Context (Hfree : frames_free s' = reverse (take k (fst <$> l)) ++ frames_free s).
Context (Hrxq : rxq s' = rxq s) (Htxq : txq s' = with_last_used (u16 (L + Z.of_nat k)) (txq s)).
Context (Hown : forall b, owns (pmm s') b <-> owns (pmm s) b).
Context (Hag : agree (fun b => ~ owns (pmm s) b) (memory s) (memory s')).

Lemma cleanup_perm : frames_free s' ++ (drop k l).*1 ≡ₚ frames_free s ++ l.*1.
Proof.
  rewrite Hfree, fmap_drop, reverse_Permutation, (Permutation_app_comm (take _ _)), <- (assoc_L (++)). by rewrite take_drop.
Qed.

Lemma cleanup_private K : private s l K -> private s' (drop k l) K.
Proof.
  intros HK b Hb. destruct (HK b Hb) as (H1 & H2 & H3). rewrite Hown, Htxq. split; [done|]. split; [done|].
  intros i Hi. apply H3. by rewrite <- cleanup_perm.
Qed.

Lemma cleanup_agree K : private s l K -> agree K (memory s) (memory s').
Proof. intros HK b Hb. apply Hag. by destruct (HK b Hb). Qed.

Lemma cleanup_host : host_inv s' (L + Z.of_nat k) (drop k l).
Proof.
  destruct Hhost as [H1 H2 H3 H4 H5 H6 H7 H8]. split; try done.
  - eapply holds_agree; [exact (cleanup_agree _ H6)| |done]. unfold static_bytes. lia.
  - eapply holds_agree; [exact (cleanup_agree _ H6)| |done]. unfold static_bytes. lia.
  - by apply cleanup_private.
  - by apply cleanup_private.
Qed.

Lemma cleanup_rx R A : rx_inv s l R A [] -> rx_inv s' (drop k l) R A [].
Proof.
  intros Hrx. destruct Hrx as [H1 H2 H3 H4 H5 H6 H7 H8 H9]. pose proof (ro_size _ H1).
  pose proof (cleanup_agree _ H2) as Hq.
  split; rewrite ?Hrxq; try done.
  - by apply cleanup_private.
  - rewrite (agree_loadn _ 2 _ _ _ Hq); [done|]. intros b Hb. left. right. lia.
  - rewrite (agree_loadn _ 2 _ _ _ Hq); [done|]. intros b Hb. right. unfold device_bytes. lia.
Qed.

Lemma cleanup_handed R A l0 pend : rx_inv s l R A [] -> handed_back s l0 pend -> handed_back s' l0 pend.
Proof.
  intros Hrx H j pk Hj. rewrite Hrxq. rewrite <- (H j pk Hj). pose proof (rx_ring _ _ _ _ _ _ _ _ _ Hrx) as Hr.
  pose proof (slot_range _ (l0 + Z.of_nat j) Hr). apply (agree_loadn _ 2 _ _ _ (cleanup_agree _ (rx_private _ _ _ _ _ _ _ _ _ Hrx))).
  intros b Hb. left. right. lia.
Qed.

Lemma cleanup_stays R A : rx_inv s l R A [] -> stays s l s' (drop k l).
Proof.
  intros Hrx. split; [|exact cleanup_private|exists (last_used_idx (rxq s)); rewrite Hrxq; by destruct (rxq s)].
  intros b Hb. apply (cleanup_agree _ (rx_private _ _ _ _ _ _ _ _ _ Hrx)). left. by left.
Qed.
End Cleanup.

(** One interrupt serves both queues: every packet the device reported is
    answered in order, its buffer handed back, the frames of the packets the
    device had sent are freed, both invariants hold afterwards, and the frames
    that are free or in flight are the same ones as before. Without the queue
    bit in the status only the acknowledgement is written. *)
Lemma irq_ok pend s L l R A k fuel :
  host_inv s L l -> rx_inv s l R A pend -> completed s L (Z.of_nat k) -> (k <= length l)%nat ->
  Z.of_nat (length l) + Z.of_nat (length pend) <= qsize (txq s) -> (length pend < fuel)%nat -> (k < fuel)%nat ->
  let status := u32 (device (regs s) (VIRTIO_NET_BASE + VIRTIO_REG_INTERRUPT_STATUS)) in
  let acked := regs s ++ [Rd (VIRTIO_NET_BASE + VIRTIO_REG_INTERRUPT_STATUS); Wr (VIRTIO_NET_BASE + VIRTIO_REG_INTERRUPT_ACK) status] in
  if Z.testbit status 0 then
    exists s', virtio_net_handle_irq net_mac my_ip sp device fuel s = Some ((), s') /\
      let l' := drop k (l ++ answers (due mac ip <$> pend) (frames_free s)) in
      host_inv s' (L + Z.of_nat k) l' /\ rx_inv s' l' (R + Z.of_nat (length pend)) (A + Z.of_nat (length pend)) [] /\ handed_back s' A pend /\
      frames_free s' ++ l'.*1 ≡ₚ frames_free s ++ l.*1 /\ stays s l s' l' /\ completed s' (L + Z.of_nat k) 0 /\
      txq s' = with_last_used (u16 (L + Z.of_nat k)) (txq s)
  else virtio_net_handle_irq net_mac my_ip sp device fuel s = Some ((), with_regs acked s).
Proof.
  intros Hhost Hrx Hdone Hk Hroom Hf1 Hf2 status acked.
  unfold virtio_net_handle_irq. set (s1 := with_regs (regs s ++ [Rd (VIRTIO_NET_BASE + VIRTIO_REG_INTERRUPT_STATUS)]) s).
  rewrite (n_bind _ _ s s1 status) by done.
  rewrite (n_bind _ _ s1 (with_regs acked s) ()).
  2:{ unfold reg_write, modify, s1, write32, with_regs, acked. cbn. rewrite <- (assoc_L (++)).
      by rewrite (u32_id status) by (unfold status; apply u32_range). }
  change (Z.land status 1) with (Z.land status (Z.shiftl 1 0)). rewrite nonzero_land_shiftl by done.
  destruct (Z.testbit status 0); [|done].
  set (s2 := with_regs acked s). assert (Hhost2 : host_inv s2 L l) by by apply host_inv_regs.
  assert (Hrx2 : rx_inv s2 l R A pend) by by apply rx_inv_regs.
  destruct (net_poll_ok net_mac my_ip sp mac ip pend s2 L l R A fuel Hhost2 Hrx2 Hroom Hf1)
    as (s3 & E & H3 & X3 & B3 & _ & T3 & D3 & Y3 & P3).
  rewrite (n_bind _ _ s2 s3 () E). change (frames_free s2) with (frames_free s) in *.
  set (l3 := l ++ _) in *. pose proof (ho_tx _ _ _ _ _ _ _ _ H3) as Htx3.
  assert (Hlen : (k <= length l3)%nat) by (unfold l3; rewrite length_app; lia).
  assert (Hd3 : completed s3 L (Z.of_nat k)).
  { apply (NetTrace.completed_kept s2 s3); [by apply Hhost2|by rewrite T3|by rewrite T3|done|done]. }
  destruct (net_cleanup_ok k s3 L l3 fuel Htx3 Hd3 Hlen Hf2) as (s4 & E4 & I4 & F4 & Q4 & T4 & _ & O4 & A4).
  { pose proof (ro_size _ (tx_ring _ _ _ (ho_tx _ _ _ _ _ _ _ _ Hhost))). lia. }
  exists s4. split; [exact E4|]. cbn zeta.
  split; [by eapply cleanup_host|]. split; [by eapply cleanup_rx|].
  split; [by eapply cleanup_handed|].
  split; [rewrite <- P3; by eapply cleanup_perm|].
  split; [eapply stays_trans; [apply (stays_regs acked)|]; eapply stays_trans; [exact Y3|by eapply cleanup_stays]|].
  split; [|by rewrite T4, T3]. split; [|lia]. rewrite T4, T3, Z.add_0_r. cbn [used with_last_used].
  pose proof (ho_tx _ _ _ _ _ _ _ _ H3) as Ht3. rewrite (agree_loadn _ 2 _ _ _ A4).
  - rewrite <- (proj1 Hd3). by rewrite T3.
  - intros b Hb. apply (tx_reserved _ _ _ Ht3). right. rewrite T3. pose proof (ro_size _ (tx_ring _ _ _ Ht3)). rewrite T3 in *.
    unfold device_bytes. lia.
Qed.
End Host.
End NetIrq.
