(* ===== verification/NetInit.v ===== *)
(** * Bringing the device up

    [net_init] establishes the invariants of both queues. The two arrays that
    span several frames rely on the allocator giving out adjacent frames,
    highest first, as it does after booting. *)

From S2P Require Import Prelude Memory CString Pmm Bytes Mmio Net NetFrames NetSend NetAnswer NetHandle NetPoll.

Module NetInit.
Import CString Pmm Net NetFrames NetSend NetAnswer NetHandle NetPoll.

(** ** Taking frames *)

(** [s'] is [s] after some frames have been taken: those in [rest] are left. *)
Record took (s : net_state) (rest : list Z) (s' : net_state) : Prop := {
  to_inv : Pmm.inv (pmm s') (memory s');
  to_free : frames_free s' = rest;
  to_rxq : rxq s' = rxq s;
  to_txq : txq s' = txq s;
  to_idx : tx_desc_idx s' = tx_desc_idx s;
  to_regs : regs s' = regs s;
  to_owns : forall b, owns (pmm s') b <-> owns (pmm s) b;
  to_agree : agree (fun b => ~ owns (pmm s) b) (memory s) (memory s');
}.

Lemma alloc_took s i rest : Pmm.inv (pmm s) (memory s) -> frames_free s = i :: rest ->
  exists s', alloc_frame s = Some (frame_addr i, s') /\ took s rest s'.
Proof.
  intros Hi Hf. pose proof (alloc_ok _ _ Hi) as H. unfold alloc_frame. unfold frames_free in Hf.
  destruct (pmm_alloc_frame (pmm s) (memory s)) as [[f p] m]. unfold spec_alloc in H. rewrite Hf in H.
  destruct H as (-> & Habs & Hpi & Hag & Hs). apply layout_same in Hs as (_ & Ho & _).
  exists (with_memory m (with_pmm p s)). split; [done|]. split; try done. unfold frames_free. cbn [pmm memory with_memory with_pmm]. by rewrite Habs.
Qed.

Lemma took_trans s1 s2 s3 r2 r3 : took s1 r2 s2 -> took s2 r3 s3 -> took s1 r3 s3.
Proof.
  intros [H1 H2 H3 H4 H5 H6 H7 H8] [G1 G2 G3 G4 G5 G6 G7 G8]. split; try congruence; try done.
  - intros b. by rewrite G7.
  - intros b Hb. rewrite G8; [by apply H8|]. by rewrite H7.
Qed.

Lemma frame_above p m i : Pmm.inv p m -> i ∈ free (abs p m) -> reserved_end p <= frame_addr i /\ 0 < frame_addr i /\ frame_addr i + 4096 < 2 ^ 44.
Proof.
  intros Hi Hf. destruct (wf_free _ _ _ (inv_wf _ _ Hi) i Hf) as (H1 & H2 & _).
  pose proof (layout_bounds _ (inv_layout _ _ Hi)). unfold frame_addr in *. lia.
Qed.

(** A change of memory in frames that are no longer free and not the
    allocator's. *)
Lemma memory_took s rest s' m :
  took s rest s' -> agree (owns (pmm s')) (memory s') m ->
  Pmm.inv (pmm s') m /\ free (abs (pmm s') m) = rest.
Proof.
  intros [H1 H2 _ _ _ _ _ _] Hag. split; [by apply (inv_kept _ (memory s'))|]. rewrite (abs_kept _ (memory s')) by done. exact H2.
Qed.

(** ** virtio_init_queue *)

(** Eight adjacent frames, the highest first. *)
Definition eight (i : Z) : list Z := [i; i - 1; i - 2; i - 3; i - 4; i - 5; i - 6; i - 7].

Definition queue_at (i size : Z) : virtq := Virtq (frame_addr (i - 3)) (frame_addr (i - 4)) (frame_addr (i - 7)) size 0.

(** What the device is told about the queue. *)
Definition announced (index : Z) (q : virtq) : list (Z * Z) :=
  [(VIRTIO_REG_QUEUE_SEL, index);
   (VIRTIO_REG_Q_DESC_LOW, u32 (desc q)); (VIRTIO_REG_Q_DESC_HIGH, u32 (Z.shiftr (desc q) 32));
   (VIRTIO_REG_Q_AVAIL_LOW, u32 (avail q)); (VIRTIO_REG_Q_AVAIL_HIGH, u32 (Z.shiftr (avail q) 32));
   (VIRTIO_REG_Q_USED_LOW, u32 (used q)); (VIRTIO_REG_Q_USED_HIGH, u32 (Z.shiftr (used q) 32));
   (VIRTIO_REG_QUEUE_NUM, qsize q); (VIRTIO_REG_QUEUE_RDY, 1)].

Lemma eight_alloc s i rest : Pmm.inv (pmm s) (memory s) -> frames_free s = eight i ++ rest ->
  forall X (f : Z -> Z -> Z -> N X), exists s', took s rest s' /\
    (alloc_frame;; alloc_frame;; alloc_frame;; d ← alloc_frame; a ← alloc_frame; alloc_frame;; alloc_frame;; u ← alloc_frame; f d a u) s
      = f (frame_addr (i - 3)) (frame_addr (i - 4)) (frame_addr (i - 7)) s'.
Proof.
  intros Hi Hf X f. unfold eight in Hf. cbn [app] in Hf.
  destruct (alloc_took s _ _ Hi Hf) as (s1 & E1 & T1). destruct (alloc_took s1 _ _ (to_inv _ _ _ T1) (to_free _ _ _ T1)) as (s2 & E2 & T2).
  destruct (alloc_took s2 _ _ (to_inv _ _ _ T2) (to_free _ _ _ T2)) as (s3 & E3 & T3).
  destruct (alloc_took s3 _ _ (to_inv _ _ _ T3) (to_free _ _ _ T3)) as (s4 & E4 & T4).
  destruct (alloc_took s4 _ _ (to_inv _ _ _ T4) (to_free _ _ _ T4)) as (s5 & E5 & T5).
  destruct (alloc_took s5 _ _ (to_inv _ _ _ T5) (to_free _ _ _ T5)) as (s6 & E6 & T6).
  destruct (alloc_took s6 _ _ (to_inv _ _ _ T6) (to_free _ _ _ T6)) as (s7 & E7 & T7).
  destruct (alloc_took s7 _ _ (to_inv _ _ _ T7) (to_free _ _ _ T7)) as (s8 & E8 & T8).
  exists s8. split.
  - eapply took_trans; [|exact T8]. eapply took_trans; [|exact T7]. eapply took_trans; [|exact T6]. eapply took_trans; [|exact T5].
    eapply took_trans; [|exact T4]. eapply took_trans; [|exact T3]. eapply took_trans; [|exact T2]. exact T1.
  - rewrite (n_bind _ _ s s1 _ E1), (n_bind _ _ s1 s2 _ E2), (n_bind _ _ s2 s3 _ E3), (n_bind _ _ s3 s4 _ E4),
      (n_bind _ _ s4 s5 _ E5), (n_bind _ _ s5 s6 _ E6), (n_bind _ _ s6 s7 _ E7), (n_bind _ _ s7 s8 _ E8). done.
Qed.

(** The eight frames, cleared. *)
Definition block (i b : Z) : Prop := frame_addr (i - 7) <= b < frame_addr i + 4096.

Definition zeroed (m : mem) (i : Z) : mem :=
  memset (memset (memset m (frame_addr (i - 3)) 0 (4 * 4096)) (frame_addr (i - 4)) 0 (1 * 4096)) (frame_addr (i - 7)) 0 (3 * 4096).

Lemma zeroed_in m i b : block i b -> load8 (zeroed m i) b = 0.
Proof. unfold block, zeroed, frame_addr. intros Hb. rewrite !memset_spec by lia. change (u8 0) with 0. repeat case_decide; (lia || done). Qed.

Lemma zeroed_out m i b : ~ block i b -> load8 (zeroed m i) b = load8 m b.
Proof. unfold block, zeroed, frame_addr. intros Hb. rewrite !memset_spec by lia. rewrite !decide_False by lia. done. Qed.

Lemma block_frame k b : block k b -> exists f, f ∈ eight k /\ in_frame f b.
Proof.
  intros Hb. unfold block, in_frame, frame_addr in *. unfold eight.
  exists (k - 7 + (b - (PHY_RAM_BASE + 4096 * (k - 7))) / 4096). rewrite !elem_of_cons. split; zdiv.
Qed.

Lemma in_frame_eq f g b : in_frame f b -> in_frame g b -> f = g.
Proof. unfold in_frame, frame_addr. lia. Qed.

(** A sequence of register writes. *)
Definition write_all (b : bus) (l : list (Z * Z)) : bus := foldl (fun b '(r, v) => write32 b (VIRTIO_NET_BASE + r) v) b l.
Definition at_base (l : list (Z * Z)) : list (Z * Z) := (fun '(r, v) => (VIRTIO_NET_BASE + r, u32 v)) <$> l.

Lemma writes_all b l : writes (write_all b l) = writes b ++ at_base l.
Proof.
  revert b. induction l as [|[r v] l IH]; intros b; [by rewrite app_nil_r|]. cbn [write_all foldl]. fold (write_all (write32 b (VIRTIO_NET_BASE + r) v) l).
  rewrite IH. unfold write32. by rewrite writes_app, <- (assoc_L (++)).
Qed.

#[local] Opaque memset.

(** [virtio_init_queue] once the frames have been taken. *)
Definition set_up (tx : bool) (size d a u : Z) : N () :=
  change (fun m => memset m d 0 (4 * 4096));;
  change (fun m => memset m a 0 (1 * 4096));;
  change (fun m => memset m u 0 (3 * 4096));;
  modify ((if tx then with_txq else with_rxq) (Virtq d a u size 0));;
  reg_write VIRTIO_REG_Q_DESC_LOW (u32 d);;
  reg_write VIRTIO_REG_Q_DESC_HIGH (u32 (Z.shiftr d 32));;
  reg_write VIRTIO_REG_Q_AVAIL_LOW (u32 a);;
  reg_write VIRTIO_REG_Q_AVAIL_HIGH (u32 (Z.shiftr a 32));;
  reg_write VIRTIO_REG_Q_USED_LOW (u32 u);;
  reg_write VIRTIO_REG_Q_USED_HIGH (u32 (Z.shiftr u 32));;
  reg_write VIRTIO_REG_QUEUE_NUM size;;
  reg_write VIRTIO_REG_QUEUE_RDY 1.

Lemma set_up_run tx size i s :
  set_up tx size (frame_addr (i - 3)) (frame_addr (i - 4)) (frame_addr (i - 7)) s =
    Some ((), NetState (zeroed (memory s) i) (pmm s) (if tx then rxq s else queue_at i size)
      (if tx then queue_at i size else txq s) (tx_desc_idx s) (write_all (regs s) (drop 1 (announced 0 (queue_at i size))))).
Proof.
  unfold set_up. set (q := queue_at i size).
  rewrite (n_bind _ _ s (with_memory (memset (memory s) (frame_addr (i - 3)) 0 (4 * 4096)) s) ()) by reflexivity.
  rewrite (n_bind _ _ _ (with_memory (memset (memset (memory s) (frame_addr (i - 3)) 0 (4 * 4096)) (frame_addr (i - 4)) 0 (1 * 4096)) s) ()) by reflexivity.
  rewrite (n_bind _ _ _ (with_memory (zeroed (memory s) i) s) ()) by reflexivity.
  generalize (zeroed (memory s) i). intros m.
  change (Virtq (frame_addr (i - 3)) (frame_addr (i - 4)) (frame_addr (i - 7)) size 0) with q. subst q.
  unfold queue_at. generalize (frame_addr (i - 3)), (frame_addr (i - 4)), (frame_addr (i - 7)). intros d a u.
  destruct tx; reflexivity.
Qed.

Section Device.
Context (device : bus -> Z -> Z) (size : Z).
Context (Hsize : forall b, u32 (device b (VIRTIO_NET_BASE + VIRTIO_REG_QUEUE_MAX)) = size) (Hpos : 0 < size).

Lemma virtio_init_queue_ok (tx : bool) s i rest index :
  Pmm.inv (pmm s) (memory s) -> frames_free s = eight i ++ rest ->
  exists s', virtio_init_queue device index (if tx then with_txq else with_rxq) s = Some ((), s') /\
    Pmm.inv (pmm s') (memory s') /\ frames_free s' = rest /\
    rxq s' = (if tx then rxq s else queue_at i size) /\ txq s' = (if tx then queue_at i size else txq s) /\
    tx_desc_idx s' = tx_desc_idx s /\ (forall b, owns (pmm s') b <-> owns (pmm s) b) /\
    (forall b, block i b -> load8 (memory s') b = 0) /\
    agree (fun b => ~ owns (pmm s) b /\ ~ block i b) (memory s) (memory s') /\
    writes (regs s') = writes (regs s) ++ at_base (announced index (queue_at i size)).
Proof.
  intros Hi Hf. set (b0 := write32 (regs s) (VIRTIO_NET_BASE + VIRTIO_REG_QUEUE_SEL) index).
  set (s0 := with_regs (b0 ++ [Rd (VIRTIO_NET_BASE + VIRTIO_REG_QUEUE_MAX)]) s).
  destruct (eight_alloc s0 i rest Hi Hf _ (set_up tx size)) as (s8 & T & E).
  assert (Hown : agree (owns (pmm s8)) (memory s8) (zeroed (memory s8) i)).
  { intros b Hb. apply zeroed_out. intros Hbl. apply (to_owns _ _ _ T) in Hb.
    destruct (block_frame _ _ Hbl) as (j & Hj & Hfr).
    destruct (frame_above _ _ j Hi) as (Ha & _); [unfold frames_free in Hf; rewrite Hf; apply elem_of_app; by left|].
    change (pmm s0) with (pmm s) in Hb. unfold owns, in_frame in *. lia. }
  destruct (memory_took _ _ _ _ T Hown) as [Hi' Hf'].
  rewrite (set_up_run tx size i s8) in E. eexists. split.
  { unfold virtio_init_queue. rewrite (n_bind _ _ s (with_regs b0 s) ()) by done.
    rewrite (n_bind _ _ _ s0 size) by (unfold reg_read, read32; by rewrite Hsize).
    destruct (size =? 0) eqn:E0; [lia|]. exact E. }
  destruct T as [_ _ Erx Etx Eix Erg Eow Eag].
  split; [exact Hi'|]. split; [exact Hf'|].
  split; [by destruct tx|]. split; [by destruct tx|]. split; [done|]. split; [done|].
  split; [intros b Hb; by apply zeroed_in|]. split.
  - intros b [H1 H2]. cbn [memory]. rewrite zeroed_out by done. by apply Eag.
  - cbn [regs]. rewrite writes_all, Erg. unfold s0. cbn [regs with_regs]. rewrite writes_app. unfold b0, write32.
    by rewrite writes_app, app_nil_r, <- (assoc_L (++)).
Qed.
End Device.

(** ** net_rx_fill *)

(** Buffer [i] is offered in descriptor [j]. *)
Record offered (s : net_state) (j i : Z) : Prop := {
  of_addr : load64 (memory s) (desc (rxq s) + 16 * j) = frame_addr i;
  of_len : load32 (memory s) (desc (rxq s) + 16 * j + 8) = 4096;
  of_flags : load16 (memory s) (desc (rxq s) + 16 * j + 12) = VIRTQ_DESC_F_WRITE;
  of_ring : load16 (memory s) (avail (rxq s) + 4 + 2 * j) = j;
}.

Definition entries (q : virtq) (lo hi b : Z) : Prop :=
  desc q + 16 * lo <= b < desc q + 16 * hi \/ avail q + 4 + 2 * lo <= b < avail q + 4 + 2 * hi.

Lemma offered_kept s s' j i : rxq s' = rxq s -> agree (entries (rxq s) j (j + 1)) (memory s) (memory s') -> offered s j i -> offered s' j i.
Proof.
  intros Hq Hag [H1 H2 H3 H4]. split; rewrite Hq; rewrite (agree_loadn _ _ _ _ _ Hag); try done; unfold entries; lia.
Qed.

(** Everything but the memory and the free frames. *)
Record same_parts (s s' : net_state) : Prop := {
  sp_rxq : rxq s' = rxq s;
  sp_txq : txq s' = txq s;
  sp_idx : tx_desc_idx s' = tx_desc_idx s;
  sp_regs : regs s' = regs s;
  sp_owns : forall b, owns (pmm s') b <-> owns (pmm s) b;
}.

Lemma same_trans s1 s2 s3 : same_parts s1 s2 -> same_parts s2 s3 -> same_parts s1 s3.
Proof. intros [H1 H2 H3 H4 H5] [G1 G2 G3 G4 G5]. split; try congruence. intros b. by rewrite G5. Qed.

Section Fill.
Context (q : virtq) (Hr : ring_ok q).

Definition filled (m : mem) (i f : Z) : mem :=
  store16 (set_desc m (desc q) i (frame_addr f) 4096 VIRTQ_DESC_F_WRITE) (avail q + 4 + 2 * i) i.

Lemma filled_agree m i f : agree (fun b => ~ entries q i (i + 1) b) m (filled m i f).
Proof. intros b Hb. unfold entries in Hb. unfold filled, set_desc. by rewrite !load8_storen_ne by lia. Qed.

Lemma filled_entry m i f : 0 <= i < qsize q -> 0 <= frame_addr f < 2 ^ 64 ->
  load64 (filled m i f) (desc q + 16 * i) = frame_addr f /\ load32 (filled m i f) (desc q + 16 * i + 8) = 4096 /\
  load16 (filled m i f) (desc q + 16 * i + 12) = VIRTQ_DESC_F_WRITE /\ load16 (filled m i f) (avail q + 4 + 2 * i) = i.
Proof. intros Hi Hf. destruct Hr. unfold filled, set_desc, VIRTQ_DESC_F_WRITE. split_and!; by msimpl. Qed.

Lemma entries_driver i j b : 0 <= i -> j <= qsize q -> entries q i j b -> driver_bytes q b.
Proof. unfold entries, driver_bytes. lia. Qed.

Lemma fill_step s i f rest : rxq s = q -> Pmm.inv (pmm s) (memory s) -> frames_free s = f :: rest ->
  reserved s (driver_bytes q) -> 0 <= i < qsize q ->
  exists s', same_parts s s' /\ Pmm.inv (pmm s') (memory s') /\ frames_free s' = rest /\ offered s' i f /\
    agree (fun b => ~ owns (pmm s) b /\ ~ entries q i (i + 1) b) (memory s) (memory s') /\
    forall k, fill_from (S k) i s = fill_from k (i + 1) s'.
Proof.
  intros Hq Hi Hf Hres Hin. destruct (alloc_took s f rest Hi Hf) as (s1 & E1 & T). pose proof T as [_ _ Erx Etx Eix Erg Eow Eag].
  destruct (frame_above _ _ f Hi) as (_ & Hf1 & Hf2); [unfold frames_free in Hf; rewrite Hf; left|].
  destruct (ro_nonnull _ Hr) as (N1 & N2 & _). pose proof (ro_size _ Hr).
  assert (Hown : agree (owns (pmm s1)) (memory s1) (filled (memory s1) i f)).
  { intros b Hb. apply filled_agree. intros He. apply Eow in Hb. apply (Hres b); [|done]. eapply entries_driver; [..|exact He]; lia. }
  destruct (memory_took _ _ _ _ T Hown) as [Hi' Hf'].
  exists (with_memory (filled (memory s1) i f) s1). split; [by split|]. split; [done|]. split; [done|].
  destruct (filled_entry (memory s1) i f Hin ltac:(lia)) as (O1 & O2 & O3 & O4).
  split; [split; cbn [rxq with_memory memory]; by rewrite Erx, Hq|]. split.
  - intros b [H1 H2]. cbn [memory with_memory]. rewrite filled_agree by done. by apply Eag.
  - intros k. cbn [fill_from]. rewrite (n_bind _ _ s s1 _ E1). destruct (frame_addr f =? 0) eqn:E; [lia|].
    rewrite (n_bind _ _ s1 s1 q) by (unfold gets; by rewrite Erx, Hq). rewrite (n_bind _ _ s1 s1 (desc q)) by (apply n_deref; lia).
    set (s2 := with_memory (set_desc (memory s1) (desc q) i (frame_addr f) 4096 VIRTQ_DESC_F_WRITE) s1).
    rewrite (n_bind _ _ s1 s2 ()) by done. rewrite (n_bind _ _ s2 s2 (avail q)) by (apply n_deref; lia).
    rewrite (n_bind _ _ s2 s2 i) by (rewrite n_rem by lia; by rewrite Z.mod_small).
    rewrite (n_bind _ _ s2 (with_memory (filled (memory s1) i f) s1) ()); [done|].
    unfold change, modify. by rewrite u16_id by lia.
Qed.

Lemma reserved_less s s' K rest : reserved s K -> (forall b, owns (pmm s') b <-> owns (pmm s) b) ->
  frames_free s' = rest -> (forall i, i ∈ rest -> i ∈ frames_free s) -> reserved s' K.
Proof.
  intros H Ho Hf Hsub b Hb. destruct (H b Hb) as [H1 H2]. split; [by rewrite Ho|]. intros i Hi. apply H2, Hsub. by rewrite <- Hf.
Qed.

Lemma fill_ok : forall bufs s i rest, rxq s = q -> Pmm.inv (pmm s) (memory s) -> frames_free s = bufs ++ rest ->
  reserved s (driver_bytes q) -> 0 <= i -> i + Z.of_nat (length bufs) <= qsize q ->
  exists s', fill_from (length bufs) i s = Some ((), s') /\ same_parts s s' /\ Pmm.inv (pmm s') (memory s') /\ frames_free s' = rest /\
    (forall (j : nat) f, bufs !! j = Some f -> offered s' (i + Z.of_nat j) f) /\
    agree (fun b => ~ owns (pmm s) b /\ ~ entries q i (i + Z.of_nat (length bufs)) b) (memory s) (memory s').
Proof.
  induction bufs as [|f bufs IH]; intros s i rest Hq Hi Hf Hres H0 Hle.
  - exists s. split; [done|]. by split_and!.
  - cbn [length] in Hle. destruct (fill_step s i f (bufs ++ rest) Hq Hi Hf Hres ltac:(lia)) as (s1 & P1 & I1 & F1 & O1 & A1 & E1).
    destruct (IH s1 (i + 1) rest) as (s' & E & P & I & F & O & A); [by rewrite (sp_rxq _ _ P1)|done|done| |lia|lia|].
    { eapply reserved_less; [exact Hres|apply P1|exact F1|]. intros j Hj. rewrite Hf. by right. }
    exists s'. split; [cbn [length]; by rewrite E1|]. split; [by eapply same_trans|]. split; [done|]. split; [done|]. split.
    + intros [|j] g Hj.
      * injection Hj as <-. rewrite Z.add_0_r. eapply offered_kept; [apply P| |exact O1].
        intros b Hb. apply A. rewrite (sp_rxq _ _ P1), Hq in Hb. split.
        -- intros Ho. apply (sp_owns _ _ P1) in Ho. apply (Hres b); [|done]. eapply entries_driver; [..|exact Hb]; lia.
        -- destruct Hr. unfold entries in *. lia.
      * replace (i + Z.of_nat (S j)) with (i + 1 + Z.of_nat j) by lia. by apply O.
    + intros b [H1 H2]. unfold entries in H2. cbn [length] in H2. rewrite A; [apply A1|]; unfold entries; (split; [|lia]); [done|].
      intros Ho. by apply (sp_owns _ _ P1) in Ho.
Qed.

Lemma net_rx_fill_ok s bufs rest : rxq s = q -> Pmm.inv (pmm s) (memory s) -> frames_free s = bufs ++ rest ->
  reserved s (driver_bytes q) -> Z.of_nat (length bufs) = qsize q ->
  exists s', net_rx_fill s = Some ((), s') /\
    rxq s' = q /\ txq s' = txq s /\ tx_desc_idx s' = tx_desc_idx s /\
    regs s' = write32 (regs s) (VIRTIO_NET_BASE + VIRTIO_REG_QUEUE_NOTIFY) 0 /\ (forall b, owns (pmm s') b <-> owns (pmm s) b) /\
    Pmm.inv (pmm s') (memory s') /\ frames_free s' = rest /\
    (forall (j : nat) f, bufs !! j = Some f -> offered s' (Z.of_nat j) f) /\
    load16 (memory s') (avail q + 2) = qsize q /\
    agree (fun b => ~ owns (pmm s) b /\ ~ driver_bytes q b) (memory s) (memory s').
Proof.
  intros Hq Hi Hf Hres Hlen. destruct (ro_nonnull _ Hr) as (N1 & N2 & _). pose proof (ro_size _ Hr).
  destruct (fill_ok bufs s 0 rest Hq Hi Hf Hres ltac:(lia) ltac:(lia)) as (s1 & E & [P1 P2 P3 P4 P5] & I & F & O & A).
  set (m := store16 (memory s1) (avail q + 2) (qsize q)).
  assert (Hag : agree (fun b => ~ avail q + 2 <= b < avail q + 4) (memory s1) m).
  { intros b Hb. unfold m. apply load8_storen_ne. lia. }
  assert (Hown : agree (owns (pmm s1)) (memory s1) m).
  { intros b Hb. apply Hag. intros Ha. apply P5 in Hb. apply (Hres b); [right; lia|done]. }
  exists (with_regs (write32 (regs s1) (VIRTIO_NET_BASE + VIRTIO_REG_QUEUE_NOTIFY) 0) (with_memory m s1)). split.
  { unfold net_rx_fill. rewrite (n_bind _ _ s s q) by (unfold gets; by rewrite Hq).
    replace (Z.to_nat (qsize q)) with (length bufs) by lia. rewrite (n_bind _ _ s s1 () E).
    rewrite (n_bind _ _ s1 s1 (avail q)) by (apply n_deref; lia). rewrite (n_bind _ _ s1 (with_memory m s1) ()); [done|].
    unfold change, modify. by rewrite u16_id by lia. }
  cbn [rxq txq tx_desc_idx regs pmm memory with_regs with_memory].
  split; [by rewrite P1|]. split; [done|]. split; [done|]. split; [by rewrite P4|]. split; [done|].
  split; [by apply (inv_kept _ (memory s1))|]. split; [unfold frames_free; cbn [pmm memory with_regs with_memory]; by rewrite (abs_kept _ (memory s1))|]. split.
  - intros j f Hj. pose proof (lookup_lt_Some _ _ _ Hj). specialize (O j f Hj). rewrite Z.add_0_l in O.
    refine (offered_kept s1 (with_regs _ (with_memory m s1)) _ f eq_refl _ O). intros b Hb. apply Hag. rewrite P1, Hq in Hb. destruct Hr. unfold entries in Hb. lia.
  - split; [by apply loadn_storen_eq; lia|]. intros b [H1 H2]. rewrite Hag by (unfold driver_bytes in H2; lia).
    apply A. split; [done|]. intros He. apply H2. eapply entries_driver; [..|exact He]; lia.
Qed.
End Fill.

(** ** The MAC address *)

Lemma read_mac_ok device net_mac l : forall i s,
  (forall b (j : nat) c, l !! j = Some c -> u8 (device b (VIRTIO_NET_BASE + VIRTIO_REG_CONFIG + (i + Z.of_nat j))) = c) ->
  exists b, read_mac net_mac device (length l) i s = Some ((), with_memory (store_bytes (memory s) (net_mac + i) l) (with_regs b s)) /\
    writes b = writes (regs s).
Proof.
  induction l as [|c l IH]; intros i s Hm; [exists (regs s); by destruct s|].
  set (b1 := regs s ++ [Rd (VIRTIO_NET_BASE + VIRTIO_REG_CONFIG + i)]).
  set (s1 := with_memory (store8 (memory s) (net_mac + i) c) (with_regs b1 s)).
  destruct (IH (i + 1) s1) as (b & E & W).
  { intros b j d Hj. rewrite <- (Hm b (S j) d Hj). do 2 f_equal. lia. }
  exists b. split.
  - cbn [length read_mac]. rewrite (n_bind _ _ s s1 ()).
    2:{ unfold read8. pose proof (Hm (regs s) O c eq_refl) as H. rewrite Z.add_0_r in H. by rewrite H. }
    rewrite E. cbn [store_bytes]. by replace (net_mac + (i + 1)) with (net_mac + i + 1) by lia.
  - rewrite W. cbn [regs s1 with_memory with_regs]. unfold b1. by rewrite writes_app, app_nil_r.
Qed.

(** ** net_init *)

Section Init.
Context (net_mac my_ip sp : Z) (mac ip : list Z) (device : bus -> Z -> Z) (size i j : Z) (bufs rest : list Z) (s : net_state).

(** What the device must do: offer the features and two queues of [size]
    entries, and show its address. *)
Record device_ok : Prop := {
  dv_features : forall b, Z.testbit (u32 (device b (VIRTIO_NET_BASE + VIRTIO_REG_STATUS))) 3 = true;
  dv_size : forall b, u32 (device b (VIRTIO_NET_BASE + VIRTIO_REG_QUEUE_MAX)) = size;
  dv_power : 0 < size <= 1024 /\ (size | 2 ^ 16);
  dv_mac : forall b (k : nat) c, mac !! k = Some c -> u8 (device b (VIRTIO_NET_BASE + VIRTIO_REG_CONFIG + Z.of_nat k)) = c;
  dv_lmac : length mac = 6%nat;
}.

(** The machine before the call. *)
Record boot_ok : Prop := {
  bo_inv : Pmm.inv (pmm s) (memory s);
  bo_free : frames_free s = eight i ++ eight j ++ bufs ++ rest;
  bo_bufs : Z.of_nat (length bufs) = size;
  bo_idx : tx_desc_idx s = 0;
  bo_ip : holds (memory s) my_ip ip;
  bo_lip : length ip = 4%nat;
  bo_static : reserved s (static_bytes net_mac my_ip);
  bo_stack : reserved s (stack_bytes sp);
  bo_apart : apart (sp - 10) 4106 net_mac 6 /\ apart (sp - 10) 4106 my_ip 4 /\ apart net_mac 6 my_ip 4;
}.

Context (Hdev : device_ok) (Hboot : boot_ok).

Abbreviation rx := (queue_at i size).
Abbreviation tx := (queue_at j size).

Lemma free_nodup : NoDup (eight i ++ eight j ++ bufs ++ rest).
Proof. rewrite <- (bo_free Hboot). apply (inv_wf _ _ (bo_inv Hboot)). Qed.

Lemma queue_ring k : k ∈ frames_free s -> k - 7 ∈ frames_free s -> ring_ok (queue_at k size).
Proof.
  intros Hk Hk7. destruct (frame_above _ _ k (bo_inv Hboot) Hk) as (_ & H1 & H2). destruct (frame_above _ _ _ (bo_inv Hboot) Hk7) as (_ & H3 & _).
  destruct (dv_power Hdev) as [Hs Hd]. unfold frame_addr in *. split; cbn [queue_at desc avail used qsize]; unfold frame_addr; try done; lia.
Qed.

Lemma queue_block k b : queue_bytes (queue_at k size) b -> block k b.
Proof. destruct (dv_power Hdev) as [Hs _]. unfold queue_bytes, driver_bytes, device_bytes, block, queue_at, frame_addr. cbn [desc avail used qsize]. lia. Qed.

(** Bytes of the two blocks are apart from each other, from the remaining
    frames, and from all that was reserved. *)
Lemma block_apart k (others : list Z) b : (forall f, f ∈ eight k -> f ∉ others) -> block k b -> forall f, f ∈ others -> ~ in_frame f b.
Proof. intros H Hb f Hf Hfr. destruct (block_frame k b Hb) as (g & Hg & Hg'). apply (H g Hg). by rewrite (in_frame_eq g f b). Qed.

Lemma blocks_apart b : block i b -> ~ block j b.
Proof.
  intros Hi Hj. destruct (block_frame j b Hj) as (g & Hg & Hg'). pose proof free_nodup as Hnd. apply list.NoDup_app in Hnd as (_ & Hnd & _).
  apply (block_apart i (eight j) b) with g; try done. intros f Hf Hf'. apply (Hnd f Hf). apply elem_of_app. by left.
Qed.

Lemma block_free k b : block k b -> (forall f, f ∈ eight k -> f ∈ frames_free s) ->
  ~ owns (pmm s) b /\ ~ static_bytes net_mac my_ip b /\ ~ stack_bytes sp b.
Proof.
  intros Hb Hk. destruct (block_frame k b Hb) as (f & Hf & Hfr). specialize (Hk f Hf). split_and!.
  - destruct (frame_above _ _ f (bo_inv Hboot) Hk) as (Ha & _). unfold owns, in_frame in *. lia.
  - intros Hst. by apply (bo_static Hboot b Hst) in Hfr.
  - intros Hst. by apply (bo_stack Hboot b Hst) in Hfr.
Qed.

Lemma eight_i f : f ∈ eight i -> f ∈ frames_free s.
Proof. intros Hf. rewrite (bo_free Hboot). apply elem_of_app. by left. Qed.
Lemma eight_j f : f ∈ eight j -> f ∈ frames_free s.
Proof. intros Hf. rewrite (bo_free Hboot). apply elem_of_app. right. apply elem_of_app. by left. Qed.
Lemma rest_free f : f ∈ rest -> f ∈ frames_free s /\ (f ∉ eight i) /\ (f ∉ eight j).
Proof.
  intros Hf. pose proof free_nodup as Hnd. rewrite !list.NoDup_app in Hnd. destruct Hnd as (_ & H1 & _ & H2 & _).
  rewrite (bo_free Hboot), !elem_of_app. split; [tauto|]. split; intros Hf'; [apply (H1 f Hf')|apply (H2 f Hf')]; rewrite ?elem_of_app; tauto.
Qed.

(** The writes before the queues are set up; [f] are the features taken. *)
Definition negotiation (f : Z) : list (Z * Z) :=
  [(VIRTIO_REG_STATUS, 0); (VIRTIO_REG_STATUS, 1); (VIRTIO_REG_STATUS, 3); (VIRTIO_REG_DEV_FEAT_SEL, 0); (VIRTIO_REG_DRV_FEAT_SEL, 0);
   (VIRTIO_REG_DRV_FEAT, 0); (VIRTIO_REG_DEV_FEAT_SEL, 1); (VIRTIO_REG_DRV_FEAT_SEL, 1); (VIRTIO_REG_DRV_FEAT, f); (VIRTIO_REG_STATUS, 11)].

Definition enabling : N () :=
  virtio_init_queue device 0 with_rxq;;
  virtio_init_queue device 1 with_txq;;
  net_rx_fill;;
  read_mac net_mac device 6 0;;
  reg_write VIRTIO_REG_STATUS (Z.lor (Z.lor (Z.lor STATUS_ACKNOWLEDGE STATUS_DRIVER) STATUS_FEATURES_OK) STATUS_DRIVER_OK).

Lemma negotiate : exists f b, net_init net_mac device s = enabling (with_regs b s) /\ (f = 0 \/ f = 1) /\
  writes b = writes (regs s) ++ at_base (negotiation f).
Proof.
  set (b1 := write_all (regs s) (take 4 (negotiation 0))).
  set (r2 := u32 (device b1 (VIRTIO_NET_BASE + VIRTIO_REG_DEV_FEAT))).
  set (b2 := write_all (b1 ++ [Rd (VIRTIO_NET_BASE + VIRTIO_REG_DEV_FEAT)])
    [(VIRTIO_REG_DRV_FEAT_SEL, 0); (VIRTIO_REG_DRV_FEAT, Z.land r2 0); (VIRTIO_REG_DEV_FEAT_SEL, 1)]).
  set (r3 := u32 (device b2 (VIRTIO_NET_BASE + VIRTIO_REG_DEV_FEAT))).
  set (b3 := write_all (b2 ++ [Rd (VIRTIO_NET_BASE + VIRTIO_REG_DEV_FEAT)])
    [(VIRTIO_REG_DRV_FEAT_SEL, 1); (VIRTIO_REG_DRV_FEAT, Z.land r3 1); (VIRTIO_REG_STATUS, 11)]).
  set (b4 := b3 ++ [Rd (VIRTIO_NET_BASE + VIRTIO_REG_STATUS)]).
  exists (Z.land r3 1), b4. split; [|split].
  - transitivity ((if negb (nonzero (Z.land (u32 (device b3 (VIRTIO_NET_BASE + VIRTIO_REG_STATUS))) STATUS_FEATURES_OK))
      then reg_write VIRTIO_REG_STATUS STATUS_FAILED else enabling) (with_regs b4 s)); [reflexivity|].
    change STATUS_FEATURES_OK with (Z.shiftl 1 3). rewrite nonzero_land_shiftl by lia. by rewrite (dv_features Hdev).
  - assert (E : Z.land r3 1 = r3 mod 2) by (change 1 with (Z.ones 1); by rewrite Z.land_ones).
    pose proof (Z.mod_pos_bound r3 2 ltac:(lia)). lia.
  - unfold b4. rewrite writes_app, app_nil_r. unfold b3. rewrite writes_all, writes_app, app_nil_r. unfold b2.
    rewrite writes_all, writes_app, app_nil_r. unfold b1. rewrite writes_all. rewrite Z.land_0_r. by rewrite <- !(assoc_L (++)).
Qed.

(** The state once the queues are set up and the buffers offered, and what is
    left of the memory. *)
Record queues_ready (b0 : bus) (s3 : net_state) : Prop := {
  qr_rxq : rxq s3 = rx;
  qr_txq : txq s3 = tx;
  qr_idx : tx_desc_idx s3 = 0;
  qr_owns : forall b, owns (pmm s3) b <-> owns (pmm s) b;
  qr_inv : Pmm.inv (pmm s3) (memory s3);
  qr_free : frames_free s3 = rest;
  qr_offered : forall (k : nat) f, bufs !! k = Some f -> offered s3 (Z.of_nat k) f;
  qr_avail : load16 (memory s3) (avail rx + 2) = size;
  qr_used : forall b, device_bytes rx b -> load8 (memory s3) b = 0;
  qr_tx : forall b, block j b -> load8 (memory s3) b = 0;
  qr_agree : agree (fun b => ~ owns (pmm s) b /\ ~ block i b /\ ~ block j b) (memory s) (memory s3);
  qr_writes : writes (regs s3) = writes b0 ++ at_base (announced 0 rx ++ announced 1 tx ++ [(VIRTIO_REG_QUEUE_NOTIFY, 0)]);
}.

Lemma set_up_queues b0 : exists s3,
  (forall f : N (), (virtio_init_queue device 0 with_rxq;; virtio_init_queue device 1 with_txq;; net_rx_fill;; f) (with_regs b0 s) = f s3) /\
  queues_ready b0 s3.
Proof.
  set (s0 := with_regs b0 s). destruct (dv_power Hdev) as [Hs _].
  destruct (virtio_init_queue_ok device size (dv_size Hdev) ltac:(lia) false s0 i (eight j ++ bufs ++ rest) 0 (bo_inv Hboot) (bo_free Hboot))
    as (s1 & E1 & I1 & F1 & R1 & T1 & X1 & O1 & Z1 & A1 & W1).
  destruct (virtio_init_queue_ok device size (dv_size Hdev) ltac:(lia) true s1 j (bufs ++ rest) 1 I1 F1)
    as (s2 & E2 & I2 & F2 & R2 & T2 & X2 & O2 & Z2 & A2 & W2).
  change (pmm s0) with (pmm s) in *. change (memory s0) with (memory s) in *.
  assert (Hrx : ring_ok rx) by (apply queue_ring; apply eight_i; unfold eight; rewrite !elem_of_cons; tauto).
  assert (Hblk : forall b, block i b -> ~ owns (pmm s) b) by (intros b Hb; exact (proj1 (block_free i b Hb eight_i))).
  assert (Hblk2 : forall b, block j b -> ~ owns (pmm s) b) by (intros b Hb; exact (proj1 (block_free j b Hb eight_j))).
  assert (Hdrv : forall b, driver_bytes rx b -> block i b) by (intros b Hb; apply queue_block; by left).
  destruct (net_rx_fill_ok rx Hrx s2 bufs rest) as (s3 & E3 & R3 & T3 & X3 & W3 & O3 & I3 & F3 & B3 & V3 & A3).
  - by rewrite R2, R1.
  - done.
  - done.
  - intros b Hb. apply Hdrv in Hb. rewrite O2, O1. split; [by apply Hblk|]. change (free (abs (pmm s2) (memory s2))) with (frames_free s2).
    rewrite F2. apply (block_apart i); [|done]. intros f Hf Hf'. pose proof free_nodup as Hnd. apply list.NoDup_app in Hnd as (_ & Hnd & _).
    apply (Hnd f Hf). apply elem_of_app. by right.
  - exact (bo_bufs Hboot).
  - exists s3. split; [intros f; by rewrite (n_bind _ _ s0 s1 () E1), (n_bind _ _ s1 s2 () E2), (n_bind _ _ s2 s3 () E3)|].
    split; try done.
    + by rewrite T3, T2.
    + rewrite X3, X2, X1. exact (bo_idx Hboot).
    + intros b. by rewrite O3, O2, O1.
    + intros b Hb. assert (Hbi : block i b) by (apply queue_block; by right).
      rewrite A3, A2, Z1; [done|done| |]; rewrite ?O2, ?O1; (split; [by apply Hblk|]); [by apply blocks_apart|].
      destruct Hrx. unfold driver_bytes, device_bytes in *. lia.
    + intros b Hb. rewrite A3, Z2; [done|done|]. rewrite O2, O1. split; [by apply Hblk2|]. intros Hd. apply (blocks_apart b); [by apply Hdrv|done].
    + intros b (H1 & H2 & H3). rewrite A3, A2, A1; [done|done| |]; rewrite ?O2, ?O1; (split; [done|]); [done|]. intros Hd. by apply H2, Hdrv.
    + rewrite W3. unfold write32. rewrite writes_app, W2, W1. unfold at_base. rewrite !fmap_app, <- !(assoc_L (++)). done.
Qed.

(** The state after the MAC address has been read and the status set: only the
    bytes of [net_mac] and the registers have changed. *)
Record addressed (s3 s' : net_state) : Prop := {
  ad_pmm : pmm s' = pmm s3;
  ad_rxq : rxq s' = rxq s3;
  ad_txq : txq s' = txq s3;
  ad_idx : tx_desc_idx s' = tx_desc_idx s3;
  ad_agree : agree (outside net_mac (net_mac + 6)) (memory s3) (memory s');
  ad_mac : holds (memory s') net_mac mac;
}.

Section Addressed.
Context (b0 : bus) (s3 s' : net_state) (HQ : queues_ready b0 s3) (HA : addressed s3 s').

Lemma ring_rx : ring_ok rx.
Proof. apply queue_ring; apply eight_i; unfold eight; rewrite !elem_of_cons; tauto. Qed.
Lemma ring_tx : ring_ok tx.
Proof. apply queue_ring; apply eight_j; unfold eight; rewrite !elem_of_cons; tauto. Qed.

Lemma mac_outside b : ~ static_bytes net_mac my_ip b -> load8 (memory s') b = load8 (memory s3) b.
Proof. intros H. apply (ad_agree _ _ HA). unfold outside. destruct (decide (net_mac <= b < net_mac + 6)); [|lia]. destruct H. by left. Qed.

Lemma owns_now b : owns (pmm s') b <-> owns (pmm s) b.
Proof. rewrite (ad_pmm _ _ HA). apply (qr_owns _ _ HQ). Qed.

Lemma owned_kept : agree (owns (pmm s3)) (memory s3) (memory s').
Proof. intros b Hb. apply mac_outside. intros Hs. apply (qr_owns _ _ HQ) in Hb. by destruct (bo_static Hboot b Hs). Qed.

Lemma free_now : frames_free s' = rest.
Proof. unfold frames_free. rewrite (ad_pmm _ _ HA), (abs_kept _ (memory s3)); [apply HQ|apply HQ|exact owned_kept]. Qed.

Lemma inv_now : Pmm.inv (pmm s') (memory s').
Proof. rewrite (ad_pmm _ _ HA). apply (inv_kept _ (memory s3)); [apply HQ|exact owned_kept]. Qed.

Lemma block_now k b : block k b -> (forall g, g ∈ eight k -> g ∈ frames_free s) -> load8 (memory s') b = load8 (memory s3) b.
Proof. intros Hb Hk. apply mac_outside. by destruct (block_free k b Hb Hk) as (_ & H & _). Qed.

Lemma private_now K : (forall b, K b -> ~ owns (pmm s) b /\ ~ block j b /\ forall g, g ∈ rest -> ~ in_frame g b) -> private s' [] K.
Proof.
  intros HK b Hb. destruct (HK b Hb) as (H1 & H2 & H3). split; [by rewrite owns_now|]. split.
  - rewrite (ad_txq _ _ HA), (qr_txq _ _ HQ). intros Hq. by apply H2, queue_block.
  - cbn [fmap list_fmap]. rewrite app_nil_r, free_now. exact H3.
Qed.

Lemma reserved_now K : reserved s K -> (forall b, K b -> ~ block j b) -> private s' [] K.
Proof.
  intros HK Hj. apply private_now. intros b Hb. destruct (HK b Hb) as [H1 H2]. split; [done|]. split; [by apply Hj|].
  intros g Hg. apply H2. by apply rest_free.
Qed.

Lemma block_rest k b : block k b -> (forall g, g ∈ rest -> g ∉ eight k) -> forall g, g ∈ rest -> ~ in_frame g b.
Proof. intros Hb Hr. apply (block_apart k); [|done]. intros g Hg Hg'. by apply (Hr g). Qed.

Lemma tx_ready : tx_inv s' 0 [].
Proof.
  split; rewrite ?(ad_txq _ _ HA), ?(qr_txq _ _ HQ); cbn [length].
  - exact inv_now.
  - exact ring_tx.
  - intros b Hb. apply queue_block in Hb. split; [rewrite owns_now; by destruct (block_free j b Hb eight_j)|].
    change (free (abs (pmm s') (memory s'))) with (frames_free s'). rewrite free_now. apply (block_rest j b Hb). intros g Hg. by apply rest_free.
  - pose proof (ro_size _ ring_tx). lia.
  - done.
  - rewrite (ad_idx _ _ HA). exact (qr_idx _ _ HQ).
  - apply loadn_zero. intros b Hb. assert (Hbl : block j b) by (apply queue_block; left; right; pose proof (ro_size _ ring_tx); lia).
    rewrite (block_now j b Hbl eight_j). exact (qr_tx _ _ HQ b Hbl).
  - intros k p Hk. by rewrite lookup_nil in Hk.
  - apply NoDup_nil_2.
Qed.

Lemma host_ready : host_inv net_mac my_ip sp mac ip s' 0 [].
Proof.
  destruct (bo_apart Hboot) as (P1 & P2 & P3). split.
  - exact tx_ready.
  - exact (ad_mac _ _ HA).
  - apply (holds_agree _ _ _ _ _ (ad_agree _ _ HA)); [rewrite (bo_lip Hboot); unfold apart, outside in *; lia|].
    apply (holds_agree _ _ _ _ _ (qr_agree _ _ HQ)); [|exact (bo_ip Hboot)]. rewrite (bo_lip Hboot). intros b Hb.
    assert (Hs : static_bytes net_mac my_ip b) by (right; lia). split; [by destruct (bo_static Hboot b Hs)|].
    split; intros Hbl; [destruct (block_free i b Hbl eight_i)|destruct (block_free j b Hbl eight_j)]; tauto.
  - exact (dv_lmac Hdev).
  - exact (bo_lip Hboot).
  - apply reserved_now; [exact (bo_static Hboot)|]. intros b Hb Hbl. destruct (block_free j b Hbl eight_j); tauto.
  - apply reserved_now; [exact (bo_stack Hboot)|]. intros b Hb Hbl. destruct (block_free j b Hbl eight_j); tauto.
  - done.
Qed.

Lemma rx_ready : rx_inv net_mac my_ip sp ip s' [] 0 size [].
Proof.
  pose proof ring_rx as Hr. pose proof (ro_size _ Hr) as Hsz. cbn [queue_at qsize] in Hsz.
  split; rewrite ?(ad_rxq _ _ HA), ?(qr_rxq _ _ HQ); cbn [length].
  - done.
  - apply private_now. intros b Hb. apply queue_block in Hb. split; [by destruct (block_free i b Hb eight_i)|]. split; [by apply blocks_apart|].
    apply (block_rest i b Hb). intros g Hg. by apply rest_free.
  - intros b Hb. apply queue_block in Hb. by destruct (block_free i b Hb eight_i).
  - done.
  - rewrite u16_id by lia. rewrite <- (qr_avail _ _ HQ). apply loadn_ext. intros b Hb. apply (block_now i b); [|exact eight_i].
    apply queue_block. left. right. pose proof (ro_size _ Hr). lia.
  - apply loadn_zero. intros b Hb. assert (Hd : device_bytes rx b) by (unfold device_bytes; pose proof (ro_size _ Hr); lia).
    rewrite (block_now i b); [by apply (qr_used _ _ HQ)|apply queue_block; by right|exact eight_i].
  - cbn [queue_at qsize]. lia.
  - intros k p Hk. by rewrite lookup_nil in Hk.
  - intros k k' p p' Hk. by rewrite lookup_nil in Hk.
Qed.

Lemma offered_now (k : nat) g : bufs !! k = Some g -> offered s' (Z.of_nat k) g.
Proof.
  intros Hk. pose proof (lookup_lt_Some _ _ _ Hk). refine (offered_kept s3 s' _ g _ _ (qr_offered _ _ HQ k g Hk)); [apply HA|].
  rewrite (qr_rxq _ _ HQ). intros b Hb. apply (block_now i b); [|exact eight_i]. apply queue_block. left.
  eapply entries_driver; [..|exact Hb]; cbn [queue_at qsize]; [lia|]. pose proof (bo_bufs Hboot). lia.
Qed.
End Addressed.

(** The whole of [net_init]. *)
Lemma net_init_runs : exists f b0 s3 s', net_init net_mac device s = Some ((), s') /\
  queues_ready b0 s3 /\ addressed s3 s' /\ (f = 0 \/ f = 1) /\
  writes (regs s') = writes (regs s) ++ at_base (negotiation f ++ announced 0 rx ++ announced 1 tx ++
                                                 [(VIRTIO_REG_QUEUE_NOTIFY, 0); (VIRTIO_REG_STATUS, 15)]).
Proof.
  destruct negotiate as (f & b0 & E0 & Hf & W0). destruct (set_up_queues b0) as (s3 & E3 & HQ).
  destruct (read_mac_ok device net_mac mac 0 s3) as (b4 & E4 & W4).
  { intros b k c Hk. rewrite Z.add_0_l. exact (dv_mac Hdev b k c Hk). }
  rewrite (dv_lmac Hdev), Z.add_0_r in E4. set (m := store_bytes (memory s3) net_mac mac) in *.
  set (s' := with_regs (write32 b4 (VIRTIO_NET_BASE + VIRTIO_REG_STATUS) 15) (with_memory m (with_regs b4 s3))).
  exists f, b0, s3, s'. split.
  { rewrite E0. unfold enabling. rewrite E3. by rewrite (n_bind _ _ s3 (with_memory m (with_regs b4 s3)) () E4). }
  split; [done|]. split; [|split; [done|]].
  - split; try done.
    + pose proof (store_bytes_outside (memory s3) net_mac mac) as H. by rewrite (dv_lmac Hdev) in H.
    + apply holds_store_bytes_at. intros c Hc. apply list_elem_of_lookup_1 in Hc as [k Hk].
      rewrite <- (dv_mac Hdev [] k c Hk). apply Z.mod_pos_bound. lia.
  - unfold s', write32. cbn [regs with_regs]. rewrite writes_app, W4, (qr_writes _ _ HQ), W0.
    unfold at_base. rewrite !fmap_app, <- !(assoc_L (++)). done.
Qed.

(** C29 Set-up: on a device that offers its features and queues of [size]
    entries, and with the allocator's frames adjacent as after booting,
    [net_init] establishes the invariants of the transmit queue, which is
    empty, and of the receive queue, in which every descriptor offers a free
    frame; it tells the device the addresses of both and nothing else. *)
Theorem net_init_ready :
  exists s' f, net_init net_mac device s = Some ((), s') /\
    host_inv net_mac my_ip sp mac ip s' 0 [] /\ rx_inv net_mac my_ip sp ip s' [] 0 size [] /\
    rxq s' = rx /\ txq s' = tx /\ frames_free s' = rest /\
    (forall (k : nat) g, bufs !! k = Some g -> offered s' (Z.of_nat k) g) /\ (f = 0 \/ f = 1) /\
    writes (regs s') = writes (regs s) ++ at_base (negotiation f ++ announced 0 rx ++ announced 1 tx ++
                                                   [(VIRTIO_REG_QUEUE_NOTIFY, 0); (VIRTIO_REG_STATUS, 15)]).
Proof.
  destruct net_init_runs as (f & b0 & s3 & s' & E & HQ & HA & Hf & W). exists s', f. split; [done|].
  split; [by eapply host_ready|]. split; [by eapply rx_ready|].
  split; [by rewrite (ad_rxq _ _ HA), (qr_rxq _ _ HQ)|]. split; [by rewrite (ad_txq _ _ HA), (qr_txq _ _ HQ)|].
  split; [by eapply free_now|]. split; [intros k g; by eapply offered_now|]. done.
Qed.

(** Only the allocator's bytes, the frames of the queues and [net_mac] are
    written. *)
Lemma net_init_writes : exists s', net_init net_mac device s = Some ((), s') /\ (forall b, owns (pmm s') b <-> owns (pmm s) b) /\
  agree (fun b => (~ owns (pmm s) b /\ ~ block i b /\ ~ block j b) /\ outside net_mac (net_mac + 6) b) (memory s) (memory s').
Proof.
  destruct net_init_runs as (f & b0 & s3 & s' & E & HQ & HA & _). exists s'. split; [done|]. split; [by eapply owns_now|].
  eapply agree_trans; [exact (qr_agree _ _ HQ)|exact (ad_agree _ _ HA)].
Qed.
End Init.
End NetInit.
