(* ===== verification/NetService.v ===== *)
(** * The driver in service

    From [net_init] on, every sequence of arrivals, completed transmissions,
    interrupts and ARP requests. The device's part is
    what a virtio device promises: it writes its own rings and the buffers it was
    offered, and reports each buffer once. Beyond that the code relies on
    transmissions completed in order, on room in the transmit ring and on
    well-formed echo requests, and so do the theorems. *)

From S2P Require Import Prelude Memory CString Pmm Bytes Mmio Net NetChecksum NetFrames NetSend NetTrace NetAnswer NetHandle NetPoll NetIrq NetInit.

Module NetService.
Import CString Pmm Net NetFrames NetSend NetAnswer NetHandle NetPoll NetIrq NetInit.

Section Host.
Context (net_mac my_ip sp : Z) (mac ip : list Z) (device : bus -> Z -> Z).
Context (bufs : list Z).

Abbreviation host_inv := (host_inv net_mac my_ip sp mac ip).
Abbreviation rx_inv := (rx_inv net_mac my_ip sp ip).
Abbreviation static_bytes := (static_bytes net_mac my_ip).
Abbreviation stack_bytes := (stack_bytes sp).

(** ** The receive buffers *)

(** Descriptor [k] of the receive queue always describes the frame [bufs !! k]. *)
Record pool (s : net_state) (l : list (Z * list Z)) : Prop := {
  pl_len : Z.of_nat (length bufs) = qsize (rxq s);
  pl_addr : forall (k : nat) f, bufs !! k = Some f -> load64 (memory s) (desc (rxq s) + 16 * Z.of_nat k) = frame_addr f;
  pl_private : forall (k : nat) f, bufs !! k = Some f -> private s l (in_frame f);
  pl_apart : forall (k : nat) f b, bufs !! k = Some f -> in_frame f b ->
               ~ static_bytes b /\ ~ stack_bytes b /\ ~ queue_bytes (rxq s) b;
  pl_distinct : NoDup bufs;
}.

Lemma pool_stays s l s' l' : pool s l -> stays s l s' l' -> pool s' l'.
Proof.
  intros [P1 P2 P3 P4 P5] [Y1 Y2 [v Hv]]. rewrite <- (P1) in Y1. split; rewrite ?Hv; try done.
  - intros k f Hk. cbn [desc with_last_used]. rewrite <- (P2 k f Hk). apply (agree_loadn _ 8 _ _ _ Y1).
    pose proof (lookup_lt_Some _ _ _ Hk). lia.
  - intros k f Hk. apply Y2. by apply (P3 k).
Qed.

(** The packet is in the buffer of its descriptor. *)
Definition from_pool (pk : rx_packet) : Prop :=
  0 <= rx_id pk /\ exists f, bufs !! Z.to_nat (rx_id pk) = Some f /\ rx_buf pk = frame_addr f.

Lemma from_pool_id pk : from_pool pk -> 0 <= rx_id pk < Z.of_nat (length bufs).
Proof. intros (H & f & Hf & _). pose proof (lookup_lt_Some _ _ _ Hf). lia. Qed.

(** No more packets than buffers. *)
Lemma ids_bound pks : Forall from_pool pks -> NoDup (rx_id <$> pks) -> (length pks <= length bufs)%nat.
Proof.
  intros Hf Hn. assert (H : (rx_id <$> pks) ⊆+ seqZ 0 (Z.of_nat (length bufs))).
  { apply NoDup_submseteq; [done|]. intros x Hx. apply list_elem_of_fmap in Hx as (pk & -> & Hpk).
    rewrite list.Forall_forall in Hf. apply elem_of_seqZ. pose proof (from_pool_id pk (Hf pk Hpk)). lia. }
  apply submseteq_length in H. rewrite length_fmap, length_seqZ in H. lia.
Qed.

Lemma pool_buffers s l pj pk b : pool s l -> from_pool pj -> from_pool pk -> rx_id pj <> rx_id pk -> buffer_bytes pj b -> ~ buffer_bytes pk b.
Proof.
  intros HP (Hj0 & f & Hf & Ej) (Hk0 & g & Hg & Ek) Hne. unfold buffer_bytes. rewrite Ej, Ek. intros H1 H2.
  assert (f = g) by (apply (in_frame_eq f g b); done). subst g.
  pose proof (NoDup_lookup _ _ _ _ (pl_distinct _ _ HP) Hf Hg). lia.
Qed.

(** ** What the device may do *)

(** A packet is in its buffer. *)
Record arrived (m : mem) (pk : rx_packet) : Prop := {
  av_holds : holds m (rx_buf pk + 10) (rx_data pk);
  av_size : 0 <= rx_len pk <= Z.of_nat (length (rx_data pk));
  av_fit : 10 + Z.of_nat (length (rx_data pk)) <= 4096;
  av_trusted : trusted ip (rx_len pk) (rx_data pk);
}.

(** The packets in [new] arrive: the memory becomes [m]. *)
Record delivers (s : net_state) (R : Z) (pend new : list rx_packet) (m : mem) : Prop := {
  dl_agree : agree (fun b => ~ device_bytes (rxq s) b /\ forall pk, pk ∈ new -> ~ buffer_bytes pk b) (memory s) m;
  dl_idx : load16 m (used (rxq s) + 2) = u16 (R + Z.of_nat (length (pend ++ new)));
  dl_used : forall (k : nat) pk, (pend ++ new) !! k = Some pk ->
    let entry := used (rxq s) + 4 + 8 * ((R + Z.of_nat k) mod qsize (rxq s)) in
    load32 m entry = rx_id pk /\ load32 m (entry + 4) = 10 + rx_len pk;
  dl_pool : Forall from_pool new;
  dl_once : NoDup (rx_id <$> (pend ++ new));
  dl_data : forall pk, pk ∈ new -> arrived m pk;
}.

(** ** The driver's state and its abstraction *)

(** Packets in flight, how many of them the device has sent, the packets that
    wait for the interrupt, and the counts of those that went before. *)
Record service := Service {
  base : Z; flight : list (Z * list Z); ndone : nat;
  seen : Z; given : Z; pend : list rx_packet;
}.

Record driver (s : net_state) (g : service) : Prop := {
  dr_host : host_inv s (base g) (flight g);
  dr_rx : rx_inv s (flight g) (seen g) (given g) (pend g);
  dr_pool : pool s (flight g);
  dr_from : Forall from_pool (pend g);
  dr_once : NoDup (rx_id <$> pend g);
  dr_done : completed s (base g) (Z.of_nat (ndone g));
  dr_le : (ndone g <= length (flight g))%nat;
}.

Inductive event :=
| Deliver (m : mem) (new : list rx_packet)
| Sent (m : mem) (k : nat)
| Irq (fuel : nat)
| Request.

Definition exec (e : event) (s : net_state) : option net_state :=
  match e with
  | Deliver m _ | Sent m _ => Some (with_memory m s)
  | Irq fuel => snd <$> virtio_net_handle_irq net_mac my_ip sp device fuel s
  | Request => snd <$> arp_request_gateway net_mac my_ip sp s
  end.

(** The queue bit of the interrupt status. *)
Definition queue_irq (s : net_state) : bool :=
  Z.testbit (u32 (device (regs s) (VIRTIO_NET_BASE + VIRTIO_REG_INTERRUPT_STATUS))) 0.

(** The ARP request for the gateway 10.0.2.2. *)
Definition gateway_request : list Z := eth_bytes (repeat 255 6) mac 0x0806 (arp_bytes 1 mac ip (repeat 0 6) [10; 0; 2; 2]).

Definition spec (e : event) (s : net_state) (g : service) : service :=
  match e with
  | Deliver _ new => Service (base g) (flight g) (ndone g) (seen g) (given g) (pend g ++ new)
  | Sent _ k => Service (base g) (flight g) k (seen g) (given g) (pend g)
  | Irq _ =>
      if queue_irq s then
        Service (base g + Z.of_nat (ndone g))
          (drop (ndone g) (flight g ++ answers (due mac ip <$> pend g) (frames_free s))) 0
          (seen g + Z.of_nat (length (pend g))) (given g + Z.of_nat (length (pend g))) []
      else g
  | Request => Service (base g) (flight g ++ appended (Some gateway_request) s) (ndone g) (seen g) (given g) (pend g)
  end.

(** The device keeps to the protocol and completes transmissions in order, the
    packets are trusted, the transmit ring has room for what the step may send,
    and the loops have fuel for the packets there are. *)
Definition allowed (e : event) (s : net_state) (g : service) : Prop :=
  match e with
  | Deliver m new => delivers s (seen g) (pend g) new m
  | Sent m k =>
      agree (fun b => ~ device_bytes (txq s) b) (memory s) m /\ (ndone g <= k <= length (flight g))%nat /\
      completed (with_memory m s) (base g) (Z.of_nat k)
  | Irq fuel =>
      Z.of_nat (length (flight g)) + Z.of_nat (length (pend g)) <= qsize (txq s) /\
      (length (pend g) < fuel)%nat /\ (ndone g < fuel)%nat
  | Request => Z.of_nat (length (flight g)) < qsize (txq s)
  end.

Fixpoint run (es : list event) (s : net_state) (g : service) : option (net_state * service) :=
  match es with
  | [] => Some (s, g)
  | e :: es => s' ← exec e s; run es s' (spec e s g)
  end.

Fixpoint all_allowed (es : list event) (s : net_state) (g : service) : Prop :=
  match es with
  | [] => True
  | e :: es => allowed e s g /\ forall s', exec e s = Some s' -> all_allowed es s' (spec e s g)
  end.

(** ** The device's steps *)

(** A change of bytes that are nobody's but the device's. *)
Section Memory.
Context (s : net_state) (L : Z) (l : list (Z * list Z)) (m : mem) (K : Z -> Prop).
Context (Hhost : host_inv s L l) (Hag : agree (fun b => ~ K b) (memory s) m).
Context (HK : forall b, K b -> ~ owns (pmm s) b /\ ~ driver_bytes (txq s) b /\ forall i, i ∈ l.*1 -> ~ in_frame i b).
Context (Hst : forall b, K b -> ~ static_bytes b).

Lemma memory_frames : frames_free (with_memory m s) = frames_free s.
Proof using Hag HK Hhost. exact (proj2 (memory_inv s L l m K (ho_tx _ _ _ _ _ _ _ _ Hhost) Hag HK)). Qed.

Lemma memory_private K' : private s l K' -> private (with_memory m s) l K'.
Proof using Hag HK Hhost. intros H b Hb. rewrite memory_frames. exact (H b Hb). Qed.

Lemma memory_host : host_inv (with_memory m s) L l.
Proof using Hag HK Hhost Hst.
  pose proof (proj1 (memory_inv s L l m K (ho_tx _ _ _ _ _ _ _ _ Hhost) Hag HK)) as Htx.
  destruct Hhost as [H1 H2 H3 H4 H5 H6 H7 H8]. split; try done.
  - eapply holds_agree; [exact Hag| |done]. rewrite H4. intros b Hb Hk. apply (Hst b Hk). left. lia.
  - eapply holds_agree; [exact Hag| |done]. rewrite H5. intros b Hb Hk. apply (Hst b Hk). right. lia.
  - by apply memory_private.
  - by apply memory_private.
Qed.

(** Bytes that the receive side does not use either. *)
Lemma memory_rx R A pks : rx_inv s l R A pks ->
  (forall b, K b -> ~ queue_bytes (rxq s) b /\ forall pk, pk ∈ pks -> ~ buffer_bytes pk b) -> rx_inv (with_memory m s) l R A pks.
Proof using Hag HK Hhost.
  intros [H1 H2 H3 H4 H5 H6 H7 H8 H9] Hq. pose proof (ro_size _ H1).
  assert (Hag2 : agree (queue_bytes (rxq s)) (memory s) m) by (intros b Hb; apply Hag; intros Hk; by apply (Hq b Hk)).
  split; cbn [rxq memory with_memory]; try done.
  - by apply memory_private.
  - rewrite (agree_loadn _ 2 _ _ _ Hag2); [done|]. intros b Hb. left. right. lia.
  - rewrite (agree_loadn _ 2 _ _ _ Hag2); [done|]. intros b Hb. right. unfold device_bytes. lia.
  - intros k pk Hk. pose proof (H8 k pk Hk) as Hr.
    refine (received_kept net_mac my_ip sp ip s (with_memory m s) l l _ pk Hr _ _ _ _ _ _ _); try done; [by apply slot_range| |apply memory_private, Hr].
    intros b [Hb|[Hb|Hb]]; [apply Hag2; left; by left|apply Hag2; by right|].
    apply Hag. intros Hk'. apply (proj2 (Hq b Hk') pk); [|done]. by apply list_elem_of_lookup_2 in Hk.
Qed.

Lemma memory_stays : (forall b, K b -> ~ driver_bytes (rxq s) b) -> stays s l (with_memory m s) l.
Proof using Hag HK Hhost.
  intros Hd. split; [|exact memory_private|exact (sy_queue _ _ _ _ (stays_refl s l))].
  intros b Hb. apply Hag. intros Hk. apply (Hd b Hk). by left.
Qed.
End Memory.

Lemma sent_ok m k s g : driver s g -> allowed (Sent m k) s g -> driver (with_memory m s) (spec (Sent m k) s g).
Proof.
  intros [H1 H2 H3 H4 H5 H6 H7] (Hag & Hk & Hc). pose proof (ho_tx _ _ _ _ _ _ _ _ H1) as Htx.
  assert (HK : forall b, device_bytes (txq s) b -> ~ owns (pmm s) b /\ ~ driver_bytes (txq s) b /\ forall i, i ∈ (flight g).*1 -> ~ in_frame i b).
  { intros b Hb. destruct (tx_reserved _ _ _ Htx b (or_intror Hb)) as [Ho _]. destruct (tx_ring _ _ _ Htx). split; [done|].
    split; [unfold driver_bytes, device_bytes in *; lia|]. intros i Hi. exact (hd_apart _ _ (flight_held _ _ _ _ Htx Hi) b (or_intror Hb)). }
  assert (Hpriv : forall K, private s (flight g) K -> forall b, device_bytes (txq s) b -> ~ K b).
  { intros K HKp b Hb Hk'. destruct (HKp b Hk') as (_ & Hq & _). apply Hq. by right. }
  pose proof (Hpriv _ (rx_private _ _ _ _ _ _ _ _ _ H2)) as Hrx.
  assert (Hrd : forall b, device_bytes (txq s) b -> ~ driver_bytes (rxq s) b) by (intros b Hb Hd; apply (Hrx b Hb); by left).
  split; cbn [base flight ndone seen given pend spec]; try done; [| | |lia].
  - apply (memory_host s (base g) (flight g) m _ H1 Hag HK). apply Hpriv, H1.
  - apply (memory_rx s (base g) (flight g) m _ H1 Hag HK _ _ _ H2). intros b Hb. split; [by apply Hrx|]. intros pk Hpk.
    apply list_elem_of_lookup_1 in Hpk as [x Hx]. by apply (Hpriv _ (rc_private _ _ _ _ _ _ _ _ (rx_pending _ _ _ _ _ _ _ _ _ H2 x pk Hx))).
  - eapply pool_stays; [exact H3|]. exact (memory_stays s (base g) (flight g) m _ H1 Hag HK Hrd).
Qed.

(** Ranges without a common byte. *)
Lemma apart_points p n a k : 0 < n -> 0 < k -> (forall b, p <= b < p + n -> ~ a <= b < a + k) -> apart p n a k.
Proof.
  intros Hn Hk H. unfold apart. pose proof (H p). pose proof (H a). lia.
Qed.

Section Deliver.
Context (s : net_state) (g : service) (m : mem) (new : list rx_packet).
Context (Hdr : driver s g) (Hdl : delivers s (seen g) (pend g) new m).

Definition arriving (b : Z) : Prop := device_bytes (rxq s) b \/ exists pk, pk ∈ new /\ buffer_bytes pk b.

Lemma arriving_agree : agree (fun b => ~ arriving b) (memory s) m.
Proof.
  intros b Hb. apply (dl_agree _ _ _ _ _ Hdl). split; [intros H; apply Hb; by left|].
  intros pk Hpk H. apply Hb. right. by exists pk.
Qed.

Lemma all_pool pk : pk ∈ pend g ++ new -> from_pool pk.
Proof.
  rewrite elem_of_app. pose proof (dr_from _ _ Hdr) as H1. pose proof (dl_pool _ _ _ _ _ Hdl) as H2.
  rewrite list.Forall_forall in H1, H2. intros [H|H]; [by apply H1|by apply H2].
Qed.

(** What holds of a frame of the pool holds of a packet's buffer. *)
Lemma buffer_pool pk : from_pool pk -> private s (flight g) (buffer_bytes pk) /\
  forall b, buffer_bytes pk b -> ~ static_bytes b /\ ~ stack_bytes b /\ ~ queue_bytes (rxq s) b.
Proof.
  intros (H0 & f & Hf & E). unfold buffer_bytes. rewrite E. split; [exact (pl_private _ _ (dr_pool _ _ Hdr) _ f Hf)|].
  intros b. exact (pl_apart _ _ (dr_pool _ _ Hdr) _ f b Hf).
Qed.

Lemma arriving_private : private s (flight g) arriving.
Proof.
  intros b [Hb|(pk & Hpk & Hb)].
  - exact (rx_private _ _ _ _ _ _ _ _ _ (dr_rx _ _ Hdr) b (or_intror Hb)).
  - exact (proj1 (buffer_pool pk (all_pool pk ltac:(apply elem_of_app; by right))) b Hb).
Qed.

Lemma arriving_K b : arriving b -> ~ owns (pmm s) b /\ ~ driver_bytes (txq s) b /\ forall i, i ∈ (flight g).*1 -> ~ in_frame i b.
Proof.
  intros Hb. destruct (arriving_private b Hb) as (H1 & H2 & H3). split; [done|]. split; [intros H; apply H2; by left|].
  intros i Hi. apply H3. apply elem_of_app. by right.
Qed.

Lemma arriving_static b : arriving b -> ~ static_bytes b.
Proof.
  intros [Hb|(pk & Hpk & Hb)].
  - by apply (rx_static _ _ _ _ _ _ _ _ _ (dr_rx _ _ Hdr) b (or_intror Hb)).
  - by apply (proj2 (buffer_pool pk (all_pool pk ltac:(apply elem_of_app; by right))) b Hb).
Qed.

Lemma arriving_driver b : arriving b -> ~ driver_bytes (rxq s) b.
Proof.
  intros [Hb|(pk & Hpk & Hb)] Hd.
  - destruct (rx_ring _ _ _ _ _ _ _ _ _ (dr_rx _ _ Hdr)). unfold driver_bytes, device_bytes in *. lia.
  - destruct (proj2 (buffer_pool pk (all_pool pk ltac:(apply elem_of_app; by right))) b Hb) as (_ & _ & H). apply H. by left.
Qed.

Abbreviation s' := (with_memory m s).

Lemma delivered_pool : pool s' (flight g).
Proof.
  eapply pool_stays; [exact (dr_pool _ _ Hdr)|].
  exact (memory_stays s (base g) (flight g) m _ (dr_host _ _ Hdr) arriving_agree arriving_K arriving_driver).
Qed.

(** A packet's data after the arrival. *)
Lemma delivered_data (k : nat) pk : (pend g ++ new) !! k = Some pk ->
  arrived m pk.
Proof.
  intros Hk. destruct (lookup_app_Some (pend g) new k pk) as [Hl _].
  destruct (Hl Hk) as [Hp|[Hge Hn]]; [|apply (dl_data _ _ _ _ _ Hdl); by apply list_elem_of_lookup_2 in Hn].
  pose proof (rx_pending _ _ _ _ _ _ _ _ _ (dr_rx _ _ Hdr) k pk Hp) as Hr. pose proof (rc_fit _ _ _ _ _ _ _ _ Hr).
  split; [|apply Hr|done|apply Hr]. eapply holds_agree; [exact arriving_agree| |exact (rc_data _ _ _ _ _ _ _ _ Hr)].
  intros b Hb. assert (Hbuf : buffer_bytes pk b) by (unfold buffer_bytes; lia).
  pose proof (all_pool pk ltac:(by apply list_elem_of_lookup_2 in Hk)) as Hpk.
  intros [Hd|(pj & Hj & Hbj)].
  - apply (proj2 (buffer_pool pk Hpk) b Hbuf). by right.
  - apply list_elem_of_lookup_1 in Hj as [x Hx]. refine (pool_buffers s (flight g) pk pj b (dr_pool _ _ Hdr) Hpk _ _ Hbuf Hbj).
    + apply all_pool, elem_of_app. right. by apply list_elem_of_lookup_2 in Hx.
    + intros Hid. pose proof (lookup_lt_Some _ _ _ Hp). pose proof (dl_once _ _ _ _ _ Hdl) as Hn.
      assert (H1 : (rx_id <$> (pend g ++ new)) !! k = Some (rx_id pk)) by (by rewrite list_lookup_fmap, Hk).
      assert (H2 : (rx_id <$> (pend g ++ new)) !! (length (pend g) + x)%nat = Some (rx_id pk)).
      { rewrite list_lookup_fmap, lookup_app_r by lia. replace (length (pend g) + x - length (pend g))%nat with x by lia. by rewrite Hx, Hid. }
      pose proof (NoDup_lookup _ _ _ _ Hn H1 H2). lia.
Qed.

Lemma delivered_received (k : nat) pk : (pend g ++ new) !! k = Some pk ->
  received net_mac my_ip sp ip s' (flight g) ((seen g + Z.of_nat k) mod qsize (rxq s)) pk.
Proof.
  intros Hk. pose proof (all_pool pk ltac:(by apply list_elem_of_lookup_2 in Hk)) as Hpk.
  destruct (delivered_data k pk Hk) as [D1 D2 D3 D4]. destruct (dl_used _ _ _ _ _ Hdl k pk Hk) as [U1 U2].
  destruct (buffer_pool pk Hpk) as [B1 B2]. pose proof (pl_len _ _ (dr_pool _ _ Hdr)) as Hlen. pose proof (from_pool_id pk Hpk).
  assert (Hap : forall a n, 0 < n -> (forall b, a <= b < a + n -> static_bytes b \/ stack_bytes b) -> apart (rx_buf pk) 4096 a n).
  { intros a n Hn Ha. apply apart_points; [lia|done|]. intros b Hb Hc. destruct (B2 b Hb) as (H1 & H2 & _). by destruct (Ha b Hc). }
  split; cbn [rxq memory with_memory]; try done.
  - lia.
  - destruct Hpk as (H0 & f & Hf & ->). rewrite <- (pl_addr _ _ delivered_pool _ f Hf). cbn [memory rxq with_memory]. do 3 f_equal. lia.
  - exact (memory_private s (base g) (flight g) m _ (dr_host _ _ Hdr) arriving_agree arriving_K _ B1).
  - split; apply Hap; try lia; intros b Hb; left; [by left|by right].
  - assert (Hs : apart (rx_buf pk) 4096 (sp - 10) 4106); [|unfold apart in *; lia].
    apply Hap; [lia|]. intros b Hb. right. unfold NetHandle.stack_bytes. lia.
  - intros b Hq Hb. by apply (B2 b Hb).
Qed.

Lemma deliver_ok : driver s' (spec (Deliver m new) s g).
Proof.
  pose proof (dr_rx _ _ Hdr) as [H1 H2 H3 H4 H5 H6 H7 H8 H9]. pose proof (ro_size _ H1).
  pose proof (memory_private s (base g) (flight g) m _ (dr_host _ _ Hdr) arriving_agree arriving_K) as Hpriv.
  assert (Hall : Forall from_pool (pend g ++ new)) by (rewrite list.Forall_forall; exact all_pool).
  split; cbn [base flight ndone seen given pend spec].
  - exact (memory_host s (base g) (flight g) m _ (dr_host _ _ Hdr) arriving_agree arriving_K arriving_static).
  - split; cbn [rxq memory with_memory]; try done.
    + by apply Hpriv.
    + rewrite (agree_loadn _ 2 _ _ _ arriving_agree); [done|]. intros b Hb Ha. apply (arriving_driver b Ha). right. lia.
    + exact (dl_idx _ _ _ _ _ Hdl).
    + pose proof (ids_bound _ Hall (dl_once _ _ _ _ _ Hdl)). rewrite <- (pl_len _ _ (dr_pool _ _ Hdr)). lia.
    + exact delivered_received.
    + intros j k pj pk Hj Hk Hne b. apply (pool_buffers s (flight g)); [exact (dr_pool _ _ Hdr)| | |].
      * apply all_pool. by apply list_elem_of_lookup_2 in Hj.
      * apply all_pool. by apply list_elem_of_lookup_2 in Hk.
      * intros Hid. apply Hne. apply (NoDup_lookup _ _ _ (rx_id pj) (dl_once _ _ _ _ _ Hdl)); rewrite list_lookup_fmap; [by rewrite Hj|by rewrite Hk, Hid].
  - exact delivered_pool.
  - done.
  - exact (dl_once _ _ _ _ _ Hdl).
  - pose proof (tx_ring _ _ _ (ho_tx _ _ _ _ _ _ _ _ (dr_host _ _ Hdr))) as Hr.
    refine (NetTrace.completed_kept s s' _ _ Hr eq_refl eq_refl _ (dr_done _ _ Hdr)).
    intros b Hb. apply arriving_agree. intros Ha. destruct (arriving_private b Ha) as (_ & Hq & _). apply Hq. by right.
  - exact (dr_le _ _ Hdr).
Qed.
End Deliver.

(** ** The driver's steps *)

Lemma driver_regs v s g : driver s g -> driver (with_regs v s) g.
Proof.
  intros [H1 H2 H3 H4 H5 H6 H7]. split; try done; [by apply host_inv_regs|by apply rx_inv_regs|].
  eapply pool_stays; [exact H3|apply stays_regs].
Qed.

Lemma irq_step fuel s g : driver s g -> allowed (Irq fuel) s g ->
  exists s', exec (Irq fuel) s = Some s' /\ driver s' (spec (Irq fuel) s g) /\
    frames_free s' ++ (flight (spec (Irq fuel) s g)).*1 ≡ₚ frames_free s ++ (flight g).*1 /\ qsize (txq s') = qsize (txq s).
Proof.
  intros Hdr (Hroom & Hf1 & Hf2). pose proof Hdr as [H1 H2 H3 H4 H5 H6 H7].
  pose proof (irq_ok net_mac my_ip sp mac ip device (pend g) s (base g) (flight g) (seen g) (given g) (ndone g) fuel H1 H2 H6 H7 Hroom Hf1 Hf2) as H.
  cbv zeta in H. cbn [exec spec]. unfold queue_irq. destruct (Z.testbit _ 0).
  - destruct H as (s' & E & G1 & G2 & _ & G4 & G5 & G6 & G7). exists s'. rewrite E. split; [done|]. split; [|by rewrite G7].
    split; cbn [base flight ndone seen given pend]; try done; [eapply pool_stays; [exact H3|exact G5]|apply NoDup_nil_2|lia].
  - rewrite H. eexists. split; [done|]. split; [|done]. by apply driver_regs.
Qed.

(** A step that only sends what it wrote in the local buffers. *)
Section Handled.
Context (s : net_state) (g : service) (r : option (list Z)) (s' : net_state).
Context (Hdr : driver s g) (Hh : handled stack_bytes s (base g) (flight g) r s').

Abbreviation l' := (flight g ++ appended r s).

Lemma stack_apart K : private s (flight g) K -> (forall b, K b -> ~ stack_bytes b) -> agree K (memory s) (memory s').
Proof. intros HK Hd. exact (handled_kept _ _ _ _ _ _ _ HK Hd Hh). Qed.

Lemma handled_host : host_inv s' (base g) l'.
Proof.
  destruct (dr_host _ _ Hdr) as [H1 H2 H3 H4 H5 H6 H7 [A1 A2]].
  assert (Hag : agree static_bytes (memory s) (memory s')).
  { apply (stack_apart _ H6). intros b Hb. unfold NetHandle.static_bytes, NetHandle.stack_bytes, apart in *. lia. }
  split; try done; [apply Hh| | | |].
  - eapply holds_agree; [exact Hag| |done]. unfold NetHandle.static_bytes. lia.
  - eapply holds_agree; [exact Hag| |done]. unfold NetHandle.static_bytes. lia.
  - exact (handled_private _ _ _ _ _ _ _ H6 Hh).
  - exact (handled_private _ _ _ _ _ _ _ H7 Hh).
Qed.

Lemma handled_queue : agree (queue_bytes (rxq s)) (memory s) (memory s').
Proof.
  pose proof (dr_rx _ _ Hdr) as Hrx. apply (stack_apart _ (rx_private _ _ _ _ _ _ _ _ _ Hrx)).
  intros b Hb. by apply (rx_static _ _ _ _ _ _ _ _ _ Hrx b Hb).
Qed.

Lemma handled_stays : stays s (flight g) s' l'.
Proof.
  split; [|intros K HK; exact (handled_private _ _ _ _ _ _ _ HK Hh)|].
  - intros b Hb. apply handled_queue. left. by left.
  - exists (last_used_idx (rxq s)). rewrite (ha_rxq _ _ _ _ _ _ Hh). by destruct (rxq s).
Qed.

Lemma handled_rx : rx_inv s' l' (seen g) (given g) (pend g).
Proof.
  pose proof (dr_rx _ _ Hdr) as [H1 H2 H3 H4 H5 H6 H7 H8 H9]. pose proof (ro_size _ H1). pose proof (ha_rxq _ _ _ _ _ _ Hh) as Eq.
  split; rewrite ?Eq; try done.
  - exact (handled_private _ _ _ _ _ _ _ H2 Hh).
  - rewrite (agree_loadn _ 2 _ _ _ handled_queue); [done|]. intros b Hb. left. right. lia.
  - rewrite (agree_loadn _ 2 _ _ _ handled_queue); [done|]. intros b Hb. right. unfold device_bytes. lia.
  - intros k pk Hk. pose proof (H8 k pk Hk) as Hr.
    refine (received_kept net_mac my_ip sp ip s s' (flight g) l' _ pk Hr _ _ _ _ _ _ _); rewrite ?Eq; try done; [by apply slot_range| |].
    + intros b [Hb|[Hb|Hb]]; [apply handled_queue; left; by left|apply handled_queue; by right|].
      apply (stack_apart _ (rc_private _ _ _ _ _ _ _ _ Hr)); [|done]. intros x Hx. pose proof (rc_stack _ _ _ _ _ _ _ _ Hr).
      unfold apart, buffer_bytes, NetHandle.stack_bytes in *. lia.
    + exact (handled_private _ _ _ _ _ _ _ (rc_private _ _ _ _ _ _ _ _ Hr) Hh).
Qed.

Lemma handled_done : completed s' (base g) (Z.of_nat (ndone g)).
Proof.
  pose proof (ho_tx _ _ _ _ _ _ _ _ (dr_host _ _ Hdr)) as Htx. pose proof (tx_ring _ _ _ Htx) as Hr.
  pose proof (ha_txq _ _ _ _ _ _ Hh) as Eq.
  apply (NetTrace.completed_kept s s'); [done|by rewrite Eq|by rewrite Eq| |exact (dr_done _ _ Hdr)].
  intros b Hb. destruct (tx_reserved _ _ _ Htx b (or_intror Hb)) as [H1 H2]. apply (ha_agree _ _ _ _ _ _ Hh). split; [done|].
  split; [intros i Hi; apply H2; by apply appended_frames in Hi|]. split; [destruct Hr; unfold driver_bytes, device_bytes in *; lia|].
  intros Hst. destruct (ho_stack _ _ _ _ _ _ _ _ (dr_host _ _ Hdr) b Hst) as (_ & Hq & _). apply Hq. by right.
Qed.

Lemma handled_driver : driver s' (Service (base g) l' (ndone g) (seen g) (given g) (pend g)) /\
  frames_free s' ++ l'.*1 ≡ₚ frames_free s ++ (flight g).*1.
Proof.
  split; [split; cbn [base flight ndone seen given pend]; try apply Hdr|].
  - exact handled_host.
  - exact handled_rx.
  - eapply pool_stays; [apply Hdr|exact handled_stays].
  - exact handled_done.
  - pose proof (dr_le _ _ Hdr). rewrite length_app. lia.
  - rewrite (ha_free _ _ _ _ _ _ Hh), fmap_app. apply appended_perm.
Qed.
End Handled.

(** The request for the gateway's address goes out as one packet. *)
Lemma request_handled s g : driver s g -> allowed Request s g ->
  exists s', exec Request s = Some s' /\ handled stack_bytes s (base g) (flight g) (Some gateway_request) s'.
Proof.
  intros Hdr Hroom. pose proof (dr_host _ _ Hdr) as Hhost. destruct (ho_apart _ _ _ _ _ _ _ _ Hhost) as [A1 A2]. unfold apart in *.
  assert (Hlen : Z.of_nat (length gateway_request) = 42).
  { unfold gateway_request, eth_bytes, arp_bytes. rewrite !length_app, (ho_lmac _ _ _ _ _ _ _ _ Hhost), (ho_lip _ _ _ _ _ _ _ _ Hhost). done. }
  assert (Hag : agree (fun b => ~ stack_bytes b) (memory s) (arp_request net_mac my_ip sp (memory s))).
  { intros b Hb. refine ((_ : agree (outside (sp - 10) (sp + 42)) _ _) b _); [|unfold NetHandle.stack_bytes, outside in *; lia].
    eapply arp_request_agree; try apply Hhost; unfold apart; lia. }
  assert (Hr : holds (arp_request net_mac my_ip sp (memory s)) sp gateway_request).
  { apply arp_request_holds; try apply Hhost; unfold apart; lia. }
  destruct (send_handled sp stack_bytes s (base g) (flight g) (arp_request net_mac my_ip sp (memory s)) gateway_request
    (ho_tx _ _ _ _ _ _ _ _ Hhost) (ho_stack _ _ _ _ _ _ _ _ Hhost) Hag Hr) as (s' & E & Hh).
  - intros Hn. by rewrite Hn in Hlen.
  - lia.
  - intros b Hb. unfold NetHandle.stack_bytes. lia.
  - exact Hroom.
  - exists s'. split; [|exact Hh]. rewrite Hlen in E. cbn [exec]. unfold arp_request_gateway.
    rewrite (n_bind _ _ s (with_memory (arp_request net_mac my_ip sp (memory s)) s) ()) by done.
    change (sizeof_ethernet_frame + sizeof_arp_packet) with 42. by rewrite E.
Qed.

Lemma request_step s g : driver s g -> allowed Request s g ->
  exists s', exec Request s = Some s' /\ driver s' (spec Request s g) /\
    frames_free s' ++ (flight (spec Request s g)).*1 ≡ₚ frames_free s ++ (flight g).*1 /\ qsize (txq s') = qsize (txq s).
Proof.
  intros Hdr Hroom. destruct (request_handled s g Hdr Hroom) as (s' & E & Hh). exists s'. split; [exact E|].
  destruct (handled_driver s g _ s' Hdr Hh) as [H1 H2]. split; [exact H1|]. split; [exact H2|by rewrite (ha_txq _ _ _ _ _ _ Hh)].
Qed.

Lemma event_ok e s g : driver s g -> allowed e s g ->
  exists s', exec e s = Some s' /\ driver s' (spec e s g) /\
    frames_free s' ++ (flight (spec e s g)).*1 ≡ₚ frames_free s ++ (flight g).*1 /\ qsize (txq s') = qsize (txq s).
Proof.
  intros Hdr Ha. destruct e as [m new|m k|fuel|]; [| |by apply irq_step|by apply request_step].
  - exists (with_memory m s). split; [done|]. split; [by apply deliver_ok|]. cbn [spec flight]. split; [|done].
    by rewrite (memory_frames s (base g) (flight g) m _ (dr_host _ _ Hdr) (arriving_agree s g m new Ha) (arriving_K s g m new Hdr Ha)).
  - exists (with_memory m s). split; [done|]. split; [by apply sent_ok|]. cbn [spec flight]. split; [|done]. destruct Ha as (Hag & _).
    pose proof (tx_reserved _ _ _ (ho_tx _ _ _ _ _ _ _ _ (dr_host _ _ Hdr))) as Hres.
    unfold frames_free. cbn [pmm memory with_memory]. rewrite (abs_kept _ (memory s)); [done|apply Hdr|].
    intros b Hb. apply Hag. intros Hdb. by apply (Hres b (or_intror Hdb)).
Qed.

Lemma events_ok es s g : driver s g -> all_allowed es s g ->
  exists s' g', run es s g = Some (s', g') /\ driver s' g' /\ frames_free s' ++ (flight g').*1 ≡ₚ frames_free s ++ (flight g).*1.
Proof.
  revert s g. induction es as [|e es IH]; intros s g Hdr Hall; [by exists s, g|]. destruct Hall as [Ha Hall].
  destruct (event_ok e s g Hdr Ha) as (s1 & E & H1 & P1 & _). destruct (IH s1 _ H1 (Hall s1 E)) as (s' & g' & E' & H' & P').
  exists s', g'. split; [cbn [run]; by rewrite E|]. split; [done|by rewrite P'].
Qed.
End Host.

(** ** From [net_init] on *)

Section Boot.
Context (net_mac my_ip sp : Z) (mac ip : list Z) (device : bus -> Z -> Z) (size i j : Z) (bufs rest : list Z) (s : net_state).
Context (Hdev : device_ok mac device size) (Hboot : boot_ok net_mac my_ip sp ip size i j bufs rest s).

Lemma buffers_apart (k : nat) f b : bufs !! k = Some f -> in_frame f b ->
  f ∈ frames_free s /\ ~ block i b /\ ~ block j b /\ forall g, g ∈ rest -> ~ in_frame g b.
Proof.
  intros Hk Hb. pose proof (free_nodup net_mac my_ip sp ip size i j bufs rest s Hboot) as Hnd.
  assert (Hf : f ∈ bufs) by (by apply list_elem_of_lookup_2 in Hk).
  rewrite !list.NoDup_app in Hnd. destruct Hnd as (_ & Hi & _ & Hj & _ & Hr & _).
  split; [rewrite (bo_free _ _ _ _ _ _ _ _ _ _ Hboot), !elem_of_app; tauto|]. split_and!.
  - intros Hbl. apply (block_apart i bufs b) with f; try done. intros g Hg Hg'. apply (Hi g Hg). rewrite !elem_of_app. tauto.
  - intros Hbl. apply (block_apart j bufs b) with f; try done. intros g Hg Hg'. apply (Hj g Hg). rewrite !elem_of_app. tauto.
  - intros g Hg Hgb. apply (Hr f Hf). by rewrite (in_frame_eq f g b).
Qed.

Section Ready.
Context (b0 : bus) (s3 s' : net_state).
Context (HQ : queues_ready size i j bufs rest s b0 s3) (HA : addressed net_mac mac s3 s').

Lemma rxq_ready : rxq s' = queue_at i size.
Proof. by rewrite (ad_rxq _ _ _ _ HA), (qr_rxq _ _ _ _ _ _ _ _ HQ). Qed.

Lemma txq_ready : txq s' = queue_at j size.
Proof. by rewrite (ad_txq _ _ _ _ HA), (qr_txq _ _ _ _ _ _ _ _ HQ). Qed.

Lemma pool_ready : pool net_mac my_ip sp bufs s' [].
Proof.
  pose proof (offered_now net_mac my_ip sp mac ip device size i j bufs rest s Hdev Hboot b0 s3 s' HQ HA) as Hoff.
  split; rewrite ?rxq_ready.
  - exact (bo_bufs _ _ _ _ _ _ _ _ _ _ Hboot).
  - intros k f Hk. pose proof (of_addr _ _ _ (Hoff k f Hk)) as H. by rewrite rxq_ready in H.
  - intros k f Hk. apply (private_now net_mac my_ip sp mac ip device size i j bufs rest s Hdev Hboot b0 s3 s' HQ HA).
    intros b Hb. destruct (buffers_apart k f b Hk Hb) as (Hf & _ & H2 & H3). split; [|done].
    destruct (frame_above _ _ f (bo_inv _ _ _ _ _ _ _ _ _ _ Hboot) Hf) as (Ha & _). unfold owns, in_frame in *. lia.
  - intros k f b Hk Hb. destruct (buffers_apart k f b Hk Hb) as (Hf & H1 & _). split_and!.
    + intros Hs. by apply (bo_static _ _ _ _ _ _ _ _ _ _ Hboot b Hs) in Hb.
    + intros Hs. by apply (bo_stack _ _ _ _ _ _ _ _ _ _ Hboot b Hs) in Hb.
    + intros Hq. apply H1. exact (queue_block mac device size Hdev i b Hq).
  - pose proof (free_nodup net_mac my_ip sp ip size i j bufs rest s Hboot) as Hnd. rewrite !list.NoDup_app in Hnd. tauto.
Qed.

Lemma driver_ready : driver net_mac my_ip sp mac ip bufs s' (Service 0 [] 0 0 size []).
Proof.
  split; cbn [base flight ndone seen given pend].
  - by eapply host_ready.
  - by eapply rx_ready.
  - exact pool_ready.
  - by constructor.
  - by apply NoDup_nil_2.
  - split; [|lia]. rewrite txq_ready. apply loadn_zero. intros b Hb.
    assert (Hbl : block j b).
    { apply (queue_block mac device size Hdev). right. unfold device_bytes.
      pose proof (ro_size _ (ring_tx net_mac my_ip sp mac ip device size i j bufs rest s Hdev Hboot)). lia. }
    rewrite (block_now net_mac my_ip sp mac ip size i j bufs rest s Hboot s3 s' HA j b Hbl).
    + exact (qr_tx _ _ _ _ _ _ _ _ HQ b Hbl).
    + exact (eight_j net_mac my_ip sp ip size i j bufs rest s Hboot).
  - done.
Qed.
End Ready.

Lemma boot_driver : exists s0, net_init net_mac device s = Some ((), s0) /\
  driver net_mac my_ip sp mac ip bufs s0 (Service 0 [] 0 0 size []) /\ rxq s0 = queue_at i size /\ txq s0 = queue_at j size /\
  frames_free s0 = rest.
Proof.
  destruct (net_init_runs net_mac my_ip sp mac ip device size i j bufs rest s Hdev Hboot) as (f & b0 & s3 & s' & E & HQ & HA & _).
  exists s'. split; [done|]. split; [by eapply driver_ready|]. split; [by eapply rxq_ready|]. split; [by eapply txq_ready|].
  by eapply free_now.
Qed.

(** C27 The driver as a service: after [net_init] every sequence of arrivals,
    completed transmissions, interrupts and ARP requests that is [allowed] runs
    to its end without undefined behaviour as the abstract service, in which an
    interrupt answers all packets that wait, in order, and frees the frames of
    those sent; no frame is ever lost: those that are free or in flight are
    always the ones [net_init] left. What is [allowed] is the virtio protocol
    (the device writes its rings and the buffers it was offered, and reports
    each buffer once) and what the code relies on beyond it: the device
    completes transmissions in order; at an interrupt the transmit ring has room
    for a reply to every waiting packet, at a request for one more packet; and
    every packet is [trusted]: an echo request to this host has a header of
    five words and a length field between 24 and 4072 that stays inside the
    buffer. Without these the code overwrites descriptors in use
    ([NetTrace.net_send_overruns]) or the next frame
    ([NetSend.net_send_overflows]). *)
Theorem net_serves : exists s0, net_init net_mac device s = Some ((), s0) /\
  forall es, all_allowed net_mac my_ip sp mac ip device bufs es s0 (Service 0 [] 0 0 size []) ->
  exists s' g', run net_mac my_ip sp mac ip device es s0 (Service 0 [] 0 0 size []) = Some (s', g') /\
    driver net_mac my_ip sp mac ip bufs s' g' /\ frames_free s' ++ (flight g').*1 ≡ₚ rest.
Proof.
  destruct boot_driver as (s0 & E & Hdr & _ & _ & Hf). exists s0. split; [done|]. intros es Hall.
  destruct (events_ok net_mac my_ip sp mac ip device bufs es s0 _ Hdr Hall) as (s' & g' & E' & H' & P'). exists s', g'.
  split; [done|]. split; [done|]. rewrite P', Hf. cbn [flight fmap list_fmap]. by rewrite app_nil_r.
Qed.
End Boot.
End NetService.
