(* ===== verification/NetFootprint.v ===== *)
(** * What the driver leaves alone

    The driver only ever takes frames from the top of the free list, and only as
    many as there are slots in the transmit ring. Bytes in none of those frames,
    nor in its rings, its buffers, its stack and the allocator's arrays, keep
    their value through every event, although the allocator may hold them to be
    free. *)

From S2P Require Import Prelude Memory CString Pmm Bytes Mmio Net NetChecksum NetFrames NetSend NetTrace NetAnswer NetHandle NetPoll NetIrq NetInit NetService.

Module NetFootprint.
Import CString Pmm Net NetFrames NetSend NetAnswer NetHandle NetPoll NetIrq NetInit NetService.

Section Footprint.
Context (net_mac my_ip sp : Z) (mac ip : list Z) (device : bus -> Z -> Z) (bufs : list Z).

(** [K]: the bytes in question; [upper]: the frames the driver works with; [low]:
    the free frames below them, which it never reaches. *)
Context (K : Z -> Prop) (upper low : list Z).

Abbreviation host_inv := (host_inv net_mac my_ip sp mac ip).
Abbreviation rx_inv := (rx_inv net_mac my_ip sp ip).
Abbreviation driver := (driver net_mac my_ip sp mac ip bufs).
Abbreviation answers_of pend := (due mac ip <$> pend).

(** [K] has no byte of the driver's. *)
Record spared (s : net_state) : Prop := {
  sp_owns : forall b, K b -> ~ owns (pmm s) b;
  sp_tx : forall b, K b -> ~ queue_bytes (txq s) b;
  sp_rx : forall b, K b -> ~ queue_bytes (rxq s) b;
  sp_stack : forall b, K b -> ~ stack_bytes sp b;
  sp_frames : forall b i, K b -> i ∈ upper ++ bufs -> ~ in_frame i b;
}.

(** The frames of [upper] are free, above [low], or in flight. *)
Definition stacked (s : net_state) (l : list (Z * list Z)) : Prop :=
  exists up, frames_free s = up ++ low /\ up ++ l.*1 ≡ₚ upper.

(** Nothing in [K] was written, and all is as before. *)
Record untouched (s : net_state) (s' : net_state) (l' : list (Z * list Z)) : Prop := {
  ut_agree : agree K (memory s) (memory s');
  ut_spared : spared s';
  ut_stacked : stacked s' l';
}.

Lemma untouched_trans s1 s2 l2 s3 l3 : untouched s1 s2 l2 -> untouched s2 s3 l3 -> untouched s1 s3 l3.
Proof. intros [H1 _ _] [H2 H3 H4]. split; [by etransitivity|done|done]. Qed.

(** The rings stay where they are. *)
Definition same_ring (q q' : virtq) : Prop := exists v, q' = with_last_used v q.

Lemma same_ring_refl q : same_ring q q.
Proof. exists (last_used_idx q). by destruct q. Qed.

Lemma spared_moves s s' : spared s -> (forall b, owns (pmm s') b <-> owns (pmm s) b) -> same_ring (txq s) (txq s') ->
  same_ring (rxq s) (rxq s') -> spared s'.
Proof.
  intros [H1 H2 H3 H4 H5] Ho [v Hv] [w Hw]. split; rewrite ?Hv, ?Hw; try done. intros b Hb. rewrite Ho. by apply H1.
Qed.

(** A packet is only posted in a frame of [upper]. *)
Lemma appended_upper s l r : stacked s l -> (length l < length upper)%nat ->
  (forall i, i ∈ (appended r s).*1 -> i ∈ upper) /\
  forall s', frames_free s' = drop (length (appended r s)) (frames_free s) -> stacked s' (l ++ appended r s).
Proof.
  intros (up & Hf & Hp) Hlen. destruct up as [|i up].
  { apply Permutation_length in Hp. cbn [app] in Hp. rewrite length_fmap in Hp. lia. }
  unfold appended. rewrite Hf. destruct r as [data|]; cbn [app fmap list_fmap fst length drop].
  - split.
    + intros j ->%list_elem_of_singleton. rewrite <- Hp. left.
    + intros s' Hf'. exists up. rewrite Hf'. split; [done|]. rewrite <- Hp, fmap_app. cbn [fmap list_fmap fst]. solve_Permutation.
  - split; [intros j Hj; by apply elem_of_nil in Hj|]. intros s' Hf'. exists (i :: up). rewrite app_nil_r. done.
Qed.

(** ** Handling a packet *)

Lemma handled_untouched K' s L l r s' : spared s -> stacked s l -> (length l < length upper)%nat ->
  (forall b, K b -> ~ K' b) -> handled K' s L l r s' -> untouched s s' (l ++ appended r s).
Proof.
  intros Hs Hst Hlen HK Hh. destruct (appended_upper s l r Hst Hlen) as [Hin Hst']. pose proof Hs as [H1 H2 H3 H4 H5]. split.
  - intros b Hb. apply (ha_agree _ _ _ _ _ _ Hh). split; [by apply H1|]. split.
    + intros i Hi. apply (H5 b i Hb). apply elem_of_app. left. by apply Hin.
    + split; [|by apply HK]. intros Hd. apply (H2 b Hb). by left.
  - apply (spared_moves s); [done|exact (ha_owns _ _ _ _ _ _ Hh)|rewrite (ha_txq _ _ _ _ _ _ Hh)|rewrite (ha_rxq _ _ _ _ _ _ Hh)]; apply same_ring_refl.
  - apply Hst', (ha_free _ _ _ _ _ _ Hh).
Qed.

(** A packet in a buffer of the pool. *)
Lemma buffer_spared s pk b : spared s -> from_pool bufs pk -> K b -> ~ buffer_bytes pk b.
Proof.
  intros Hs (_ & f & Hf & E) Hb. unfold buffer_bytes. rewrite E. apply (sp_frames _ Hs b f Hb).
  apply elem_of_app. right. by apply list_elem_of_lookup_2 in Hf.
Qed.

Lemma rx_step_untouched s L l R A pk pend c s' : host_inv s L l -> rx_inv s l R A (pk :: pend) ->
  Z.of_nat (length l) < qsize (txq s) -> from_pool bufs pk -> spared s -> stacked s l -> (length l < length upper)%nat ->
  rx_step net_mac my_ip sp c s = Some (inl true, s') -> untouched s s' (l ++ appended (due mac ip pk) s).
Proof.
  intros Hhost Hrx Hroom Hpk Hs Hst Hlen E.
  destruct (packet_handled net_mac my_ip sp mac ip s L l R A pk pend Hhost Hrx Hroom) as (s1 & E1 & Hh).
  assert (E' : Some (inl true, after s R A pk s1) = Some (inl (B := bool) true, s')).
  { rewrite <- E. symmetry. apply (rx_step_run net_mac my_ip sp ip s l R A pk pend c s1 Hrx E1 (ha_rxq _ _ _ _ _ _ Hh)).
    exact (after_avail net_mac my_ip sp mac ip s L l R A pk pend Hrx s1 Hh). }
  injection E' as <-.
  assert (Hscr : forall b, K b -> ~ (stack_bytes sp b \/ packet_bytes (rx_buf pk + 10) (rx_data pk) b)).
  { intros b Hb [H|H]; [by apply (sp_stack _ Hs b Hb)|]. apply (buffer_spared s pk b Hs Hpk Hb).
    pose proof (rc_fit _ _ _ _ _ _ _ _ (first_received net_mac my_ip sp ip s l R A pk pend Hrx)). unfold packet_bytes, buffer_bytes in *. lia. }
  destruct (handled_untouched _ s L l _ s1 Hs Hst Hlen Hscr Hh) as [U1 U2 U3]. split.
  - etransitivity; [exact U1|]. eapply agree_weaken; [exact (tail_agree s l R A pk s1)|]. intros b Hb Ht.
    pose proof (slot_range _ A (rx_ring _ _ _ _ _ _ _ _ _ Hrx)). pose proof (buffer_spared s pk b Hs Hpk Hb) as Hbuf.
    pose proof (sp_rx _ Hs b Hb) as Hq. unfold tail_written, buffer_bytes, queue_bytes, driver_bytes in *. lia.
  - apply (spared_moves s1); [done|done|apply same_ring_refl|].
    rewrite (ha_rxq _ _ _ _ _ _ Hh). by exists (u16 (R + 1)).
  - destruct U3 as (up & Hup & Hp). exists up. split; [|done]. rewrite <- Hup.
    exact (proj2 (after_tx net_mac my_ip sp mac ip s L l R A pk pend Hrx s1 Hh)).
Qed.

(** ** The loop *)

Lemma poll_untouched : forall pks s L l R A fuel c s' r,
  host_inv s L l -> rx_inv s l R A pks -> Z.of_nat (length l) + Z.of_nat (length pks) <= qsize (txq s) ->
  qsize (txq s) <= Z.of_nat (length upper) -> Forall (from_pool bufs) pks -> (length pks < fuel)%nat ->
  spared s -> stacked s l -> loop_n fuel (rx_step net_mac my_ip sp) c s = Some (r, s') ->
  untouched s s' (l ++ answers (answers_of pks) (frames_free s)).
Proof.
  induction pks as [|pk pks IH]; intros s L l R A fuel c s' r Hhost Hrx Hroom Hup Hpool Hf Hs Hst E; (destruct fuel as [|fuel]; [simpl in Hf; lia|]); cbn [loop_n] in E.
  - rewrite (n_bind _ _ s s (inr c)) in E by (by apply (rx_step_idle net_mac my_ip sp ip s l R A)).
    injection E as _ <-. cbn [fmap list_fmap answers]. rewrite app_nil_r. done.
  - cbn [length] in Hroom. assert (Hr1 : Z.of_nat (length l) < qsize (txq s)) by lia.
    inversion Hpool as [|pk' pks' Hpk Hpool']; subst.
    destruct (rx_step_ok net_mac my_ip sp mac ip s L l R A pk pks Hhost Hrx Hr1 c) as (s1 & E1 & H1 & X1 & F1 & T1 & _).
    pose proof (rx_step_untouched s L l R A pk pks c s1 Hhost Hrx Hr1 Hpk Hs Hst ltac:(lia) E1) as U1.
    rewrite (n_bind _ _ s s1 (inl true) E1) in E.
    eapply untouched_trans; [exact U1|]. cbn [fmap list_fmap]. rewrite answers_app, (assoc_L (++)), <- F1.
    eapply (IH s1 L _ (R + 1) (A + 1) fuel true s' r H1 X1); try done; [|by rewrite T1|simpl in Hf; lia|apply U1|apply U1].
    rewrite T1, length_app. assert (length (appended (due mac ip pk) s) <= 1)%nat; [|lia].
    unfold appended. destruct (due _ _ _), (frames_free s); simpl; lia.
Qed.

Lemma regs_untouched v s l : spared s -> stacked s l -> untouched s (with_regs v s) l.
Proof. intros H1 H2. split; [done| |exact H2]. destruct H1. by split. Qed.

Lemma net_poll_untouched pend s L l R A fuel s' :
  host_inv s L l -> rx_inv s l R A pend -> Z.of_nat (length l) + Z.of_nat (length pend) <= qsize (txq s) ->
  qsize (txq s) <= Z.of_nat (length upper) -> Forall (from_pool bufs) pend -> (length pend < fuel)%nat ->
  spared s -> stacked s l -> net_poll_rx net_mac my_ip sp fuel s = Some ((), s') ->
  untouched s s' (l ++ answers (answers_of pend) (frames_free s)).
Proof.
  intros Hhost Hrx Hroom Hup Hpool Hf Hs Hst E. unfold net_poll_rx in E.
  destruct (poll_loop net_mac my_ip sp mac ip pend s L l R A fuel false Hhost Hrx Hroom Hf) as (s1 & E1 & _).
  pose proof (poll_untouched pend s L l R A fuel false s1 _ Hhost Hrx Hroom Hup Hpool Hf Hs Hst E1) as U1.
  rewrite (n_bind _ _ s s1 _ E1) in E. destruct (false || negb (bool_decide (pend = []))).
  - assert (E' : s' = with_regs (write32 (regs s1) (VIRTIO_NET_BASE + VIRTIO_REG_QUEUE_NOTIFY) 0) s1) by (by injection E).
    subst s'. eapply untouched_trans; [exact U1|]. apply regs_untouched; apply U1.
  - injection E as <-. exact U1.
Qed.

(** ** The clean-up *)

Lemma cleanup_untouched k s L l fuel s' : tx_inv s L l -> completed s L (Z.of_nat k) -> (k <= length l)%nat -> (k < fuel)%nat ->
  spared s -> stacked s l -> net_cleanup_tx fuel s = Some ((), s') -> untouched s s' (drop k l).
Proof.
  intros Htx Hd Hk Hf Hs (up & Hfr & Hp) E.
  destruct (net_cleanup_ok k s L l fuel Htx Hd Hk Hf) as (s1 & E1 & _ & F1 & Q1 & T1 & _ & O1 & A1).
  { pose proof (tx_room _ _ _ Htx). pose proof (ro_size _ (tx_ring _ _ _ Htx)). lia. }
  rewrite E in E1. injection E1 as <-. split.
  - eapply agree_weaken; [exact A1|]. intros b Hb. by apply (sp_owns _ Hs).
  - apply (spared_moves s); [done|done|by eexists|rewrite Q1; apply same_ring_refl].
  - exists (reverse (take k l.*1) ++ up). unfold frames_free in *. rewrite F1, Hfr, (assoc_L (++)). split; [done|].
    rewrite <- Hp, reverse_Permutation, fmap_drop, (Permutation_app_comm (take k _) up), <- (assoc_L (++)). by rewrite take_drop.
Qed.

(** ** Every event *)

Lemma irq_untouched fuel s g s' : driver s g -> allowed ip bufs (Irq fuel) s g ->
  qsize (txq s) <= Z.of_nat (length upper) -> spared s -> stacked s (flight g) ->
  virtio_net_handle_irq net_mac my_ip sp device fuel s = Some ((), s') ->
  untouched s s' (flight (spec mac ip device (Irq fuel) s g)).
Proof.
  intros Hdr (Hroom & Hf1 & Hf2) Hup Hs Hst E. destruct Hdr as [H1 H2 H3 H4 H5 H6 H7].
  unfold virtio_net_handle_irq in E. set (st := VIRTIO_NET_BASE + VIRTIO_REG_INTERRUPT_STATUS) in *.
  set (status := u32 (device (regs s) st)) in *. set (s1 := with_regs (regs s ++ [Rd st]) s).
  rewrite (n_bind _ _ s s1 status) in E by done.
  set (s2 := with_regs (write32 (regs s1) (VIRTIO_NET_BASE + VIRTIO_REG_INTERRUPT_ACK) status) s1).
  rewrite (n_bind _ _ s1 s2 ()) in E by done.
  change (Z.land status 1) with (Z.land status (Z.shiftl 1 0)) in E. rewrite nonzero_land_shiftl in E by done.
  assert (U2 : untouched s s2 (flight g)).
  { pose proof (regs_untouched (regs s ++ [Rd st]) s (flight g) Hs Hst) as U1.
    eapply untouched_trans; [exact U1|]. apply regs_untouched; apply U1. }
  cbn [spec]. unfold queue_irq. fold st status. destruct (Z.testbit status 0); [|by injection E as <-]. cbn [flight].
  assert (Hh2 : host_inv s2 (base g) (flight g)) by (apply host_inv_regs; by apply host_inv_regs).
  assert (Hr2 : rx_inv s2 (flight g) (seen g) (given g) (pend g)) by (apply rx_inv_regs; by apply rx_inv_regs).
  destruct (net_poll_ok net_mac my_ip sp mac ip (pend g) s2 _ _ _ _ fuel Hh2 Hr2 Hroom Hf1) as (s3 & E3 & H3' & _ & _ & _ & T3 & D3 & _).
  pose proof (net_poll_untouched (pend g) s2 _ _ _ _ fuel s3 Hh2 Hr2 Hroom Hup H4 Hf1 (ut_spared _ _ _ U2) (ut_stacked _ _ _ U2) E3) as U3.
  rewrite (n_bind _ _ s2 s3 () E3) in E. eapply untouched_trans; [exact U2|]. eapply untouched_trans; [exact U3|].
  eapply (cleanup_untouched (ndone g) s3 (base g)); try done; [apply H3'| |rewrite length_app; lia|apply U3|apply U3].
  apply (NetTrace.completed_kept s2 s3); [by apply Hh2|by rewrite T3|by rewrite T3|done|done].
Qed.

Lemma memory_untouched s l m : agree K (memory s) m -> agree (owns (pmm s)) (memory s) m -> Pmm.inv (pmm s) (memory s) ->
  spared s -> stacked s l -> untouched s (with_memory m s) l.
Proof.
  intros Hag Ho Hinv Hs (up & Hf & Hp). split; [done|by destruct Hs|]. exists up. split; [|done].
  unfold frames_free in *. cbn [pmm memory with_memory]. by rewrite (abs_kept _ _ _ Hinv Ho).
Qed.

Lemma event_untouched e s g s' : driver s g -> allowed ip bufs e s g -> qsize (txq s) <= Z.of_nat (length upper) ->
  spared s -> stacked s (flight g) -> exec net_mac my_ip sp device e s = Some s' ->
  untouched s s' (flight (spec mac ip device e s g)).
Proof.
  intros Hdr Ha Hup Hs Hst E. pose proof (ho_tx _ _ _ _ _ _ _ _ (dr_host _ _ _ _ _ _ _ _ Hdr)) as Htx.
  destruct e as [m new|m k|fuel|]; cbn [exec] in E.
  - injection E as <-. pose proof (arriving_agree ip bufs s g m new Ha) as Hag. cbn [spec flight]. apply memory_untouched; try done; [| |apply Htx].
    + eapply agree_weaken; [exact Hag|]. intros b Hb [Hd|(pk & Hpk & Hd)]; [by apply (sp_rx _ Hs b Hb); right|].
      refine (buffer_spared s pk b Hs _ Hb Hd). pose proof (dl_pool _ _ _ _ _ _ _ Ha) as HP. rewrite list.Forall_forall in HP. by apply HP.
    + eapply agree_weaken; [exact Hag|]. intros b Ho Hb. by destruct (arriving_K net_mac my_ip sp mac ip bufs s g m new Hdr Ha b Hb).
  - injection E as <-. destruct Ha as (Hag & _). cbn [spec flight]. apply memory_untouched; try done; [| |apply Htx].
    + eapply agree_weaken; [exact Hag|]. intros b Hb Hd. apply (sp_tx _ Hs b Hb). by right.
    + eapply agree_weaken; [exact Hag|]. intros b Ho Hd. by apply (tx_reserved _ _ _ Htx b (or_intror Hd)).
  - destruct (virtio_net_handle_irq _ _ _ _ _ s) as [[[] s1]|] eqn:Ei; [|done]. injection E as <-. by apply irq_untouched.
  - destruct (request_handled net_mac my_ip sp mac ip device bufs s g Hdr Ha) as (s1 & E1 & Hh). cbn [exec] in E1. rewrite E in E1.
    injection E1 as <-. cbn [spec flight] in *. eapply (handled_untouched (stack_bytes sp)); try done; [|exact (sp_stack _ Hs)].
    cbn [allowed] in Ha. lia.
Qed.
(** ** Writes of others

    And the other way round: whatever is written to [K], the driver does not
    notice. *)

Lemma driver_elsewhere s g m : driver s g -> spared s -> stacked s (flight g) ->
  (forall b, K b -> ~ static_bytes net_mac my_ip b) -> agree (fun b => ~ K b) (memory s) m ->
  driver (with_memory m s) g /\ spared (with_memory m s) /\ stacked (with_memory m s) (flight g).
Proof.
  intros [H1 H2 H3 H4 H5 H6 H7] Hs (up & Hf & Hp) Hst Hag. pose proof Hs as [S1 S2 S3 S4 S5].
  assert (HK : forall b, K b -> ~ owns (pmm s) b /\ ~ driver_bytes (txq s) b /\ forall i, i ∈ (flight g).*1 -> ~ in_frame i b).
  { intros b Hb. split; [by apply S1|]. split; [intros Hd; apply (S2 b Hb); by left|]. intros i Hi. apply (S5 b i Hb).
    apply elem_of_app. left. rewrite <- Hp. apply elem_of_app. by right. }
  split; [|split; [by split|]].
  - split; try done.
    + exact (memory_host net_mac my_ip sp mac ip s (base g) (flight g) m K H1 Hag HK Hst).
    + apply (memory_rx net_mac my_ip sp mac ip s (base g) (flight g) m K H1 Hag HK _ _ _ H2). intros b Hb. split; [by apply S3|].
      intros pk Hpk. rewrite list.Forall_forall in H4. by apply (buffer_spared s pk b Hs (H4 pk Hpk)).
    + eapply pool_stays; [exact H3|]. apply (memory_stays net_mac my_ip sp mac ip s (base g) (flight g) m K H1 Hag HK).
      intros b Hb Hd. apply (S3 b Hb). by left.
    + refine (NetTrace.completed_kept s (with_memory m s) _ _ (tx_ring _ _ _ (ho_tx _ _ _ _ _ _ _ _ H1)) eq_refl eq_refl _ H6).
      intros b Hb. apply Hag. intros Hk. apply (S2 b Hk). by right.
  - exists up. split; [|done]. rewrite <- Hf. exact (memory_frames net_mac my_ip sp mac ip s (base g) (flight g) m K H1 Hag HK).
Qed.
End Footprint.
End NetFootprint.
