(* ===== verification/Gic.v ===== *)
(** * The interrupt controller (src/src/gic.c)

    The distributor and the CPU interface of a GICv2, through the registers. *)

From S2P Require Import Prelude Mmio.

Module Gic.

Definition GIC_DIST_BASE : Z := 0x08000000.
Definition GIC_CPU_BASE : Z := GIC_DIST_BASE + 0x10000.

Definition GICD_CTLR : Z := GIC_DIST_BASE + 0x000.
Definition GICD_ISENABLER : Z := GIC_DIST_BASE + 0x100.
Definition GICD_ITARGETS : Z := GIC_DIST_BASE + 0x800.
Definition GICC_CTLR : Z := GIC_CPU_BASE + 0x0000.
Definition GICC_PMR : Z := GIC_CPU_BASE + 0x0004.
Definition GICC_IAR : Z := GIC_CPU_BASE + 0x000C.
Definition GICC_EOIR : Z := GIC_CPU_BASE + 0x0010.

Definition gic_init (b : bus) : bus :=
  let b := write32 b GICD_CTLR 0 in
  let b := write32 b GICC_CTLR 1 in
  let b := write32 b GICC_PMR 0xFF in
  write32 b GICD_CTLR 1.

Section Device.
Context (device : bus -> Z -> Z).

(** [1 << (id % 32)] is an [int], converted to [uint64_t]. *)
Definition gic_enable_irq (b : bus) (id : Z) : bus :=
  let reg := u64 (GICD_ISENABLER + u64 (id / 32 * 4)) in
  let bit := u64 (i32 (Z.shiftl 1 (id mod 32))) in
  let '(val, b) := read32 device b reg in
  let b := write32 b reg (Z.lor val bit) in
  if 32 <=? id then
    let target_reg := u64 (GICD_ITARGETS + u64 (id / 4 * 4)) in
    let target_shift := id mod 4 * 8 in
    let '(target_val, b) := read32 device b target_reg in
    let target_val := Z.lor target_val (i32 (Z.shiftl 0x01 target_shift)) in
    write32 b target_reg target_val
  else b.

Definition gic_aoi (b : bus) : Z * bus := read32 device b GICC_IAR.
End Device.

Definition gic_eoi (b : bus) (id : Z) : bus := write32 b GICC_EOIR id.

(** ** What enabling an interrupt writes *)

Lemma u32_bit v k n : 0 <= v < 2 ^ 32 -> 0 <= k < 32 -> 0 <= n < 32 ->
  Z.testbit (u32 (Z.lor v (u64 (i32 (Z.shiftl 1 k))))) n = Z.testbit v n || (n =? k).
Proof.
  intros Hv Hk Hn. unfold u32. rewrite Z.mod_pow2_bits_low, Z.lor_spec by lia. f_equal.
  unfold u64, i32. rewrite Z.mod_pow2_bits_low by lia. rewrite <- (Z.mod_pow2_bits_low _ 32) by lia.
  rewrite Zminus_mod_idemp_l. replace (Z.shiftl 1 k + 2 ^ 31 - 2 ^ 31) with (Z.shiftl 1 k) by lia.
  rewrite Z.mod_pow2_bits_low, Z.shiftl_1_l by lia. by rewrite Z.pow2_bits_eqb, Z.eqb_sym by lia.
Qed.

Lemma u32_bit_int v k n : 0 <= v < 2 ^ 32 -> 0 <= k < 31 -> 0 <= n < 32 ->
  Z.testbit (u32 (Z.lor v (i32 (Z.shiftl 1 k)))) n = Z.testbit v n || (n =? k).
Proof.
  intros Hv Hk Hn. rewrite <- (u32_bit v k n) by lia. do 3 f_equal. symmetry. apply u64_id.
  rewrite Z.shiftl_1_l. assert (0 < 2 ^ k <= 2 ^ 30) by (split; [apply Z.pow_pos_nonneg; lia|apply Z.pow_le_mono_r; lia]).
  unfold i32. wrap.
Qed.

(** Enabling interrupt [id] sets its bit in the enable register of its group
    of 32, and for a shared interrupt bit 0 of its byte in the target register
    of its group of 4; every other bit is written back as it was read, and
    nothing else is written. *)
Theorem gic_enable_ok device b id : 0 <= id < 1020 ->
  let reg := GICD_ISENABLER + 4 * (id / 32) in
  let treg := GICD_ITARGETS + 4 * (id / 4) in
  let old := u32 (device b reg) in
  exists v, (forall n, 0 <= n < 32 -> Z.testbit v n = Z.testbit old n || (n =? id mod 32)) /\
    let b1 := b ++ [Rd reg; Wr reg v] in
    if 32 <=? id then
      exists t, (forall n, 0 <= n < 32 -> Z.testbit t n = Z.testbit (u32 (device b1 treg)) n || (n =? 8 * (id mod 4))) /\
        gic_enable_irq device b id = b1 ++ [Rd treg; Wr treg t]
    else gic_enable_irq device b id = b1.
Proof.
  intros Hid reg treg old. unfold gic_enable_irq, read32, write32.
  assert (Er : u64 (GICD_ISENABLER + u64 (id / 32 * 4)) = reg).
  { unfold reg, GICD_ISENABLER, GIC_DIST_BASE. rewrite (u64_id (_ * 4)), u64_id by zdiv. lia. }
  assert (Et : u64 (GICD_ITARGETS + u64 (id / 4 * 4)) = treg).
  { unfold treg, GICD_ITARGETS, GIC_DIST_BASE. rewrite (u64_id (_ * 4)), u64_id by zdiv. lia. }
  rewrite Er, Et. fold old. exists (u32 (Z.lor old (u64 (i32 (Z.shiftl 1 (id mod 32)))))).
  split; [intros n Hn; apply u32_bit; [apply u32_range|apply Z.mod_pos_bound; lia|done]|].
  rewrite <- !(assoc_L (++)). cbn [app]. destruct (32 <=? id) eqn:E; [|done].
  eexists. split; [|by rewrite <- (assoc_L (++))]. intros n Hn. replace (8 * (id mod 4)) with (id mod 4 * 8) by lia. apply u32_bit_int; [apply u32_range|zdiv|done].
Qed.

(** The network card's interrupt, the only one the kernel enables. *)
Lemma gic_enable_ok_witness : exists v t,
  gic_enable_irq (fun _ _ => 0) [] 48 = [Rd 0x08000104; Wr 0x08000104 v; Rd 0x08000830; Wr 0x08000830 t] /\
  Z.testbit v 16 = true /\ Z.testbit t 0 = true.
Proof.
  destruct (gic_enable_ok (fun _ _ => 0) [] 48 ltac:(lia)) as (v & Hv & t & Ht & E). exists v, t.
  split; [exact E|]. split; [rewrite Hv by lia; reflexivity|rewrite Ht by lia; reflexivity].
Defined.

(** The distributor is off while the CPU interface is set up. *)
Lemma gic_init_writes b : writes (gic_init b) = writes b ++ [(GICD_CTLR, 0); (GICC_CTLR, 1); (GICC_PMR, 255); (GICD_CTLR, 1)].
Proof. unfold gic_init, write32. by rewrite !writes_app, <- !(assoc_L (++)). Qed.
End Gic.
