(* ===== verification/Clock.v ===== *)
(** * The clock (src/src/pl031.c)

    The real-time counter and the two clocks built on the generic timer. The
    timer's count and frequency are arguments. *)

From S2P Require Import Prelude Mmio.

Module Clock.

Definition PL031_DR : Z := 0x000.
Definition PL031_LR : Z := 0x008.
Definition pl031 : Z := 0x09010000.

(** The accesses of each width. *)
Definition mmio_write8 (b : bus) (reg data : Z) : bus := b ++ [Wr reg (u8 data)].
Definition mmio_write16 (b : bus) (reg data : Z) : bus := b ++ [Wr reg (u16 data)].
Definition mmio_write32 (b : bus) (reg data : Z) : bus := write32 b reg data.
Definition mmio_write64 (b : bus) (reg data : Z) : bus := b ++ [Wr reg (u64 data)].

Section Device.
Context (device : bus -> Z -> Z).

Definition mmio_read8 (b : bus) (reg : Z) : Z * bus := read8 device b reg.
Definition mmio_read16 (b : bus) (reg : Z) : Z * bus := (u16 (device b reg), b ++ [Rd reg]).
Definition mmio_read32 (b : bus) (reg : Z) : Z * bus := read32 device b reg.
Definition mmio_read64 (b : bus) (reg : Z) : Z * bus := (u64 (device b reg), b ++ [Rd reg]).

(** [pl031] is never null. The result is [boot_epoch]. *)
Definition pl031_init_time (b : bus) : Z * bus := mmio_read32 b (pl031 + PL031_DR).
Definition pl031_get_time (b : bus) : Z * bus := mmio_read32 b (pl031 + PL031_DR).
End Device.

Definition pl031_set_time (b : bus) (timestamp : Z) : bus := mmio_write32 b (pl031 + PL031_LR) timestamp.

(** A device that remembers the last value written to a register gives it back,
    cut to the width of the access. *)
Definition last_written (b : bus) (reg : Z) : Z :=
  foldl (fun v e => match e with Wr a w => if a =? reg then w else v | Rd _ => v end) 0 b.

Lemma last_written_snoc b reg v : last_written (b ++ [Wr reg v]) reg = v.
Proof. unfold last_written. rewrite foldl_app. cbn. by rewrite Z.eqb_refl. Qed.

Lemma mmio_round_trip b reg v :
  (mmio_read8 last_written (mmio_write8 b reg v) reg).1 = u8 v /\ (mmio_read16 last_written (mmio_write16 b reg v) reg).1 = u16 v /\
  (mmio_read32 last_written (mmio_write32 b reg v) reg).1 = u32 v /\ (mmio_read64 last_written (mmio_write64 b reg v) reg).1 = u64 v.
Proof.
  unfold mmio_read8, mmio_read16, mmio_read32, mmio_read64, mmio_write8, mmio_write16, mmio_write32, mmio_write64, read8, read32, write32.
  cbn [fst]. rewrite !last_written_snoc. unfold u8, u16, u32, u64. by rewrite !Z.mod_mod.
Qed.

(** [*sec] and [*nsec]; a frequency of zero is a division C leaves undefined. *)
Definition get_monotonic_time (boot_time now frq : Z) : option (Z * Z) :=
  if frq =? 0 then None
  else
    let elapsed := u64 (now - boot_time) in
    Some (elapsed / frq, u64 (elapsed mod frq * 1000000000) / frq).

Definition get_realtime (boot_epoch boot_time now frq : Z) : option (Z * Z) :=
  '(mono_sec, mono_nsec) ← get_monotonic_time boot_time now frq;
  Some (u64 (boot_epoch + mono_sec), mono_nsec).

(** ** Properties *)

(** In nanoseconds. *)
Definition nanos (t : Z * Z) : Z := 1000000000 * t.1 + t.2.

Lemma monotonic_exact boot_time now frq :
  0 <= boot_time <= now -> now < 2 ^ 64 -> 0 < frq <= 2 ^ 34 ->
  exists t, get_monotonic_time boot_time now frq = Some t /\ 0 <= t.2 < 1000000000 /\ 0 <= t.1 < 2 ^ 64 /\
    nanos t = (now - boot_time) * 1000000000 / frq.
Proof.
  intros Hb Hn Hf. unfold get_monotonic_time. destruct (frq =? 0) eqn:E; [lia|]. rewrite (u64_id (now - boot_time)) by lia.
  set (e := now - boot_time) in *. assert (He : 0 <= e < 2 ^ 64) by lia.
  pose proof (Z.mod_pos_bound e frq ltac:(lia)) as Hm. rewrite u64_id by lia.
  eexists. split; [done|]. cbn [fst snd nanos]. unfold nanos. cbn [fst snd]. split.
  { split; [apply Z.div_pos; lia|]. apply Z.div_lt_upper_bound; nia. }
  split.
  { split; [apply Z.div_pos; lia|]. apply Z.div_lt_upper_bound; nia. }
  replace (e * 1000000000) with (e / frq * 1000000000 * frq + e mod frq * 1000000000).
  - rewrite Z.div_add_l by lia. lia.
  - pose proof (Z.div_mod e frq ltac:(lia)). nia.
Qed.

(** C36 The monotonic clock gives the time since [boot_time] rounded down to the
    nanosecond, without overflow for any counter and a frequency between
    1 kHz and 16 GHz, and never goes back; the real-time clock is ahead of it by
    [boot_epoch] seconds. *)
Theorem clock_exact boot_epoch boot_time now later frq :
  0 <= boot_time <= now -> now <= later < 2 ^ 64 -> 2 ^ 10 <= frq <= 2 ^ 34 -> 0 <= boot_epoch < 2 ^ 32 ->
  exists t t', get_monotonic_time boot_time now frq = Some t /\ get_monotonic_time boot_time later frq = Some t' /\
    0 <= t.2 < 1000000000 /\ nanos t = (now - boot_time) * 1000000000 / frq /\ nanos t <= nanos t' /\
    get_realtime boot_epoch boot_time now frq = Some (boot_epoch + t.1, t.2).
Proof.
  intros Hb Hn Hf He. destruct (monotonic_exact boot_time now frq) as (t & E & H1 & H2 & H3); [lia..|].
  destruct (monotonic_exact boot_time later frq) as (t' & E' & H1' & _ & H3'); [lia..|].
  exists t, t'. split; [done|]. split; [done|]. split; [done|]. split; [done|]. split.
  - rewrite H3, H3'. apply Z.div_le_mono; nia.
  - unfold get_realtime. rewrite E. destruct t as [sec nsec]. cbn [mbind option_bind fst snd] in *. rewrite u64_id; [done|].
    split; [lia|]. assert (sec < 2 ^ 54 + 1); [|lia]. unfold nanos in H3. cbn [fst snd] in H3.
    assert ((now - boot_time) * 1000000000 / frq <= (now - boot_time) * 1000000000 / 2 ^ 10).
    { apply Z.div_le_compat_l; nia. }
    assert ((now - boot_time) * 1000000000 / 2 ^ 10 < 2 ^ 54 * 1000000000 + 1) by (apply Z.div_lt_upper_bound; lia). lia.
Qed.

(** A timer of 62.5 MHz. *)
Lemma clock_exact_witness : exists t t',
  get_monotonic_time 0 (3 * 62500000 + 31) 62500000 = Some t /\ get_monotonic_time 0 (4 * 62500000) 62500000 = Some t' /\
  t = (3, 496) /\ nanos t <= nanos t'.
Proof.
  destruct (clock_exact 1700000000 0 (3 * 62500000 + 31) (4 * 62500000) 62500000 ltac:(lia) ltac:(lia) ltac:(lia) ltac:(lia))
    as (t & t' & E & E' & _ & _ & H & _).
  exists t, t'. split; [exact E|]. split; [exact E'|]. split; [|exact H]. vm_compute in E. by injection E as <-.
Defined.
End Clock.
