(* ===== verification/Exceptions.v ===== *)
(** * The exception handlers (src/src/exceptions.c)

    The interrupt handler over the state of the network driver, the only device
    that interrupts, and the two handlers that report and stop. The system
    registers are arguments, a report is what is printed. *)

From S2P Require Import Prelude Memory Pmm Mmio Net NetSend NetAnswer NetHandle NetPoll NetIrq NetInit NetService Gic.

Module Exceptions.
Import Pmm Net NetSend NetAnswer NetHandle NetPoll NetInit NetService Gic.

(** ** Synchronous exceptions *)

(** The frames of [dump_stack]: the depth and the address printed. *)
Fixpoint stack_frames (k : nat) (m : mem) (fp depth : Z) : list (Z * Z) :=
  match k with
  | O => []
  | S k =>
      if fp =? 0 then []
      else if fp <? 0x40000000 then []
      else
        let lr := load64 m (u64 (fp + 8)) in
        let prev_fp := load64 m fp in
        (depth, u64 (u64 (lr - 0xba400000) + 0x40100000)) :: stack_frames k m prev_fp (depth + 1)
  end.

Definition dump_stack (m : mem) (fp : Z) : list (Z * Z) := stack_frames 20 m fp 0.

(** What is printed before the core stops for good. *)
Inductive report :=
| Abort_report (kind_data : bool) (esr fsc : Z) (is_write : bool) (far : Z) (trace : list (Z * Z))
| Sync_report (esr ec elr far : Z) (trace : list (Z * Z))
| Serror_report (trace : list (Z * Z))
| Fiq_report (trace : list (Z * Z)).

(** [None] when the handler returns. *)
Definition el1_sync_handler (m : mem) (fp esr elr far : Z) : option report :=
  let ec := u32 (Z.land (Z.shiftr esr 26) 0x3F) in
  let iss := Z.land esr 0x1FFFFFF in
  if (ec =? 0x20) || (ec =? 0x21) || (ec =? 0x24) || (ec =? 0x25) then
    let fsc := u8 (Z.land iss 0x3F) in
    let is_write := nonzero (Z.land (Z.shiftr iss 6) 1) in
    Some (Abort_report (nonzero (Z.land ec 0x1)) esr fsc is_write far (dump_stack m fp))
  else if ec =? 0x3C then None
  else Some (Sync_report esr ec elr far (dump_stack m fp)).

Definition el1_fiq_handler (m : mem) (fp : Z) : report := Fiq_report (dump_stack m fp).
Definition el1_serr_handler (m : mem) (fp : Z) : report := Serror_report (dump_stack m fp).

(** ** Interrupts *)

Section Irq.
Context (net_mac my_ip sp : Z) (device : bus -> Z -> Z).

Definition el1_irq_handler (fuel : nat) : N () :=
  irq_id ← (fun s => let '(v, b) := gic_aoi device (regs s) in Some (v, with_regs b s));
  (if irq_id =? 48 then virtio_net_handle_irq net_mac my_ip sp device fuel else mret ());;
  modify (fun s => with_regs (gic_eoi (regs s) irq_id) s).
End Irq.

(** ** Properties *)

(** A chain of stack records, each with the address of the one before and the
    return address. *)
Inductive chain (m : mem) : Z -> list Z -> Prop :=
| chain_end : chain m 0 []
| chain_cons fp lr prev l : 0x40000000 <= fp < 2 ^ 64 - 16 -> load64 m fp = prev -> load64 m (fp + 8) = lr ->
    chain m prev l -> chain m fp (lr :: l).

Lemma stack_frames_chain m fp l : chain m fp l -> forall k depth,
  stack_frames k m fp depth = imap (fun i lr => (depth + Z.of_nat i, u64 (lr - 0x7A300000))) (take k l).
Proof.
  induction 1 as [|fp lr prev l Hfp Hprev Hlr Hc IH]; intros [|k] depth; try done. cbn [stack_frames take imap].
  destruct (fp =? 0) eqn:E0; [lia|]. destruct (fp <? 0x40000000) eqn:E1; [lia|].
  rewrite (u64_id (fp + 8)), Hprev, Hlr, IH by lia. rewrite Z.add_0_r. f_equal.
  - f_equal. unfold u64. rewrite Z.add_mod_idemp_l by lia. f_equal. lia.
  - apply imap_ext. intros i x _. unfold compose. f_equal. lia.
Qed.

(** Exactly a breakpoint is survived, and an abort is described by the fields
    of the syndrome register. *)
Lemma el1_sync_handler_ok m fp esr elr far : 0 <= esr < 2 ^ 32 ->
  let ec := esr / 2 ^ 26 in
  match el1_sync_handler m fp esr elr far with
  | None => ec = 0x3C
  | Some (Abort_report kind_data esr' fsc is_write far' _) =>
      (ec ∈ [0x20; 0x21; 0x24; 0x25]) /\ kind_data = Z.odd ec /\ esr' = esr /\ fsc = esr mod 64 /\ is_write = Z.testbit esr 6 /\ far' = far
  | Some (Sync_report esr' ec' _ far' _) => (ec ∉ [0x20; 0x21; 0x24; 0x25; 0x3C]) /\ esr' = esr /\ ec' = ec /\ far' = far
  | Some _ => False
  end.
Proof.
  intros He ec. unfold el1_sync_handler.
  assert (Eec : u32 (Z.land (Z.shiftr esr 26) 0x3F) = ec).
  { change 0x3F with (Z.ones 6). rewrite Z.land_ones, Z.shiftr_div_pow2 by lia. unfold ec. rewrite Z.mod_small, u32_id; zdiv. }
  rewrite Eec.
  assert (Ew : nonzero (Z.land (Z.shiftr (Z.land esr 0x1FFFFFF) 6) 1) = Z.testbit esr 6).
  { change 1 with (Z.shiftl 1 0) at 1. rewrite nonzero_land_shiftl, Z.shiftr_spec, Z.land_spec by lia.
    change (Z.testbit 0x1FFFFFF (0 + 6)) with true. by rewrite andb_true_r. }
  assert (Ef : u8 (Z.land (Z.land esr 0x1FFFFFF) 0x3F) = esr mod 64).
  { rewrite <- Z.land_assoc. change (Z.land 0x1FFFFFF 0x3F) with (Z.ones 6). rewrite Z.land_ones by lia. apply u8_id. zdiv. }
  assert (Ek : nonzero (Z.land ec 1) = Z.odd ec) by (change 1 with (Z.shiftl 1 0); by rewrite nonzero_land_shiftl, Z.bit0_odd).
  rewrite Ew, Ef, Ek. destruct (_ || _ || _ || _) eqn:Ea.
  - rewrite !orb_true_iff, !Z.eqb_eq in Ea. set_unfold. tauto.
  - rewrite !orb_false_iff, !Z.eqb_neq in Ea. destruct (ec =? 0x3C) eqn:Eb; [by apply Z.eqb_eq in Eb|]. apply Z.eqb_neq in Eb. set_unfold. tauto.
Qed.

Section Service.
Context (net_mac my_ip sp : Z) (mac ip : list Z) (device : bus -> Z -> Z) (bufs : list Z).

(** The handler is the card's between an acknowledgement and an end. *)
Lemma el1_irq_eq fuel s :
  let id := u32 (device (regs s) GICC_IAR) in
  el1_irq_handler net_mac my_ip sp device fuel s =
    if id =? 48 then
      '(_, s2) ← virtio_net_handle_irq net_mac my_ip sp device fuel (with_regs (regs s ++ [Rd GICC_IAR]) s);
      Some ((), with_regs (regs s2 ++ [Wr GICC_EOIR 48]) s2)
    else Some ((), with_regs (regs s ++ [Rd GICC_IAR; Wr GICC_EOIR id]) s).
Proof.
  intros id. unfold el1_irq_handler. set (s1 := with_regs (regs s ++ [Rd GICC_IAR]) s).
  rewrite (n_bind _ _ s s1 id) by done. destruct (id =? 48) eqn:E.
  - apply Z.eqb_eq in E. rewrite E. cbn [mbind option_bind]. unfold mbind, N_bind.
    destruct (virtio_net_handle_irq net_mac my_ip sp device fuel s1) as [[[] s2]|]; [|done]. done.
  - rewrite (n_bind _ _ s1 s1 ()) by done. unfold modify, gic_eoi, write32. do 2 f_equal. unfold s1. cbn [regs with_regs].
    rewrite <- (assoc_L (++)). unfold id. by rewrite (u32_id (u32 _)) by apply u32_range.
Qed.

(** C34 An interrupt from its acknowledgement to its end: the number read from
    the controller is the one written back at the end; if it is the card's, the
    waiting packets are answered and the frames of those sent are freed in
    between, and the driver keeps its invariant; any other number changes
    nothing else. *)
Theorem el1_irq_serves fuel s g :
  driver net_mac my_ip sp mac ip bufs s g -> allowed ip bufs (Irq fuel) s g ->
  let id := u32 (device (regs s) GICC_IAR) in
  let s1 := with_regs (regs s ++ [Rd GICC_IAR]) s in
  if id =? 48 then
    exists s', el1_irq_handler net_mac my_ip sp device fuel s = Some ((), s') /\
      driver net_mac my_ip sp mac ip bufs s' (spec mac ip device (Irq fuel) s1 g) /\
      frames_free s' ++ (flight (spec mac ip device (Irq fuel) s1 g)).*1 ≡ₚ frames_free s ++ (flight g).*1 /\
      exists before, regs s' = before ++ [Wr GICC_EOIR 48]
  else el1_irq_handler net_mac my_ip sp device fuel s = Some ((), with_regs (regs s ++ [Rd GICC_IAR; Wr GICC_EOIR id]) s).
Proof.
  intros Hdr Ha id s1. pose proof (el1_irq_eq fuel s) as Heq. cbv zeta in Heq. fold id s1 in Heq. rewrite Heq. destruct (id =? 48); [|done].
  assert (H1 : driver net_mac my_ip sp mac ip bufs s1 g) by by apply driver_regs.
  destruct (irq_step net_mac my_ip sp mac ip device bufs fuel s1 g H1 Ha) as (s2 & E2 & H2 & P2 & _).
  cbn [exec] in E2. destruct (virtio_net_handle_irq _ _ _ _ _ s1) as [[[] s2']|]; [|done]. injection E2 as ->.
  exists (with_regs (regs s2 ++ [Wr GICC_EOIR 48]) s2). split; [done|]. split; [by apply driver_regs|].
  split; [exact P2|]. by exists (regs s2).
Qed.
End Service.
End Exceptions.
