(* ===== verification/NetDemo.v ===== *)
(** * The network stack at concrete inputs

    A machine of 64 frames just booted, and a device with queues of four
    entries, whose interrupt status always shows the queue bit. *)

From S2P Require Import Prelude Memory CString Pmm Bytes Mmio Net NetChecksum NetFrames NetSend NetTrace NetAnswer NetHandle NetPoll NetIrq NetInit NetService Gic Exceptions.

Module NetDemo.
Import CString Pmm Net NetChecksum NetFrames NetSend NetAnswer NetHandle NetPoll NetIrq NetInit NetService.

(** ** The machine and the device *)

Definition the_mac : list Z := [0x52; 0x54; 0; 0x12; 0x34; 0x56].
Definition the_ip : list Z := [10; 0; 2; 15].

Definition mac_at : Z := PHY_RAM_BASE + 16.
Definition ip_at : Z := PHY_RAM_BASE + 32.
Definition stack_at : Z := PHY_RAM_BASE + 4106.

Definition image : mem := store_bytes ∅ ip_at the_ip.
Definition booted : pmm_state * mem := pmm_init boot_state image (PHY_RAM_BASE + 12000) (64 * 4096).
Definition machine : net_state := NetState booted.2 booted.1 (Virtq 0 0 0 0 0) (Virtq 0 0 0 0 0) 0 [].

Definition device (b : bus) (a : Z) : Z :=
  let r := a - VIRTIO_NET_BASE in
  if a =? Gic.GICC_IAR then 48
  else if r =? VIRTIO_REG_QUEUE_MAX then 4
  else if r =? VIRTIO_REG_STATUS then 11
  else if r =? VIRTIO_REG_INTERRUPT_STATUS then 1
  else if VIRTIO_REG_CONFIG <=? r then nth (Z.to_nat (r - VIRTIO_REG_CONFIG)) the_mac 0
  else 0.

Definition buffers : list Z := [47; 46; 45; 44].
Definition spare : list Z := reverse (seqZ 4 40).

Lemma the_device : device_ok the_mac device 4.
Proof.
  split; try done.
  - split; [lia|]. by exists (2 ^ 14).
  - intros b k c Hk. pose proof (lookup_lt_Some _ _ _ Hk) as Hl. cbn in Hl.
    do 6 (destruct k as [|k]; [injection Hk as <-; reflexivity|]). lia.
Qed.

(** The state of the allocator after booting. *)
Lemma booted_ok : Pmm.inv booted.1 booted.2 /\ free (abs booted.1 booted.2) = reverse (seqZ 4 60) /\
  (forall b, owns booted.1 b -> PHY_RAM_BASE + 12288 <= b < PHY_RAM_BASE + 12608) /\ holds booted.2 ip_at the_ip.
Proof.
  pose proof (Pmm.boot_ok image (PHY_RAM_BASE + 12000) (64 * 4096)) as H. cbv zeta in H. unfold booted.
  specialize (H ltac:(lia) ltac:(lia) ltac:(vm_compute; discriminate)).
  destruct (pmm_init _ _ _ _) as [p m]. destruct H as (H1 & H2 & _ & H4 & _ & H6). split; [done|]. split; [exact H2|]. split.
  - intros b Hb. cbn [fst] in Hb. rewrite H4 in Hb. exact Hb.
  - eapply holds_agree; [exact H6| |].
    + intros b Hb. unfold outside. left. revert Hb. unfold ip_at, PHY_RAM_BASE. cbn [length the_ip]. intros Hb. change (b < 0x40003000). lia.
    + apply holds_store_bytes_at. intros c Hc. unfold the_ip in Hc. set_unfold. lia.
Qed.

#[local] Opaque booted.

Lemma the_boot : boot_ok mac_at ip_at stack_at the_ip 4 63 55 buffers spare machine.
Proof.
  destruct booted_ok as (H1 & H2 & H3 & H4).
  assert (Hres : forall K, (forall b, K b -> b < PHY_RAM_BASE + 12288) -> reserved machine K).
  { intros K HK b Hb. specialize (HK b Hb). split; [intros Ho; change (owns booted.1 b) in Ho; apply H3 in Ho; lia|].
    intros f Hf. change (f ∈ free (abs booted.1 booted.2)) in Hf. rewrite H2, elem_of_reverse, elem_of_seqZ in Hf.
    unfold in_frame, frame_addr. lia. }
  constructor.
  - exact H1.
  - unfold frames_free. change (free (abs booted.1 booted.2) = eight 63 ++ eight 55 ++ buffers ++ spare). rewrite H2. reflexivity.
  - reflexivity.
  - reflexivity.
  - exact H4.
  - reflexivity.
  - apply Hres. unfold static_bytes, mac_at, ip_at. lia.
  - apply Hres. unfold stack_bytes, stack_at. lia.
  - unfold apart, stack_at, mac_at, ip_at. lia.
Qed.

(** The service after [net_init]. *)
Definition idle : service := Service 0 [] 0 0 4 [].

Lemma the_driver : exists s0, net_init mac_at device machine = Some ((), s0) /\
  driver mac_at ip_at stack_at the_mac the_ip buffers s0 idle /\ rxq s0 = queue_at 63 4 /\ txq s0 = queue_at 55 4 /\
  frames_free s0 = spare.
Proof. exact (boot_driver mac_at ip_at stack_at the_mac the_ip device 4 63 55 buffers spare machine the_device the_boot). Qed.

Lemma net_init_ready_witness : exists s' f, net_init mac_at device machine = Some ((), s') /\
  frames_free s' = spare /\ rxq s' = Virtq (frame_addr 60) (frame_addr 59) (frame_addr 56) 4 0 /\ offered s' 0 47 /\ (f = 0 \/ f = 1).
Proof.
  destruct (net_init_ready mac_at ip_at stack_at the_mac the_ip device 4 63 55 buffers spare machine the_device the_boot)
    as (s' & f & E & _ & _ & H1 & _ & H2 & H3 & H4 & _).
  exists s', f. split; [done|]. split; [done|]. split; [done|]. split; [|done]. exact (H3 0%nat 47 eq_refl).
Defined.

(** ** A ping *)

Definition ping : list Z :=
  [82; 84; 0; 18; 52; 86; 82; 85; 10; 0; 2; 2; 8; 0;
   69; 0; 0; 30; 0; 1; 0; 0; 64; 1; 98; 206; 10; 0; 2; 2; 10; 0; 2; 15;
   8; 0; 125; 97; 18; 52; 0; 1; 104; 105].
Definition pong : list Z :=
  [82; 85; 10; 0; 2; 2; 82; 84; 0; 18; 52; 86; 8; 0;
   69; 0; 0; 30; 0; 1; 0; 0; 64; 1; 98; 206; 10; 0; 2; 15; 10; 0; 2; 2;
   0; 0; 133; 97; 18; 52; 0; 1; 104; 105].

Example ping_answer : answer the_mac the_ip 44 ping = Some pong.
Proof. by vm_compute. Qed.

Lemma ping_trusted : trusted the_ip 44 ping.
Proof. intros _ _. split; [cbn; lia|]. intros _. vm_compute. split_and!; discriminate || reflexivity. Qed.

Definition ping_packet : rx_packet := RxPacket 0 (frame_addr 47) 44 ping.

(** The device puts it in the first buffer. *)
Definition with_ping (m : mem) : mem :=
  store16 (store32 (store32 (store_bytes m (frame_addr 47 + 10) ping) (frame_addr 56 + 4) 0) (frame_addr 56 + 8) 54) (frame_addr 56 + 2) 1.

Lemma ping_delivers s0 : rxq s0 = queue_at 63 4 -> delivers the_ip buffers s0 0 [] [ping_packet] (with_ping (memory s0)).
Proof.
  intros Hq. assert (H47 : frame_addr 47 = 0x4002F000) by reflexivity. assert (H56 : frame_addr 56 = 0x40038000) by reflexivity.
  assert (Hl : length ping = 44%nat) by reflexivity.
  split; rewrite ?Hq; cbn [used qsize queue_at]; change (63 - 7) with 56.
  - intros b [H1 H2]. specialize (H2 ping_packet ltac:(left)). unfold device_bytes, buffer_bytes in *. cbn [used qsize queue_at rx_buf ping_packet] in *.
    change (63 - 7) with 56 in *. unfold with_ping. rewrite !load8_storen_ne by lia. apply store_bytes_outside. unfold outside. lia.
  - unfold with_ping. by rewrite loadn_storen_eq.
  - intros k pk Hk. destruct k as [|k]; [|by destruct k]. injection Hk as <-. cbv zeta. change ((0 + Z.of_nat 0) mod 4) with 0.
    rewrite Z.mul_0_r, Z.add_0_r. replace (frame_addr 56 + 4 + 4) with (frame_addr 56 + 8) by lia. unfold with_ping.
    cbn [rx_id rx_len ping_packet]. split; msimpl; lia.
  - apply Forall_singleton. split; [done|]. by exists 47.
  - apply NoDup_singleton.
  - intros pk Hpk%list_elem_of_singleton. subst pk. split; cbn [rx_buf rx_len rx_data ping_packet]; [|rewrite Hl; lia|rewrite Hl; lia|exact ping_trusted].
    unfold with_ping. do 3 (apply holds_storen; [lia|]). apply holds_store_bytes_at. intros c Hc. unfold ping in Hc. set_unfold. lia.
Qed.

(** A state in which the ping waits for the interrupt. *)
Lemma the_arrival : exists s1, driver mac_at ip_at stack_at the_mac the_ip buffers s1 (Service 0 [] 0 0 4 [ping_packet]) /\
  qsize (txq s1) = 4 /\ frames_free s1 = spare.
Proof.
  destruct the_driver as (s0 & _ & Hdr & Hrx & Htx & Hf). pose proof (ping_delivers s0 Hrx) as Hd.
  exists (with_memory (with_ping (memory s0)) s0). split; [|split].
  - exact (deliver_ok mac_at ip_at stack_at the_mac the_ip device buffers s0 idle _ _ Hdr Hd).
  - cbn [txq with_memory]. by rewrite Htx.
  - rewrite <- Hf. exact (memory_frames mac_at ip_at stack_at the_mac the_ip s0 _ _ _ _ (dr_host _ _ _ _ _ _ _ _ Hdr)
      (arriving_agree the_ip buffers s0 idle _ _ Hd) (arriving_K mac_at ip_at stack_at the_mac the_ip buffers s0 idle _ _ Hdr Hd)).
Qed.

Lemma ethernet_answers_witness : exists s1 s',
  ethernet_handle_packet mac_at ip_at stack_at (frame_addr 47 + 10) 44 s1 = Some ((), s') /\
  tx_inv s' 0 [(43, pong)] /\ proper the_mac the_ip ping pong.
Proof.
  destruct the_arrival as (s1 & Hdr & Hsize & Hf). pose proof (dr_host _ _ _ _ _ _ _ _ Hdr) as Hhost.
  pose proof (rx_pending _ _ _ _ _ _ _ _ _ (dr_rx _ _ _ _ _ _ _ _ Hdr) 0%nat ping_packet eq_refl) as Hp.
  assert (Hpk : packet_at mac_at ip_at stack_at s1 [] (frame_addr 47 + 10) ping).
  { pose proof (rc_private _ _ _ _ _ _ _ _ Hp) as H1. destruct (rc_static _ _ _ _ _ _ _ _ Hp) as [H2 H2'].
    pose proof (rc_stack _ _ _ _ _ _ _ _ Hp) as H3. unfold apart in *. cbn [rx_buf ping_packet] in *.
    assert (Hl : length ping = 44%nat) by reflexivity. split; rewrite ?Hl; unfold apart.
    - exact (rc_data _ _ _ _ _ _ _ _ Hp).
    - intros b Hb. apply H1. unfold packet_bytes, buffer_bytes in *. rewrite Hl in Hb. cbn [rx_buf ping_packet]. lia.
    - lia.
    - lia. }
  destruct (ethernet_answers mac_at ip_at stack_at the_mac the_ip s1 0 [] (frame_addr 47 + 10) ping Hhost Hpk
    ltac:(cbn [length]; lia) 44 ltac:(cbn; lia) ping_trusted ltac:(cbn; lia)) as (s' & E & H & Hpr).
  exists s1, s'. split; [exact E|]. split; [|exact (Hpr pong ping_answer)].
  pose proof (ha_tx _ _ _ _ _ _ H) as Htx. rewrite ping_answer in Htx. unfold appended in Htx. rewrite Hf in Htx. exact Htx.
Defined.

Lemma net_poll_rx_answers_witness : exists s1 s', net_poll_rx mac_at ip_at stack_at 2 s1 = Some ((), s') /\
  tx_inv s' 0 [(43, pong)] /\ rx_inv mac_at ip_at stack_at the_ip s' [(43, pong)] 1 5 [] /\ handed_back s' 4 [ping_packet].
Proof.
  destruct the_arrival as (s1 & Hdr & Hsize & Hf).
  destruct (net_poll_rx_answers mac_at ip_at stack_at the_mac the_ip [ping_packet] s1 0 [] 0 4 2
    (dr_host _ _ _ _ _ _ _ _ Hdr) (dr_rx _ _ _ _ _ _ _ _ Hdr) ltac:(cbn [length]; lia) ltac:(cbn [length]; lia)) as (s' & E & H).
  cbv zeta in H. rewrite Hf in H. assert (Ea : (due the_mac the_ip <$> [ping_packet]) = [Some pong]) by (by cbn [fmap list_fmap]; unfold due; cbn [rx_len rx_data ping_packet]; rewrite ping_answer).
  rewrite Ea in H. change ([] ++ answers [Some pong] spare) with [(43, pong)] in H. destruct H as (H1 & H2 & H3 & _).
  exists s1, s'. split; [exact E|]. split; [exact (ho_tx _ _ _ _ _ _ _ _ H1)|]. by split.
Defined.

Lemma checksum_verifies_witness :
  let m := store_bytes ∅ 0x1000 [8; 0; 0; 0; 18; 52; 0; 1; 104; 105] in
  calculate_checksum (store16 m (0x1000 + 2) (ntohs (calculate_checksum m 0x1000 10))) 0x1000 10 = 0.
Proof.
  intros m. exact (proj1 (checksum_verifies m 0x1000 10 2 ltac:(lia) ltac:(lia) ltac:(done) ltac:(by vm_compute))).
Defined.

(** ** The service *)

Abbreviation the_state := (driver mac_at ip_at stack_at the_mac the_ip buffers).
Abbreviation the_spec := (spec the_mac the_ip device).

(** A step that has been taken. *)
Lemma the_event e s g s' : the_state s g -> allowed the_ip buffers e s g -> exec mac_at ip_at stack_at device e s = Some s' ->
  the_state s' (the_spec e s g) /\ qsize (txq s') = qsize (txq s) /\
  frames_free s' ++ (flight (the_spec e s g)).*1 ≡ₚ frames_free s ++ (flight g).*1.
Proof.
  intros Hdr Ha E. destruct (event_ok mac_at ip_at stack_at the_mac the_ip device buffers e s g Hdr Ha) as (s1 & E1 & H1 & H2 & H3).
  rewrite E in E1. injection E1 as <-. done.
Qed.

Lemma length_appended r s : (length (appended r s) <= 1)%nat.
Proof. unfold appended. destruct r as [data|], (frames_free s) as [|f rest]; cbn; lia. Qed.

Lemma the_run s0 : the_state s0 idle -> rxq s0 = queue_at 63 4 -> txq s0 = queue_at 55 4 ->
  all_allowed mac_at ip_at stack_at the_mac the_ip device buffers
    [Deliver (with_ping (memory s0)) [ping_packet]; Irq 2; Request; Irq 1] s0 idle.
Proof.
  intros H0 Hrx Htx. split; [exact (ping_delivers s0 Hrx)|]. intros s1 [= <-]. set (s1 := with_memory _ s0).
  assert (Hq1 : qsize (txq s1) = 4) by (cbn [txq s1 with_memory]; by rewrite Htx).
  destruct (the_event (Deliver (with_ping (memory s0)) [ping_packet]) s0 idle s1 H0 (ping_delivers s0 Hrx) eq_refl) as (H1 & _).
  clearbody s1. set (g1 := the_spec _ s0 idle) in *.
  assert (A1 : allowed the_ip buffers (Irq 2) s1 g1) by (unfold allowed, g1; cbn; rewrite Hq1; split_and!; lia).
  split; [exact A1|]. intros s2 E2. destruct (the_event (Irq 2) s1 g1 s2 H1 A1 E2) as (H2 & Q2 & _).
  set (g2 := the_spec (Irq 2) s1 g1) in *.
  assert (L2 : (length (flight g2) <= 1)%nat /\ pend g2 = [] /\ ndone g2 = 0%nat).
  { unfold g2, spec. change (queue_irq device s1) with true. cbn [flight pend ndone]. split; [|done].
    cbn [g1 spec idle flight ndone pend app drop fmap list_fmap]. unfold due. cbn [rx_len rx_data ping_packet]. rewrite ping_answer.
    cbn [answers]. destruct (frames_free s1); cbn; lia. }
  destruct L2 as (L2 & P2 & D2).
  assert (A2 : allowed the_ip buffers Request s2 g2) by (unfold allowed; rewrite Q2, Hq1; lia).
  split; [exact A2|]. intros s3 E3. destruct (the_event Request s2 g2 s3 H2 A2 E3) as (H3 & Q3 & _).
  split; [|done]. unfold allowed. cbn [spec flight pend ndone]. rewrite Q3, Q2, Hq1, P2, D2, length_app.
  pose proof (length_appended (Some (gateway_request the_mac the_ip)) s2). cbn [length]. lia.
Qed.

Lemma net_serves_witness : exists s0, net_init mac_at device machine = Some ((), s0) /\
  exists s' g', run mac_at ip_at stack_at the_mac the_ip device
      [Deliver (with_ping (memory s0)) [ping_packet]; Irq 2; Request; Irq 1] s0 idle = Some (s', g') /\
    the_state s' g' /\ frames_free s' ++ (flight g').*1 ≡ₚ spare.
Proof.
  destruct (net_serves mac_at ip_at stack_at the_mac the_ip device 4 63 55 buffers spare machine the_device the_boot) as (s0 & E & H).
  destruct the_driver as (s0' & E' & Hdr & Hrx & Htx & _). rewrite E in E'. injection E' as <-.
  exists s0. split; [exact E|]. exact (H _ (the_run s0 Hdr Hrx Htx)).
Defined.

Lemma el1_irq_serves_witness : exists s1 s' before,
  the_state s1 (Service 0 [] 0 0 4 [ping_packet]) /\ Exceptions.el1_irq_handler mac_at ip_at stack_at device 2 s1 = Some ((), s') /\
  the_state s' (Service 0 [(43, pong)] 0 1 5 []) /\ regs s' = before ++ [Wr 0x08010010 48].
Proof.
  destruct the_arrival as (s1 & Hdr & Hsize & Hf). assert (Ha : allowed the_ip buffers (Irq 2) s1 (Service 0 [] 0 0 4 [ping_packet])).
  { split; [rewrite Hsize; cbn; lia|]. cbn. lia. }
  destruct (Exceptions.el1_irq_serves mac_at ip_at stack_at the_mac the_ip device buffers 2 s1 _ Hdr Ha) as (s' & E & H & _ & before & W).
  exists s1, s', before. split; [exact Hdr|]. split; [exact E|]. split; [|exact W].
  cbn [spec] in H. change (queue_irq device _) with true in H. cbn [base flight ndone seen given pend drop app] in H.
  change (frames_free (with_regs _ s1)) with (frames_free s1) in H. rewrite Hf in H.
  assert (Ea : (due the_mac the_ip <$> [ping_packet]) = [Some pong]) by (by cbn [fmap list_fmap]; unfold due; cbn [rx_len rx_data ping_packet]; rewrite ping_answer). rewrite Ea in H.
  exact H.
Defined.

(** ** The transmit queue *)

(** Each request takes a slot and a frame, until the ring is full. *)
Lemma request_more s g : the_state s g -> qsize (txq s) = 4 -> (length (flight g) < 4)%nat ->
  (length (frames_free s) + length (flight g) = 40)%nat ->
  exists s' g', the_state s' g' /\ qsize (txq s') = 4 /\ length (flight g') = S (length (flight g)) /\
    (length (frames_free s') + length (flight g') = 40)%nat.
Proof.
  intros Hdr Hq Hl Ht. assert (Ha : allowed the_ip buffers Request s g) by (unfold allowed; lia).
  destruct (event_ok mac_at ip_at stack_at the_mac the_ip device buffers Request s g Hdr Ha) as (s' & E & H1 & H2 & H3).
  exists s', (the_spec Request s g). split; [done|]. split; [lia|].
  apply Permutation_length in H2. rewrite !length_app, !length_fmap in H2.
  assert (L : length (flight (the_spec Request s g)) = S (length (flight g))).
  { cbn [spec flight]. rewrite length_app. unfold appended. destruct (frames_free s); cbn [length] in *; lia. }
  split; [done|]. lia.
Qed.

Lemma the_full_ring : exists s i data l L, tx_inv s L ((i, data) :: l) /\ length l = 3%nat /\ qsize (txq s) = 4 /\
  frames_free s <> [] /\ holds (memory s) ip_at the_ip /\ reserved s (fun b => ip_at <= b < ip_at + 4).
Proof.
  destruct the_driver as (s0 & _ & Hdr & _ & Htx & Hf).
  destruct (request_more s0 idle Hdr) as (s1 & g1 & H1 & Q1 & L1 & T1); [by rewrite Htx|cbn; lia|by rewrite Hf|].
  destruct (request_more s1 g1 H1 Q1 ltac:(rewrite L1; cbn; lia) T1) as (s2 & g2 & H2 & Q2 & L2 & T2).
  destruct (request_more s2 g2 H2 Q2 ltac:(rewrite L2, L1; cbn; lia) T2) as (s3 & g3 & H3 & Q3 & L3 & T3).
  destruct (request_more s3 g3 H3 Q3 ltac:(rewrite L3, L2, L1; cbn; lia) T3) as (s4 & g4 & H4 & Q4 & L4 & T4).
  rewrite L3, L2, L1 in L4. cbn in L4. pose proof (dr_host _ _ _ _ _ _ _ _ H4) as Hh. pose proof (ho_tx _ _ _ _ _ _ _ _ Hh) as Hi.
  destruct (flight g4) as [|[i data] l] eqn:El; [done|]. injection L4 as L4. exists s4, i, data, l, (base g4).
  split; [done|]. split; [done|]. split; [done|]. split; [intros Hn; rewrite Hn in T4; cbn in *; lia|].
  split; [apply Hh|]. intros b Hb. destruct (ho_static _ _ _ _ _ _ _ _ Hh b) as (P1 & _ & P3); [by right|]. split; [done|].
  intros f Hf'. apply P3. apply elem_of_app. by left.
Qed.

Lemma net_send_overruns_witness : exists s i data l L s' j,
  tx_inv s L ((i, data) :: l) /\ net_send ip_at 4 s = Some ((), s') /\ j <> i /\
  load64 (memory s') (desc (txq s) + 16 * (L mod qsize (txq s))) = frame_addr j.
Proof.
  destruct the_full_ring as (s & i & data & l & L & Hi & Hl & Hq & Hf & Hh & Hr). exists s, i, data, l, L.
  destruct (NetTrace.net_send_overruns s L i data l ip_at the_ip Hi ltac:(cbn [length]; lia) Hf ltac:(done) ltac:(cbn; lia) Hh Hr)
    as (_ & j & s' & E & Hne & H). by exists s', j.
Defined.

(** A message of 5000 bytes goes on into the frame behind the one allocated. *)
Lemma net_send_overflows_witness : exists s0 s', net_send 0x1000 5000 s0 = Some ((), s') /\
  holds (memory s') (frame_addr 44) (drop 4086 (load_bytes (memory s0) 0x1000 5000)).
Proof.
  destruct the_driver as (s0 & _ & Hdr & Hrx & Htx & Hf). exists s0.
  pose proof (ho_tx _ _ _ _ _ _ _ _ (dr_host _ _ _ _ _ _ _ _ Hdr)) as Hi. cbn [base flight idle] in Hi.
  set (data := load_bytes (memory s0) 0x1000 5000).
  assert (Hl : Z.of_nat (length data) = 5000) by (unfold data; rewrite length_load_bytes; lia).
  assert (Ha : frame_addr 43 = 0x4002B000) by reflexivity.
  assert (Hr : spare = 43 :: reverse (seqZ 4 39)) by reflexivity. rewrite Hr in Hf.
  destruct (net_send_overflows s0 0 [] 0x1000 data 43 _ Hi Hf ltac:(lia) (holds_load_bytes _ _ _)) as (s' & E & _ & H).
  - intros b Hb Ho. pose proof (tx_pmm _ _ _ Hi) as Hp. destruct (inv_layout _ _ Hp). unfold owns in Ho. unfold PHY_RAM_BASE in *. lia.
  - rewrite Hl, Ha. lia.
  - intros b Hb. rewrite Hl, Ha. rewrite Htx in Hb. unfold queue_bytes, driver_bytes, device_bytes in Hb.
    cbn [desc avail used qsize queue_at] in Hb. unfold frame_addr, PHY_RAM_BASE in Hb. lia.
  - rewrite Hl in E. exists s'. split; [exact E|]. exact H.
Defined.

(** A packet is sent, the device reports it done, its frame is freed. *)
Definition with_done (m : mem) : mem := store16 (store32 m (frame_addr 48 + 4) 0) (frame_addr 48 + 2) 1.

Lemma tx_trace_refines_witness : exists s0 m s' g',
  NetTrace.run [NetTrace.Send ip_at the_ip; NetTrace.Device m 1; NetTrace.Cleanup 2] s0 (NetTrace.Queue 0 [] 0) = Some (s', g') /\
  NetTrace.represents s' g' /\ frames_free s' ++ (NetTrace.flight g').*1 ≡ₚ spare.
Proof.
  destruct the_driver as (s0 & _ & [H1 _ _ _ _ H6 H7] & _ & Htx & Hf).
  assert (Hrep : NetTrace.represents s0 (NetTrace.Queue 0 [] 0)) by (split; [exact (ho_tx _ _ _ _ _ _ _ _ H1)|exact H6|done]).
  assert (Ha : NetTrace.allowed (NetTrace.Send ip_at the_ip) s0 (NetTrace.Queue 0 [] 0)).
  { split; [rewrite Htx; cbn; lia|]. split; [done|]. split; [cbn; lia|]. split; [exact (ho_ip _ _ _ _ _ _ _ _ H1)|].
    intros b Hb. destruct (ho_static _ _ _ _ _ _ _ _ H1 b) as (P1 & _ & P3); [by right|]. split; [done|].
    intros f Hf'. apply P3. apply elem_of_app. by left. }
  pose proof Ha as (A1 & A2 & A3 & A4 & A5).
  pose proof (net_send_ok s0 0 [] ip_at the_ip (ho_tx _ _ _ _ _ _ _ _ H1) A3 A2 A4 A5 A1) as H.
  change (free (abs (pmm s0) (memory s0))) with (frames_free s0) in H. rewrite Hf in H.
  destruct H as (s1 & E & _ & _ & _ & Q1 & _). rewrite Htx in Q1.
  exists s0, (with_done (memory s1)). destruct (NetTrace.tx_trace_refines
    [NetTrace.Send ip_at the_ip; NetTrace.Device (with_done (memory s1)) 1; NetTrace.Cleanup 2] s0 (NetTrace.Queue 0 [] 0) Hrep)
    as (s' & g' & R & H & P).
  - split; [exact Ha|]. cbn [NetTrace.exec]. rewrite E. intros s1' [= <-]. cbn [NetTrace.spec]. replace (frames_free s0) with (43 :: reverse (seqZ 4 39)) by (rewrite Hf; reflexivity).
    cbn [NetTrace.base NetTrace.flight NetTrace.ndone].
    assert (H48 : frame_addr 48 = 0x40030000) by reflexivity.
    split; [|intros s2 [= <-]; split; [cbn; lia|done]].
    split; [|split; [cbn; lia|]].
    + intros b Hb. rewrite Q1 in Hb. unfold device_bytes in Hb. cbn [used qsize queue_at] in Hb. change (55 - 7) with 48 in Hb.
      unfold with_done. by rewrite !load8_storen_ne by lia.
    + unfold completed. cbn [txq with_memory memory NetTrace.base]. rewrite Q1. cbn [used qsize queue_at]. change (55 - 7) with 48. unfold with_done.
      split; [by rewrite loadn_storen_eq|]. intros k Hk. replace k with 0 by lia. change ((0 + 0) mod 4) with 0. rewrite Z.mul_0_r, Z.add_0_r. by rewrite loadn_storen_ne, loadn_storen_eq by lia.
  - exists s', g'. split; [exact R|]. split; [exact H|]. rewrite P, Hf. cbn [NetTrace.flight fmap list_fmap]. by rewrite app_nil_r.
Defined.
End NetDemo.
