(* ===== verification/Boot.v ===== *)
(** * Bringing the memory up (src/src/main.c)

    The calls of [main] that set up the frame allocator, the page tables, the
    interrupt controller and the heap, one after the other on one machine. *)

From S2P Require Import Prelude Memory CString Pmm FrameAlloc Vmm VmmFrames.
From S2P Require Import Heap HeapPages HeapLists HeapInv HeapSpec Malloc HeapTrace HeapApi Mmio Gic.

Module Boot.
Import CString Pmm Vmm VmmFrames Heap HeapInv HeapTrace Gic.

(** ** The frames above a limit

    After booting the free frames are [k], [k+1], ..., the last one on top. An
    allocator that stops at the frame [lim] takes the same frames as [Pmm] as
    long as it has any, and is known not to touch what is below. *)

Section Above.
Context (k lim base : Z) (m0 : mem).

(** One more than the highest free frame. *)
Definition left_ (s : pmm_state) : Z := k + u32 (stack_top s).

Record above (s : pmm_state) (m : mem) : Prop := {
  ab_inv : Pmm.inv s m;
  ab_free : Pmm.free (abs s m) = reverse (seqZ k (stack_top s));
  ab_low : reserved_end s <= frame_addr k;
  ab_lim : 0 <= k <= lim;
  ab_base : base <= frame_stack s;
  ab_rest : agree (fun b => b < base) m0 m;
}.

Lemma left_eq s m : Pmm.inv s m -> left_ s = k + stack_top s.
Proof.
  intros Hinv. pose proof (inv_top _ _ Hinv). destruct (layout_bounds s (inv_layout _ _ Hinv)) as [? _].
  unfold left_. rewrite u32_id by lia. done.
Qed.

(** An allocation takes one at most, whatever the state. *)
Lemma left_alloc s m : left_ s - 1 <= left_ (pmm_alloc_frame s m).1.2.
Proof. unfold pmm_alloc_frame, left_. destruct (stack_top s =? 0); cbn; [lia|wrap]. Qed.

Definition above_alloc (s : pmm_state) (m : mem) : Z * pmm_state * mem :=
  if left_ s <=? lim then (0, s, m) else pmm_alloc_frame s m.

Definition above_free (s : pmm_state) (m : mem) (g : Z) : Prop :=
  exists i, g = frame_addr i /\ lim <= i < left_ s.

Definition above_owns (s : pmm_state) (b : Z) : Prop := b < frame_addr lim.

Lemma above_owned s m b : above s m -> owns s b -> above_owns s b.
Proof. intros [_ _ H1 H2 _ _]. unfold owns, above_owns, frame_addr in *. lia. Qed.

Lemma above_top s m : above s m -> 0 < stack_top s ->
  let '(f, s', m') := pmm_alloc_frame s m in
  f = frame_addr (left_ s - 1) /\ above s' m' /\ left_ s' = left_ s - 1 /\ agree (fun b => ~ owns s b) m m'.
Proof.
  intros [Hinv Hf Hlow Hk Hbs Hrest] Ht. pose proof (alloc_ok s m Hinv) as H. destruct (pmm_alloc_frame s m) as [[f s'] m'].
  unfold spec_alloc in H. rewrite (left_eq s m Hinv).
  assert (E : reverse (seqZ k (stack_top s)) = (k + (stack_top s - 1)) :: reverse (seqZ k (stack_top s - 1))).
  { replace (stack_top s) with ((stack_top s - 1) + 1) at 1 by lia. rewrite seqZ_app by lia. apply reverse_snoc. }
  rewrite Hf, E in H. destruct H as (-> & Habs & Hinv' & Hag & Hs).
  assert (Htop : stack_top s' = stack_top s - 1).
  { pose proof (inv_top _ _ Hinv'). rewrite <- (length_free s' m') by lia. rewrite Habs. cbn [Pmm.free].
    rewrite length_reverse, length_seqZ. lia. }
  assert (Hst : frame_stack s' = frame_stack s) by (by rewrite Hs). apply layout_same in Hs as (_ & _ & Hr). rewrite (left_eq s' m' Hinv'), Htop. split_and!; [f_equal; lia| |lia|done].
  split; [done| |by rewrite Hr|done|by rewrite Hst|]; [by rewrite Habs, Htop|].
  intros b Hb. rewrite Hag by (unfold owns; lia). by apply Hrest.
Qed.

Lemma above_alloc_spec s m : above s m ->
  let '(f, s', m') := above_alloc s m in
  above s' m' /\ agree (fun b => ~ above_owns s b) m m' /\
  (forall b, above_owns s' b <-> above_owns s b) /\
  (forall g, above_free s' m' g <-> above_free s m g /\ g <> f) /\
  (f = 0 -> forall g, ~ above_free s m g) /\ (f <> 0 -> above_free s m f).
Proof.
  intros Ha. pose proof (ab_lim _ _ Ha) as Hk. pose proof (above_owned s m) as Ho. unfold above_alloc. destruct (left_ s <=? lim) eqn:E.
  - apply Z.leb_le in E. split_and!; try done.
    + intros g. split; [|tauto]. intros (i & -> & Hi). lia.
    + intros _ g (i & _ & Hi). lia.
  - apply Z.leb_gt in E. pose proof (above_top s m Ha ltac:(rewrite (left_eq s m (ab_inv _ _ Ha)) in E; lia)) as H.
    destruct (pmm_alloc_frame s m) as [[f s'] m']. destruct H as (-> & Ha' & Hl & Hag).
    unfold above_free. rewrite Hl. split_and!; try done.
    + eapply agree_weaken; [exact Hag|]. intros b Hb Hb'. by apply Hb, Ho.
    + intros g. split.
      * intros (i & -> & Hi). split; [exists i; split; [done|lia]|]. intros ?%frame_addr_inj. lia.
      * intros [(i & -> & Hi) Hne]. exists i. split; [done|]. assert (i <> left_ s - 1) by (by intros ->). lia.
    + unfold frame_addr, PHY_RAM_BASE. lia.
    + intros _. exists (left_ s - 1). split; [done|lia].
Qed.

Lemma above_frame s m m' : above s m -> agree (above_owns s) m m' ->
  above s m' /\ forall g, above_free s m' g <-> above_free s m g.
Proof.
  intros Ha Hag. split; [|done]. pose proof Ha as [Hinv Hf Hlow Hk Hbs Hrest].
  assert (Hag' : agree (owns s) m m') by (eapply agree_weaken; [exact Hag|]; intros b; by apply (above_owned s m)).
  split; [by apply (pmm_frame s m)| |done|done|done|]; [by rewrite (abs_agree s m m')|].
  intros b Hb. rewrite Hag by (unfold above_owns; destruct (inv_layout _ _ Hinv); unfold owns, reserved_end, frame_addr in *; lia). by apply Hrest.
Qed.

Lemma above_total s m : above s m -> left_ s <= total_frames s \/ stack_top s = 0.
Proof.
  intros [Hinv Hf Hlow Hk _ _]. pose proof (inv_top _ _ Hinv). destruct (decide (stack_top s = 0)); [by right|left].
  assert (Hin : left_ s - 1 ∈ Pmm.free (abs s m)).
  { rewrite Hf. apply elem_of_reverse, elem_of_seqZ. rewrite (left_eq s m Hinv). lia. }
  apply (wf_free _ _ _ (inv_wf _ _ Hinv)) in Hin. lia.
Qed.

Lemma above_page s m f : above s m -> above_free s m f ->
  f mod 4096 = 0 /\ 0 < f /\ f + 4096 <= 2 ^ 48 /\ forall b, f <= b < f + 4096 -> ~ above_owns s b.
Proof.
  intros Ha (i & -> & Hi). pose proof (above_total s m Ha). pose proof (ab_lim _ _ Ha).
  pose proof (layout_bounds s (inv_layout _ _ (ab_inv _ _ Ha))) as (Hb & _).
  assert (i < 2 ^ 31) by (pose proof (left_eq s m (ab_inv _ _ Ha)); lia). unfold above_owns, frame_addr, PHY_RAM_BASE.
  split_and!; [zdiv|lia|lia|]. intros b ?. lia.
Qed.

#[local] Instance above_allocator : FrameAllocator pmm_state := {
  fa_alloc := above_alloc;
  fa_inv := above;
  fa_free := above_free;
  fa_owns := above_owns;
  fa_alloc_spec := above_alloc_spec;
  fa_frame := above_frame;
  fa_page := above_page;
}.

(** A tree of tables above the limit is one for [Pmm] too. *)
Lemma above_tree s m root : pt_inv (FA := above_allocator) s m root -> pt_inv (FA := pmm_frame_allocator) s m root.
Proof.
  intros [Ha Hpg Hus Hown Hinj Hl1]. cbn in Ha. split; [by destruct Ha|done| | |done|done].
  - intros p t Hp Ht (i & -> & Hi). apply (Hus p _ Hp Ht). exists i. split; [done|].
    pose proof (Hown p _ (frame_addr i) Hp Ht ltac:(lia)) as Hlow. cbn in Hlow. unfold above_owns in Hlow.
    rewrite (ab_free _ _ Ha), elem_of_reverse, elem_of_seqZ in Hi. rewrite (left_eq s m (ab_inv _ _ Ha)). unfold frame_addr in *. lia.
  - intros p t b Hp Ht Hb Ho. apply (Hown p t b Hp Ht Hb). cbn. by apply (above_owned s m).
Qed.

End Above.

(** Its entries are not among the bytes below the limit. *)
Lemma above_tree_frame k lim base m0 m0' s m m' root :
  pt_inv (FA := above_allocator k lim base m0) s m root -> above k lim base m0' s m' -> agree (fun b => frame_addr lim <= b) m m' ->
  pt_inv (FA := above_allocator k lim base m0') s m' root /\ forall v, walk m' root v = walk m root v.
Proof.
  intros Hpt Ha Hag. destruct (tree_ext m m' root) as [Hn Hw].
  { intros p t j Hp Ht Hj. eapply entry_agree; [exact Hag| |done]. intros b Hb.
    pose proof (pi_own _ _ _ Hpt p t b Hp Ht Hb) as H. change (~ b < frame_addr lim) in H. by apply Z.nlt_ge. }
  split; [|exact Hw]. destruct Hpt as [_ Hpg Hus Hown Hinj Hl1]. split; [exact Ha|..].
  - intros p t Hp. rewrite Hn by done. by apply Hpg.
  - intros p t Hp. rewrite Hn by done. by apply Hus.
  - intros p t b Hp. rewrite Hn by done. by apply Hown.
  - intros p q t Hp Hq. rewrite !Hn by done. by apply Hinj.
  - intros i Hi. rewrite (entry_agree _ _ _ _ _ Hag); [by apply Hl1| |done]. intros b Hb.
    pose proof (Hown [] root b path_nil eq_refl Hb) as H. change (~ b < frame_addr lim) in H. by apply Z.nlt_ge.
Qed.

(** ** The calls *)

(** The state the components keep, and the devices. *)
Record kernel := Kernel {
  memory : mem;
  pmm : pmm_state;
  vmm : vmm_state;
  heap : heap_state;
  regs : bus;
  mmu_enabled : bool;
}.

Section Machine.
Context (_kernel_end caches : Z).

(** From [pmm_init] to [heap_init], for [ram_size] bytes of RAM; [None] when
    [init_vmm] does not return. *)
Definition boot_with (ram_size : Z) (s : kernel) : option kernel :=
  let '(p, m) := pmm_init (pmm s) (memory s) _kernel_end ram_size in
  '(v, r) ← init_vmm (FA := pmm_frame_allocator) _kernel_end (phy_ram_size p) (vmm s) p m;
  match r with
  | Stuck _ _ => None
  | Done p m =>
      let b := Gic.gic_init (regs s) in
      let '(h, m) := heap_init caches (heap s) m 0x50000000 (8 * 1024 * 1024) in
      Some (Kernel m p v h b true)
  end.

(** [main] has 2 GiB. *)
Definition boot_memory : kernel -> option kernel := boot_with (2 * 1024 * 1024 * 1024).

(** ** What they establish *)

(** The heap's window, in frames. *)
Definition heap_first : Z := (0x50000000 - PHY_RAM_BASE) / 4096.
Definition heap_last : Z := heap_first + 2048.

Definition heap_window : heap_state := HeapState 0x50000000 0x50800000 0x50000000 2048.

Definition gic_writes : list (Z * Z) := [(GICD_CTLR, 0); (GICC_CTLR, 1); (GICC_PMR, 0xFF); (GICD_CTLR, 1)].

(** The first free frame after [pmm_init]: 5 bytes per frame of RAM lie above
    the kernel. *)
Definition first_free : Z := ((_kernel_end + 4095) / 4096 * 4096 + 5 * 0x80000 - PHY_RAM_BASE + 4095) / 4096.

(** [s'] after [boot_memory] from [s]. *)
Record memory_up (s s' : kernel) : Prop := {
  mu_frames : above first_free heap_last _kernel_end (memory s') (pmm s') (memory s');
  mu_top : 0x80000 - 5000 <= left_ first_free (pmm s') <= 0x80000;
  mu_tables : pt_inv (FA := above_allocator first_free heap_last _kernel_end (memory s')) (pmm s') (memory s') (root_table (vmm s'));
  mu_regs : ttbr0_el1 (vmm s') = root_table (vmm s') /\ ttbr1_el1 (vmm s') = root_table (vmm s') /\
    forall i, 0 <= i -> Z.testbit (sctlr_el1 (vmm s')) i =
      Z.testbit (sctlr_el1 (vmm s)) i || bool_decide (i = 0 \/ i = 2 \/ i = 12);
  mu_map : forall v, 0 <= v < 2 ^ 39 -> translate (memory s') (root_table (vmm s')) v = identity_map 0x80000000 v;
  mu_heap : refines caches (heap s') (memory s') ∅;
  mu_room : heap_room (heap s') (memory s') 2046;
  mu_window : heap s' = heap_window;
  mu_image : agree (fun b => b < _kernel_end /\ outside caches (caches + 256) b) (memory s) (memory s');
  mu_gic : writes (regs s') = writes (regs s) ++ gic_writes;
  mu_mmu : mmu_enabled s' = true;
}.

Context (Hke : PHY_RAM_BASE <= _kernel_end <= 0x4f000000).

Lemma first_free_bounds : 0 <= first_free <= heap_first.
Proof. unfold first_free, heap_first, PHY_RAM_BASE in *. zdiv. Qed.

(** The allocator once initialised, seen from above the heap's window. *)
Lemma frames_above m : let '(p, m') := pmm_init Pmm.boot_state m _kernel_end 0x80000000 in
  above first_free heap_last _kernel_end m p m' /\ left_ first_free p = 0x80000 /\ phy_ram_size p = 0x80000000 /\ reserved_end p <= frame_addr first_free.
Proof.
  pose proof first_free_bounds as Hff. change heap_first with 65536 in Hff.
  pose proof (boot_size Pmm.boot_state m _kernel_end 0x80000000 ltac:(lia)) as Hsz.
  assert (Hkt : first_free <= 0x80000) by lia.
  pose proof (boot_ok m _kernel_end 0x80000000 ltac:(lia) ltac:(lia) Hkt) as H.
  destruct (pmm_init Pmm.boot_state m _kernel_end 0x80000000) as [p m']. destruct H as (Hinv & Hfree & _ & Hown & _ & Hag). cbn [fst] in Hsz.
  assert (Ht : stack_top p = 0x80000 - first_free).
  { rewrite <- (length_free p m') by (apply (inv_top _ _ Hinv)). rewrite Hfree, length_reverse, length_seqZ.
    change (0x80000000 / 4096) with 0x80000. fold first_free. lia. }
  assert (Hlow : reserved_end p <= frame_addr first_free).
  { assert (Hin : forall b, owns p b -> b < frame_addr first_free).
    { intros b Hb. rewrite Hown in Hb. unfold frame_addr, first_free. change (0x80000000 / 4096) with 0x80000 in Hb. zdiv. }
    destruct (inv_layout _ _ Hinv). assert (0 < total_frames p) by (rewrite lay_total0, Hsz; done).
    specialize (Hin (reserved_end p - 1)). unfold owns, reserved_end in *. lia. }
  rewrite (left_eq _ p m' Hinv). split_and!; [|lia|done|done]. split; [done| |done| | |].
  - rewrite Hfree, Ht. done.
  - unfold heap_last. change heap_first with 65536. lia.
  - assert (Hn : owns p (reserved_end p - 1)).
    { destruct (inv_layout _ _ Hinv). assert (0 < total_frames p) by (rewrite lay_total0, Hsz; done). unfold owns, reserved_end. lia. }
    assert (Hn' : owns p (frame_stack p)) by (unfold owns in *; lia). rewrite Hown in Hn'. change ((_kernel_end + 4095) / 4096 * 4096 <= frame_stack p < (_kernel_end + 4095) / 4096 * 4096 + 5 * (0x80000000 / 4096)) in Hn'. zdiv.
  - intros b Hb. apply Hag. unfold outside. zdiv.
Qed.

(** The page tables: built in frames above the heap's window. *)
Lemma tables_above v m : let '(p, m1) := pmm_init Pmm.boot_state m _kernel_end 0x80000000 in
  exists v' p' m', init_vmm _kernel_end (phy_ram_size p) v p m1 = Some (v', Done p' m') /\
    pt_inv (FA := above_allocator first_free heap_last _kernel_end m) p' m' (root_table v') /\
    (ttbr0_el1 v' = root_table v' /\ ttbr1_el1 v' = root_table v' /\
     forall i, 0 <= i -> Z.testbit (sctlr_el1 v') i = Z.testbit (sctlr_el1 v) i || bool_decide (i = 0 \/ i = 2 \/ i = 12)) /\
    (forall a, 0 <= a < 2 ^ 39 -> translate m' (root_table v') a = identity_map 0x80000000 a) /\
    0x80000 - 5000 <= left_ first_free p' <= 0x80000.
Proof.
  pose proof (frames_above m) as H. destruct (pmm_init _ _ _ _) as [p m1]. destruct H as (Ha & Hleft & Hsz & _).
  pose proof first_free_bounds as Hff. rewrite Hsz. unfold PHY_RAM_BASE in Hke.
  pose proof (boot_aligned _kernel_end 0x80000000 ltac:(lia) ltac:(lia)) as Hal.
  pose proof (boot_regions_cost _kernel_end 0x80000000 ltac:(unfold PHY_RAM_BASE; lia) ltac:(done) ltac:(lia)) as Hcost.
  assert (Hc : boot_frames _kernel_end 0x80000000 <= 4744)
    by (unfold boot_frames, PHY_RAM_BASE; change BLOCK_SIZE with 2097152; clear - Hke; zdiv).
  change heap_first with 65536 in Hff. change heap_last with 67584 in *.
  destruct (init_vmm_cost (above_allocator first_free 67584 _kernel_end m) pmm_frame_allocator (left_ first_free) 67584) with
    (kernel_end := _kernel_end) (ram := 0x80000000) (v := v) (a := p) (m := m1) as [-> Hl]; [| |exact Hal|lia|].
  { intros a b Hab. cbn. unfold above_alloc. by rewrite (proj2 (Z.leb_gt _ _)). }
  { intros a b. cbn. unfold above_alloc. destruct (_ <=? _); [cbn; lia|apply left_alloc]. }
  assert (Hfree : forall i, 67584 <= i < 0x80000 -> fa_free (FrameAllocator := above_allocator first_free 67584 _kernel_end m) p m1 (frame_addr i))
    by (intros i Hi; exists i; split; [done|lia]).
  destruct (init_vmm_ok (FA := above_allocator first_free 67584 _kernel_end m) _kernel_end 0x80000000 v p m1 (frame_addr 67584) Ha)
    as (v' & r & E & _ & _ & Hr); [apply Hfree; lia|unfold PHY_RAM_BASE; lia|done|lia|].
  specialize (Hl _ _ E). destruct r as [p' m'|p' m'].
  2:{ destruct Hr as [Hfew _]. specialize (Hfew (frame_addr <$> seqZ 67584 5000)). rewrite length_fmap, length_seqZ in Hfew.
      exfalso. enough (Z.of_nat (Z.to_nat 5000) <= 4744) by lia. etrans; [|exact Hc]. apply Hfew.
      - apply NoDup_fmap_2; [exact frame_addr_inj|apply NoDup_seqZ].
      - apply list.Forall_forall. intros f (i & -> & Hi)%list_elem_of_fmap. apply elem_of_seqZ in Hi. apply Hfree. lia. }
  destruct Hr as (Hpt & [Hfr _] & _ & Ht0 & Ht1 & Hs & Hm). cbn [after fst] in Hl.
  exists v', p', m'. split; [exact E|]. split; [exact Hpt|]. split; [done|]. split; [exact Hm|]. split; [lia|].
  destruct (Hfr (frame_addr (left_ first_free p' - 1))) as (i & Hi%frame_addr_inj & Hr); [|lia].
  exists (left_ first_free p' - 1). split; [done|lia].
Qed.

(** The heap is given the window, which holds none of the allocator's data and
    none of the tables. *)
Lemma heap_up m0 p m root h : above first_free heap_last _kernel_end m0 p m ->
  pt_inv (FA := above_allocator first_free heap_last _kernel_end m0) p m root ->
  caches mod 8 = 0 -> PHY_RAM_BASE <= caches -> caches + 256 <= _kernel_end ->
  let '(h', m') := heap_init caches h m 0x50000000 (8 * 1024 * 1024) in
  h' = heap_window /\ refines caches h' m' ∅ /\ heap_room h' m' 2046 /\
  above first_free heap_last _kernel_end m' p m' /\
  pt_inv (FA := above_allocator first_free heap_last _kernel_end m') p m' root /\ (forall v, walk m' root v = walk m root v) /\
  agree (fun b => b < _kernel_end /\ outside caches (caches + 256) b) m0 m'.
Proof.
  intros Ha Hpt Hc1 Hc2 Hc3. pose proof first_free_bounds as Hff. change heap_first with 65536 in Hff. unfold PHY_RAM_BASE in Hke, Hc2.
  pose proof (heap_init_refines caches h m 0x50000000 (8 * 1024 * 1024) ltac:(lia) ltac:(by vm_compute) ltac:(lia) ltac:(by vm_compute)
    Hc1 ltac:(lia) ltac:(left; change (caches + 256 <= 0x50000000); lia)) as H.
  destruct (heap_init _ _ _ _ _) as [h' m']. destruct H as (Eh & Href & Hfree & Hag).
  change (h' = heap_window) in Eh. subst h'. split; [done|]. split; [exact Href|].
  change (forall i, 2 <= i < 2048 -> page_type heap_window m' i = PAGE_TYPE_FREE) in Hfree.
  change (forall b, outside 0x50000000 0x50800000 b -> outside caches (caches + 256) b -> load8 m' b = load8 m b) in Hag.
  pose proof Ha as [Hinv Hf Hlow Hk Hbs Hrest]. assert (Hag' : agree (owns p) m m').
  { intros b Hb. apply Hag; unfold outside, owns, frame_addr, PHY_RAM_BASE in *; lia. }
  assert (Ha' : above first_free heap_last _kernel_end m' p m').
  { split; [by apply (pmm_frame p m)| |done|done|done|done]. by rewrite (abs_agree p m m'). }
  split; [split; [cbn; lia|]; intros i Hi; apply Hfree; cbn in Hi; lia|]. split; [done|].
  destruct (above_tree_frame _ _ _ _ m' p m m' root Hpt Ha') as [H1 H2].
  { change heap_last with 67584. intros b Hb. unfold frame_addr, PHY_RAM_BASE in Hb. apply Hag; unfold outside; lia. }
  split; [done|]. split; [done|]. intros b [Hb Hb']. rewrite Hag by (done || (unfold outside; lia)). by apply Hrest.
Qed.

(** [boot_memory] succeeds and leaves the memory as the kernel needs it. *)
Lemma boot_memory_ok s : pmm s = Pmm.boot_state -> caches mod 8 = 0 -> PHY_RAM_BASE <= caches -> caches + 256 <= _kernel_end ->
  exists s', boot_memory s = Some s' /\ memory_up s s'.
Proof.
  intros Hs Hc1 Hc2 Hc3. unfold boot_memory, boot_with. rewrite Hs. change (2 * 1024 * 1024 * 1024) with 0x80000000.
  pose proof (tables_above (vmm s) (memory s)) as H. pose proof (frames_above (memory s)) as Hp.
  destruct (pmm_init _ _ _ _) as [p m1]. destruct H as (v' & p' & m2 & -> & Hpt & Hreg & Hmap & Hleft).
  cbn [mbind option_bind]. pose proof (pi_alloc _ _ _ Hpt) as Ha'.
  pose proof (heap_up (memory s) p' m2 (root_table v') (heap s) Ha' Hpt Hc1 Hc2 Hc3) as H.
  destruct (heap_init _ _ _ _ _) as [h m3]. destruct H as (-> & Href & Hroom & Ha3 & Hpt3 & Hw & Hag).
  eexists. split; [done|]. split; cbn [pmm memory vmm heap regs mmu_enabled]; try done.
  - intros a Hr. rewrite <- Hmap by done. apply translate_walk, Hw.
  - unfold gic_init, write32. by rewrite !writes_app, <- !(assoc_L (++)).
Qed.
End Machine.
End Boot.
