(* ===== verification/Main.v ===== *)
(** * The kernel's entry (src/src/main.c)

    [main] from its first call to [net_init]: the memory, the scheduler, the
    record for the second core, the network, on one memory. *)

From stdpp Require Import functions.
From S2P Require Import Prelude Memory CString Dll Pmm FrameAlloc Vmm VmmFrames Heap HeapApi Bytes Mmio Gic.
From S2P Require Import Sched SchedQueues SchedYield SchedCreate SchedInit SchedSpec SchedTrace SchedBoot SchedHeap.
From S2P Require Import Net NetFrames NetSend NetHandle NetPoll NetInit NetService Boot.
From S2P Require Import Asm Entry.

Module Main.
Import Sched SchedQueues SchedYield SchedCreate SchedInit SchedSpec SchedTrace SchedBoot SchedHeap.
Import Vmm Boot Net Gic NetFrames NetSend NetHandle NetPoll NetInit NetService.

(** ** The record for the second core *)

Section Core1.
Context (caches : Z) (h : Heap.heap_state).
Abbreviation malloc := (malloc (HA := kernel_heap caches h)).

(** [struct secondary_boot_data]: five words. *)
Definition sizeof_boot_data : Z := 40.

Definition set_field (boot_data off v : Z) : @M mem () := fun s =>
  if decide (boot_data ∈ alive s) then inr ((), with_heap (alive s) (store64 (Sched.heap s) (boot_data + off) v) s)
  else inl (BadAccess boot_data).

Definition boot_core1 (ttbr1 tcr mair entry_point : Z) : @M mem Z :=
  boot_data ← malloc sizeof_boot_data;
  core1_stack ← malloc (4096 * 4);
  set_field boot_data 0 (u64 (core1_stack + 4096 * 4));;
  set_field boot_data 8 ttbr1;;
  set_field boot_data 16 tcr;;
  set_field boot_data 24 mair;;
  set_field boot_data 32 entry_point;;
  mret boot_data.

Record boot_data_ok (B : gmap Z Z) (m : mem) (p ttbr1 tcr mair entry_point : Z) : Prop := {
  bd_stack : exists st z, load64 m p = st + 4096 * 4 /\ B !! st = Some z /\ 4096 * 4 <= z /\ st <> p;
  bd_fields : load64 m (p + 8) = u64 ttbr1 /\ load64 m (p + 16) = u64 tcr /\ load64 m (p + 24) = u64 mair /\ load64 m (p + 32) = u64 entry_point;
  bd_block : exists z, B !! p = Some z /\ 40 <= z;
}.

(** The proofs follow the bytes outside the heap, those of [m0]. *)
Context (m0 : mem).
#[local] Instance heap_api : HeapApi mem := heap_from caches h m0.

(** The blocks of the scheduler's heap. *)
Definition holds_blocks (s : @sched mem) (B : gmap Z Z) : Prop :=
  heap_from_inv caches h m0 (Sched.heap s) B /\ forall p, p ∈ alive s <-> is_Some (B !! p).

Lemma malloc_block (s : @sched mem) B n size : holds_blocks s B -> heap_room h (Sched.heap s) n -> 0 < size < 2 ^ 64 ->
  Malloc.Malloc.pages_needed size <= n ->
  exists r m z, malloc size s = inr (r, with_heap ({[r]} ∪ alive s) m s) /\ B !! r = None /\ size <= z /\
    holds_blocks (with_heap ({[r]} ∪ alive s) m s) (<[r := z]> B) /\ heap_room h m (n - Malloc.Malloc.pages_needed size).
Proof.
  intros [HB Hd] Hr Hs Hn. pose proof (ha_malloc_spec (Sched.heap s) B size HB ltac:(lia)) as H1.
  pose proof (ha_room_spec (Sched.heap s) B n size HB Hr Hs Hn) as H2. unfold Sched.malloc.
  change (ha_malloc (Sched.heap s) size) with (Heap.malloc caches h (Sched.heap s) size) in *.
  change (@ha_malloc mem (kernel_heap caches h) (Sched.heap s) size) with (Heap.malloc caches h (Sched.heap s) size).
  destruct (Heap.malloc caches h (Sched.heap s) size) as [r m]. destruct H2 as [Hnz Hroom].
  destruct H1 as [[? _]|(z & _ & Hnew & Hz & HB')]; [done|]. assert (E : (r =? 0) = false) by lia. rewrite E.
  exists r, m, z. split; [done|]. split; [done|]. split; [done|]. split; [|exact Hroom]. split; [exact HB'|].
  intros p. cbn [alive with_heap]. rewrite elem_of_union, elem_of_singleton, Hd. destruct (decide (p = r)) as [->|Hne].
  - rewrite lookup_insert_eq. split; [by eexists|by left].
  - rewrite lookup_insert_ne by done. split; [by intros [?|?]|by right].
Qed.

Lemma set_field_ok p off v (s : @sched mem) : p ∈ alive s ->
  set_field p off v s = inr ((), with_heap (alive s) (store64 (Sched.heap s) (p + off) v) s).
Proof. intros H. unfold set_field. by rewrite decide_True. Qed.

Lemma boot_core1_ok (s : @sched mem) Q n ttbr1 tcr mair entry_point :
  sched_inv s Q -> heap_room h (Sched.heap s) n -> 5 <= n ->
  exists p l m B, boot_core1 ttbr1 tcr mair entry_point s = inr (p, with_heap l m s) /\
    (forall u, u ∈ alive s -> u ∈ l) /\ holds_blocks (with_heap l m s) B /\
    boot_data_ok B m p ttbr1 tcr mair entry_point /\ heap_room h m (n - 5).
Proof.
  intros Hinv Hr Hn. destruct (si_heap _ _ Hinv) as (B & HB).
  destruct (malloc_block s B n sizeof_boot_data HB Hr ltac:(by vm_compute)) as (p & m1 & z1 & E1 & N1 & Z1 & B1 & R1).
  { change (Malloc.Malloc.pages_needed sizeof_boot_data) with 1. lia. }
  set (s1 := with_heap ({[p]} ∪ alive s) m1 s) in *. change (Malloc.Malloc.pages_needed sizeof_boot_data) with 1 in R1.
  destruct (malloc_block s1 _ (n - 1) (4096 * 4) B1 R1 ltac:(by vm_compute)) as (st & m2 & z2 & E2 & N2 & Z2 & B2 & R2).
  { change (Malloc.Malloc.pages_needed (4096 * 4)) with 4. lia. }
  set (l := {[st]} ∪ alive s1) in *. set (B' := <[st := z2]> (<[p := z1]> B)) in *.
  assert (Hne : p <> st) by (intros <-; by rewrite lookup_insert_eq in N2).
  assert (Hp : B' !! p = Some z1) by (unfold B'; by rewrite lookup_insert_ne, lookup_insert_eq by done).
  assert (Hst : B' !! st = Some z2) by (unfold B'; by rewrite lookup_insert_eq).
  assert (Hl : p ∈ l) by (apply (proj2 B2); by eexists).
  destruct B2 as [HB2 Hd2]. change (heap_from_inv caches h m0 m2 B') in HB2. destruct HB2 as [HB2 Hag2].
  pose proof (heap_api_bounds caches h m2 B' st z2 HB2 Hst) as Hb2. pose proof (heap_api_bounds caches h m2 B' p z1 HB2 Hp) as Hb1.
  unfold sizeof_boot_data in Z1. set (m := store64 (store64 (store64 (store64 (store64 m2 (p + 0) (st + 4096 * 4)) (p + 8) ttbr1) (p + 16) tcr) (p + 24) mair) (p + 32) entry_point).
  exists p, l, m, B'. split; [|split; [|split; [|split; [split|]]]].
  - unfold boot_core1. erewrite bind_ok by exact E1. erewrite bind_ok by exact E2. fold l. rewrite u64_id by lia.
    do 5 (erewrite bind_ok by (by apply set_field_ok)). done.
  - intros u Hu. unfold l. apply elem_of_union. right. cbn [alive s1 with_heap]. apply elem_of_union. by right.
  - assert (Hw : agree (fun b => ~ p <= b < p + z1) m2 m) by (intros b Hb; unfold m; by rewrite !load8_storen_ne by lia).
    split; [|exact Hd2]. split; [by apply (heap_write caches h m2 m B' p z1 HB2 Hp)|].
    intros b Hb. change (load8 m b = load8 m0 b). rewrite Hw; [by apply Hag2|]. intros Hin. apply Hb. left. lia.
  - exists st, z2. split_and!; [|done|lia|done]. unfold m. rewrite !loadn_storen_ne, Z.add_0_r by lia. apply loadn_storen_eq. lia.
  - unfold m. split_and!; rewrite ?loadn_storen_ne by lia; exact (loadn_storen_mod 8 _ _ _).
  - by exists z1.
  - change (Malloc.Malloc.pages_needed (4096 * 4)) with 4 in R2. replace (n - 1 - 4) with (n - 5) in R2 by lia.
    apply (room_agree h m2); [|exact R2]. intros b Hb. unfold HeapPages.HeapPages.meta_byte in Hb. unfold m. by rewrite !load8_storen_ne by lia.
Qed.

Lemma boot_data_keep B m m' p ttbr1 tcr mair entry_point : heap_api_inv caches h m B -> agree (heap_bytes caches h) m m' ->
  boot_data_ok B m p ttbr1 tcr mair entry_point -> boot_data_ok B m' p ttbr1 tcr mair entry_point.
Proof.
  intros HB Hag [(st & zs & E & Hst & Hz & Hne) HF (z & Hp & Hz')].
  pose proof (heap_api_bounds caches h m B p z HB Hp) as Hb.
  assert (Hl : forall off, 0 <= off <= 32 -> load64 m' (p + off) = load64 m (p + off)).
  { intros off Ho. eapply agree_loadn; [exact Hag|]. intros b Hb'. left. lia. }
  split; [|by rewrite !Hl by lia|by exists z]. exists st, zs. split_and!; try done.
  rewrite <- E. specialize (Hl 0). rewrite Z.add_0_r in Hl. apply Hl. lia.
Qed.
End Core1.

(** ** The second core *)

Section Core1Entry.
Context {A : Type} {HA : HeapApi A} (idle idle_flag ret_from_fork : Z).

(** [core_entry], for as many turns of its loop as there are register files. *)
Definition core_entry (turns : list cpu_context) : @M A () :=
  sched_init_secondary idle idle_flag ret_from_fork 1;;
  idle_turns 1 turns.

Lemma turns_eq turns (s : @sched A) :
  idle_turns 1 turns s = exec_calls idle_flag ret_from_fork (Yield 1 <$> turns) s.
Proof.
  revert s. induction turns as [|regs turns IH]; intros s; [done|]. unfold idle_turns. cbn [foldr fmap list_fmap exec_calls exec_call].
  rewrite bind_assoc. apply bind_ext. intros _ s1. apply IH.
Qed.

Lemma core_entry_ok turns (s : @sched A) σ c d n : sched_refines s σ -> cores s = [c; d] -> task d = 0 ->
  ha_room (Sched.heap s) n -> 10 <= n ->
  exists s' σ' m idler, core_entry turns s = inr ((), s') /\
    spec_run idle_flag (joined_spec σ 1 m idler) (Yield 1 <$> turns) σ' /\ sched_refines s' σ'.
Proof.
  intros Hr Hcs Hd Hroom Hn.
  destruct (sched_init_secondary_roomy idle idle_flag ret_from_fork s (sq σ) 1 d n (rf_inv _ _ Hr) ltac:(unfold MAX_CPUS; lia)
    ltac:(by rewrite Hcs) Hroom Hn) as (m & idler & s1 & E & Hj).
  assert (H1 : sruns σ !! 1%nat = Some 0) by (rewrite <- (rf_cores _ _ Hr), Hcs; cbn; by rewrite Hd).
  pose proof (joined_refines s s1 σ 1 m idler Hr H1 Hj) as Hr1.
  destruct (trace_ok idle_flag ret_from_fork (Yield 1 <$> turns) s1 _ Hr1) as (s2 & σ2 & E2 & Hrun & Hr2).
  { apply list.Forall_forall. intros o (regs & -> & _)%list_elem_of_fmap. exists m. split.
    - cbn [sruns joined_spec]. apply list_lookup_insert_eq. by eapply lookup_lt_Some.
    - by destruct (jd_new _ _ _ _ _ _ Hj). }
  exists s2, σ2, m, idler. split; [|done]. unfold core_entry. erewrite bind_ok by exact E. by rewrite turns_eq.
Qed.
End Core1Entry.

(** The call of the hypervisor that starts a core: the registers it takes. *)
Definition PSCI_CPU_ON_64 : Z := 0xC4000003.

Record hypercall := Hvc { hv_function : Z; hv_target : Z; hv_entry : Z; hv_context : Z }.

Definition psci_cpu_on (target_cpu entry_point context_id : Z) : hypercall :=
  Hvc PSCI_CPU_ON_64 target_cpu entry_point context_id.

(** What the PSCI standard says of the core that is started: it begins at the
    entry point with the context in x0. *)
Definition started_by (call : hypercall) (core : Z) (c : Asm.cpu) : Prop :=
  hv_function call = PSCI_CPU_ON_64 /\ hv_target call = core /\ c Asm.PC = hv_entry call /\ c (Asm.X 0) = hv_context call.

(** ** The program *)

(** One memory is shared: the one of [kern]; the other parts carry it. *)
Record program := Program {
  kern : kernel;
  threads : @sched mem;
  network : net_state;
}.

Section Program.
Context (_kernel_end caches net_mac idle idle_flag ret_from_fork entry_point : Z) (device : bus -> Z -> Z).

(** [main] up to [net_init]. The result is the argument [psci_cpu_on] passes
    to the second core; [None] is an access through a null pointer. *)
Definition main_init (s : program) : option (program * Z) :=
  k ← boot_memory _kernel_end caches (kern s);
  let h := Boot.heap k in
  match sched_init (HA := kernel_heap caches h) idle idle_flag ret_from_fork (with_heap (alive (threads s)) (Boot.memory k) (threads s)) with
  | inl _ => None
  | inr (_, t) =>
      let b := gic_enable_irq device (Boot.regs k) 48 in
      match boot_core1 caches h (ttbr1_el1 (vmm k)) (tcr_el1 (vmm k)) (mair_el1 (vmm k)) entry_point t with
      | inl _ => None
      | inr (boot_data, t) =>
          let n := with_regs b (with_pmm (Boot.pmm k) (with_memory (Sched.heap t) (network s))) in
          '(_, n) ← net_init net_mac device n;
          Some (Program (Kernel (Net.memory n) (Net.pmm n) (vmm k) h (Net.regs n) (mmu_enabled k))
                  (with_heap (alive t) (Net.memory n) t) n, boot_data)
      end
  end.

Lemma main_init_eq s k t p t' n' : boot_memory _kernel_end caches (kern s) = Some k ->
  sched_init (HA := kernel_heap caches (Boot.heap k)) idle idle_flag ret_from_fork (with_heap (alive (threads s)) (Boot.memory k) (threads s)) = inr ((), t) ->
  boot_core1 caches (Boot.heap k) (ttbr1_el1 (vmm k)) (tcr_el1 (vmm k)) (mair_el1 (vmm k)) entry_point t = inr (p, t') ->
  net_init net_mac device (with_regs (gic_enable_irq device (Boot.regs k) 48)
    (with_pmm (Boot.pmm k) (with_memory (Sched.heap t') (network s)))) = Some ((), n') ->
  main_init s = Some (Program (Kernel (Net.memory n') (Net.pmm n') (vmm k) (Boot.heap k) (Net.regs n') (mmu_enabled k))
                        (with_heap (alive t') (Net.memory n') t') n', p).
Proof. intros E1 E2 E3 E4. unfold main_init. rewrite E1. cbv zeta. cbn [mbind option_bind]. rewrite E2, E3, E4. done. Qed.

(** ** The image and the reset state *)

Context (my_ip sp : Z) (mac ip : list Z) (size : Z).

(** Where the linker puts the statics and the stack of the interrupt handler:
    in the image, below [_kernel_end], apart. *)
Record image : Prop := {
  im_end : PHY_RAM_BASE <= _kernel_end <= 0x4f000000;
  im_caches : caches mod 8 = 0 /\ PHY_RAM_BASE <= caches /\ caches + 256 <= _kernel_end;
  im_statics : net_mac + 6 <= _kernel_end /\ my_ip + 4 <= _kernel_end /\ sp + 4096 <= _kernel_end;
  im_apart : apart caches 256 net_mac 6 /\ apart caches 256 my_ip 4 /\
    apart (sp - 10) 4106 net_mac 6 /\ apart (sp - 10) 4106 my_ip 4 /\ apart net_mac 6 my_ip 4 /\ apart (sp - 10) 4106 caches 256;
}.

Record reset (s : program) : Prop := {
  rs_pmm : Boot.pmm (kern s) = Pmm.boot_state;
  rs_active : active_priorities (threads s) = 0;
  rs_cores : exists i j, cores (threads s) = [Core i 0 0; Core j 0 0];
  rs_alive : alive (threads s) = ∅;
  rs_idx : tx_desc_idx (network s) = 0;
  rs_ip : holds (Boot.memory (kern s)) my_ip ip;
  rs_lip : length ip = 4%nat;
}.

Context (Him : image) (Hdev : device_ok mac device size).

Abbreviation first_free := (first_free _kernel_end).
Abbreviation up := (memory_up _kernel_end caches).
Abbreviation above := (above first_free heap_last _kernel_end).
Abbreviation above_allocator := (above_allocator first_free heap_last _kernel_end).
Abbreviation heap_bytes := (heap_bytes caches heap_window).

(** Writes to the heap's bytes leave the frames and the tables alone. *)
Lemma up_heap (s0 k : kernel) m : up s0 k -> agree (fun b => ~ heap_bytes b) (Boot.memory k) m ->
  above m (Boot.pmm k) m /\ pt_inv (FA := above_allocator m) (Boot.pmm k) m (root_table (vmm k)) /\
  forall v, walk m (root_table (vmm k)) v = walk (Boot.memory k) (root_table (vmm k)) v.
Proof.
  intros Hup Hag. pose proof (mu_frames _ _ _ _ Hup) as Ha. pose proof Ha as [Hinv Hf Hlow Hk Hbs _].
  destruct Him as [Hke Hca _ _]. pose proof (first_free_bounds _kernel_end Hke) as Hff. change heap_first with 65536 in Hff.
  assert (Hag' : agree (Pmm.owns (Boot.pmm k)) (Boot.memory k) m).
  { intros b Hb. apply Hag. unfold HeapApi.heap_bytes, heap_window, Pmm.owns, Pmm.frame_addr, PHY_RAM_BASE in *. cbn [Heap.heap_start_addr Heap.heap_end_addr]. lia. }
  assert (Ha' : above m (Boot.pmm k) m).
  { split; [by apply (pmm_frame (Boot.pmm k) (Boot.memory k))| |done|done|done|done]. by rewrite (abs_agree _ (Boot.memory k)). }
  split; [exact Ha'|]. apply (above_tree_frame _ _ _ _ m _ _ m _ (mu_tables _ _ _ _ Hup) Ha').
  change heap_last with 67584. intros b Hb. apply Hag. unfold HeapApi.heap_bytes, heap_window, Pmm.frame_addr, PHY_RAM_BASE in *.
  cbn [Heap.heap_start_addr Heap.heap_end_addr]. lia.
Qed.

Lemma eight_seqZ t : eight t = reverse (seqZ (t - 7) 8).
Proof. unfold eight, seqZ. change (Z.to_nat 8) with 8%nat. cbn. repeat (f_equal; try lia). Qed.

Lemma reverse_seqZ_split k a b : 0 <= a -> 0 <= b -> reverse (seqZ k (a + b)) = reverse (seqZ (k + a) b) ++ reverse (seqZ k a).
Proof. intros Ha Hb. by rewrite seqZ_app, reverse_app by lia. Qed.

(** The free frames [k], ..., [t]: those of the two queues, the buffers and the
    rest. *)
Lemma free_split k t : 0 <= size -> 16 + size <= t + 1 - k ->
  reverse (seqZ k (t + 1 - k)) =
    eight t ++ eight (t - 8) ++ reverse (seqZ (t - 15 - size) size) ++ reverse (seqZ k (t - 15 - size - k)).
Proof.
  intros Hs Hn. rewrite !eight_seqZ. replace (t + 1 - k) with ((t - 15 - size - k) + size + 8 + 8) by lia.
  rewrite !reverse_seqZ_split by lia. repeat (f_equal; try lia).
Qed.

(** What [net_init] finds. *)
Lemma network_ready p m n : above m p m -> 0x80000 - 5000 <= left_ first_free p <= 0x80000 ->
  Net.memory n = m -> Net.pmm n = p -> tx_desc_idx n = 0 -> holds m my_ip ip -> length ip = 4%nat ->
  let t := left_ first_free p - 1 in
  boot_ok net_mac my_ip sp ip size t (t - 8) (reverse (seqZ (t - 15 - size) size)) (reverse (seqZ first_free (t - 15 - size - first_free))) n.
Proof.
  intros Ha Hleft <- <- Hidx Hip Hlip t. pose proof Ha as [Hinv Hf Hlow Hk Hbs _]. destruct Him as [Hke Hca (S1 & S2 & S3) (A1 & A2 & A3 & A4 & A5 & _)].
  pose proof (first_free_bounds _kernel_end Hke) as Hff. change heap_first with 65536 in Hff. destruct (dv_power _ _ _ Hdev) as [Hsz _].
  assert (Hres : forall K, (forall b, K b -> b < _kernel_end) -> reserved n K).
  { intros K HK b Hb. specialize (HK b Hb). split; [unfold Pmm.owns; lia|]. intros f Hfr.
    rewrite Hf, elem_of_reverse, elem_of_seqZ in Hfr. unfold in_frame, Pmm.reserved_end, Pmm.frame_addr in *.
    destruct (Pmm.inv_layout _ _ Hinv). pose proof (Pmm.inv_top _ _ Hinv). lia. }
  split; try done.
  - unfold frames_free. rewrite Hf. pose proof (left_eq first_free _ _ Hinv). rewrite <- free_split by (unfold t; lia). do 2 f_equal. unfold t. lia.
  - rewrite length_reverse, length_seqZ. lia.
  - apply Hres. unfold static_bytes. lia.
  - apply Hres. unfold stack_bytes. lia.
Qed.

(** The threads: on the fresh heap nothing fails. *)
Lemma threads_up (s0 k : kernel) (t0 : @sched mem) : up s0 k ->
  active_priorities t0 = 0 -> (exists i j, cores t0 = [Core i 0 0; Core j 0 0]) -> alive t0 = ∅ ->
  exists main idler t p l m B,
    sched_init (HA := kernel_heap caches heap_window) idle idle_flag ret_from_fork (with_heap ∅ (Boot.memory k) t0) = inr ((), t) /\
    started (HA := heap_from caches heap_window (Boot.memory k)) (with_heap ∅ (Boot.memory k) t0) main idler t /\
    boot_core1 caches heap_window (ttbr1_el1 (vmm k)) (tcr_el1 (vmm k)) (mair_el1 (vmm k)) entry_point t = inr (p, with_heap l m t) /\
    (forall u, u ∈ alive t -> u ∈ l) /\ holds_blocks caches heap_window (Boot.memory k) (with_heap l m t) B /\
    boot_data_ok B m p (ttbr1_el1 (vmm k)) (tcr_el1 (vmm k)) (mair_el1 (vmm k)) entry_point /\ heap_room heap_window m 2031.
Proof.
  intros Hup Hac Hco Hal. pose proof (mu_heap _ _ _ _ Hup) as Hr. pose proof (mu_room _ _ _ _ Hup) as Hroom.
  rewrite (mu_window _ _ _ _ Hup) in Hr, Hroom. set (s := with_heap ∅ (Boot.memory k) t0).
  assert (Hst : statics (HA := heap_from caches heap_window (Boot.memory k)) s).
  { split; [|done|done]. exists ∅. split.
    - split; [|done]. exists ∅. split; [exact Hr|]. unfold sizes. by rewrite fmap_empty.
    - intros p. cbn [alive s with_heap]. rewrite lookup_empty. split; [intros H; by apply elem_of_empty in H|by intros []]. }
  destruct (sched_init_roomy (HA := heap_from caches heap_window (Boot.memory k)) idle idle_flag ret_from_fork s 2046 Hst Hroom ltac:(lia))
    as (main & idler & t & E & Hstart & _ & Hroom2).
  destruct (boot_core1_ok caches heap_window (Boot.memory k) t no_queues (2046 - 10) (ttbr1_el1 (vmm k)) (tcr_el1 (vmm k)) (mair_el1 (vmm k)) entry_point
    (sd_inv _ _ _ _ Hstart) Hroom2 ltac:(lia)) as (p & l & m & B & E2 & Hsub & HB & Hbd & Hrm).
  exists main, idler, t, p, l, m, B. rewrite (sched_init_from (kernel_heap caches heap_window) (heap_from caches heap_window (Boot.memory k)) idle idle_flag ret_from_fork eq_refl eq_refl). split; [exact E|]. by split_and!.
Qed.

(** The tables lie above the heap's window and in no frame that is free. *)
Lemma tree_outside p m root b : above m p m -> pt_inv (FA := above_allocator m) p m root -> tree_bytes m root b ->
  Pmm.frame_addr heap_last <= b /\ forall f, heap_last <= f < left_ first_free p -> ~ in_frame f b.
Proof.
  intros Ha Hpt (q & u & Hq & Hu & Hb). change heap_last with 67584.
  pose proof (pi_own _ _ _ Hpt q u b Hq Hu Hb) as Ho. change (~ b < Pmm.frame_addr 67584) in Ho. split; [by apply Z.nlt_ge|].
  intros f Hf Hin. apply (pi_used _ _ _ Hpt q u Hq Hu). exists f. split; [|exact Hf].
  destruct (pi_page _ _ _ Hpt q u Hq Hu) as [Hal _]. unfold in_frame, Pmm.frame_addr, PHY_RAM_BASE in *. zdiv.
Qed.

(** They lie in no byte that [net_init] writes. *)
Lemma tables_kept p m m' root t : above m p m -> pt_inv (FA := above_allocator m) p m root ->
  t = left_ first_free p - 1 -> heap_last + 15 <= t -> net_mac + 6 <= _kernel_end ->
  agree (fun b => (~ Pmm.owns p b /\ ~ block t b /\ ~ block (t - 8) b) /\ outside net_mac (net_mac + 6) b) m m' ->
  agree (tree_bytes m root) m m'.
Proof.
  intros Ha Hpt Ht Hlast Hmac Hag. pose proof Ha as [Hinv _ Hlow Hk Hbs _].
  destruct Him as [Hke _ _ _]. pose proof (first_free_bounds _kernel_end Hke) as Hff. change heap_first with 65536 in Hff.
  eapply agree_weaken; [exact Hag|]. intros b Hb. destruct (tree_outside p m root b Ha Hpt Hb) as [Ho Hfree].
  change heap_last with 67584 in *.
  assert (Hblk : forall i, 67584 + 7 <= i < left_ first_free p -> ~ block i b).
  { intros i Hi (f & Hf & Hin)%block_frame. apply (Hfree f); [|exact Hin]. rewrite eight_seqZ, elem_of_reverse, elem_of_seqZ in Hf. lia. }
  split; [split_and!|].
  - unfold Pmm.owns, Pmm.frame_addr, PHY_RAM_BASE in *. lia.
  - apply Hblk. lia.
  - apply Hblk. lia.
  - unfold outside, Pmm.frame_addr, PHY_RAM_BASE in *. lia.
Qed.

(** What the image holds apart from the caches is still there. *)
Lemma static_kept (s0 k : kernel) m (l : list Z) a : up s0 k -> agree (fun b => ~ heap_bytes b) (Boot.memory k) m ->
  length l = 4%nat -> a + 4 <= _kernel_end -> apart caches 256 a 4 -> holds (Boot.memory s0) a l -> holds m a l.
Proof.
  intros Hup Hag Hl Ha Hap H. destruct Him as [Hke _ _ _]. unfold apart, PHY_RAM_BASE in *.
  apply (holds_agree _ _ _ _ _ Hag).
  { rewrite Hl. intros b Hb. unfold HeapApi.heap_bytes, heap_window. cbn [Heap.heap_start_addr Heap.heap_end_addr]. lia. }
  apply (holds_agree _ _ _ _ _ (mu_image _ _ _ _ Hup)); [|exact H]. rewrite Hl. unfold outside. intros b Hb. lia.
Qed.

(** The heap's bytes are none of them either. *)
Lemma heap_kept p m m' t : above m p m -> t = left_ first_free p - 1 -> heap_last + 15 <= t ->
  agree (fun b => (~ Pmm.owns p b /\ ~ block t b /\ ~ block (t - 8) b) /\ outside net_mac (net_mac + 6) b) m m' ->
  agree heap_bytes m m'.
Proof.
  intros Ha Ht Hlast Hag. pose proof Ha as [Hinv _ Hlow Hk Hbs _]. destruct Him as [Hke Hca Hst (Hap & _)].
  pose proof (first_free_bounds _kernel_end Hke) as Hff. change heap_first with 65536 in Hff. change heap_last with 67584 in *.
  eapply agree_weaken; [exact Hag|]. intros b Hb. unfold HeapApi.heap_bytes, heap_window in Hb. cbn [Heap.heap_start_addr Heap.heap_end_addr] in Hb.
  unfold block, Pmm.owns, apart, outside, Pmm.frame_addr, PHY_RAM_BASE in *. lia.
Qed.

(** ** What [main] has built before it yields *)

Abbreviation buffers t := (reverse (seqZ (t - 15 - size) size)).

Record booted (s s' : program) (boot_data : Z) : Prop := {
  bt_memory : Sched.heap (threads s') = Boot.memory (kern s') /\ Net.memory (network s') = Boot.memory (kern s') /\
    Net.pmm (network s') = Boot.pmm (kern s') /\ mmu_enabled (kern s') = true;
  bt_window : Boot.heap (kern s') = heap_window;
  bt_map : forall v, 0 <= v < 2 ^ 39 -> translate (Boot.memory (kern s')) (root_table (vmm (kern s'))) v = identity_map 0x80000000 v;
  bt_regs : ttbr0_el1 (vmm (kern s')) = root_table (vmm (kern s')) /\ ttbr1_el1 (vmm (kern s')) = root_table (vmm (kern s')) /\
    0 <= root_table (vmm (kern s')) < 2 ^ 64;
  bt_threads : exists main idler, sched_refines (HA := kernel_heap caches heap_window) (threads s') (boot_spec main idler) /\
    cores (threads s') = [Core 0 main 0; Core 1 0 0] /\ join_wait_queue (tasks (threads s') main) = 0;
  bt_room : heap_room heap_window (Boot.memory (kern s')) 2031;
  bt_core1 : exists B, heap_api_inv caches heap_window (Boot.memory (kern s')) B /\
    boot_data_ok B (Boot.memory (kern s')) boot_data (root_table (vmm (kern s'))) (tcr_el1 (vmm (kern s'))) (mair_el1 (vmm (kern s'))) entry_point;
  bt_net : exists t, 0x80000 - 5000 <= t + 1 <= 0x80000 /\
    driver net_mac my_ip sp mac ip (buffers t) (network s') (Service 0 [] 0 0 size []) /\
    rxq (network s') = queue_at t size /\ txq (network s') = queue_at (t - 8) size /\
    frames_free (network s') = reverse (seqZ first_free (t - 15 - size - first_free)) /\
    forall b, tree_bytes (Boot.memory (kern s')) (root_table (vmm (kern s'))) b ->
      Pmm.frame_addr heap_last <= b /\ forall f, heap_last <= f <= t -> ~ in_frame f b;
  bt_arrays : forall b, Pmm.owns (Boot.pmm (kern s')) b -> _kernel_end <= b < Pmm.frame_addr first_free;
}.

Lemma main_init_boots s : reset s ->
  exists s' boot_data, main_init s = Some (s', boot_data) /\ booted s s' boot_data.
Proof.
  intros Hrs. destruct Him as [Hke (C1 & C2 & C3) (S1 & S2 & S3) (A1 & A2 & _)].
  destruct (boot_memory_ok _kernel_end caches Hke (kern s) (rs_pmm _ Hrs) C1 C2 C3) as (k & Ek & Hup).
  destruct (threads_up (kern s) k (threads s) Hup (rs_active _ Hrs) (rs_cores _ Hrs) (rs_alive _ Hrs))
    as (main & idler & t & p & l & m & B & E1 & Hst & E2 & Hsub & HB & Hbd & Hrm).
  pose proof HB as [[HB1 Hag] Hdom]. cbn [Sched.heap with_heap] in HB1, Hag.
  destruct (up_heap (kern s) k m Hup Hag) as (Ha & Hpt & Hw).
  set (n := with_regs (gic_enable_irq device (Boot.regs k) 48) (with_pmm (Boot.pmm k) (with_memory m (network s)))).
  pose proof (mu_top _ _ _ _ Hup) as Htop.
  assert (Hip : holds m my_ip ip) by exact (static_kept (kern s) k m ip my_ip Hup Hag (rs_lip _ Hrs) S2 A2 (rs_ip _ Hrs)).
  pose proof (network_ready (Boot.pmm k) m n Ha Htop eq_refl eq_refl (rs_idx _ Hrs) Hip (rs_lip _ Hrs)) as Hnet. cbv zeta in Hnet.
  set (top := left_ first_free (Boot.pmm k) - 1) in *.
  destruct (boot_driver net_mac my_ip sp mac ip device size top (top - 8) _ _ n Hdev Hnet) as (n' & E3 & Hdr & Hrx & Htx & Hfr).
  destruct (net_init_writes net_mac my_ip sp mac ip device size top (top - 8) _ _ n Hdev Hnet) as (n'' & E4 & Hown & Hag2).
  assert (n'' = n') as -> by congruence. clear E4. change (Net.memory n) with m in Hag2. change (Net.pmm n) with (Boot.pmm k) in Hag2, Hown.
  assert (Htl : heap_last + 15 <= top) by (change heap_last with 67584; lia).
  destruct (tree_agree _ _ _ (tables_kept _ _ _ _ top Ha Hpt eq_refl Htl S1 Hag2)) as [Hw2 Htb]. pose proof (heap_kept _ _ _ top Ha eq_refl Htl Hag2) as Hh2.
  pose proof (heap_apart caches heap_window m (Net.memory n') B HB1 Hh2) as HB2.
  exists (Program (Kernel (Net.memory n') (Net.pmm n') (vmm k) heap_window (Net.regs n') (mmu_enabled k)) (with_heap l (Net.memory n') t) n'), p.
  split.
  { rewrite <- (mu_window _ _ _ _ Hup) in E1, E2 |- *. rewrite <- (rs_alive _ Hrs) in E1. exact (main_init_eq s k t p (with_heap l m t) n' Ek E1 E2 E3). }
  split; cbn [kern threads network Boot.memory Boot.pmm Boot.heap vmm mmu_enabled Sched.heap with_heap].
  - split; [reflexivity|]. split; [reflexivity|]. split; [reflexivity|exact (mu_mmu _ _ _ _ Hup)].
  - reflexivity.
  - intros v Hv. rewrite <- (mu_map _ _ _ _ Hup) by done. apply translate_walk. by rewrite Hw2, Hw.
  - destruct (mu_regs _ _ _ _ Hup) as (-> & -> & _). split; [done|]. split; [done|].
    destruct (pi_page (FA := above_allocator _) _ _ _ (mu_tables _ _ _ _ Hup) [] _ ltac:(split; [cbn; lia|by apply Forall_nil]) eq_refl). lia.
  - exists main, idler. split; [|split; [exact (sd_cores _ _ _ _ Hst)|exact (f_equal join_wait_queue (sd_main _ _ _ _ Hst))]].
    apply (refines_swap (heap_from caches heap_window (Boot.memory k)) _ t); [by apply (started_refines _ t main idler Hst)|exact Hsub|].
    exists B. split; [exact HB2|exact Hdom].
  - apply (room_agree heap_window m); [|exact Hrm]. eapply agree_weaken; [exact Hh2|]. intros b Hb. left.
    unfold HeapPages.HeapPages.meta_byte, heap_window in *. cbn in *. lia.
  - exists B. split; [exact HB2|]. apply (boot_data_keep caches heap_window B m); [exact HB1|exact Hh2|].
    destruct (mu_regs _ _ _ _ Hup) as (_ & <- & _). exact Hbd.
  - exists top. split; [lia|]. split; [exact Hdr|]. split; [exact Hrx|]. split; [exact Htx|]. split; [exact Hfr|].
    intros b Hb%Htb. destruct (tree_outside _ _ _ _ Ha Hpt Hb) as [H1 H2]. split; [exact H1|]. intros f Hf. apply H2. unfold top in Hf. lia.
  - intros b Hb%Hown. destruct Ha as [_ _ H1 _ H2 _]. unfold Pmm.owns in Hb. lia.
Qed.

(** C1 The kernel comes up: from the state the loader leaves, [main] gets to
    the end of [net_init] without a null pointer or an endless loop. Then one
    memory carries everything at once: the page tables translate exactly the
    identity map, the heap is in order and holds the record for the second
    core, whose stack pointer is the end of a block of 16 KiB; the scheduler's
    invariant holds, the caller is the running main task of core 0 and the idle
    thread waits; the network driver serves, its rings and buffers are the
    highest free frames, and the rest are free. *)
Theorem main_boots s : reset s ->
  exists s' boot_data, main_init s = Some (s', boot_data) /\ booted s s' boot_data.
Proof. apply main_init_boots. Qed.

(** The second core comes up: from the memory [main] leaves, [core_entry]
    joins the scheduler without a null pointer, for however long its loop runs
    no yield touches a task that is not live, and the whole run is one of the
    abstract scheduler that starts with the main task on core 0, the new task of
    idle priority on core 1 and the two idle threads beside them. *)
Theorem second_core_online s turns : reset s ->
  exists s' boot_data main idler t σ m1 idler1, main_init s = Some (s', boot_data) /\
    core_entry (HA := kernel_heap caches heap_window) idle idle_flag ret_from_fork turns (threads s') = inr ((), t) /\
    spec_run idle_flag (joined_spec (boot_spec main idler) 1 m1 idler1) (Yield 1 <$> turns) σ /\
    sched_refines (HA := kernel_heap caches heap_window) t σ.
Proof.
  intros Hrs. destruct (main_init_boots s Hrs) as (s' & p & E & Hb). destruct (bt_threads _ _ _ Hb) as (main & idler & Hr & Hcs & _).
  destruct (core_entry_ok (HA := kernel_heap caches heap_window) idle idle_flag ret_from_fork turns (threads s') _ _ _ 2031 Hr Hcs eq_refl)
    as (t & σ & m1 & idler1 & E1 & Hrun & Hr1); [|lia|].
  - pose proof (bt_room _ _ _ Hb) as Hrm. rewrite <- (proj1 (bt_memory _ _ _ Hb)) in Hrm. exact Hrm.
  - exists s', p, main, idler, t, σ, m1, idler1. split; [exact E|]. split; [exact E1|]. split; [exact Hrun|exact Hr1].
Qed.

(** C3 The second core gets what [main] has stored: started by the hypervisor
    with the address of the record in x0, the code in boot.S runs with its stack pointer at the end
    of a block of 16 KiB of the heap, translates exactly the identity map
    through both base registers, with the translation settings of the first
    core, and goes to [core_entry]. Memory is not changed. *)
Theorem second_core_starts s secondary_at : reset s ->
  exists s' boot_data, main_init s = Some (s', boot_data) /\ forall c, started_by (psci_cpu_on 1 secondary_at boot_data) 1 c ->
    let '(c', m') := Asm.run Entry.secondary_entry (c, Boot.memory (kern s')) in
    m' = Boot.memory (kern s') /\ c' Asm.PC = u64 entry_point /\
    (exists B st z, heap_api_inv caches heap_window m' B /\ B !! st = Some z /\ 4096 * 4 <= z /\ c' Asm.SP = st + 4096 * 4) /\
    (forall v, 0 <= v < 2 ^ 39 -> translate m' (c' (Asm.Sys Asm.TTBR0_EL1)) v = identity_map 0x80000000 v) /\
    c' (Asm.Sys Asm.TTBR1_EL1) = c' (Asm.Sys Asm.TTBR0_EL1) /\
    c' (Asm.Sys Asm.TCR_EL1) = u64 (tcr_el1 (vmm (kern s'))) /\ c' (Asm.Sys Asm.MAIR_EL1) = u64 (mair_el1 (vmm (kern s'))).
Proof.
  intros Hrs. destruct (main_init_boots s Hrs) as (s' & p & E & Hb). exists s', p. split; [exact E|]. intros c (_ & _ & _ & Hc).
  pose proof (Entry.secondary_entry_ok c (Boot.memory (kern s'))) as H. cbv zeta in H. cbn [hv_context psci_cpu_on] in Hc. rewrite Hc in H.
  destruct (Asm.run Entry.secondary_entry (c, Boot.memory (kern s'))) as [c' m'].
  destruct H as (-> & K1 & K2 & K3 & K4 & K5 & K6 & _).
  destruct (bt_core1 _ _ _ Hb) as (B & HB & [(st & z & F1 & F2 & F3 & _) (G1 & G2 & G3 & G4) _]).
  destruct (bt_regs _ _ _ Hb) as (_ & _ & Hroot). rewrite G1, u64_id in K2, K3 by exact Hroot.
  split; [done|]. split; [exact (eq_trans K6 G4)|].
  split; [exists B, st, z; exact (conj HB (conj F2 (conj F3 (eq_trans K1 F1))))|]. split; [rewrite K2; exact (bt_map _ _ _ Hb)|].
  split; [exact (eq_trans K3 (eq_sym K2))|]. split; [exact (eq_trans K4 G2)|exact (eq_trans K5 G3)].
Qed.

(** C22 The heap's window is never taken out of the frame allocator: after
    [main], enough allocations of frames hand out the page that holds the
    heap's own page table, and every other page of the window. *)
Theorem heap_window_handed_out s : reset s ->
  exists s' boot_data, main_init s = Some (s', boot_data) /\ Heap.page_metadata (Boot.heap (kern s')) = 0x50000000 /\
    forall a, 0x50000000 <= a < 0x50800000 -> a mod 4096 = 0 ->
      a ∈ (Pmm.alloc_many (Z.to_nat 0x80000) (Boot.pmm (kern s')) (Boot.memory (kern s'))).1.1.
Proof.
  intros Hrs. destruct (main_init_boots s Hrs) as (s' & p & E & Hb). exists s', p. split; [exact E|]. rewrite (bt_window _ _ _ Hb). split; [reflexivity|].
  intros a Ha Hal. destruct (bt_net _ _ _ Hb) as (t & Ht & Hdr & _ & _ & Hfr & _). destruct (bt_memory _ _ _ Hb) as (_ & Em & Ep & _).
  pose proof (tx_pmm _ _ _ (ho_tx _ _ _ _ _ _ _ _ (dr_host _ _ _ _ _ _ _ _ Hdr))) as Hinv.
  unfold frames_free in Hfr. rewrite Em, Ep in *. rewrite Pmm.alloc_many_ok, Hfr by exact Hinv. apply elem_of_app. left.
  destruct Him as [Hke _ _ _]. pose proof (first_free_bounds _kernel_end Hke) as Hff. change heap_first with 65536 in Hff.
  destruct (dv_power _ _ _ Hdev) as [Hsz _]. rewrite take_ge by (rewrite length_reverse, length_seqZ; lia).
  apply list_elem_of_fmap. apply Z.mod_divide in Hal as [q ->]; [|done]. exists (q - 0x40000). rewrite elem_of_reverse, elem_of_seqZ.
  unfold Pmm.frame_addr, PHY_RAM_BASE. lia.
Qed.
End Program.
End Main.
