(* ===== verification/MainEnd.v ===== *)
(** * The end of [main] (src/src/main.c)

    The last two calls of [main], [sched_yield] and [pthread_exit], on the
    memory the calls before them have left. *)

From stdpp Require Import functions.
From S2P Require Import Prelude Memory HeapApi Sched SchedQueues SchedYield SchedCreate SchedInit SchedSpec SchedThreads SchedTrace SchedBoot.
From S2P Require Import Heap Vmm Boot Mmio Gic Net NetFrames NetSend NetInit Main.

Module MainEnd.
Import Sched SchedQueues SchedYield SchedCreate SchedInit SchedSpec SchedThreads SchedTrace SchedBoot NetInit Boot Main.

Section End.
Context {A : Type} {HA : HeapApi A} (idle idle_flag ret_from_fork : Z).
Abbreviation sched := (@sched A).

(** [main] after [net_init]: the registers are the ones at the two switches. *)
Definition main_end (fuel : nat) (regs regs' : cpu_context) : @M A cpu_context :=
  sched_yield 0 regs;;
  pthread_exit fuel 0 0 regs'.

(** Nothing is queued and [c] runs on core [cpu]. *)
Record alone (s : sched) (cpu : nat) (c p : Z) : Prop := {
  al_inv : sched_inv s no_queues;
  al_core : cores s !! cpu = Some (Core (Z.of_nat cpu) c 0);
  al_task : c <> 0 /\ state (tasks s c) = TASK_RUNNING /\ priority (tasks s c) = p;
}.

Lemma inv_pointwise (s : sched) Q Q' : sched_inv s Q -> (forall p, Q p = Q' p) -> sched_inv s Q'.
Proof.
  intros [H1 [G1 G2 G3 G4] H3 H4] HQ. split; [done| |done|done].
  split; [|intros p Hp; by rewrite <- HQ; apply G2|done|by rewrite <- HQ].
  intros p Hp. unfold queue_ok. rewrite <- HQ. by apply G1.
Qed.

Lemma spec_yield_idle c : spec_yield no_queues c IDLE false = (no_queues, c).
Proof. reflexivity. Qed.

Lemma spec_yield_alone c : (spec_yield no_queues c NORMAL true).2 = c /\ forall p, (spec_yield no_queues c NORMAL true).1 p = [].
Proof.
  pose proof (spec_yield_cases no_queues c NORMAL true) as H. cbv zeta in H.
  destruct (spec_yield no_queues c NORMAL true) as [Q' n]. cbn [requeue] in H.
  change (no_queues NORMAL ++ [c]) with [c] in H. cbn [fst snd].
  assert (Hq : forall h, (<[NORMAL := [c]]> no_queues) h = if decide (h = NORMAL) then [c] else []).
  { intros h. case_decide as D; [subst; by rewrite fn_lookup_insert|by rewrite fn_lookup_insert_ne]. }
  destruct (top (<[NORMAL := [c]]> no_queues)) as [h|].
  - destruct H as (q & Hh & E & ->). rewrite Hq in E. case_decide as D; [|done]. injection E as <- <-. split; [done|].
    intros p. destruct (decide (p = h)) as [->|Hne]; [by rewrite fn_lookup_insert|].
    rewrite fn_lookup_insert_ne, Hq, decide_False by congruence. done.
  - destruct H as (_ & _ & H). specialize (H NORMAL ltac:(by vm_compute)). by rewrite fn_lookup_insert in H.
Qed.

(** The only thread that can run gets the processor back, with no links. *)
Lemma alone_yield (s : sched) cpu c regs : alone s cpu c NORMAL ->
  exists s', sched_yield cpu regs s = inr (regs, s') /\ alone s' cpu c NORMAL /\
    join_wait_queue (tasks s' c) = join_wait_queue (tasks s c) /\ next (tasks s' c) = 0 /\ prev (tasks s' c) = 0.
Proof.
  intros [Hinv Hco (Hc0 & Hst & Hp)]. pose proof (yield_ok s no_queues cpu _ regs Hinv Hco Hc0 (or_introl Hst)) as H.
  cbv zeta in H. cbn [task cpu_id] in H.
  assert (Hr : runs (tasks s c) = true) by (unfold runs; by rewrite Hst, Hp). rewrite Hr, Hp in H.
  destruct (spec_yield_alone c) as [En EQ]. destruct (spec_yield no_queues c NORMAL true) as [Q' n]. cbn [fst snd] in En, EQ. subst n.
  destruct H as (s' & E & Hinv' & Hcs & _ & _ & _ & Htk & _). rewrite Z.eqb_refl in E.
  destruct (unlinked_fields _ _ (Htk c)) as (_ & _ & Est & Epr & _ & _ & Ejn).
  unfold after_yield, set_running in Est, Epr, Ejn. rewrite !(decide_True (P := c = c)) in Est, Epr, Ejn by done.
  rewrite decide_False in Est, Epr, Ejn by tauto.
  exists s'. split; [exact E|]. split; [split|split].
  - apply (inv_pointwise _ Q'); [done|]. intros p. by rewrite EQ.
  - rewrite Hcs. apply list_lookup_insert_eq. by eapply lookup_lt_Some.
  - by rewrite Est, Epr.
  - by rewrite Ejn.
  - destruct (si_core _ _ Hinv _ _ Hco) as [_ _ Hct]. destruct (Hct Hc0) as (Hca & Hpc & Hns). cbn [task] in *.
    destruct (put_back_ok s no_queues c Hinv Hc0 Hca Hpc Hns) as (s1 & E1 & HQ1 & Hch1). rewrite Hp, Hr in HQ1.
    unfold requeue in HQ1. change (no_queues NORMAL ++ [c]) with [c] in HQ1.
    pose proof (pick_next_ok s1 _ cpu _ HQ1 ltac:(by rewrite (ch_cores _ _ _ Hch1)) eq_refl) as E2.
    destruct (start_queued s1 _ NORMAL c [] HQ1 ltac:(by vm_compute) ltac:(by rewrite fn_lookup_insert)) as (s2 & E3 & _ & _ & Hl).
    replace s' with s2; [done|]. rewrite sched_yield_eq in E.
    erewrite bind_ok in E by (eapply reap_none; [done|by apply (si_core _ _ Hinv)]).
    rewrite (bind_ok _ _ s s c) in E by (unfold current_task; by erewrite bind_ok by (by apply get_core_ok)).
    erewrite bind_ok in E by exact E1. erewrite bind_ok in E by exact E2.
    change (match top _ with Some h => _ | None => _ end) with c in E.
    erewrite bind_ok in E by exact E3. unfold switch_task in E. rewrite Z.eqb_refl in E. cbn [negb] in E. by injection E.
Qed.

Lemma main_end_fails (s : sched) c fuel regs regs' : alone s 0 c NORMAL -> join_wait_queue (tasks s c) = 0 ->
  main_end fuel regs regs' s = inl (BadAccess c).
Proof.
  intros Ha Hj. destruct (alone_yield s 0 c regs Ha) as (s' & E & [Hinv Hco (Hc0 & _)] & Ej & Hn & Hp).
  unfold main_end. erewrite bind_ok by exact E.
  apply (pthread_exit_reads_freed s' no_queues 0 c 0 regs' fuel Hinv); [by eexists|done|by rewrite Ej|done|done].
Qed.

(** The turns of a core with nothing to run leave every other task as it is. *)
Lemma idle_turns_alone turns (s s' : sched) cpu c : alone s cpu c IDLE ->
  idle_turns cpu turns s = inr ((), s') ->
  sched_inv s' no_queues /\ cores s' = cores s /\ forall t, t <> c -> unlinked (tasks s' t) = unlinked (tasks s t).
Proof.
  revert s. induction turns as [|regs turns IH]; intros s [Hinv Hco (Hc0 & Hst & Hp)] E; unfold idle_turns in E; cbn [foldr] in E; [by injection E as <-|].
  pose proof (yield_ok s no_queues cpu _ regs Hinv Hco Hc0 (or_introl Hst)) as H. cbv zeta in H. cbn [task cpu_id] in H.
  assert (Hr : runs (tasks s c) = false) by (unfold runs; by rewrite Hst, Hp). rewrite Hr, Hp, spec_yield_idle in H.
  destruct H as (s1 & E1 & Hinv1 & Hcs1 & _ & _ & _ & Htk & _). rewrite Z.eqb_refl in E1. erewrite bind_ok in E by exact E1.
  rewrite list_insert_id in Hcs1 by done.
  destruct (unlinked_fields _ _ (Htk c)) as (_ & _ & Est & Epr & _).
  unfold after_yield, set_running in Est, Epr. rewrite !(decide_True (P := c = c)) in Est, Epr by done.
  rewrite decide_False in Est, Epr by tauto.
  destruct (IH s1) as (H1 & H2 & H3); [|exact E|].
  { split; [done|by rewrite Hcs1|]. by rewrite Est, Epr. }
  split; [done|]. split; [by rewrite H2|]. intros t Ht. rewrite H3, Htk by done.
  unfold after_yield, set_running. by rewrite !decide_False by (tauto || done).
Qed.

Lemma core_entry_alone turns (s t : sched) main co : alone s 0 main NORMAL -> cores s = [Core 0 main 0; co] ->
  main ∈ alive s -> core_entry idle idle_flag ret_from_fork turns s = inr ((), t) ->
  alone t 0 main NORMAL /\ join_wait_queue (tasks t main) = join_wait_queue (tasks s main).
Proof.
  intros [Hinv Hco (Hm0 & Hst & Hp)] Hcs Hal E. unfold core_entry in E.
  pose proof (sched_init_secondary_ok idle idle_flag ret_from_fork s no_queues 1 co Hinv ltac:(by vm_compute) ltac:(by rewrite Hcs)) as H.
  unfold mbind, M_bind in E. destruct (sched_init_secondary idle idle_flag ret_from_fork 1 s) as [e|[[] s1]]; [done|].
  destruct H as (m & idler & [J1 J2 (J3 & _ & J5 & _) J7 _ J10]). rewrite Hcs in J2. cbn in J2.
  destruct (idle_turns_alone turns s1 t 1 m) as (K1 & K2 & K3); [|exact E|].
  { split; [done|by rewrite J2|by rewrite J7]. }
  assert (Hne : main <> m) by (by intros ->).
  assert (Hu : unlinked (tasks t main) = unlinked (tasks s main)) by (rewrite K3 by done; by apply J10).
  destruct (unlinked_fields _ _ Hu) as (_ & _ & Est & Epr & _ & _ & Ejn).
  split; [|done]. split; [done|by rewrite K2, J2|by rewrite Est, Epr].
Qed.
(** Nothing else can run, so the main task ends as it must. *)
Lemma main_end_from (s : sched) main idler : sched_refines s (boot_spec main idler) ->
  cores s = [Core 0 main 0; Core 1 0 0] -> join_wait_queue (tasks s main) = 0 ->
  main ∈ alive s /\ forall t fuel regs regs',
    t = s \/ (exists turns, core_entry idle idle_flag ret_from_fork turns s = inr ((), t)) ->
    main_end fuel regs regs' t = inl (BadAccess main).
Proof.
  intros Hr Hcs Hj. destruct (rf_prio _ _ Hr main NORMAL) as (Hal & Hm0 & Hp); [by apply lookup_insert_eq|].
  destruct (rf_run _ _ Hr main) as (Hst & _); [left|done|].
  assert (Ha : alone s 0 main NORMAL) by (split; [exact (rf_inv _ _ Hr)|by rewrite Hcs|done]).
  split; [done|]. intros t fuel regs regs' [->|(turns & Et)]; [by apply main_end_fails|].
  destruct (core_entry_alone turns s t main _ Ha Hcs Hal Et) as [Ha' Hj']. apply main_end_fails; [done|by rewrite Hj'].
Qed.
End End.

Section Program.
Context (_kernel_end caches net_mac idle idle_flag ret_from_fork entry_point : Z) (device : Mmio.bus -> Z -> Z).
Context (my_ip sp : Z) (mac ip : list Z) (size : Z).
Context (Him : image _kernel_end caches net_mac my_ip sp) (Hdev : device_ok mac device size).

(** C24 [main] never ends well: after [net_init], whether or not the second
    core has joined and however many turns it has made, [sched_yield] gives the
    processor back to the main task, the only one that can run, and
    [pthread_exit] then frees that task while it is the current one and reads
    it. *)
Theorem main_reads_freed s : reset my_ip ip s ->
  exists s' boot_data main, main_init _kernel_end caches net_mac idle idle_flag ret_from_fork entry_point device s = Some (s', boot_data) /\
    main ∈ alive (threads s') /\
    forall t fuel regs regs',
      t = threads s' \/
        (exists turns, core_entry (HA := kernel_heap caches heap_window) idle idle_flag ret_from_fork turns (threads s') = inr ((), t)) ->
      main_end (HA := kernel_heap caches heap_window) fuel regs regs' t = inl (BadAccess main).
Proof.
  intros Hrs. destruct (main_init_boots _ _ _ idle idle_flag ret_from_fork entry_point _ _ _ _ _ _ Him Hdev s Hrs) as (s' & p & E & Hb).
  destruct (bt_threads _ _ _ _ _ _ _ _ _ _ _ _ Hb) as (main & idler & Hr & Hcs & Hj).
  destruct (main_end_from (HA := kernel_heap caches heap_window) idle idle_flag ret_from_fork _ _ _ Hr Hcs Hj) as [Hal Hend].
  exists s', p, main. split; [exact E|]. split; [exact Hal|exact Hend].
Qed.
End Program.
End MainEnd.
