(* ===== verification/System.v ===== *)
(** * The kernel at work

    What happens after [main] has brought the kernel up: threads yield, create
    threads and use the heap, the second core joins, packets arrive, packets
    are sent, and the network card interrupts, in any order, all on one memory. Three
    abstract machines run side by side, the scheduler, the heap of the threads
    and the network service, and the kernel refines all of them at once. *)

From S2P Require Import Prelude Memory CString Pmm Vmm Heap HeapInv HeapTrace HeapApi HeapShare Bytes Mmio Gic.
From S2P Require Import Sched SchedQueues SchedYield SchedCreate SchedInit SchedSpec SchedTrace SchedBoot SchedHeap.
From S2P Require Import Net NetFrames NetSend NetHandle NetPoll NetInit NetService NetFootprint Exceptions Boot Main.

Module System.
Import Sched SchedQueues SchedYield SchedCreate SchedInit SchedSpec SchedTrace SchedBoot SchedHeap HeapShare.
Import Vmm Boot Net Gic NetFrames NetSend NetHandle NetPoll NetInit NetService NetFootprint Exceptions Main.

(** ** One memory *)

(** The state of the threads, and that of the network, is put back. *)
Definition with_threads (t : @sched mem) (s : program) : program :=
  let k := kern s in
  Program (Kernel (Sched.heap t) (Boot.pmm k) (vmm k) (Boot.heap k) (Boot.regs k) (mmu_enabled k)) t
    (with_memory (Sched.heap t) (network s)).

Definition with_network (n : net_state) (s : program) : program :=
  let k := kern s in
  Program (Kernel (Net.memory n) (Net.pmm n) (vmm k) (Boot.heap k) (Net.regs n) (mmu_enabled k))
    (with_heap (alive (threads s)) (Net.memory n) (threads s)) n.

(** ** What may happen *)

(** A core yields or creates a thread; the second core comes up; a thread calls
    or uses the heap; the network card, or a request sent by the kernel; an
    interrupt on the first core. *)
Inductive event :=
| Thread (o : sop)
| Join
| Client (o : HeapTrace.op)
| Network (e : NetService.event)
| Interrupt (fuel : nat).

Section System.
Context (caches net_mac my_ip sp idle idle_flag ret_from_fork : Z) (mac ip : list Z) (device : bus -> Z -> Z).

Definition exec (e : event) (s : program) : option program :=
  let h := Boot.heap (kern s) in
  match e with
  | Thread o =>
      match exec_call (HA := kernel_heap caches h) idle_flag ret_from_fork o (threads s) with
      | inl _ => None
      | inr (_, t) => Some (with_threads t s)
      end
  | Join =>
      match sched_init_secondary (HA := kernel_heap caches h) idle idle_flag ret_from_fork 1 (threads s) with
      | inl _ => None
      | inr (_, t) => Some (with_threads t s)
      end
  | Client o =>
      let '(_, m) := HeapTrace.exec caches h (Boot.memory (kern s)) o in
      Some (with_threads (with_heap (alive (threads s)) m (threads s)) s)
  | Network e => n ← NetService.exec net_mac my_ip sp device e (network s); Some (with_network n s)
  | Interrupt fuel => '(_, n) ← el1_irq_handler net_mac my_ip sp device fuel (network s); Some (with_network n s)
  end.

(** ** The three abstract machines *)

Record view := View {
  blocks : gmap Z (list Z);
  scheduler : SchedTrace.spec;
  net : service;
}.

Abbreviation lo := (HeapInv.pg heap_window (HeapInv.meta_pages heap_window)).
Abbreviation hi := (Heap.heap_end_addr heap_window).

(** The number the interrupt controller gives, and the state in which the
    interrupt is then served. *)
Definition irq_id (n : net_state) : Z := u32 (device (Net.regs n) GICC_IAR).
Definition acknowledged (n : net_state) : net_state := with_regs (Net.regs n ++ [Rd GICC_IAR]) n.

Inductive step (s : program) : view -> event -> view -> Prop :=
| step_thread C σ g o σ' : spec_step idle_flag σ o σ' -> step s (View C σ g) (Thread o) (View C σ' g)
| step_join C σ g m idler : m <> 0 -> idler <> m -> sprio σ !! m = None -> sprio σ !! idler = None ->
    step s (View C σ g) Join (View C (joined_spec σ 1 m idler) g)
| step_client C σ g o C' :
    HeapTrace.spec_step lo hi C o (HeapTrace.exec caches heap_window (Boot.memory (kern s)) o).1 C' ->
    step s (View C σ g) (Client o) (View C' σ g)
| step_network C σ g e : step s (View C σ g) (Network e) (View C σ (NetService.spec mac ip device e (network s) g))
| step_interrupt C σ g fuel :
    step s (View C σ g) (Interrupt fuel)
      (View C σ (if irq_id (network s) =? 48 then NetService.spec mac ip device (Irq fuel) (acknowledged (network s)) g else g)).

Inductive runs : program -> view -> list event -> program -> view -> Prop :=
| runs_stop s v : runs s v [] s v
| runs_next s v e s1 v1 es s' v' : exec e s = Some s1 -> step s v e v1 -> runs s1 v1 es s' v' -> runs s v (e :: es) s' v'.

(** What the threads, the second core and the device keep to. The network code
    runs on the stack of the main task, which core 0 then has. *)
Section Protocol.
Context (bufs : list Z) (main : Z).

Definition allowed (e : event) (s : program) (v : view) : Prop :=
  match e with
  | Thread o => call_ok idle_flag (sruns (scheduler v)) o
  | Join => sruns (scheduler v) !! 1%nat = Some 0 /\ heap_room heap_window (Boot.memory (kern s)) 10
  | Client o => HeapTrace.op_ok (blocks v) o
  | Network (Irq _) => False
  | Network Request => sruns (scheduler v) !! 0%nat = Some main /\ NetService.allowed ip bufs Request (network s) (net v)
  | Network e => NetService.allowed ip bufs e (network s) (net v)
  | Interrupt fuel => sruns (scheduler v) !! 0%nat = Some main /\ NetService.allowed ip bufs (Irq fuel) (network s) (net v)
  end.

Fixpoint all_allowed (es : list event) (s : program) (v : view) : Prop :=
  match es with
  | [] => True
  | e :: es => allowed e s v /\ forall s1 v1, exec e s = Some s1 -> step s v e v1 -> all_allowed es s1 v1
  end.

(** ** The invariant *)

(** [T]: the bytes of the page tables, which are those of [m0]. *)
Context (T : Z -> Prop) (m0 : mem) (upper low : list Z) (root size : Z).

Definition guarded (b : Z) : Prop := HeapApi.heap_bytes caches heap_window b \/ T b.

Abbreviation view_heap C m := (shared_heap caches heap_window C m).

Record system_ok (s : program) (v : view) : Prop := {
  so_memory : Sched.heap (threads s) = Boot.memory (kern s) /\ Net.memory (network s) = Boot.memory (kern s) /\
    Net.pmm (network s) = Boot.pmm (kern s);
  so_window : Boot.heap (kern s) = heap_window;
  so_root : root_table (vmm (kern s)) = root;
  so_tables : agree T m0 (Boot.memory (kern s));
  so_threads : sched_refines (HA := view_heap (blocks v) (Boot.memory (kern s))) (threads s) (scheduler v);
  so_driver : driver net_mac my_ip sp mac ip bufs (network s) (net v);
  so_spared : spared sp bufs guarded upper (network s);
  so_stacked : stacked upper low (network s) (flight (net v));
  so_size : qsize (txq (network s)) = size;
}.

Context (HT : forall b, T b -> ~ HeapApi.heap_bytes caches heap_window b).
Context (Hstatic : forall b, guarded b -> ~ static_bytes net_mac my_ip b).
Context (Hsize : size <= Z.of_nat (length upper)).

(** A step of the threads, which leaves all but the heap alone. *)
Lemma threads_step s v t C' σ' : system_ok s v ->
  sched_refines (HA := view_heap C' (Sched.heap t)) t σ' ->
  agree (fun b => ~ HeapApi.heap_bytes caches heap_window b) (Boot.memory (kern s)) (Sched.heap t) ->
  system_ok (with_threads t s) (View C' σ' (net v)).
Proof.
  intros [(M1 & M2 & M3) H2 H3 H4 H5 H6 H7 H8 H9] Hr Hag.
  assert (Hag' : agree (fun b => ~ guarded b) (Net.memory (network s)) (Sched.heap t)).
  { rewrite M2. eapply agree_weaken; [exact Hag|]. intros b Hb Hh. apply Hb. by left. }
  destruct (driver_elsewhere net_mac my_ip sp mac ip bufs guarded upper low (network s) (net v) (Sched.heap t) H6 H7 H8 Hstatic Hag') as (D1 & D2 & D3).
  split; cbn [kern threads network with_threads Boot.memory Boot.pmm Boot.heap vmm blocks scheduler net Net.memory Net.pmm with_memory].
  - by split_and!.
  - exact H2.
  - exact H3.
  - etransitivity; [exact H4|]. eapply agree_weaken; [exact Hag|exact HT].
  - exact Hr.
  - exact D1.
  - exact D2.
  - exact D3.
  - exact H9.
Qed.

(** The blocks of the scheduler after one of its calls. *)
Lemma heap_after C m t σ : sched_refines (HA := view_heap C m) t σ ->
  sched_refines (HA := view_heap C (Sched.heap t)) t σ /\
  agree (fun b => ~ HeapApi.heap_bytes caches heap_window b) m (Sched.heap t).
Proof.
  intros Hr. destruct (si_heap _ _ (rf_inv _ _ Hr)) as (S & HS & Hd). split; [|by destruct HS as (B & _ & _ & _ & Hag)].
  assert (E : t = with_heap (alive t) (Sched.heap t) t) by (by destruct t).
  rewrite E. refine (refines_swap (view_heap C m) _ t σ _ _ Hr (fun p Hp => Hp) _). exists S. split; [|exact Hd].
  exact (shared_apart caches heap_window C m _ _ S HS ltac:(done)).
Qed.

Lemma thread_event o s v : system_ok s v -> allowed (Thread o) s v ->
  exists s1 v1, exec (Thread o) s = Some s1 /\ step s v (Thread o) v1 /\ system_ok s1 v1.
Proof.
  intros Hs Ha. pose proof (so_threads _ _ Hs) as Hr. pose proof (so_window _ _ Hs) as Hw. destruct v as [C σ g]. cbn [blocks scheduler] in *.
  destruct (call_refines (HA := view_heap C (Boot.memory (kern s))) idle_flag ret_from_fork o (threads s) σ Hr Ha) as (t & σ' & E & Hst & Hr' & _).
  destruct (heap_after C _ t σ' Hr') as [Hr2 Hag].
  exists (with_threads t s), (View C σ' g). split; [|split; [by constructor|by apply (threads_step s (View C σ g))]].
  unfold exec. rewrite Hw, (call_from (kernel_heap caches heap_window) (view_heap C (Boot.memory (kern s))) idle_flag ret_from_fork eq_refl eq_refl).
  by rewrite E.
Qed.

Lemma join_ok s v : system_ok s v -> allowed Join s v ->
  exists s1 v1, exec Join s = Some s1 /\ step s v Join v1 /\ system_ok s1 v1.
Proof.
  intros Hs (H1 & Hroom). pose proof (so_threads _ _ Hs) as Hr. pose proof (so_window _ _ Hs) as Hw.
  destruct (so_memory _ _ Hs) as (M1 & _). destruct v as [C σ g]. cbn [blocks scheduler] in *.
  assert (Hco : exists co, cores (threads s) !! Z.to_nat 1 = Some co).
  { rewrite <- (rf_cores _ _ Hr), list_lookup_fmap in H1. change (Z.to_nat 1) with 1%nat.
    destruct (cores (threads s) !! 1%nat) as [co|]; [by eexists|done]. }
  destruct Hco as [co Hco].
  destruct (sched_init_secondary_roomy (HA := view_heap C (Boot.memory (kern s))) idle idle_flag ret_from_fork (threads s) (sq σ) 1 co 10 (rf_inv _ _ Hr))
    as (m & idler & t & E & Hj); [unfold MAX_CPUS; lia|exact Hco|rewrite M1; exact Hroom|lia|].
  pose proof (joined_refines (HA := view_heap C (Boot.memory (kern s))) (threads s) t σ 1 m idler Hr H1 Hj) as Hr'.
  destruct (heap_after C _ t _ Hr') as [Hr2 Hag].
  exists (with_threads t s), (View C (joined_spec σ 1 m idler) g). split; [|split; [|by apply (threads_step s (View C σ g))]].
  - unfold exec. rewrite Hw, (secondary_from (kernel_heap caches heap_window) (view_heap C (Boot.memory (kern s))) idle idle_flag ret_from_fork eq_refl eq_refl).
    by rewrite E.
  - destruct (jd_new _ _ _ _ _ _ Hj) as (N1 & N2 & N3 & N4). constructor; [done|done|..].
    + destruct (sprio σ !! m) as [p|] eqn:Ep; [|done]. by destruct (rf_prio _ _ Hr m p Ep).
    + destruct (sprio σ !! idler) as [p|] eqn:Ep; [|done]. by destruct (rf_prio _ _ Hr idler p Ep).
Qed.

Lemma client_ok o s v : system_ok s v -> allowed (Client o) s v ->
  exists s1 v1, exec (Client o) s = Some s1 /\ step s v (Client o) v1 /\ system_ok s1 v1.
Proof.
  intros Hs Ha. pose proof (so_threads _ _ Hs) as Hr. pose proof (so_window _ _ Hs) as Hw.
  destruct (so_memory _ _ Hs) as (M1 & _). destruct v as [C σ g]. cbn [blocks scheduler allowed] in *.
  destruct (si_heap _ _ (rf_inv _ _ Hr)) as (S & HS & Hd). rewrite M1 in HS.
  pose proof (shared_step caches heap_window C (Boot.memory (kern s)) (Boot.memory (kern s)) S o HS Ha) as H.
  destruct (HeapTrace.exec caches heap_window (Boot.memory (kern s)) o) as [r m] eqn:E. destruct H as (C' & Hst & HS').
  exists (with_threads (with_heap (alive (threads s)) m (threads s)) s), (View C' σ g).
  split; [by (unfold exec; rewrite Hw, E)|]. split; [constructor; by rewrite E|].
  apply (threads_step s (View C σ g)); [exact Hs| |by destruct HS' as (B & _ & _ & _ & Hag)].
  refine (refines_swap (view_heap C (Boot.memory (kern s))) _ (threads s) σ _ _ Hr (fun p Hp => Hp) _). exists S. split; [|exact Hd].
  exact (shared_apart caches heap_window C' _ _ _ S HS' ltac:(done)).
Qed.

(** A step of the network, which leaves the heap and the tables alone. *)
Lemma network_step s v n g' : system_ok s v -> driver net_mac my_ip sp mac ip bufs n g' ->
  untouched sp bufs guarded upper low (network s) n (flight g') -> qsize (txq n) = size ->
  system_ok (with_network n s) (View (blocks v) (scheduler v) g').
Proof.
  intros [(M1 & M2 & M3) H2 H3 H4 H5 H6 H7 H8 H9] Hd [U1 U2 U3] Hq. rewrite M2 in U1.
  split; cbn [kern threads network with_network Boot.memory Boot.pmm Boot.heap vmm blocks scheduler net Sched.heap with_heap]; try done.
  - etransitivity; [exact H4|]. eapply agree_weaken; [exact U1|]. intros b Hb. by right.
  - refine (refines_swap (view_heap (blocks v) (Boot.memory (kern s))) _ (threads s) (scheduler v) _ _ H5 (fun p Hp => Hp) _).
    destruct (si_heap _ _ (rf_inv _ _ H5)) as (S & HS & Hdm). rewrite M1 in HS. exists S. split; [|exact Hdm].
    apply (shared_apart caches heap_window (blocks v) _ _ _ S HS). eapply agree_weaken; [exact U1|]. intros b Hb. by left.
Qed.

Lemma network_ok e s v : system_ok s v -> NetService.allowed ip bufs e (network s) (net v) ->
  exists n, NetService.exec net_mac my_ip sp device e (network s) = Some n /\
    system_ok (with_network n s) (View (blocks v) (scheduler v) (NetService.spec mac ip device e (network s) (net v))).
Proof.
  intros Hs Ha. pose proof Hs as [_ _ _ _ _ Hd Hsp Hst Hq].
  destruct (event_ok net_mac my_ip sp mac ip device bufs e (network s) (net v) Hd Ha) as (n & E & Hd' & _ & Hq').
  exists n. split; [exact E|]. apply network_step; [exact Hs|exact Hd'| |by rewrite Hq'].
  apply (event_untouched net_mac my_ip sp mac ip device bufs guarded upper low e (network s) (net v) n Hd Ha); try done. by rewrite Hq.
Qed.

Lemma system_regs b s v : system_ok s v -> system_ok (with_network (with_regs b (network s)) s) v.
Proof.
  intros Hs. pose proof Hs as [_ _ _ _ _ Hd Hsp Hst Hq]. destruct v as [C σ g].
  apply (network_step s (View C σ g)); [exact Hs|by apply driver_regs| |exact Hq].
  by apply regs_untouched.
Qed.

Lemma interrupt_ok fuel s v : system_ok s v -> allowed (Interrupt fuel) s v ->
  exists s1 v1, exec (Interrupt fuel) s = Some s1 /\ step s v (Interrupt fuel) v1 /\ system_ok s1 v1.
Proof.
  intros Hs (_ & Ha). destruct v as [C σ g]. cbn [net] in Ha. cbn [exec].
  pose proof (el1_irq_eq net_mac my_ip sp device fuel (network s)) as Heq. cbv zeta in Heq.
  fold (irq_id (network s)) in Heq. rewrite Heq. pose proof (step_interrupt s C σ g fuel) as Hst.
  destruct (irq_id (network s) =? 48).
  - set (s1 := with_network (acknowledged (network s)) s). assert (Hs1 : system_ok s1 (View C σ g)) by by apply system_regs.
    destruct (network_ok (Irq fuel) s1 (View C σ g) Hs1 Ha) as (n & E & Hn). cbn [NetService.exec network s1 with_network] in E.
    fold (acknowledged (network s)). destruct (virtio_net_handle_irq _ _ _ _ _ _) as [[[] n']|]; [|done]. injection E as ->.
    cbn [mbind option_bind]. eexists _, _. split; [reflexivity|]. split; [exact Hst|].
    exact (system_regs (Net.regs n ++ [Wr GICC_EOIR 48]) _ _ Hn).
  - cbn [mbind option_bind]. eexists _, _. split; [reflexivity|]. split; [exact Hst|]. by apply system_regs.
Qed.

(** Every event leads on. *)
Lemma system_event e s v : system_ok s v -> allowed e s v ->
  exists s1 v1, exec e s = Some s1 /\ step s v e v1 /\ system_ok s1 v1.
Proof.
  intros Hs Ha. destruct e as [o| |o|e|fuel]; [by apply thread_event|by apply join_ok|by apply client_ok| |by apply interrupt_ok].
  destruct v as [C σ g].
  assert (Ha' : NetService.allowed ip bufs e (network s) g) by (destruct e; cbn [allowed net] in Ha; tauto).
  destruct (network_ok e s (View C σ g) Hs Ha') as (n & E & Hn). cbn [exec]. rewrite E. cbn [mbind option_bind].
  eexists _, _. split; [reflexivity|]. split; [constructor|exact Hn].
Qed.

Lemma system_events es s v : system_ok s v -> all_allowed es s v ->
  exists s' v', runs s v es s' v' /\ system_ok s' v'.
Proof.
  revert s v. induction es as [|e es IH]; intros s v Hs Hall; [exists s, v; split; [constructor|done]|].
  destruct Hall as [Ha Hall]. destruct (system_event e s v Hs Ha) as (s1 & v1 & E & Hst & Hs1).
  destruct (IH s1 v1 Hs1 (Hall s1 v1 E Hst)) as (s' & v' & Hr & Hs'). exists s', v'. split; [by econstructor|done].
Qed.
End Protocol.
End System.

(** ** From the reset state on *)

Section Start.
Context (_kernel_end caches net_mac idle idle_flag ret_from_fork entry_point : Z) (device : bus -> Z -> Z).
Context (my_ip sp : Z) (mac ip : list Z) (size : Z).
Context (Him : image _kernel_end caches net_mac my_ip sp) (Hdev : device_ok mac device size).

Abbreviation first_free := (first_free _kernel_end).
Abbreviation buffers t := (reverse (seqZ (t - 15 - size) size)).
Abbreviation working t := (reverse (seqZ (t - 15 - size - size) size)).
Abbreviation beneath t := (reverse (seqZ first_free (t - 15 - size - size - first_free))).
Abbreviation main_init := (main_init _kernel_end caches net_mac idle idle_flag ret_from_fork entry_point device).

(** The kernel after some events, when it was [s0] at the end of [net_init]. *)
Record in_order (bufs : list Z) (s0 s : program) (v : view) : Prop := {
  io_memory : Sched.heap (threads s) = Boot.memory (kern s) /\ Net.memory (network s) = Boot.memory (kern s);
  io_map : forall a, 0 <= a < 2 ^ 39 -> translate (Boot.memory (kern s)) (root_table (vmm (kern s))) a = identity_map 0x80000000 a;
  io_blocks : exists B, HeapTrace.refines caches heap_window (Boot.memory (kern s)) B /\ blocks v ⊆ B;
  io_threads : sched_refines (HA := shared_heap caches heap_window (blocks v) (Boot.memory (kern s))) (threads s) (scheduler v);
  io_network : driver net_mac my_ip sp mac ip bufs (network s) (net v);
  io_frames : frames_free (network s) ++ (flight (net v)).*1 ≡ₚ frames_free (network s0);
}.

Section Booted.
Context (s s0 : program) (boot_data t : Z).
Context (Hb : booted _kernel_end caches net_mac entry_point my_ip sp mac ip size s s0 boot_data).
Context (Ht : 0x80000 - 5000 <= t + 1 <= 0x80000).
Context (Hrx : rxq (network s0) = queue_at t size) (Htx : txq (network s0) = queue_at (t - 8) size).
Context (Htree : forall b, tree_bytes (Boot.memory (kern s0)) (root_table (vmm (kern s0))) b ->
  Pmm.frame_addr heap_last <= b /\ forall f, heap_last <= f <= t -> ~ in_frame f b).

Abbreviation T := (tree_bytes (Boot.memory (kern s0)) (root_table (vmm (kern s0)))).
Abbreviation guarded := (guarded caches T).

Lemma heap_below b : HeapApi.heap_bytes caches heap_window b -> caches <= b < caches + 256 \/ 0x50000000 <= b < 0x50800000.
Proof. unfold HeapApi.heap_bytes, heap_window. cbn [Heap.heap_start_addr Heap.heap_end_addr]. lia. Qed.

Lemma tree_above b : T b -> 0x50800000 <= b.
Proof. intros [H _]%Htree. change heap_last with 67584 in H. unfold Pmm.frame_addr, PHY_RAM_BASE in H. lia. Qed.

Lemma tree_heap b : T b -> ~ HeapApi.heap_bytes caches heap_window b.
Proof. intros H%tree_above [?|?]%heap_below; destruct Him as [? ? _ _]; lia. Qed.

(** The frames above the heap's window hold nothing that is guarded. *)
Lemma guarded_frame b f : guarded b -> heap_last <= f <= t -> ~ in_frame f b.
Proof.
  intros [Hh|H] Hf; [|by apply (proj2 (Htree b H))]. change heap_last with 67584 in Hf. apply heap_below in Hh.
  destruct Him as [? ? _ _]. unfold in_frame, Pmm.frame_addr, PHY_RAM_BASE. lia.
Qed.

Lemma guarded_queue b k : guarded b -> heap_last + 7 <= k <= t -> ~ queue_bytes (queue_at k size) b.
Proof.
  intros Hg Hk Hq. apply (queue_block mac device size Hdev) in Hq. apply block_frame in Hq as (f & Hf & Hin).
  rewrite eight_seqZ, elem_of_reverse, elem_of_seqZ in Hf. by apply (guarded_frame b f Hg ltac:(lia)).
Qed.

Lemma guarded_image b : guarded b -> caches <= b < caches + 256 \/ _kernel_end < b.
Proof. destruct Him as [? ? _ _]. intros [[?|?]%heap_below|?%tree_above]; lia. Qed.

Lemma guarded_static b : guarded b -> ~ static_bytes net_mac my_ip b.
Proof. intros H%guarded_image. destruct Him as [_ _ (? & ? & _) (? & ? & _)]. unfold NetFrames.apart, NetHandle.static_bytes in *. lia. Qed.

Lemma frames_enough : heap_last <= t - 15 - size - size /\ 0 < size.
Proof. destruct (dv_power _ _ _ Hdev) as [Hs _]. change heap_last with 67584. lia. Qed.

Lemma booted_spared : spared sp (buffers t) guarded (working t) (network s0).
Proof.
  pose proof frames_enough as [Hfr Hpos]. pose proof (first_free_bounds _kernel_end ltac:(apply Him)) as Hff.
  change heap_first with 65536 in Hff. change heap_last with 67584 in Hfr.
  destruct (bt_memory _ _ _ _ _ _ _ _ _ _ _ _ Hb) as (_ & _ & Ep & _). split; intros b.
  - intros Hg Ho. rewrite Ep in Ho. apply (bt_arrays _ _ _ _ _ _ _ _ _ _ _ _ Hb) in Ho. unfold Pmm.frame_addr, PHY_RAM_BASE in Ho.
    destruct Him as [? ? _ _]. destruct Hg as [[?|?]%heap_below|?%tree_above]; lia.
  - intros Hg. rewrite Htx. apply guarded_queue; [done|]. change heap_last with 67584. lia.
  - intros Hg. rewrite Hrx. apply guarded_queue; [done|]. change heap_last with 67584. lia.
  - intros Hg%guarded_image. destruct Him as [_ _ (_ & _ & ?) (_ & _ & _ & _ & _ & ?)]. unfold NetFrames.apart, NetHandle.stack_bytes in *. lia.
  - intros f Hg Hf. apply guarded_frame; [done|]. rewrite elem_of_app, !elem_of_reverse, !elem_of_seqZ in Hf.
    change heap_last with 67584. destruct Hf; lia.
Qed.

Lemma booted_frames : frames_free (network s0) = reverse (seqZ first_free (t - 15 - size - first_free)) ->
  frames_free (network s0) = working t ++ beneath t.
Proof.
  intros ->. pose proof frames_enough as [Hfr Hpos]. pose proof (first_free_bounds _kernel_end ltac:(apply Him)) as Hff.
  change heap_first with 65536 in Hff. change heap_last with 67584 in Hfr.
  replace (t - 15 - size - first_free) with ((t - 15 - size - size - first_free) + size) by lia.
  rewrite reverse_seqZ_split by lia. do 3 f_equal. lia.
Qed.

(** No thread has a block yet. *)
Lemma booted_threads σ : sched_refines (HA := kernel_heap caches heap_window) (threads s0) σ ->
  sched_refines (HA := shared_heap caches heap_window ∅ (Boot.memory (kern s0))) (threads s0) σ.
Proof.
  intros Hr. destruct (bt_memory _ _ _ _ _ _ _ _ _ _ _ _ Hb) as (Eh & _). destruct (si_heap _ _ (rf_inv _ _ Hr)) as (S & (B & HB & ES) & Hd).
  assert (E : threads s0 = with_heap (alive (threads s0)) (Sched.heap (threads s0)) (threads s0)) by (by destruct (threads s0)).
  rewrite E. refine (refines_swap (kernel_heap caches heap_window) _ (threads s0) σ _ _ Hr (fun p Hp => Hp) _).
  exists S. split; [|exact Hd]. exists B. split; [exact HB|]. split; [apply map_empty_subseteq|]. rewrite map_difference_empty.
  split; [exact ES|]. cbn [Sched.heap with_heap]. by rewrite Eh.
Qed.
End Booted.

(** The tables, and the bytes no step of the network may write. *)
Abbreviation tables s := (tree_bytes (Boot.memory (kern s)) (root_table (vmm (kern s)))).
Abbreviation started_view main idler := (View ∅ (boot_spec main idler) (Service 0 [] 0 0 size [])).

Lemma system_start s : reset my_ip ip s ->
  exists s0 boot_data main idler t, main_init s = Some (s0, boot_data) /\ main <> 0 /\ heap_room heap_window (Boot.memory (kern s0)) 2031 /\
    (forall a, 0 <= a < 2 ^ 39 -> translate (Boot.memory (kern s0)) (root_table (vmm (kern s0))) a = identity_map 0x80000000 a) /\
    (forall b, tables s0 b -> ~ HeapApi.heap_bytes caches heap_window b) /\
    (forall b, guarded caches (tables s0) b -> ~ static_bytes net_mac my_ip b) /\
    frames_free (network s0) = working t ++ beneath t /\
    system_ok caches net_mac my_ip sp mac ip (buffers t) (tables s0) (Boot.memory (kern s0)) (working t) (beneath t)
      (root_table (vmm (kern s0))) size s0 (started_view main idler).
Proof.
  intros Hrs. destruct (main_init_boots _ _ _ idle idle_flag ret_from_fork entry_point _ _ _ _ _ _ Him Hdev s Hrs) as (s0 & p & E & Hb).
  destruct (bt_threads _ _ _ _ _ _ _ _ _ _ _ _ Hb) as (main & idler & Hr & _).
  destruct (bt_net _ _ _ _ _ _ _ _ _ _ _ _ Hb) as (t & Ht & Hdr & Hrx & Htx & Hfr & Htree).
  destruct (rf_prio _ _ Hr main NORMAL) as (_ & Hm0 & _); [by apply lookup_insert_eq|].
  pose proof (booted_frames s0 t Ht Hfr) as Hst.
  destruct (bt_memory _ _ _ _ _ _ _ _ _ _ _ _ Hb) as (M1 & M2 & M3 & _).
  exists s0, p, main, idler, t. split; [exact E|]. split; [exact Hm0|]. split; [exact (bt_room _ _ _ _ _ _ _ _ _ _ _ _ Hb)|].
  split; [exact (bt_map _ _ _ _ _ _ _ _ _ _ _ _ Hb)|]. split; [exact (tree_heap s0 t Htree)|].
  split; [exact (guarded_static s0 t Htree)|]. split; [exact Hst|].
  split; cbn [blocks scheduler net flight].
  - by split_and!.
  - exact (bt_window _ _ _ _ _ _ _ _ _ _ _ _ Hb).
  - reflexivity.
  - done.
  - exact (booted_threads s s0 p Hb _ Hr).
  - exact Hdr.
  - exact (booted_spared s s0 p t Hb Ht Hrx Htx Htree).
  - exists (working t). split; [exact Hst|by rewrite app_nil_r].
  - by rewrite Htx.
Qed.

(** C2 The kernel at work: after [main] has come to the end of [net_init],
    every sequence of events runs on, without a null pointer, an access to a
    task that is not live, undefined behaviour or an endless loop. The events
    are yields and creations of threads on the cores, the second core coming
    up, calls of the heap and accesses to their blocks by the threads,
    deliveries and completions by the network card, requests, and interrupts,
    in any order and each keeping to its protocol. The run is one of three
    abstract machines side by side: the scheduler, the heap of the threads,
    whose blocks hold what the threads wrote whatever else goes on, and the
    network service. At the end the page tables still translate exactly the
    identity map, and the frames that are free or in flight are the ones that
    were free at the start. *)
Theorem system_runs s : reset my_ip ip s ->
  exists s0 boot_data main idler bufs, main_init s = Some (s0, boot_data) /\ main <> 0 /\ qsize (txq (network s0)) = size /\
    heap_room heap_window (Boot.memory (kern s0)) 2031 /\
    forall es, all_allowed caches net_mac my_ip sp idle idle_flag ret_from_fork mac ip device bufs main es s0 (started_view main idler) ->
    exists s' v', runs caches net_mac my_ip sp idle idle_flag ret_from_fork mac ip device s0 (started_view main idler) es s' v' /\
      in_order bufs s0 s' v'.
Proof.
  intros Hrs. destruct (system_start s Hrs) as (s0 & p & main & idler & t & E & Hm & Hroom & Hmap & H1 & H2 & Hf & Hok).
  exists s0, p, main, idler, (buffers t). split; [exact E|]. split; [exact Hm|]. split; [exact (so_size _ _ _ _ _ _ _ _ _ _ _ _ _ _ _ Hok)|].
  split; [exact Hroom|]. intros es Hall. destruct (dv_power _ _ _ Hdev) as [Hsz _].
  assert (Hup : size <= Z.of_nat (length (working t))) by (rewrite length_reverse, length_seqZ; lia).
  destruct (system_events caches net_mac my_ip sp idle idle_flag ret_from_fork mac ip device (buffers t) main _ _ _ _ _ _ H1 H2 Hup es s0 _ Hok Hall) as (s' & v' & Hr & [(M1 & M2 & M3) W R Ta Th Dr Sp (up & Hfu & Hp) Sz]).
  exists s', v'. split; [exact Hr|]. split.
  - by split.
  - intros a Ha. rewrite R, <- Hmap by done. apply translate_walk. exact (proj1 (tree_agree _ _ _ Ta) a).
  - destruct (si_heap _ _ (rf_inv _ _ Th)) as (S & (B & HB & HC & _) & _). rewrite M1 in HB. exists B. split; [exact HB|exact HC].
  - exact Th.
  - exact Dr.
  - rewrite Hfu, Hf, <- Hp. solve_Permutation.
Qed.
End Start.
End System.
