(* ===== verification/MainDemo.v ===== *)
(** * A kernel image that boots

    Concrete addresses and a reset state for the theorems of [Main], with the
    network card of [NetDemo]. *)

From S2P Require Import Prelude Memory CString Pmm Vmm Heap Bytes Net NetFrames NetAnswer NetInit Sched NetDemo Boot Main MainEnd Heap HeapTrace SchedTrace Asm Entry System.

Module MainDemo.
Import CString Net NetFrames NetAnswer NetInit Main NetDemo.

Definition kernel_end : Z := 0x40200000.
Definition caches_at : Z := 0x40110000.
Definition net_mac_at : Z := 0x40120000.
Definition my_ip_at : Z := 0x40120010.
Definition irq_stack : Z := 0x40130000.

Definition loaded : mem := store_bytes ∅ my_ip_at the_ip.

Definition cold : program := Program
  (Boot.Kernel loaded Pmm.boot_state Vmm.reset_vmm Heap.boot_state [] false)
  (Sched.SchedState (fun _ => Sched.zero_task) ∅ loaded (fun _ => 0) (fun _ => 0) 0 [Sched.Core 0 0 0; Sched.Core 0 0 0] 0)
  (Net.NetState loaded Pmm.boot_state (Net.Virtq 0 0 0 0 0) (Net.Virtq 0 0 0 0 0) 0 []).

Lemma demo_image : Main.Main.image kernel_end caches_at net_mac_at my_ip_at irq_stack.
Proof.
  unfold kernel_end, caches_at, net_mac_at, my_ip_at, irq_stack, PHY_RAM_BASE.
  split; unfold NetFrames.apart, PHY_RAM_BASE; split_and!; (lia || done).
Qed.

Lemma cold_reset : reset my_ip_at the_ip cold.
Proof.
  split; try done; [by exists 0, 0|]. apply holds_store_bytes_at. intros c Hc. unfold the_ip in Hc. set_unfold. lia.
Qed.

Lemma main_boots_witness : reset my_ip_at the_ip cold /\
  exists s' boot_data, main_init kernel_end caches_at net_mac_at 0x40101000 7 0x40102000 0x40103000 device cold = Some (s', boot_data) /\
    Boot.heap (kern s') = Heap.HeapState 0x50000000 0x50800000 0x50000000 2048.
Proof.
  split; [exact cold_reset|].
  destruct (main_boots kernel_end caches_at net_mac_at 0x40101000 7 0x40102000 0x40103000 device my_ip_at irq_stack the_mac the_ip 4
    demo_image the_device cold cold_reset) as (s' & p & E & Hb).
  exists s', p. split; [exact E|exact (bt_window _ _ _ _ _ _ _ _ _ _ _ _ Hb)].
Defined.

Lemma second_core_online_witness : reset my_ip_at the_ip cold /\
  exists s' boot_data t, main_init kernel_end caches_at net_mac_at 0x40101000 7 0x40102000 0x40103000 device cold = Some (s', boot_data) /\
    core_entry (HA := HeapApi.kernel_heap caches_at Boot.Boot.heap_window) 0x40101000 7 0x40102000
      [Sched.Sched.zero_context; Sched.Sched.zero_context] (threads s') = inr ((), t).
Proof.
  split; [exact cold_reset|].
  destruct (second_core_online kernel_end caches_at net_mac_at 0x40101000 7 0x40102000 0x40103000 device my_ip_at irq_stack the_mac the_ip 4
    demo_image the_device cold [Sched.Sched.zero_context; Sched.Sched.zero_context] cold_reset) as (s' & p & main & idler & t & σ & m1 & idler1 & E & E1 & _).
  exists s', p, t. split; [exact E|exact E1].
Defined.

(** The second core just started. *)
Definition second_cpu (boot_data : Z) : Asm.cpu := fun r =>
  match r with Asm.PC => 0x40100800 | Asm.X 0 => boot_data | _ => 0 end.

Lemma second_core_starts_witness : reset my_ip_at the_ip cold /\
  exists s' boot_data, main_init kernel_end caches_at net_mac_at 0x40101000 7 0x40102000 0x40103000 device cold = Some (s', boot_data) /\
    (Asm.run Entry.secondary_entry (second_cpu boot_data, Boot.memory (kern s'))).1 Asm.PC = 0x40103000.
Proof.
  split; [exact cold_reset|].
  destruct (second_core_starts kernel_end caches_at net_mac_at 0x40101000 7 0x40102000 0x40103000 device my_ip_at irq_stack the_mac the_ip 4
    demo_image the_device cold 0x40100800 cold_reset) as (s' & p & E & H).
  exists s', p. split; [exact E|]. specialize (H (second_cpu p) (conj eq_refl (conj eq_refl (conj eq_refl eq_refl)))).
  destruct (Asm.run Entry.secondary_entry (second_cpu p, Boot.memory (kern s'))) as [c' m']. exact (proj1 (proj2 H)).
Defined.

Lemma heap_window_handed_out_witness : reset my_ip_at the_ip cold /\
  exists s' boot_data, main_init kernel_end caches_at net_mac_at 0x40101000 7 0x40102000 0x40103000 device cold = Some (s', boot_data) /\
    0x50000000 ∈ (Pmm.alloc_many (Z.to_nat 0x80000) (Boot.pmm (kern s')) (Boot.memory (kern s'))).1.1.
Proof.
  split; [exact cold_reset|].
  destruct (heap_window_handed_out kernel_end caches_at net_mac_at 0x40101000 7 0x40102000 0x40103000 device my_ip_at irq_stack the_mac the_ip 4
    demo_image the_device cold cold_reset) as (s' & p & E & _ & H).
  exists s', p. split; [exact E|]. apply H; [lia|reflexivity].
Defined.
Lemma main_reads_freed_witness : reset my_ip_at the_ip cold /\
  exists s' boot_data main, main_init kernel_end caches_at net_mac_at 0x40101000 7 0x40102000 0x40103000 device cold = Some (s', boot_data) /\
    MainEnd.MainEnd.main_end (HA := HeapApi.kernel_heap caches_at Boot.Boot.heap_window) 9 Sched.Sched.zero_context Sched.Sched.zero_context (threads s') =
      inl (Sched.Sched.BadAccess main).
Proof.
  split; [exact cold_reset|].
  destruct (MainEnd.MainEnd.main_reads_freed kernel_end caches_at net_mac_at 0x40101000 7 0x40102000 0x40103000 device my_ip_at irq_stack the_mac the_ip 4
    demo_image the_device cold cold_reset) as (s' & p & main & E & _ & H).
  exists s', p, main. split; [exact E|]. apply H. by left.
Defined.
(** The second core joins, the card interrupts, a thread asks for a block, and
    the second core yields. *)
Definition some_events : list System.System.event :=
  [System.System.Join; System.System.Interrupt 5; System.System.Client (HeapTrace.HeapTrace.Malloc 100);
   System.System.Thread (SchedTrace.SchedTrace.Yield 1 Sched.Sched.zero_context)].

Lemma some_events_allowed s0 bufs main idler : main <> 0 -> qsize (txq (network s0)) = 4 ->
  HeapApi.heap_room Boot.Boot.heap_window (Boot.memory (kern s0)) 2031 ->
  System.System.all_allowed caches_at net_mac_at my_ip_at irq_stack 0x40101000 7 0x40102000 the_mac the_ip device bufs main some_events s0
    (System.System.View ∅ (SchedTrace.SchedTrace.boot_spec main idler) (NetService.NetService.Service 0 [] 0 0 4 [])).
Proof.
  intros Hm Hq [Hr1 Hr2]. cbn [some_events System.System.all_allowed]. split.
  { split; [done|]. split; [lia|]. intros i Hi. apply Hr2. cbn [Heap.total_pages Boot.Boot.heap_window] in *. lia. }
  intros s1 v1 E1 S1. inversion S1; subst. split.
  { split; [done|]. cbn [System.System.net NetService.NetService.allowed NetService.NetService.flight NetService.NetService.pend length].
    cbn [System.System.exec] in E1. destruct (Sched.Sched.sched_init_secondary _ _ _ _ _) as [|[[] t]]; [done|]. injection E1 as <-.
    cbn [network System.System.with_threads txq with_memory]. rewrite Hq. simpl. lia. }
  intros s2 v2 _ S2. inversion S2; subst. split; [done|].
  intros s3 v3 _ S3. inversion S3; subst. split; [|done].
  exists m. split; [done|done].
Qed.

Lemma system_runs_witness : reset my_ip_at the_ip cold /\
  exists s0 boot_data main idler s' v',
    main_init kernel_end caches_at net_mac_at 0x40101000 7 0x40102000 0x40103000 device cold = Some (s0, boot_data) /\
    System.System.runs caches_at net_mac_at my_ip_at irq_stack 0x40101000 7 0x40102000 the_mac the_ip device s0
      (System.System.View ∅ (SchedTrace.SchedTrace.boot_spec main idler) (NetService.NetService.Service 0 [] 0 0 4 [])) some_events s' v'.
Proof.
  split; [exact cold_reset|].
  destruct (System.System.system_runs kernel_end caches_at net_mac_at 0x40101000 7 0x40102000 0x40103000 device my_ip_at irq_stack the_mac the_ip 4
    demo_image the_device cold cold_reset) as (s0 & p & main & idler & bufs & E & Hm & Hq & Hr & H).
  destruct (H some_events (some_events_allowed s0 bufs main idler Hm Hq Hr)) as (s' & v' & Hrun & _).
  exists s0, p, main, idler, s', v'. split; [exact E|exact Hrun].
Defined.
End MainDemo.
